(** * cs-analytics: the fetch-and-sync pipeline and the classification engine

    A shallow embedding of [fetchData.ts] (paginated fetch client, content
    normalizer, incremental sync pass), of [analyzeMessages.ts] (selection,
    persistence and the failure ledger of the classification engine), of
    the constraints of the [MessageAnalysis] table and of the view
    [FailedMessagesForRetry], followed by the properties proved of them.
    Further parts of the repository follow them: the view
    [MessagesNeedingAnalysis] and the clean-up of the ledger
    ([cleanupShortMessages.sql]), the classifier client and its rate limiter
    ([lib/openai.ts]), the re-check of the unresolved conversations
    ([refetchUnresolved.ts]), the back-fill of the messages
    ([backfillMessages.ts]) and the route [api/get-messages].

    Conventions of the embedding.
    - A JavaScript value that comes out of [JSON.parse] is a [jsval].
      Numbers are rationals: the code only tests them for zero, compares
      them and adds one to a page counter. An object has the methods of
      [Object.prototype] unless it has a key of the same name of its own,
      which no value of JSON makes callable: the conversion to a string or
      to a date of an object with a key [toString] throws a [TypeError].
    - A [string] holds a text in UTF-8; [characters] cuts it into its
      characters. [String.prototype.length] counts UTF-16 code units
      ([js_length]), the database counts characters ([sql_LENGTH]).
      [String.prototype.trim] and the regular expression [\s] use the
      white space of ECMAScript ([jsSpace]); the [\s] of the database is
      the ASCII white space and what its [Locale] adds to it, and its
      [TRIM] removes spaces only.
    - An instant is a number of milliseconds since the epoch, in [Z]. The
      time zone of the host is a parameter ([TimeZone]): its offset from
      UTC may change with the instant.
    - Code that can throw returns a [result]; code that talks to the chat
      API or to the store runs in the monad [M], which threads the state of
      the outside world and the trace of the calls made.
    - The store answers the queries on [Message] and the views with every
      row they select; the answer to the query of the analysed ids, which
      the engine reads without looking at its error, is given by the
      surroundings. A counter of attempts is an unbounded integer.
    - [VERBOSE_LOG] is off, and what is written to the console is not
      modelled. *)

From Stdlib Require Import String Ascii List ZArith QArith Qminmax Lqa Bool Lia.
From stdpp Require Import gmap strings list sorting.
Import ListNotations.

Set Warnings "-register-all,-at-level-200-changed".

Local Open Scope string_scope.
Local Open Scope Z_scope.
Local Open Scope list_scope.

(** ** Results of fallible code *)

Inductive result (E A : Type) : Type :=
| Ok (a : A)
| Throw (e : E).
Arguments Ok {E A} a.
Arguments Throw {E A} e.

Definition rbind {E A B} (r : result E A) (k : A -> result E B) : result E B :=
  match r with
  | Ok a => k a
  | Throw e => Throw e
  end.

Notation "'try!' x <- r ; k" := (rbind r (fun x => k))
  (at level 10, x name, r at level 100, k at level 200).

(** ** JavaScript values *)

Inductive jsval : Type :=
| JUndefined
| JNull
| JBool (b : bool)
| JNumber (q : Q)
| JString (s : string)
| JArray (items : list jsval)
| JObject (fields : list (string * jsval)).

(** [!!v] *)
Definition truthy (v : jsval) : bool :=
  match v with
  | JUndefined | JNull => false
  | JBool b => b
  | JNumber q => negb (Qeq_bool q 0)
  | JString s => negb (String.eqb s "")
  | JArray _ | JObject _ => true
  end.

(** [a || b] *)
Definition js_or (a b : jsval) : jsval := if truthy a then a else b.

(** [a && b] *)
Definition js_and (a b : jsval) : jsval := if truthy a then b else a.

Fixpoint lookup_field (k : string) (fields : list (string * jsval)) : jsval :=
  match fields with
  | [] => JUndefined
  | (k', v) :: rest => if String.eqb k k' then v else lookup_field k rest
  end.

(** The type errors of the modelled code: a property read on [null] or
    [undefined], and the conversion to a primitive of an object none of
    whose methods [toString] and [valueOf] gives one. *)
Inductive TypeError : Type :=
| CannotReadProperty (key : string)
| CannotConvertToPrimitive.

(** [v.k], for the keys the code reads ([text], [content], [id], [uuid]):
    none of them is a property of a primitive or of an array. *)
Definition prop (v : jsval) (k : string) : result TypeError jsval :=
  match v with
  | JUndefined | JNull => Throw (CannotReadProperty k)
  | JObject fields => Ok (lookup_field k fields)
  | _ => Ok JUndefined
  end.

(** [v?.k] *)
Definition optprop (v : jsval) (k : string) : jsval :=
  match v with
  | JObject fields => lookup_field k fields
  | _ => JUndefined
  end.

(** [typeof v === 'string'] *)
Definition is_string (v : jsval) : bool :=
  match v with JString _ => true | _ => false end.

(** [typeof v === 'object'] *)
Definition is_object (v : jsval) : bool :=
  match v with JNull | JArray _ | JObject _ => true | _ => false end.

(** The object has a key [k] of its own. *)
Definition hasOwn (k : string) (fields : list (string * jsval)) : bool :=
  existsb (fun kv => String.eqb k (fst kv)) fields.

(** No object of [v], at any depth, has a key [toString]. *)
Fixpoint plain (v : jsval) : bool :=
  match v with
  | JArray items => forallb plain items
  | JObject fields =>
      negb (hasOwn "toString" fields) && forallb (fun kv => plain (snd kv)) fields
  | _ => true
  end.

(** Induction on a value, through its elements and its fields. *)
Section jsval_induction.

Variable P : jsval -> Prop.
Hypothesis P_undefined : P JUndefined.
Hypothesis P_null : P JNull.
Hypothesis P_bool : forall b, P (JBool b).
Hypothesis P_number : forall q, P (JNumber q).
Hypothesis P_string : forall s, P (JString s).
Hypothesis P_array : forall items, Forall P items -> P (JArray items).
Hypothesis P_object :
  forall fields, Forall (fun kv => P (snd kv)) fields -> P (JObject fields).

Fixpoint jsval_nested_ind (v : jsval) : P v :=
  match v with
  | JUndefined => P_undefined
  | JNull => P_null
  | JBool b => P_bool b
  | JNumber q => P_number q
  | JString s => P_string s
  | JArray items =>
      P_array items
        ((fix all (l : list jsval) : Forall P l :=
            match l with
            | [] => List.Forall_nil P
            | x :: rest => List.Forall_cons P x rest (jsval_nested_ind x) (all rest)
            end) items)
  | JObject fields =>
      P_object fields
        ((fix all (l : list (string * jsval)) : Forall (fun kv => P (snd kv)) l :=
            match l with
            | [] => List.Forall_nil _
            | kv :: rest =>
                List.Forall_cons _ kv rest (jsval_nested_ind (snd kv)) (all rest)
            end) fields)
  end.

End jsval_induction.

(** ** Strings: characters, trim, split on white space

    A [string] holds the UTF-8 encoding of a text. *)

(** A continuation byte of a UTF-8 sequence. *)
Definition isContinuation (b : ascii) : bool :=
  let n := nat_of_ascii b in
  (Nat.leb 128 n && Nat.ltb n 192)%bool.

Definition startsWithContinuation (ch : list ascii) : bool :=
  match ch with
  | [] => false
  | c :: _ => isContinuation c
  end.

(** The characters of a text: each byte that is not a continuation byte,
    with the continuation bytes that follow it. *)
Fixpoint chars (l : list ascii) : list (list ascii) :=
  match l with
  | [] => []
  | b :: l' =>
      match chars l' with
      | [] => [[b]]
      | ch :: rest =>
          if startsWithContinuation ch then (b :: ch) :: rest else [b] :: ch :: rest
      end
  end.

Definition characters (s : string) : list (list ascii) :=
  chars (list_ascii_of_string s).

Definition text_of (cs : list (list ascii)) : string :=
  string_of_list_ascii (concat cs).

(** The UTF-16 code units of a character: two for a character outside the
    Basic Multilingual Plane, whose encoding starts with a byte from 240
    on. *)
Definition utf16Units (ch : list ascii) : nat :=
  match ch with
  | [] => O
  | b :: _ => if Nat.leb 240 (nat_of_ascii b) then 2%nat else 1%nat
  end.

(** [s.length] *)
Definition js_length (s : string) : nat := list_sum (map utf16Units (characters s)).

(** The white space of ASCII: tab, line feed, vertical tab, form feed,
    carriage return, space. *)
Definition isWhitespace (c : ascii) : bool :=
  let n := nat_of_ascii c in
  (Nat.eqb n 32 || (Nat.leb 9 n && Nat.leb n 13))%bool.

(** The white space and line terminators of ECMAScript, which
    [String.prototype.trim] strips and [\s] matches: the white space of
    ASCII, U+00A0, U+1680, U+2000 to U+200A, U+2028, U+2029, U+202F,
    U+205F, U+3000 and U+FEFF. *)
Definition jsSpace (ch : list ascii) : bool :=
  match ch with
  | [c] => isWhitespace c
  | [b1; b2] => (Nat.eqb (nat_of_ascii b1) 194 && Nat.eqb (nat_of_ascii b2) 160)%bool
  | [b1; b2; b3] =>
      let n1 := nat_of_ascii b1 in
      let n2 := nat_of_ascii b2 in
      let n3 := nat_of_ascii b3 in
      ((Nat.eqb n1 225 && Nat.eqb n2 154 && Nat.eqb n3 128)
       || (Nat.eqb n1 226 && Nat.eqb n2 128
           && ((Nat.leb 128 n3 && Nat.leb n3 138)
               || Nat.eqb n3 168 || Nat.eqb n3 169 || Nat.eqb n3 175))
       || (Nat.eqb n1 226 && Nat.eqb n2 129 && Nat.eqb n3 159)
       || (Nat.eqb n1 227 && Nat.eqb n2 128 && Nat.eqb n3 128)
       || (Nat.eqb n1 239 && Nat.eqb n2 187 && Nat.eqb n3 191))%bool
  | _ => false
  end.

Fixpoint skipWhile {A} (p : A -> bool) (l : list A) : list A :=
  match l with
  | [] => []
  | c :: l' => if p c then skipWhile p l' else l
  end.

Definition trimWith {A} (p : A -> bool) (l : list A) : list A :=
  rev (skipWhile p (rev (skipWhile p l))).

(** [s.trim()] *)
Definition trim (s : string) : string :=
  text_of (trimWith jsSpace (characters s)).

(** Splitting at the maximal runs of the characters of [p]: the pieces
    between them, the empty leading and trailing pieces included.
    [prev] tells that the previous character belonged to a separator. *)
Fixpoint splitWs {A} (p : A -> bool) (prev : bool) (l : list A) : list (list A) :=
  match l with
  | [] => [[]]
  | c :: l' =>
      if p c then
        if prev then splitWs p true l' else [] :: splitWs p true l'
      else
        match splitWs p false l' with
        | tok :: rest => (c :: tok) :: rest
        | [] => [[c]]
        end
  end.

(** [s.split(/\s+/)] *)
Definition split_whitespace (s : string) : list string :=
  map text_of (splitWs jsSpace false (characters s)).

Definition nonempty (s : string) : bool := negb (String.eqb s "").

(** ** The strings of the database *)

(** The white space of the database: [\s] of a regular expression is the
    class [[:space:]], which is the white space of ASCII on ASCII
    characters and is given by the locale ([LC_CTYPE]) on the others. *)
Class Locale : Type := { locale_space : list ascii -> bool }.

Definition sqlSpace {loc : Locale} (ch : list ascii) : bool :=
  match ch with
  | [c] => if Nat.ltb (nat_of_ascii c) 128 then isWhitespace c else locale_space ch
  | _ => locale_space ch
  end.

(** The character U+0020. *)
Definition isSpaceChar (ch : list ascii) : bool :=
  match ch with
  | [c] => Nat.eqb (nat_of_ascii c) 32
  | _ => false
  end.

(** SQL [TRIM(s)]: spaces only. *)
Definition sql_TRIM (s : string) : string :=
  text_of (trimWith isSpaceChar (characters s)).

(** [array_length(regexp_split_to_array(s, E'\\s+'), 1)] *)
Definition sql_pieces {loc : Locale} (s : string) : nat :=
  length (splitWs sqlSpace false (characters s)).

(** [LENGTH(s)], and the length that [VARCHAR(n)] bounds: the number of
    characters. *)
Definition sql_LENGTH (s : string) : nat := length (characters s).

(** A locale without white space outside ASCII (the locale [C]). *)
Definition asciiLocale : Locale := {| locale_space := fun _ => false |}.

Definition upperChar (c : ascii) : ascii :=
  let n := nat_of_ascii c in
  if (Nat.leb 97 n && Nat.leb n 122)%bool then ascii_of_nat (n - 32) else c.

(** The characters outside ASCII whose upper case holds an ASCII letter,
    with their upper case: the sharp s, the dotless i, the long s, the
    letters that the special casing of Unicode writes with a modifier or
    a combining mark, and the Latin ligatures. *)
Definition specialUpper : list (string * string) :=
  [("ß", "SS");
   ("ı", "I");
   ("ſ", "S");
   ("ŉ", "ʼN");
   ("ǰ", "J̌");
   ("ẖ", "H̱");
   ("ẗ", "T̈");
   ("ẘ", "W̊");
   ("ẙ", "Y̊");
   ("ẚ", "Aʾ");
   ("ﬀ", "FF");
   ("ﬁ", "FI");
   ("ﬂ", "FL");
   ("ﬃ", "FFI");
   ("ﬄ", "FFL");
   ("ﬅ", "ST");
   ("ﬆ", "ST")].

Definition upperCharacter (ch : list ascii) : list ascii :=
  match ch with
  | [c] => [upperChar c]
  | _ =>
      match find (fun kv => String.eqb (fst kv) (string_of_list_ascii ch)) specialUpper with
      | Some kv => list_ascii_of_string (snd kv)
      | None => ch
      end
  end.

(** [s.toUpperCase()], as far as the ASCII letters of the result go: a
    character outside ASCII whose upper case holds none is kept as it
    is. The code only compares the result with ['SYSTEM'] and ['BOT']. *)
Definition toUpperCase (s : string) : string :=
  text_of (map upperCharacter (characters s)).

(** * The content normalizer ([fetchData.ts], [extractMessageContent]) *)

Section Normalizer.

(** [Number.prototype.toString], a built-in of the language. *)
Variable Number_toString : Q -> string.

(** [String(v)], which is also what a template literal and [v + ''] make
    of [v]. An object that [JSON.parse] made has no method of its own: its
    [toString] is the inherited one, unless the object has a key
    [toString], whose value is not a function; then the conversion finds
    no primitive and throws. An array joins the conversions of its
    elements, [null] and [undefined] giving the empty string. *)
Fixpoint js_String (v : jsval) : result TypeError string :=
  match v with
  | JUndefined => Ok "undefined"
  | JNull => Ok "null"
  | JBool true => Ok "true"
  | JBool false => Ok "false"
  | JNumber q => Ok (Number_toString q)
  | JString s => Ok s
  | JArray items =>
      try! texts <-
        (fix join (l : list jsval) : result TypeError (list string) :=
           match l with
           | [] => Ok []
           | x :: rest =>
               try! t <- match x with
                         | JUndefined | JNull => Ok ""
                         | _ => js_String x
                         end;
               try! ts <- join rest;
               Ok (t :: ts)
           end) items;
      Ok (String.concat "," texts)
  | JObject fields =>
      if hasOwn "toString" fields then Throw CannotConvertToPrimitive
      else Ok "[object Object]"
  end.

(** One turn of the loop over the parts: the text pushed on [texts], if
    any. *)
Definition extractPart (part : jsval) : result TypeError (option string) :=
  if truthy (optprop (optprop part "text") "content") then
    try! t <- prop part "text";
    try! c <- prop t "content";
    try! s <- js_String c;
    Ok (Some (trim s))
  else if truthy (optprop part "content") then
    try! c <- prop part "content";
    try! s <- js_String c;
    Ok (Some (trim s))
  else if (truthy (optprop part "text") && is_string (optprop part "text"))%bool then
    try! t <- prop part "text";
    try! s <- js_String t;
    Ok (Some (trim s))
  else
    match part with
    | JString s => Ok (Some (trim s))
    | _ => Ok None
    end.

Fixpoint collectTexts (parts : list jsval) (texts : list string)
  : result TypeError (list string) :=
  match parts with
  | [] => Ok texts
  | part :: rest =>
      try! pushed <- extractPart part;
      collectTexts rest
        (match pushed with Some t => texts ++ [t] | None => texts end)
  end.

(** The end of [extractMessageContent]: [String(parts).trim()]. *)
Definition stringFallback (parts : jsval) : result TypeError string :=
  try! s <- js_String parts;
  Ok (trim s).

Definition extractSingle (parts : jsval) : result TypeError string :=
  if truthy (optprop (optprop parts "text") "content") then
    try! t <- prop parts "text";
    try! c <- prop t "content";
    try! s <- js_String c;
    Ok (trim s)
  else if truthy (optprop parts "content") then
    try! c <- prop parts "content";
    try! s <- js_String c;
    Ok (trim s)
  else if (truthy (optprop parts "text") && is_string (optprop parts "text"))%bool then
    try! t <- prop parts "text";
    try! s <- js_String t;
    Ok (trim s)
  else stringFallback parts.

Definition extractMessageContent (parts : jsval) : result TypeError string :=
  if negb (truthy parts) then Ok ""
  else
    match parts with
    | JArray items =>
        try! texts <- collectTexts items [];
        Ok (String.concat " " (filter (fun t => nonempty t) texts))
    | _ =>
        if is_object parts then extractSingle parts
        else stringFallback parts
    end.

End Normalizer.

Definition spec_example : jsval :=
  JArray [ JObject [("text", JObject [("content", JString "a")])];
           JObject [("text", JObject [("content", JString "")])];
           JObject [("content", JString "b")] ].


(** * The paginated fetch client ([fetchData.ts]) *)

(** What a request can fail with. [AxiosErr status message] is a rejection
    of [api.get]; [status] is [err?.response?.status]. [RangeErr] is the
    [RangeError] of [toISOString] on a date that is not valid. *)
Inductive Exn : Type :=
| AxiosErr (status : option Z) (message : string)
| TypeErr (e : TypeError)
| RangeErr
| StoreErr (message : string).

(** The query parameters of a request. [page] and [items_per_page] are the
    two the client reads; the others are carried along. *)
Record Params : Type := mkParams {
  p_page : option Z;
  p_items_per_page : option Z;
  p_query : list (string * string)
}.

(** [{ ...params, page }] *)
Definition with_page (params : Params) (page : Z) : Params :=
  {| p_page := Some page;
     p_items_per_page := p_items_per_page params;
     p_query := p_query params |}.

(** [(n as number) || d] *)
Definition number_or (n : option Z) (d : Z) : Z :=
  match n with
  | Some v => if v =? 0 then d else v
  | None => d
  end.

Inductive Event : Type :=
| EGet (path : string) (params : Params) (outcome : result Exn jsval)
| ESleep (ms : Z)
| EUpsert (table : string) (key : jsval) (source : jsval) (outcome : result Exn unit).

(** The five counters of one sync pass. *)
Record Summary : Type := mkSummary {
  usersUpserted : Z;
  convsUpserted : Z;
  msgsUpserted : Z;
  convsSkippedNotInWindow : Z;
  convsSkippedNoBot : Z
}.

Inductive Outcome (A : Type) : Type :=
| Returned (a : A)
| Thrown (e : Exn)
| OutOfFuel.
Arguments Returned {A} a.
Arguments Thrown {A} e.
Arguments OutOfFuel {A}.

(** Why the loop of [paginate] was left. *)
Inductive Stop : Type :=
| EmptyPage
| RepeatedFirstId
| ShortPage
| NothingNew
| SafetyStop.

(** [seenFirstIds.has(v)] compares with SameValueZero: primitives by value,
    objects by identity, and two objects of two parsed responses are never
    the same object. *)
Definition sameValueZero (a b : jsval) : bool :=
  match a, b with
  | JUndefined, JUndefined => true
  | JNull, JNull => true
  | JBool x, JBool y => Bool.eqb x y
  | JNumber x, JNumber y => Qeq_bool x y
  | JString x, JString y => String.eqb x y
  | _, _ => false
  end.

Definition set_has (seen : list jsval) (v : jsval) : bool :=
  existsb (sameValueZero v) seen.

(** [Array.isArray(data?.[itemsKey]) ? data[itemsKey]
     : Array.isArray(data) ? data : []] *)
Definition pageItemsOf (itemsKey : string) (data : jsval) : list jsval :=
  match optprop data itemsKey with
  | JArray items => items
  | _ => match data with
         | JArray items => items
         | _ => []
         end
  end.

(** [pageItems[0] && (pageItems[0].id || pageItems[0].uuid)]; the two reads
    are made on a truthy value and cannot throw. *)
Definition firstIdOf (pageItems : list jsval) : jsval :=
  match pageItems with
  | [] => JUndefined
  | first :: _ => js_and first (js_or (optprop first "id") (optprop first "uuid"))
  end.

Section FetchClient.

(** The outside world: the chat API and the store behind one state. *)
Context {Env : Type}.
Variable api_get : Env -> string -> Params -> result Exn jsval * Env.
(** [supabase.from(table).upsert(row, ...)] for the row that [upsertUser],
    [upsertConversation] or [upsertMessage] builds from [source]; the
    answer (an error makes the caller throw) is the environment's. *)
Variable store_upsert :
  Env -> string -> jsval -> jsval -> result Exn unit * Env.
(** Built-ins of the language: [Number.prototype.toString],
    [new Date(v).getTime()] for a [v] that can be converted to a primitive
    ([None] for [NaN]), [new Date(t).toISOString()] for a time value [t],
    and [Date.now()]. *)
Variable Number_toString : Q -> string.
Variable Date_getTime : jsval -> option Z.
Variable toISOString : Z -> string.
Variable Date_now : Env -> Z.

Record World : Type := mkWorld {
  env : Env;
  trace : list Event;
  summary : Summary
}.

Definition M (A : Type) : Type := World -> Outcome A * World.

Definition ret {A} (a : A) : M A := fun w => (Returned a, w).

Definition bind {A B} (m : M A) (k : A -> M B) : M B :=
  fun w =>
    match m w with
    | (Returned a, w') => k a w'
    | (Thrown e, w') => (Thrown e, w')
    | (OutOfFuel, w') => (OutOfFuel, w')
    end.

Definition throw {A} (e : Exn) : M A := fun w => (Thrown e, w).

Definition out_of_fuel {A} : M A := fun w => (OutOfFuel, w).

(** [try { m } catch (err) { handler err }] *)
Definition try_catch {A} (m : M A) (handler : Exn -> M A) : M A :=
  fun w =>
    match m w with
    | (Thrown e, w') => handler e w'
    | other => other
    end.

Definition emit (e : Event) (w : World) : World :=
  {| env := env w; trace := trace w ++ [e]; summary := summary w |}.

(** [await sleep(ms)] *)
Definition sleep (ms : Z) : M unit := fun w => (Returned tt, emit (ESleep ms) w).

(** [(await api.get(path, { params })).data] *)
Definition api_get_data (path : string) (params : Params) : M jsval :=
  fun w =>
    let '(r, env') := api_get (env w) path params in
    let w' := {| env := env'; trace := trace w ++ [EGet path params r];
                 summary := summary w |} in
    match r with
    | Ok data => (Returned data, w')
    | Throw e => (Thrown e, w')
    end.

Definition status_of (err : Exn) : option Z :=
  match err with
  | AxiosErr status _ => status
  | _ => None
  end.

Definition status_is (err : Exn) (code : Z) : bool :=
  match status_of err with
  | Some s => s =? code
  | None => false
  end.

Local Notation "'do!' x <- m ; k" := (bind m (fun x => k))
  (at level 10, x name, m at level 100, k at level 200).
Local Notation "'run!' m ; k" := (bind m (fun _ => k))
  (at level 10, m at level 100, k at level 200).

(** [fetchWithRetry(path, params, attempt)]; the recursion is on
    [attempt], which grows up to 4, so each call consumes one unit of
    fuel. *)
Fixpoint fetchWithRetry_from (fuel : nat) (path : string) (params : Params)
    (attempt : Z) : M jsval :=
  match fuel with
  | O => out_of_fuel
  | S fuel' =>
      try_catch (api_get_data path params)
        (fun err =>
           if (status_is err 429 && (attempt <? 4))%bool then
             let backoff := 2 ^ (attempt - 1) * 1000 in
             run! sleep backoff;
             fetchWithRetry_from fuel' path params (attempt + 1)
           else throw err)
  end.

(** [fetchWithRetry(path, params)]: [attempt] takes its default, 1. *)
Definition fetchWithRetry (path : string) (params : Params) : M jsval :=
  fetchWithRetry_from 4 path params 1.

Record LoopState : Type := mkLoop {
  page : Z;
  items : list jsval;
  seenFirstIds : list jsval;
  safety : Z
}.

(** The [while (true)] of [paginate]; one unit of fuel per turn. *)
Fixpoint paginate_loop (fuel : nat) (path : string) (params : Params)
    (itemsKey : string) (pageSize : Z) (st : LoopState)
    : M (list jsval * Stop) :=
  match fuel with
  | O => out_of_fuel
  | S fuel' =>
      do! data <- fetchWithRetry path (with_page params (page st));
      let pageItems := pageItemsOf itemsKey data in
      if (Z.of_nat (length pageItems) =? 0) then ret (items st, EmptyPage)
      else
        let beforeLen := Z.of_nat (length (items st)) in
        let items' := items st ++ pageItems in
        let firstId := firstIdOf pageItems in
        if (truthy firstId && set_has (seenFirstIds st) firstId)%bool
        then ret (items', RepeatedFirstId)
        else
          let seen' := if truthy firstId then seenFirstIds st ++ [firstId]
                       else seenFirstIds st in
          if Z.of_nat (length pageItems) <? pageSize then ret (items', ShortPage)
          else if Z.of_nat (length items') =? beforeLen then ret (items', NothingNew)
          else
            let page' := page st + 1 in
            let safety' := safety st + 1 in
            if safety' >? 200 then ret (items', SafetyStop)
            else
              run! sleep 500;
              paginate_loop fuel' path params itemsKey pageSize
                {| page := page'; items := items'; seenFirstIds := seen';
                   safety := safety' |}
  end.

Definition startPage (params : Params) : Z := number_or (p_page params) 1.
Definition pageSizeOf (params : Params) : Z := number_or (p_items_per_page params) 10.

Definition paginate_stop (path : string) (params : Params) (itemsKey : string)
    : M (list jsval * Stop) :=
  paginate_loop 201 path params itemsKey (pageSizeOf params)
    {| page := startPage params; items := []; seenFirstIds := []; safety := 0 |}.

(** [paginate(path, params, itemsKey)] *)
Definition paginate (path : string) (params : Params) (itemsKey : string)
    : M (list jsval) :=
  do! r <- paginate_stop path params itemsKey; ret (fst r).

(** ** The incremental sync ([fetchAndStore]) *)

(** [v.k] inside the pass: a [TypeError] when [v] is null or undefined. *)
Definition get (v : jsval) (k : string) : M jsval :=
  match prop v k with
  | Ok x => ret x
  | Throw e => throw (TypeErr e)
  end.

(** [(v || '').toUpperCase()]: a truthy value that is not a string has no
    such method. *)
Definition upperOrEmpty (v : jsval) : M string :=
  match js_or v (JString "") with
  | JString s => ret (toUpperCase s)
  | _ => throw (TypeErr (CannotReadProperty "toUpperCase"))
  end.

Definition store_call (table : string) (key source : jsval) : M unit :=
  fun w =>
    let '(r, env') := store_upsert (env w) table key source in
    let w' := {| env := env'; trace := trace w ++ [EUpsert table key source r];
                 summary := summary w |} in
    match r with
    | Ok _ => (Returned tt, w')
    | Throw e => (Thrown e, w')
    end.

Definition count (f : Summary -> Summary) : M unit :=
  fun w => (Returned tt,
            {| env := env w; trace := trace w; summary := f (summary w) |}).

Definition inc_usersUpserted (c : Summary) : Summary :=
  mkSummary (usersUpserted c + 1) (convsUpserted c) (msgsUpserted c)
    (convsSkippedNotInWindow c) (convsSkippedNoBot c).
Definition inc_convsUpserted (c : Summary) : Summary :=
  mkSummary (usersUpserted c) (convsUpserted c + 1) (msgsUpserted c)
    (convsSkippedNotInWindow c) (convsSkippedNoBot c).
Definition inc_msgsUpserted (c : Summary) : Summary :=
  mkSummary (usersUpserted c) (convsUpserted c) (msgsUpserted c + 1)
    (convsSkippedNotInWindow c) (convsSkippedNoBot c).
Definition inc_convsSkippedNotInWindow (c : Summary) : Summary :=
  mkSummary (usersUpserted c) (convsUpserted c) (msgsUpserted c)
    (convsSkippedNotInWindow c + 1) (convsSkippedNoBot c).
Definition inc_convsSkippedNoBot (c : Summary) : Summary :=
  mkSummary (usersUpserted c) (convsUpserted c) (msgsUpserted c)
    (convsSkippedNotInWindow c) (convsSkippedNoBot c + 1).

(** A value of pure code, or its type error thrown. *)
Definition lift {A} (r : result TypeError A) : M A :=
  match r with
  | Ok a => ret a
  | Throw e => throw (TypeErr e)
  end.

(** The conversion of [v] to a string by a template literal or by
    [v + '']. *)
Definition toStringM (v : jsval) : M string := lift (js_String Number_toString v).

(** [new Date(v).getTime()]: the constructor converts [v] to a primitive
    first, which throws when [String(v)] does. *)
Definition newDate (v : jsval) : M (option Z) :=
  do! _ <- toStringM v;
  ret (Date_getTime v).

(** [new Date(v).toISOString()] *)
Definition isoOf (v : jsval) : M string :=
  do! t <- newDate v;
  match t with
  | Some t => ret (toISOString t)
  | None => throw RangeErr
  end.

Definition dateNow : M Z := fun w => (Returned (Date_now (env w)), w).

(** [new Date(given || Date.now()).toISOString()] *)
Definition isoOrNow (given : jsval) : M string :=
  if truthy given then isoOf given
  else do! t <- dateNow; ret (toISOString t).

(** [new Date(given || Date.now())], kept as a date: the scripts that
    write through Prisma do not print it. *)
Definition dateOrNow (given : jsval) : M unit :=
  if truthy given then do! _ <- newDate given; ret tt
  else ret tt.

(** [upsertUser(user)]: the row reads [user.id] first, then the time of
    creation. *)
Definition upsertUser (user : jsval) : M unit :=
  do! id <- get user "id";
  do! _created_time <-
    isoOrNow (js_or (optprop user "created_time") (optprop user "created_at"));
  store_call "User" id user.

(** [upsertConversation({ ...convoDetail, userId }, overrideId)]: the
    fields of the row that can throw are the two times and [assigned_to],
    in this order; the key is the [id] of the row. None of the fields read
    is [userId], so that they are read on [convoDetail]. *)
Definition upsertConversation (convoDetail userId overrideId : jsval) : M unit :=
  let convo := optprop convoDetail in
  do! _created_time <- isoOrNow (js_or (convo "created_time") (convo "created_at"));
  do! _updated_time <-
    isoOrNow (js_or (convo "updated_time")
                (js_or (convo "updated_at") (convo "created_time")));
  do! _assigned_to <-
    toStringM (js_or (optprop (convo "assigned_to") "id")
                 (js_or (convo "assigned_to") (JString "")));
  store_call "Conversation"
    (js_or overrideId (js_or (convo "id") (js_or (convo "uuid") (JString ""))))
    (JObject [("convo", convoDetail); ("userId", userId)]).

(** [new Date(msg.created_time || msg.created_at || Date.now()).toISOString()] *)
Definition createdISO (msg : jsval) : M string :=
  isoOrNow (js_or (optprop msg "created_time") (optprop msg "created_at")).

(** The [id] of the row of a message: [msg.id || msg.uuid], or an id made
    of the conversation and of the time of creation. *)
Definition rowIdOf (msg conversationId : jsval) : M jsval :=
  let id := js_or (optprop msg "id") (optprop msg "uuid") in
  if truthy id then ret id
  else
    do! c <- toStringM conversationId;
    do! iso <- createdISO msg;
    ret (JString (c ++ "-" ++ iso)).

(** [upsertMessage(msg, conversationId)]: the content is normalized
    before the row is built, whose [id] and [created_time] can throw. *)
Definition upsertMessage (msg conversationId : jsval) : M unit :=
  do! message_parts <- get msg "message_parts";
  do! parts <- (if truthy message_parts then ret message_parts else get msg "parts");
  do! cleanContent <- lift (extractMessageContent Number_toString parts);
  do! id <- rowIdOf msg conversationId;
  do! _created_time <- createdISO msg;
  store_call "Message" id
    (JObject [("msg", msg); ("conversationid", conversationId);
              ("message_parts", JString cleanContent)]).

Definition fetchUserConversations (userId : jsval) : M (list jsval) :=
  do! id <- toStringM userId;
  paginate ("/users/" ++ id ++ "/conversations")%string
    (mkParams (Some 1) (Some 20) []) "conversations".

Definition fetchConversation (conversationId : jsval) : M jsval :=
  do! id <- toStringM conversationId;
  fetchWithRetry ("/conversations/" ++ id)%string (mkParams None None []).

Definition fetchConversationMessages (conversationId : jsval) (fromISO : string)
    : M (list jsval) :=
  do! id <- toStringM conversationId;
  paginate ("/conversations/" ++ id ++ "/messages")%string
    (mkParams (Some 1) (Some 50) [("from_time", fromISO)]) "messages".

(** [t >= windowStart.getTime() && t <= now.getTime()]; [NaN] compares
    false. *)
Definition withinWindow (t : option Z) (windowStart now : Z) : bool :=
  match t with
  | Some t => (windowStart <=? t) && (t <=? now)
  | None => false
  end.

Definition isWithinWindow (isoString : jsval) (windowStart now : Z) : M bool :=
  do! t <- newDate isoString;
  ret (withinWindow t windowStart now).

(** [a || b || c || d] *)
Definition first_truthy (vs : list jsval) : jsval :=
  fold_right js_or JUndefined vs.

Definition createdIsoOf (convoDetail uc : jsval) : jsval :=
  first_truthy [optprop convoDetail "created_time"; optprop convoDetail "created_at";
                optprop uc "created_time"; optprop uc "created_at"].

Definition updatedIsoOf (convoDetail uc : jsval) : jsval :=
  first_truthy [optprop convoDetail "updated_time"; optprop convoDetail "updated_at";
                optprop uc "updated_time"; optprop uc "updated_at";
                createdIsoOf convoDetail uc].

(** [!!createdIso && isWithinWindow(createdIso, windowStart, now)] *)
Definition createdInWindow (convoDetail uc : jsval) (windowStart now : Z) : M bool :=
  if truthy (createdIsoOf convoDetail uc)
  then isWithinWindow (createdIsoOf convoDetail uc) windowStart now
  else ret false.

Definition updatedInWindow (convoDetail uc : jsval) (windowStart now : Z) : M bool :=
  if truthy (updatedIsoOf convoDetail uc)
  then isWithinWindow (updatedIsoOf convoDetail uc) windowStart now
  else ret false.

(** [messages.filter(m => pred((m.actor_type || '').toUpperCase()))] *)
Fixpoint filterByActor (pred : string -> bool) (messages : list jsval)
    : M (list jsval) :=
  match messages with
  | [] => ret []
  | m :: rest =>
      do! a <- get m "actor_type";
      do! actorType <- upperOrEmpty a;
      do! kept <- filterByActor pred rest;
      ret (if pred actorType then m :: kept else kept)
  end.

Fixpoint for_each {A} (l : list A) (body : A -> M unit) : M unit :=
  match l with
  | [] => ret tt
  | x :: rest => run! body x; for_each rest body
  end.

(** The rest of a turn of the loop over a user's conversations, once the
    conversation is upserted: count it, fetch its messages, drop the
    system messages, skip the conversation when no bot is involved,
    upsert the messages. *)
Definition afterUpsert (convoDetail convoId : jsval) (windowStart : Z) : M bool :=
  run! count inc_convsUpserted;
  do! messages <- fetchConversationMessages convoId (toISOString windowStart);
  do! nonSystemMessages <-
    filterByActor (fun a => negb (String.eqb a "SYSTEM")) messages;
  do! botMessages <- filterByActor (fun a => String.eqb a "BOT") nonSystemMessages;
  do! assignedToBot <-
    (if Z.of_nat (length botMessages) =? 0 then
       do! a <- upperOrEmpty (optprop (optprop convoDetail "assigned_to") "type");
       ret (String.eqb a "BOT")
     else ret true);
  if negb assignedToBot then
    run! count inc_convsSkippedNoBot;
    run! sleep 300; ret false
  else
    run! for_each nonSystemMessages
           (fun m => run! upsertMessage m convoId; count inc_msgsUpserted);
    ret true.

(** What one turn of the loop over a user's conversations does before its
    closing [sleep(300)]; [true] when the turn ran to its end, [false]
    when it left by [continue]. *)
Definition conversationTurn (user uc : jsval) (windowStart now : Z) : M bool :=
  do! ucId <- get uc "id";
  do! convoDetail <- fetchConversation ucId;
  do! detailId <- get convoDetail "id";
  let convoId := first_truthy [detailId; optprop uc "id";
                               optprop convoDetail "uuid"; optprop uc "uuid"] in
  if negb (truthy convoId) then
    run! sleep 200; ret false
  else
    do! created <- createdInWindow convoDetail uc windowStart now;
    do! updated <- updatedInWindow convoDetail uc windowStart now;
    if negb created && negb updated then
      run! count inc_convsSkippedNotInWindow;
      run! sleep 1000; ret false
    else
      do! userId <- get user "id";
      run! upsertConversation convoDetail userId convoId;
      afterUpsert convoDetail convoId windowStart.

(** The body of the loop over a user's conversations: the [try], its
    [catch], which only logs, and the closing [sleep(300)], which a
    [continue] skips. The log prints [user.id], which [processUser] has
    read and converted to a string before it enters the loop: it does not
    throw. *)
Definition processConversation (user uc : jsval) (windowStart now : Z) : M unit :=
  do! completed <-
    try_catch (conversationTurn user uc windowStart now) (fun _ => ret true);
  if completed then sleep 300 else ret tt.

(** The body of the loop over the users; its [catch] prints [user.id] in
    a template literal, which reads it and converts it to a string. *)
Definition processUser (user : jsval) (windowStart now : Z) : M unit :=
  run! try_catch
         (run! upsertUser user;
          run! count inc_usersUpserted;
          do! userId <- get user "id";
          do! userConversations <- fetchUserConversations userId;
          for_each userConversations
            (fun uc => processConversation user uc windowStart now))
         (fun _ => do! id <- get user "id"; do! _ <- toStringM id; ret tt);
  sleep 300.

(** [fetchAndStore()], run at instant [now] with a look-back of
    [lookback] milliseconds ([LOOKBACK_HOURS * 60 * 60 * 1000]). *)
Definition fetchAndStore (now lookback : Z) : M unit :=
  let windowStart := now - lookback in
  do! users <-
    paginate "/users"
      (mkParams (Some 1) (Some 100)
         [("updated_from", toISOString windowStart); ("updated_to", toISOString now)])
      "users";
  for_each users (fun user => processUser user windowStart now).

End FetchClient.

Arguments World Env : clear implicits.
Arguments M Env A : clear implicits.
Arguments mkWorld {Env} env trace summary.

(** * The classification engine ([analyzeMessages.ts]) and its schema *)

(** A row of the [Message] table, as the engine selects it. *)
Record Message : Type := mkMessage {
  msg_id : string;
  conversationid : string;
  actor_type : string;
  message_parts : string;
  created_time : Z
}.

(** One element of [response.messages]; a field is [None] when the
    classifier left it out (or gave [null]). *)
Record AnalysisResult : Type := mkResult {
  language : option string;
  category : option string;
  tag : option string;
  confidence : option Q
}.

(** The row the engine hands to the [MessageAnalysis] table. *)
Record AnalysisRow : Type := mkRow {
  ma_message_id : string;
  ma_language : string;
  ma_category : string;
  ma_tag : string;
  ma_confidence : Q;
  ma_model_version : string
}.

(** A row of the [AnalysisFailures] ledger, keyed by [message_id]. *)
Record FailureRow : Type := mkFailure {
  af_conversation_id : string;
  af_error_message : string;
  af_error_type : string;
  af_attempts : Z;
  af_last_attempt : Z;
  af_next_retry : option Z
}.

Record Store : Type := mkStore {
  Messages : list Message;
  MessageAnalysis : gmap string AnalysisRow;
  AnalysisFailures : gmap string FailureRow
}.

(** What the engine reads of a caught error. *)
Record JsError : Type := mkError {
  e_message : option string;
  e_status : option Z;
  e_name : option string
}.

(** The parsed answer of the classifier. *)
Inductive Response : Type :=
| RespNull
| RespObject (messages : option (list (option AnalysisResult))).

Inductive ClassifierOutcome : Type :=
| Resolved (response : Response)
| Rejected (err : JsError).

Definition MAX_MESSAGES_PER_BATCH : nat := 20.
Definition MODEL : string := "gpt-4o-mini-2024-07-18".
Definition ONE_HOUR : Z := 3600000.

(** The time zone of the host: the offset of its local time from UTC, in
    milliseconds, at an instant ([LocalTZA(t, true)]) and at a local time
    ([LocalTZA(t, false)]). *)
Class TimeZone : Type := {
  offsetAt : Z -> Z;
  offsetOfLocal : Z -> Z
}.

(** [d.setHours(d.getHours() + 1)] on the date [d] of the instant [t]: the
    local time of [t] is moved by one hour and read as an instant again. *)
Definition setHoursPlusOne {tz : TimeZone} (t : Z) : Z :=
  let localTime := t + offsetAt t + ONE_HOUR in
  localTime - offsetOfLocal localTime.

(** The zone of a host that keeps UTC. *)
Definition utc : TimeZone := {| offsetAt := fun _ => 0; offsetOfLocal := fun _ => 0 |}.

(** A zone that is two hours ahead of UTC until the instant [turn], when
    daylight saving time ends, and one hour ahead from then on. The local
    times of the hour that is repeated are read with the offset of before
    the change. *)
Definition summerTimeEnds (turn : Z) : TimeZone :=
  {| offsetAt := fun t => if t <? turn then 2 * ONE_HOUR else ONE_HOUR;
     offsetOfLocal := fun l => if l <? turn + 2 * ONE_HOUR then 2 * ONE_HOUR else ONE_HOUR |}.

(** [s || d] on an optional string *)
Definition string_or (s : option string) (d : string) : string :=
  match s with
  | Some v => if String.eqb v "" then d else v
  | None => d
  end.

(** [n || d] on an optional number *)
Definition confidence_or (n : option Q) (d : Q) : Q :=
  match n with
  | Some v => if Qeq_bool v 0 then d else v
  | None => d
  end.

Definition typeError (what : string) : JsError :=
  {| e_message := Some what; e_status := None; e_name := Some "TypeError" |}.

(** The callback of [response.messages.map((result, index) => ...)]. *)
Definition toAnalysis (messagesToAnalyze : list Message) (index : nat)
    (item : option AnalysisResult) : result JsError AnalysisRow :=
  match nth_error messagesToAnalyze index with
  | None => Throw (typeError "Cannot read properties of undefined (reading 'id')")
  | Some m =>
      match item with
      | None => Throw (typeError "Cannot read properties of null (reading 'language')")
      | Some r =>
          Ok {| ma_message_id := msg_id m;
                ma_language := string_or (language r) "unknown";
                ma_category := string_or (category r) "others";
                ma_tag := string_or (tag r) "cs";
                ma_confidence := confidence_or (confidence r) (1 # 2);
                ma_model_version := MODEL |}
      end
  end.

Fixpoint buildAnalyses (messagesToAnalyze : list Message) (index : nat)
    (results : list (option AnalysisResult)) : result JsError (list AnalysisRow) :=
  match results with
  | [] => Ok []
  | r :: rest =>
      try! row <- toAnalysis messagesToAnalyze index r;
      try! rows <- buildAnalyses messagesToAnalyze (S index) rest;
      Ok (row :: rows)
  end.

(** The column constraints of [CREATE TABLE "MessageAnalysis"]:
    [VARCHAR(10)], [VARCHAR(50)], [VARCHAR(20)], [VARCHAR(30)] and
    [CHECK (confidence >= 0 AND confidence <= 1)]; a [VARCHAR(n)] holds
    at most [n] characters. *)
Definition row_accepted (r : AnalysisRow) : bool :=
  (Nat.leb (sql_LENGTH (ma_language r)) 10)
  && (Nat.leb (sql_LENGTH (ma_category r)) 50)
  && (Nat.leb (sql_LENGTH (ma_tag r)) 20)
  && (Nat.leb (sql_LENGTH (ma_model_version r)) 30)
  && Qle_bool 0 (ma_confidence r) && Qle_bool (ma_confidence r) 1.

Definition storeError (what : string) : JsError :=
  {| e_message := Some what; e_status := None; e_name := None |}.

(** [supabase.from('MessageAnalysis').upsert(analyses, { onConflict:
    'message_id' })]: one statement, refused as a whole when a row breaks
    a constraint. *)
Definition upsertAnalyses (analyses : list AnalysisRow)
    (tbl : gmap string AnalysisRow) : result JsError (gmap string AnalysisRow) :=
  if forallb row_accepted analyses then
    Ok (foldl (fun t r => <[ma_message_id r := r]> t) tbl analyses)
  else Throw (storeError "new row violates a constraint of MessageAnalysis").

(** The [try] block of [analyzeConversation]. *)
Definition classifyAndStore (messages : list Message) (outcome : ClassifierOutcome)
    (db : Store) : result JsError Store :=
  let messagesToAnalyze := firstn MAX_MESSAGES_PER_BATCH messages in
  match outcome with
  | Rejected err => Throw err
  | Resolved RespNull =>
      Throw (typeError "Cannot read properties of null (reading 'messages')")
  | Resolved (RespObject None) =>
      Throw {| e_message := Some "Invalid response format from OpenAI";
               e_status := None; e_name := Some "Error" |}
  | Resolved (RespObject (Some results)) =>
      try! analyses <- buildAnalyses messagesToAnalyze 0 results;
      try! tbl <- upsertAnalyses analyses (MessageAnalysis db);
      Ok {| Messages := Messages db; MessageAnalysis := tbl;
            AnalysisFailures := AnalysisFailures db |}
  end.

Definition errorTypeOf (err : JsError) : string :=
  match e_status err with
  | Some 429 => "rate_limit"
  | Some s =>
      if negb (s =? 0) && (500 <=? s) then "api_error"
      else if bool_decide (e_name err = Some "SyntaxError") then "parse_error"
      else "unknown_error"
  | None =>
      if bool_decide (e_name err = Some "SyntaxError") then "parse_error"
      else "unknown_error"
  end.

(** One turn of the loop of the [catch] block: look the ledger row up,
    update it or insert it. [now] is the instant of the failure; the
    retry is due when the clock of the host shows one hour more. *)
Definition recordFailure {tz : TimeZone} (conversationId : string) (err : JsError) (now : Z)
    (ledger : gmap string FailureRow) (msg : Message) : gmap string FailureRow :=
  let nextRetry := setHoursPlusOne now in
  match ledger !! msg_id msg with
  | Some existing =>
      <[msg_id msg :=
          {| af_conversation_id := af_conversation_id existing;
             af_error_message := string_or (e_message err) "Unknown error";
             af_error_type := errorTypeOf err;
             af_attempts := af_attempts existing + 1;
             af_last_attempt := now;
             af_next_retry := Some nextRetry |}]> ledger
  | None =>
      <[msg_id msg :=
          {| af_conversation_id := conversationId;
             af_error_message := string_or (e_message err) "Unknown error";
             af_error_type := errorTypeOf err;
             af_attempts := 1;
             af_last_attempt := now;
             af_next_retry := Some nextRetry |}]> ledger
  end.

(** [analyzeConversation(conversationId, messages)], given the outcome of
    [analyzeMessagesWithRetry] on the batch and the instant [now]. *)
Definition analyzeConversation {tz : TimeZone} (conversationId : string)
    (messages : list Message) (outcome : ClassifierOutcome) (now : Z) (db : Store)
    : Store :=
  match classifyAndStore messages outcome db with
  | Ok db' => db'
  | Throw err =>
      {| Messages := Messages db;
         MessageAnalysis := MessageAnalysis db;
         AnalysisFailures :=
           foldl (recordFailure conversationId err now) (AnalysisFailures db) messages |}
  end.

(** ** Selection *)

(** [text.split(/\s+/).filter(w => w.length > 0).length] *)
Definition wordCount (text : string) : nat :=
  length (filter (fun w => nonempty w) (split_whitespace text)).

(** The filter of short messages in [fetchMessagesForAnalysis]. *)
Definition isShort (content : string) : bool :=
  let text := trim content in
  Nat.leb (wordCount text) 2 || Nat.leb (js_length text) 10.

Fixpoint insertBy {A} (le : A -> A -> bool) (x : A) (l : list A) : list A :=
  match l with
  | [] => [x]
  | y :: l' => if le x y then x :: l else y :: insertBy le x l'
  end.

(** A stable sort. *)
Definition sortBy {A} (le : A -> A -> bool) (l : list A) : list A :=
  foldr (insertBy le) [] l.

(** [map.get(k).push(v)], creating the entry at the end when it is new. *)
Fixpoint pushGroup {V} (k : string) (v : V) (m : list (string * list V))
    : list (string * list V) :=
  match m with
  | [] => [(k, [v])]
  | (k', vs) :: rest =>
      if String.eqb k k' then (k', vs ++ [v]) :: rest
      else (k', vs) :: pushGroup k v rest
  end.

Definition groupBy {A V} (key : A -> string) (val : A -> V) (l : list A)
    : list (string * list V) :=
  foldl (fun m x => pushGroup (key x) (val x) m) [] l.

(** The query on [Message]: user messages with a content, newest first,
    at most 1000. *)
Definition userMessagesNewestFirst (db : Store) : list Message :=
  firstn 1000
    (sortBy (fun a b => created_time b <=? created_time a)
       (filter (fun m => String.eqb (actor_type m) "user"
                         && negb (String.eqb (message_parts m) ""))
          (Messages db))).

(** The messages that pass the two filters of [fetchMessagesForAnalysis].
    [analyzedMessages] is the [data] of the answer to the query of the
    analysed ids, [None] when it is [null]: the code does not look at the
    error of that query. *)
Definition unanalyzedMessages (analyzedMessages : option (list string)) (db : Store)
    : list Message :=
  let analyzedIds := default [] analyzedMessages in
  filter (fun m => negb (isShort (message_parts m)))
    (filter (fun m => negb (bool_decide (msg_id m ∈ analyzedIds)))
       (userMessagesNewestFirst db)).

(** [fetchMessagesForAnalysis()]: the map from conversation to its
    messages, oldest first, in order of insertion. *)
Definition fetchMessagesForAnalysis (analyzedMessages : option (list string))
    (db : Store) : list (string * list Message) :=
  map (fun kv => (fst kv, sortBy (fun a b => created_time a <=? created_time b) (snd kv)))
    (groupBy conversationid (fun m => m) (unanalyzedMessages analyzedMessages db)).

(** The answer that holds the id of every row of [MessageAnalysis]. *)
Definition allAnalyzed (db : Store) : option (list string) :=
  Some (map fst (map_to_list (MessageAnalysis db))).


(** ** The view of the failures due for a retry ([cleanupShortMessages.sql]) *)

Record RetryRow : Type := mkRetry {
  v_message_id : string;
  v_conversation_id : string;
  v_error_message : string;
  v_attempts : Z;
  v_next_retry : Z;
  v_message_parts : string
}.

(** The [WHERE] clause of the view. *)
Definition dueForRetry {loc : Locale} (now : Z) (af : FailureRow) (m : Message) : bool :=
  match af_next_retry af with
  | None => false
  | Some next_retry =>
      (next_retry <=? now)
      && (af_attempts af <? 3)
      && Nat.ltb 2 (sql_pieces (sql_TRIM (message_parts m)))
      && Nat.ltb 10 (sql_LENGTH (sql_TRIM (message_parts m)))
  end.

(** [FailedMessagesForRetry], evaluated at [now]. *)
Definition FailedMessagesForRetry {loc : Locale} (db : Store) (now : Z) : list RetryRow :=
  sortBy (fun a b => v_next_retry a <=? v_next_retry b)
    (omap (fun m =>
             match AnalysisFailures db !! msg_id m with
             | Some af =>
                 if dueForRetry now af m then
                   Some {| v_message_id := msg_id m;
                           v_conversation_id := af_conversation_id af;
                           v_error_message := af_error_message af;
                           v_attempts := af_attempts af;
                           v_next_retry := default 0 (af_next_retry af);
                           v_message_parts := message_parts m |}
                 else None
             | None => None
             end)
       (Messages db)).

(** ** One run of the engine *)

(** The surroundings of a run: the outcome of the [k]-th call of the
    classifier on its batch, the instant of the [k]-th call,
    [MAX_CONVERSATIONS], and the answer of the store to the query of the
    analysed ids. *)
Record RunEnv : Type := mkRunEnv {
  classify : nat -> list (string * string) -> ClassifierOutcome;
  clock : nat -> Z;
  max_conversations : nat;
  analyzedMessagesOf : Store -> option (list string)
}.

Definition classifierInput (messages : list Message) : list (string * string) :=
  map (fun m => (actor_type m, message_parts m))
    (firstn MAX_MESSAGES_PER_BATCH messages).

(** A call of [analyzeConversation] inside a run; the state is the store
    and the number of calls made so far. *)
Definition analyzeCall {tz : TimeZone} (e : RunEnv) (st : Store * nat) (conversationId : string)
    (messages : list Message) : Store * nat :=
  let '(db, k) := st in
  (analyzeConversation conversationId messages
     (classify e k (classifierInput messages)) (clock e k) db,
   S k).

(** [retryFailedMessages()] *)
Definition retryFailedMessages {tz : TimeZone} {loc : Locale} (e : RunEnv) (st : Store * nat)
    : Store * nat :=
  let failures := firstn 50 (FailedMessagesForRetry (fst st) (clock e (snd st))) in
  let convMap := groupBy v_conversation_id v_message_id failures in
  foldl (fun st '(convId, messageIds) =>
           let messages :=
             filter (fun m => bool_decide (msg_id m ∈ messageIds)) (Messages (fst st)) in
           if Nat.ltb 0 (length messages) then analyzeCall e st convId messages
           else st)
    st convMap.

(** [runAnalysis()] *)
Definition runAnalysis {tz : TimeZone} {loc : Locale} (e : RunEnv) (db : Store) : Store :=
  let st := retryFailedMessages e (db, O) in
  let conversationMap :=
    fetchMessagesForAnalysis (analyzedMessagesOf e (fst st)) (fst st) in
  fst (foldl (fun st '(convId, messages) => analyzeCall e st convId messages)
         st (firstn (max_conversations e) conversationMap)).

(** The store changes by a run of the engine or by the sync engines, which
    only write the [Message] table. *)
Inductive step {tz : TimeZone} {loc : Locale} : Store -> Store -> Prop :=
| step_run (e : RunEnv) (db : Store) : step db (runAnalysis e db)
| step_sync (msgs : list Message) (db : Store) :
    step db {| Messages := msgs; MessageAnalysis := MessageAnalysis db;
               AnalysisFailures := AnalysisFailures db |}.


(** ** Observations on a trace *)

Definition getOutcomes (tr : list Event) : list (result Exn jsval) :=
  omap (fun e => match e with EGet _ _ r => Some r | _ => None end) tr.

Definition getRequests (tr : list Event) : list (string * Params) :=
  omap (fun e => match e with EGet path params _ => Some (path, params) | _ => None end) tr.

Definition sleeps (tr : list Event) : list Z :=
  omap (fun e => match e with ESleep ms => Some ms | _ => None end) tr.

Definition upserts (tr : list Event) : list (string * jsval) :=
  omap (fun e => match e with EUpsert table key _ _ => Some (table, key) | _ => None end) tr.

(** A rejection with HTTP status 429. *)
Definition is_throttle (r : result Exn jsval) : bool :=
  match r with
  | Throw e => status_is e 429
  | Ok _ => false
  end.

Definition outcome_of (r : result Exn jsval) : Outcome jsval :=
  match r with
  | Ok d => Returned d
  | Throw e => Thrown e
  end.

(** A value that [Set.prototype.has] finds again by its contents. *)
Definition is_primitive (v : jsval) : bool :=
  match v with
  | JArray _ | JObject _ => false
  | _ => true
  end.

(** ** Mock paged sources *)

Definition item (id : string) : jsval := JObject [("id", JString id)].

Definition usersPage (ids : list string) : jsval :=
  JObject [("users", JArray (map item ids))].

(** A source with three users and pages of two; its state counts the
    requests answered. *)
Definition twoPageSource (n : nat) (path : string) (params : Params)
    : result Exn jsval * nat :=
  (match p_page params with
   | Some 1 => Ok (usersPage ["u1"; "u2"])
   | Some 2 => Ok (usersPage ["u3"])
   | _ => Ok (usersPage [])
   end, S n).

(** A source that ignores [page] and serves the same two users for ever. *)
Definition stuckSource (n : nat) (path : string) (params : Params)
    : result Exn jsval * nat :=
  (Ok (usersPage ["u1"; "u2"]), S n).



(** A source that throttles the first [k] requests and then fails with
    status 500. *)
Definition throttlingSource (k : nat) (n : nat) (path : string) (params : Params)
    : result Exn jsval * nat :=
  (if Nat.ltb n k then Throw (AxiosErr (Some 429) "Too Many Requests")
   else Throw (AxiosErr (Some 500) "Internal Server Error"), S n).

(** A source that ignores [page] and serves the same two items, which
    carry no identifier. *)
Definition anonymousSource (n : nat) (path : string) (params : Params)
    : result Exn jsval * nat :=
  (Ok (JObject [("users", JArray [JObject [("name", JString "a")];
                                   JObject [("name", JString "b")]])]), S n).

Definition pagesOfTwo : Params := mkParams (Some 1) (Some 2) [].

Definition emptySummary : Summary := mkSummary 0 0 0 0 0.

Definition freshWorld : World nat := mkWorld O [] emptySummary.

(** ** A mock chat API for the sync pass *)

(** [new Date(v).getTime()] on the two timestamps of the mock. *)
Definition mockGetTime (v : jsval) : option Z :=
  match v with
  | JString "2024-01-01T09:59:59Z" => Some 1704103199000
  | JString "2024-01-01T10:00:01Z" => Some 1704103201000
  | _ => None
  end.

(** A stand-in for [Number.prototype.toString] where no number is printed. *)
Definition noNumber (q : Q) : string := "".

Definition mockToISOString (t : Z) : string := "2024-01-01T10:00:00.000Z".

Definition mockConversation : jsval :=
  JObject [("id", JString "c1");
           ("created_time", JString "2024-01-01T09:59:59Z");
           ("updated_time", JString "2024-01-01T10:00:01Z")].

(** A conversation updated in the window, whose [created_time] is no
    date. *)
Definition garbageConversation : jsval :=
  JObject [("id", JString "c1");
           ("created_time", JString "garbage");
           ("updated_time", JString "2024-01-01T10:00:01Z")].

Definition garbageSource (n : nat) (path : string) (params : Params)
    : result Exn jsval * nat :=
  (if String.eqb path "/conversations/c1" then Ok garbageConversation
   else Ok (JObject [("messages", JArray [])]), S n).

(** [Date.now()] of the mocks. *)
Definition mockNow (n : nat) : Z := 1704110400000.

Definition chatSource (n : nat) (path : string) (params : Params)
    : result Exn jsval * nat :=
  (if String.eqb path "/conversations/c1" then Ok mockConversation
   else Ok (JObject [("messages", JArray [])]), S n).

Definition acceptingStore (n : nat) (table : string) (key source : jsval)
    : result Exn unit * nat :=
  (Ok tt, S n).

Definition mockUser : jsval := JObject [("id", JString "u1")].

Definition textPart (content : string) : jsval :=
  JObject [("text", JObject [("content", JString content)])].

Definition chatMessage (id actor content : string) : jsval :=
  JObject [("id", JString id); ("actor_type", JString actor);
           ("message_parts", JArray [textPart content])].

(** One account with one conversation of two messages, one of them from
    the bot. *)
Definition oneConversationSource (n : nat) (path : string) (params : Params)
    : result Exn jsval * nat :=
  (if String.eqb path "/users" then Ok (usersPage ["u1"])
   else if String.eqb path "/users/u1/conversations"
        then Ok (JObject [("conversations", JArray [item "c1"])])
   else if String.eqb path "/conversations/c1" then Ok mockConversation
   else if String.eqb path "/conversations/c1/messages"
        then Ok (JObject [("messages",
                           JArray [chatMessage "m1" "user"
                                     "  my bike won't start and it's stuck ";
                                   chatMessage "m2" "bot" "..."])])
   else Throw (AxiosErr (Some 404) "Not Found"), S n).

(** ** Stores and classifier answers for the examples *)

Definition bikeMessage : Message :=
  mkMessage "m1" "c1" "user" "my bike won't start and it's stuck" 1704103200000.

Definition okMessage : Message := mkMessage "m2" "c1" "user" "Ok" 1704103260000.

Definition oneMessageStore : Store := mkStore [bikeMessage] ∅ ∅.

Definition answer (r : AnalysisResult) : ClassifierOutcome :=
  Resolved (RespObject (Some [Some r])).


Definition agreeing : AnalysisResult :=
  mkResult (Some "en") (Some "bike_not_moving") (Some "escalated") (Some (9 # 10)).



Definition rateLimited : JsError :=
  mkError (Some "429 Too Many Requests") (Some 429) (Some "Error").

(** Surroundings in which the classifier always gives the same outcome. *)
Definition constantEnv (outcome : ClassifierOutcome) (now : Z) : RunEnv :=
  mkRunEnv (fun _ _ => outcome) (fun _ => now) 100 allAnalyzed.

(** A store in which the short message has a ledger row that is due. *)
Definition storeWithOkFailure : Store :=
  mkStore [bikeMessage; okMessage] ∅
    {[ "m2" := mkFailure "c1" "Unknown error" "unknown_error" 1 0 (Some 3600000) ]}.

(** A message whose content starts with a tab, with a ledger row that
    is due. *)
Definition tabMessage : Message :=
  mkMessage "m3" "c1" "user" (String "009" "hello world") 0.

Definition storeWithTabFailure : Store :=
  mkStore [tabMessage] ∅
    {[ "m3" := mkFailure "c1" "Unknown error" "unknown_error" 1 0 (Some 3600000) ]}.

(** U+1F600, a character outside the Basic Multilingual Plane. *)
Definition grinningFace : string :=
  String "240" (String "159" (String "152" (String "128" ""))).

Definition emojiMessage : Message :=
  mkMessage "m4" "c1" "user"
    ("a b " ++ grinningFace ++ grinningFace ++ grinningFace ++ grinningFace)%string 0.

(** A content of three words and 9 characters, and a language of 6
    characters, in Devanagari: 23 and 18 bytes. *)
Definition hindiMessage : Message := mkMessage "m5" "c1" "user" "ठीक है जी" 0.

Definition hindi : AnalysisResult :=
  mkResult (Some "हिन्दी") (Some "others") (Some "cs") (Some (9 # 10)).

Definition storeWithHindiFailure : Store :=
  mkStore [hindiMessage] ∅
    {[ "m5" := mkFailure "c1" "Unknown error" "unknown_error" 1 0 (Some 3600000) ]}.

Definition emojiStore : Store := mkStore [emojiMessage] ∅ ∅.

(** The classifier is throttled at every call; the run starts at [now]. *)
Definition failingRun (now : Z) : RunEnv := constantEnv (Rejected rateLimited) now.

(** The store after a first run at instant 0 and a second one two hours
    later, the classifier failing each time. *)
Definition afterTwoFailingRuns : Store :=
  runAnalysis (tz := utc) (loc := asciiLocale) (failingRun 7200000)
    (runAnalysis (tz := utc) (loc := asciiLocale) (failingRun 0) oneMessageStore).





(** The steps of a store whose runs have surroundings in [E]. *)
Inductive step_in {tz : TimeZone} {loc : Locale} (E : RunEnv -> Prop) : Store -> Store -> Prop :=
| step_in_run (e : RunEnv) (db : Store) : E e -> step_in E db (runAnalysis e db)
| step_in_sync (msgs : list Message) (db : Store) :
    step_in E db {| Messages := msgs; MessageAnalysis := MessageAnalysis db;
                    AnalysisFailures := AnalysisFailures db |}.

(** ** Predicates used in the statements *)

(** The trace of a request that is asked again after each answer but the
    last, with a sleep that starts at [backoff] and doubles. *)
Fixpoint retryTrace (path : string) (params : Params) (backoff : Z)
    (outcomes : list (result Exn jsval)) : list Event :=
  match outcomes with
  | [] => []
  | r :: rest =>
      match rest with
      | [] => [EGet path params r]
      | _ :: _ =>
          EGet path params r :: ESleep backoff :: retryTrace path params (2 * backoff) rest
      end
  end.

(** A computation that leaves the world as it is and uses no fuel. *)
Definition silent {Env A} (m : M Env A) : Prop :=
  forall w, snd (m w) = w /\ fst (m w) <> OutOfFuel.

(** [String(v)] does not throw. *)
Definition convertible (Number_toString : Q -> string) (v : jsval) : bool :=
  match js_String Number_toString v with
  | Ok _ => true
  | Throw _ => false
  end.

(** [new Date(v).toISOString()] does not throw: [v] can be converted and
    gives a valid date. *)
Definition printsAsDate (Number_toString : Q -> string) (Date_getTime : jsval -> option Z)
    (v : jsval) : bool :=
  convertible Number_toString v && bool_decide (is_Some (Date_getTime v)).

(** The row that [upsertConversation] hands to the store can be built:
    the times it prints are valid dates, or missing, and [assigned_to]
    can be converted to a string. *)
Definition conversationRowBuilds (Number_toString : Q -> string)
    (Date_getTime : jsval -> option Z) (convoDetail : jsval) : bool :=
  let convo := optprop convoDetail in
  let created := js_or (convo "created_time") (convo "created_at") in
  let updated :=
    js_or (convo "updated_time") (js_or (convo "updated_at") (convo "created_time")) in
  (negb (truthy created) || printsAsDate Number_toString Date_getTime created)
  && (negb (truthy updated) || printsAsDate Number_toString Date_getTime updated)
  && convertible Number_toString
       (js_or (optprop (convo "assigned_to") "id")
          (js_or (convo "assigned_to") (JString ""))).

(** The row that the [upsertConversation] of the re-check hands to the
    store can be built: each of its two times is missing or can be made a
    date. *)
Definition refetchRowBuilds (Number_toString : Q -> string) (freshConvo : jsval) : bool :=
  let convo := optprop freshConvo in
  let created := js_or (convo "created_time") (convo "created_at") in
  let updated := js_or (convo "updated_time") (convo "updated_at") in
  (negb (truthy created) || convertible Number_toString created)
  && (negb (truthy updated) || convertible Number_toString updated).

(** The timestamp [iso] is given and lies in the window. *)
Definition inWindowOf (Date_getTime : jsval -> option Z) (iso : jsval)
    (windowStart now : Z) : bool :=
  truthy iso && withinWindow (Date_getTime iso) windowStart now.

(** A computation that only adds events to the trace. *)
Definition trace_extends {Env A} (m : M Env A) : Prop :=
  forall w, exists tr, trace (snd (m w)) = trace w ++ tr.

(** A part pushes nothing that survives the filter of empty texts. *)
Definition blankPart (Number_toString : Q -> string) (part : jsval) : Prop :=
  extractPart Number_toString part = Ok None
  \/ extractPart Number_toString part = Ok (Some "").

(** Every row of [l1] is still in [l2], with at least as many attempts. *)
Definition ledger_le (l1 l2 : gmap string FailureRow) : Prop :=
  forall id af, l1 !! id = Some af ->
                exists af', l2 !! id = Some af' /\ af_attempts af <= af_attempts af'.

(** The list is empty or starts with an element outside [p]. *)
Definition headOk {A} (p : A -> bool) (l : list A) : Prop :=
  match l with
  | [] => True
  | c :: _ => p c = false
  end.

(** The list is not empty and its last element is outside [p]. *)
Fixpoint endsOutside {A} (p : A -> bool) (l : list A) : bool :=
  match l with
  | [] => false
  | c :: l' =>
      match l' with
      | [] => negb (p c)
      | _ => endsOutside p l'
      end
  end.

(** The database and JavaScript agree on which characters of [s] are
    white space. *)
Definition sameSpaces {loc : Locale} (s : string) : Prop :=
  Forall (fun ch => sqlSpace ch = jsSpace ch) (characters s).

(** A well-formed list of characters: no character is empty, the bytes
    after the first one of a character are continuation bytes, and every
    character but the first one starts with another byte. *)
Definition chunkOk (ch : list ascii) : bool :=
  match ch with
  | [] => false
  | _ :: t => forallb isContinuation t
  end.

Definition chunked (cs : list (list ascii)) : Prop :=
  Forall (fun ch => chunkOk ch = true) cs
  /\ Forall (fun ch => startsWithContinuation ch = false) (tail cs).

(** * Further parts of the code *)

(** ** The view of the messages that need an analysis and the clean-up of
    the ledger ([cleanupShortMessages.sql]); stores for the examples *)

(** The [WHERE] clause of [MessagesNeedingAnalysis]; the two [LEFT JOIN]s
    are on unique keys. *)
Definition needsAnalysis {loc : Locale} (db : Store) (m : Message) : bool :=
  negb (bool_decide (is_Some (MessageAnalysis db !! msg_id m)))
  && negb (String.eqb (message_parts m) "")
  && String.eqb (actor_type m) "user"
  && match AnalysisFailures db !! msg_id m with
     | None => true
     | Some af => af_attempts af <? 3
     end
  && Nat.ltb 2 (sql_pieces (sql_TRIM (message_parts m)))
  && Nat.ltb 10 (sql_LENGTH (sql_TRIM (message_parts m))).

(** [MessagesNeedingAnalysis], newest first. *)
Definition MessagesNeedingAnalysis {loc : Locale} (db : Store) : list Message :=
  sortBy (fun a b => created_time b <=? created_time a)
    (filter (fun m => needsAnalysis db m) (Messages db)).

(** The condition of the sub-query of the [DELETE]. *)
Definition sql_short {loc : Locale} (m : Message) : bool :=
  Nat.leb (sql_pieces (sql_TRIM (message_parts m))) 2
  || Nat.leb (sql_LENGTH (sql_TRIM (message_parts m))) 10.

(** [message_id IN (SELECT af.message_id ... JOIN "Message" m ...)] *)
Definition deletedByCleanup {loc : Locale} (db : Store) (id : string) : bool :=
  existsb (fun m => String.eqb id (msg_id m) && sql_short m) (Messages db).

(** The [DELETE FROM "AnalysisFailures"] of the script. *)
Definition cleanupShortMessages {loc : Locale} (db : Store) : Store :=
  {| Messages := Messages db;
     MessageAnalysis := MessageAnalysis db;
     AnalysisFailures :=
       filter (fun kv : string * FailureRow => negb (deletedByCleanup db kv.1))
         (AnalysisFailures db) |}.

(** The instants at which the creation times of a list are in ascending order. *)
Definition oldestFirst (ms : list Message) : Prop :=
  StronglySorted (fun a b => created_time a <= created_time b) ms.

Definition storeWithDueFailure : Store :=
  mkStore [bikeMessage] ∅
    {[ "m1" := mkFailure "c1" "429 Too Many Requests" "rate_limit" 1 0 (Some 3600000) ]}.

Definition dueRow : RetryRow :=
  mkRetry "m1" "c1" "429 Too Many Requests" 1 3600000 (message_parts bikeMessage).

Definition analysedStore : Store :=
  mkStore [bikeMessage]
    {[ "m1" := mkRow "m1" "en" "bike_not_moving" "escalated" (9 # 10) MODEL ]} ∅.

(** Surroundings whose classifier answers the first [n] calls and is
    throttled afterwards. *)
Definition failingAfter (n : nat) : RunEnv :=
  mkRunEnv (fun k _ => if Nat.ltb k n then answer agreeing else Rejected rateLimited)
    (fun _ => 0) 100 allAnalyzed.

(** ** What a trace tells of [paginate] *)

(** The pages a trace received: the items of every answered request. *)
Definition pagesOf (itemsKey : string) (tr : list Event) : list (list jsval) :=
  omap (fun e => match e with
                 | EGet _ _ (Ok data) => Some (pageItemsOf itemsKey data)
                 | _ => None
                 end) tr.

(** A request for a page between [lo] and [hi] of the listing [path],
    the other parameters being those of [params]. *)
Definition requestsPage (path : string) (params : Params) (lo hi : Z)
    (rq : string * Params) : Prop :=
  fst rq = path /\ exists n, snd rq = with_page params n /\ lo <= n <= hi.

(** A source that answers every request with a payload that holds no list. *)
Definition maintenanceSource (n : nat) (path : string) (params : Params)
    : result Exn jsval * nat :=
  (Ok (JObject [("error", JString "maintenance")]), S n).

(** ** Invariants of the sync pass *)

(** A computation that never runs out of fuel. *)
Definition total {Env A} (m : M Env A) : Prop :=
  forall w, fst (m w) <> OutOfFuel.

(** A computation that takes every world to a world related to it. *)
Definition preserves {Env A} (R : World Env -> World Env -> Prop) (m : M Env A) : Prop :=
  forall w, R w (snd (m w)).

(** The trace grew by events that all satisfy [P]. *)
Definition onlyEvents {Env} (P : Event -> Prop) (w w' : World Env) : Prop :=
  exists tr, trace w' = trace w ++ tr /\ Forall P tr.

(** An upsert that the store accepted on [table]. *)
Definition isOkUpsert (table : string) (e : Event) : bool :=
  match e with
  | EUpsert t _ _ (Ok _) => String.eqb t table
  | _ => false
  end.

(** The number of upserts that the store accepted on [table]. *)
Definition okUpserts (table : string) (tr : list Event) : Z :=
  Z.of_nat (length (filter (fun e => isOkUpsert table e) tr)).

(** How far the three counters of upserts are ahead of the trace. *)
Definition balance {Env} (w : World Env) : Z * Z * Z :=
  (usersUpserted (summary w) - okUpserts "User" (trace w),
   convsUpserted (summary w) - okUpserts "Conversation" (trace w),
   msgsUpserted (summary w) - okUpserts "Message" (trace w)).

Definition balanced {Env} (w w' : World Env) : Prop := balance w' = balance w.

(** [(m.actor_type || '').toUpperCase()], when it can be computed. *)
Definition actorOf (m : jsval) : option string :=
  match prop m "actor_type" with
  | Ok a => match js_or a (JString "") with
            | JString s => Some (toUpperCase s)
            | _ => None
            end
  | Throw _ => None
  end.

(** An upsert into [Message] carries a message that is not a system
    message, with the content the normalizer gives for its parts. *)
Definition cleanMessageUpsert (Number_toString : Q -> string) (e : Event) : Prop :=
  match e with
  | EUpsert table key source _ =>
      table = "Message" ->
      exists msg convoId content,
        source = JObject [("msg", msg); ("conversationid", convoId);
                          ("message_parts", JString content)]
        /\ extractMessageContent Number_toString
             (js_or (optprop msg "message_parts") (optprop msg "parts")) = Ok content
        /\ trim content = content
        /\ exists a, actorOf msg = Some a /\ a <> "SYSTEM"
  | _ => True
  end.

(** A value on which a property read does not throw. *)
Definition notNullish (v : jsval) : bool :=
  match v with
  | JUndefined | JNull => false
  | _ => true
  end.

(** A user that [processUser] can handle: it is neither [null] nor
    [undefined] and its [id] can be converted to a string. *)
Definition userOk (Number_toString : Q -> string) (user : jsval) : bool :=
  notNullish user && convertible Number_toString (optprop user "id").

(** A user whose [id] is an object with a key [toString]. *)
Definition userWithObjectId : jsval :=
  JObject [("id", JObject [("toString", JNumber 1)])].

(** The world after the turn of the mock conversation, which was updated
    before the window. *)
Definition afterSkippedTurn : World nat :=
  mkWorld 1%nat
    [EGet "/conversations/c1" (mkParams None None []) (Ok mockConversation);
     ESleep 1000]
    (mkSummary 0 0 0 1 0).

(** * The classifier client ([lib/openai.ts]) *)

(** What [openai.chat.completions.create] can do: reject with an error, or
    resolve with a completion; [content] is
    [completion.choices[0]?.message?.content], [None] when it is undefined
    or null. *)
Inductive CompletionOutcome : Type :=
| Completed (content : option string)
| Failed (err : JsError).

(** What a call of [analyzeMessagesWithRetry] does, in order: wait for a
    token of the rate limiter, send the request for a batch, sleep. *)
Inductive ClientEvent : Type :=
| CWaitForToken
| CCreate (batch : list (string * string))
| CBackoff (ms : Z).

Record ClientState : Type := mkClient {
  requests : nat;
  history : list ClientEvent
}.

(** [new Error('No content in OpenAI response')] *)
Definition noContent : JsError :=
  {| e_message := Some "No content in OpenAI response";
     e_status := None; e_name := Some "Error" |}.

(** [new Error('Analysis failed after retries')] *)
Definition failedAfterRetries : JsError :=
  {| e_message := Some "Analysis failed after retries";
     e_status := None; e_name := Some "Error" |}.

Definition syntaxError (message : string) : JsError :=
  {| e_message := Some message; e_status := None; e_name := Some "SyntaxError" |}.

(** [error?.status === code] *)
Definition statusIs (err : JsError) (code : Z) : bool :=
  match e_status err with
  | Some s => s =? code
  | None => false
  end.

(** [error?.status >= bound] *)
Definition statusAtLeast (err : JsError) (bound : Z) : bool :=
  match e_status err with
  | Some s => bound <=? s
  | None => false
  end.

Section ClassifierClient.

(** The outcome of the [k]-th request sent, and [JSON.parse], which
    throws a [SyntaxError] with a message. *)
Variable create : nat -> list (string * string) -> CompletionOutcome.
Variable JSON_parse : string -> result string Response.

(** What follows [await rateLimiter.waitForToken()] in the [try] block. *)
Definition requestOnce (k : nat) (batch : list (string * string))
    : result JsError Response :=
  match create k batch with
  | Failed err => Throw err
  | Completed None => Throw noContent
  | Completed (Some content) =>
      if String.eqb content "" then Throw noContent
      else match JSON_parse content with
           | Ok parsed => Ok parsed
           | Throw message => Throw (syntaxError message)
           end
  end.

(** The [for] loop of [analyzeMessagesWithRetry] and the [throw] that
    follows it; one unit of fuel per turn. [None] when the fuel runs out. *)
Fixpoint retryLoop (fuel : nat) (batch : list (string * string)) (maxRetries : Z)
    (attempt : Z) (lastError : option JsError) (st : ClientState)
    : option (result JsError Response * ClientState) :=
  match fuel with
  | O => None
  | S fuel' =>
      if attempt <=? maxRetries then
        let st1 := {| requests := S (requests st);
                      history := history st ++ [CWaitForToken; CCreate batch] |} in
        match requestOnce (requests st) batch with
        | Ok parsed => Some (Ok parsed, st1)
        | Throw error =>
            if statusIs error 429 then
              let backoff := 2 ^ attempt * 1000 in
              retryLoop fuel' batch maxRetries (attempt + 1) (Some error)
                {| requests := requests st1;
                   history := history st1 ++ [CBackoff backoff] |}
            else if statusAtLeast error 500 then
              let backoff := 2 ^ (attempt - 1) * 1000 in
              retryLoop fuel' batch maxRetries (attempt + 1) (Some error)
                {| requests := requests st1;
                   history := history st1 ++ [CBackoff backoff] |}
            else Some (Throw error, st1)
        end
      else Some (Throw (default failedAfterRetries lastError), st)
  end.

(** [analyzeMessagesWithRetry(messages, maxRetries)] *)
Definition analyzeMessagesWithRetry (batch : list (string * string)) (maxRetries : Z)
    (st : ClientState) : option (result JsError Response * ClientState) :=
  retryLoop (S (Z.to_nat maxRetries)) batch maxRetries 1 None st.

End ClassifierClient.

(** The pause after a failed attempt, if the error is one that is retried. *)
Definition backoffOf (attempt : Z) (err : JsError) : option Z :=
  if statusIs err 429 then Some (2 ^ attempt * 1000)
  else if statusAtLeast err 500 then Some (2 ^ (attempt - 1) * 1000)
  else None.

(** An outcome of a request after which the loop is left. *)
Definition final (attempt : Z) (r : result JsError Response) : Prop :=
  match r with
  | Ok _ => True
  | Throw err => backoffOf attempt err = None
  end.

Definition creates (h : list ClientEvent) : list (list (string * string)) :=
  omap (fun e => match e with CCreate b => Some b | _ => None end) h.

Definition backoffs (h : list ClientEvent) : list Z :=
  omap (fun e => match e with CBackoff ms => Some ms | _ => None end) h.

(** A classifier that is throttled at every request, and a parser that is
    never reached. *)
Definition alwaysThrottled (k : nat) (batch : list (string * string)) : CompletionOutcome :=
  Failed rateLimited.

Definition neverParsed (content : string) : result string Response :=
  Throw "Unexpected end of JSON input".

Definition freshClient : ClientState := mkClient 0 [].

Definition exhaustedClient : ClientState :=
  mkClient 3 [CWaitForToken; CCreate []; CBackoff 2000;
              CWaitForToken; CCreate []; CBackoff 4000;
              CWaitForToken; CCreate []; CBackoff 8000].

(** * The rate limiter of the classifier client ([lib/openai.ts]) *)

(** The numbers of the limiter are rationals; an instant is a number of
    milliseconds. *)
Record RateLimiter : Type := mkLimiter {
  tokens : Q;
  lastRefill : Z;
  maxTokens : Q;
  refillRate : Q
}.

(** [new RateLimiter(maxRequestsPerMinute)], at instant [now]. *)
Definition newRateLimiter (maxRequestsPerMinute : Q) (now : Z) : RateLimiter :=
  {| tokens := maxRequestsPerMinute;
     lastRefill := now;
     maxTokens := maxRequestsPerMinute;
     refillRate := (maxRequestsPerMinute / 60)%Q |}.

(** [refill()], when [Date.now()] gives [now]. *)
Definition refill (now : Z) (rl : RateLimiter) : RateLimiter :=
  let timePassed := (inject_Z (now - lastRefill rl)%Z / 1000)%Q in
  let tokensToAdd := (timePassed * refillRate rl)%Q in
  {| tokens := Qmin (maxTokens rl) (tokens rl + tokensToAdd)%Q;
     lastRefill := now;
     maxTokens := maxTokens rl;
     refillRate := refillRate rl |}.

(** [waitForToken()], called at instant [now]: the time it waits, [None]
    when it returns at once, and the limiter it leaves. *)
Definition waitForToken (now : Z) (rl : RateLimiter) : option Q * RateLimiter :=
  let rl1 := refill now rl in
  if Qle_bool 1 (tokens rl1) then
    (None,
     {| tokens := (tokens rl1 - 1)%Q; lastRefill := lastRefill rl1;
        maxTokens := maxTokens rl1; refillRate := refillRate rl1 |})
  else
    let waitTime := ((1 - tokens rl1) / refillRate rl1 * 1000)%Q in
    (Some waitTime,
     {| tokens := 0%Q; lastRefill := lastRefill rl1;
        maxTokens := maxTokens rl1; refillRate := refillRate rl1 |}).

(** The waits of a sequence of calls made at the instants [times]. *)
Fixpoint waitForTokens (times : list Z) (rl : RateLimiter) : list (option Q) :=
  match times with
  | [] => []
  | now :: later =>
      fst (waitForToken now rl) :: waitForTokens later (snd (waitForToken now rl))
  end.

(** The bucket holds between no token and [maxTokens]. *)
Definition bucketInRange (rl : RateLimiter) : Prop :=
  (0 <= tokens rl)%Q /\ (tokens rl <= maxTokens rl)%Q /\ (0 <= refillRate rl)%Q.

(** Instants in ascending order, none before [start]. *)
Fixpoint ascendingFrom (start : Z) (times : list Z) : Prop :=
  match times with
  | [] => True
  | now :: later => start <= now /\ ascendingFrom now later
  end.

(** * The re-check of the unresolved conversations ([refetchUnresolved.ts]) *)

(** A row of [Conversation] as the script selects it. *)
Record DbConversation : Type := mkDbConversation {
  db_id : string;
  db_userId : jsval;
  db_status : string;
  db_updated_time : Z;
  db_created_time : Z
}.

(** The four counters the script returns. *)
Record RefetchStats : Type := mkRefetchStats {
  checked : Z;
  resolved : Z;
  updated : Z;
  errors : Z
}.

Definition zeroStats : RefetchStats := mkRefetchStats 0 0 0 0.

(** [v === s] for a string [s] *)
Definition strictEqString (v : jsval) (s : string) : bool :=
  match v with
  | JString x => String.eqb x s
  | _ => false
  end.

Section Refetch.

Context {Env : Type}.
Variable api_get : Env -> string -> Params -> result Exn jsval * Env.
Variable store_upsert : Env -> string -> jsval -> jsval -> result Exn unit * Env.
Variable Number_toString : Q -> string.
Variable Date_getTime : jsval -> option Z.

Local Notation "'do!' x <- m ; k" := (bind m (fun x => k))
  (at level 10, x name, m at level 100, k at level 200).
Local Notation "'run!' m ; k" := (bind m (fun _ => k))
  (at level 10, m at level 100, k at level 200).

(** [freshUpdatedTime && new Date(freshUpdatedTime).getTime() !==
    dbConvo.updated_time.getTime()]; [NaN] differs from every instant. *)
Definition timeChanged (freshUpdatedTime : jsval) (dbConvo : DbConversation)
    : M Env bool :=
  if truthy freshUpdatedTime then
    do! t <- newDate Number_toString Date_getTime freshUpdatedTime;
    ret (negb (match t with
               | Some t => t =? db_updated_time dbConvo
               | None => false
               end))
  else ret false.

(** [upsertConversation({ ...freshConvo, userId }, convoId)] of the
    script: the row keeps its two times as dates and prints [assigned_to]
    with [JSON.stringify], which does not throw. *)
Definition refetchUpsertConversation (freshConvo userId : jsval) (convoId : string)
    : M Env unit :=
  let convo := optprop freshConvo in
  run! dateOrNow Number_toString Date_getTime
         (js_or (convo "created_time") (convo "created_at"));
  run! dateOrNow Number_toString Date_getTime
         (js_or (convo "updated_time") (convo "updated_at"));
  store_call store_upsert "Conversation" (JString convoId)
    (JObject [("convo", freshConvo); ("userId", userId)]).

(** What the [try] block does once [checked] is incremented. *)
Definition compareAndUpdate (stats : RefetchStats) (dbConvo : DbConversation)
    (freshConvo : jsval) : M Env RefetchStats :=
  do! status <- get freshConvo "status";
  let freshStatus := js_or status (JString "") in
  let freshUpdatedTime :=
    js_or (optprop freshConvo "updated_time") (optprop freshConvo "updated_at") in
  let statusChanged := negb (strictEqString freshStatus (db_status dbConvo)) in
  do! changed <- timeChanged freshUpdatedTime dbConvo;
  if statusChanged || changed then
    run! refetchUpsertConversation freshConvo (db_userId dbConvo) (db_id dbConvo);
    let stats1 := mkRefetchStats (checked stats) (resolved stats) (updated stats + 1)
                    (errors stats) in
    let stats2 :=
      if strictEqString freshStatus "resolved"
      then mkRefetchStats (checked stats1) (resolved stats1 + 1) (updated stats1)
             (errors stats1)
      else stats1 in
    run! sleep 300; ret stats2
  else
    run! sleep 300; ret stats.

(** The [catch] block, entered with the counters as they are at the throw. *)
Definition countError (stats : RefetchStats) : M Env RefetchStats :=
  run! sleep 500;
  ret (mkRefetchStats (checked stats) (resolved stats) (updated stats) (errors stats + 1)).

(** One turn of the loop. The counters are local variables, so the
    [catch] sees the increments made before the throw: [checked] is
    incremented as soon as the fetch has returned. *)
Definition refetchTurn (stats : RefetchStats) (dbConvo : DbConversation)
    : M Env RefetchStats :=
  try_catch
    (do! freshConvo <- fetchConversation api_get Number_toString (JString (db_id dbConvo));
     let stats1 := mkRefetchStats (checked stats + 1) (resolved stats) (updated stats)
                     (errors stats) in
     try_catch (compareAndUpdate stats1 dbConvo freshConvo)
       (fun _ => countError stats1))
    (fun _ => countError stats).

Fixpoint refetchLoop (stats : RefetchStats) (convos : list DbConversation)
    : M Env RefetchStats :=
  match convos with
  | [] => ret stats
  | dbConvo :: rest =>
      do! stats1 <- refetchTurn stats dbConvo;
      refetchLoop stats1 rest
  end.

(** [refetchUnresolvedConversations()], on the rows its query returned. *)
Definition refetchUnresolvedConversations (unresolvedConvos : list DbConversation)
    : M Env RefetchStats :=
  if Nat.eqb (length unresolvedConvos) 0 then ret zeroStats
  else refetchLoop zeroStats unresolvedConvos.

End Refetch.

(** The number of sleeps of [ms] milliseconds in a trace. *)
Definition sleepCount (ms : Z) (tr : list Event) : Z :=
  Z.of_nat (length (filter (fun x => Z.eqb x ms) (sleeps tr))).

(** What one or several turns add to the counters and to the trace:
    [n] is the number of turns. *)
Definition refetchProgress (n : Z) (stats stats' : RefetchStats) (new : list Event) : Prop :=
  0 <= resolved stats' - resolved stats
  /\ resolved stats' - resolved stats <= updated stats' - updated stats
  /\ updated stats' - updated stats <= checked stats' - checked stats
  /\ checked stats' - checked stats <= n
  /\ 0 <= errors stats' - errors stats
  /\ (updated stats' - updated stats) + (errors stats' - errors stats) <= n
  /\ n <= (checked stats' - checked stats) + (errors stats' - errors stats)
  /\ updated stats' - updated stats = okUpserts "Conversation" new
  /\ errors stats' - errors stats = sleepCount 500 new
  /\ n - (errors stats' - errors stats) = sleepCount 300 new.

(** A row of the table that agrees with what the mock chat API serves. *)
Definition unchangedRow : DbConversation :=
  mkDbConversation "c1" (JString "u1") "" 1704103201000 1704103199000.

Definition afterMockFetch : World nat :=
  mkWorld 1%nat [EGet "/conversations/c1" (mkParams None None []) (Ok mockConversation)]
    emptySummary.

(** A conversation whose [updated_time] is an object that cannot be
    converted to a primitive, and a chat API that serves it. *)
Definition objectTimeConversation : jsval :=
  JObject [("id", JString "c1"); ("status", JString "");
           ("updated_time", JObject [("toString", JNumber 1)])].

Definition objectTimeSource (n : nat) (path : string) (params : Params)
    : result Exn jsval * nat :=
  (Ok objectTimeConversation, S n).

(** * The back-fill of the messages ([backfillMessages.ts]) *)

(** The counters of the loop over the messages of one conversation:
    [newMessages], [skippedMessages] and the two totals of [stats]. *)
Record BackfillCounts : Type := mkBackfillCounts {
  newMessages : Z;
  skippedMessages : Z;
  totalMessagesInserted : Z;
  totalMessagesFailed : Z
}.

Section Backfill.

Context {Env : Type}.
Variable store_upsert : Env -> string -> jsval -> jsval -> result Exn unit * Env.
Variable Number_toString : Q -> string.
Variable Date_getTime : jsval -> option Z.
Variable toISOString : Z -> string.
(** [Date.now()] *)
Variable Date_now : Env -> Z.

Local Notation "'do!' x <- m ; k" := (bind m (fun x => k))
  (at level 10, x name, m at level 100, k at level 200).
Local Notation "'run!' m ; k" := (bind m (fun _ => k))
  (at level 10, m at level 100, k at level 200).

(** [upsertMessage(msg, conversationId)] of the back-fill: it drops the
    messages whose [actor_type] is exactly ['system'], and answers [false]
    instead of throwing. Its [extractMessageContent] is the one of the
    sync pass, word for word, and so is the [id] of its row; the row keeps
    its time of creation as a date. *)
Definition backfillUpsertMessage (msg convoId : jsval) : M Env bool :=
  try_catch
    (do! actor <- get msg "actor_type";
     if strictEqString actor "system" then ret false
     else
       do! message_parts <- get msg "message_parts";
       do! parts <- (if truthy message_parts then ret message_parts else get msg "parts");
       do! cleanContent <- lift (extractMessageContent Number_toString parts);
       do! id <- rowIdOf Number_toString Date_getTime toISOString Date_now msg convoId;
       run! dateOrNow Number_toString Date_getTime
              (js_or (optprop msg "created_time") (optprop msg "created_at"));
       run! store_call store_upsert "Message" id
              (JObject [("msg", msg); ("conversationid", convoId);
                        ("message_parts", JString cleanContent)]);
       ret true)
    (fun _ => ret false).

(** The loop over the messages fetched for one conversation;
    [existingMessageIds] is the set of the ids the table already holds. *)
Fixpoint backfillMessages (existingMessageIds : list jsval) (convId : jsval)
    (messages : list jsval) (counts : BackfillCounts) : M Env BackfillCounts :=
  match messages with
  | [] => ret counts
  | msg :: rest =>
      do! id <- get msg "id";
      do! messageId <- (if truthy id then ret id else get msg "uuid");
      if set_has existingMessageIds messageId then
        backfillMessages existingMessageIds convId rest
          (mkBackfillCounts (newMessages counts) (skippedMessages counts + 1)
             (totalMessagesInserted counts) (totalMessagesFailed counts))
      else
        do! success <- backfillUpsertMessage msg convId;
        backfillMessages existingMessageIds convId rest
          (if success then
             mkBackfillCounts (newMessages counts + 1) (skippedMessages counts)
               (totalMessagesInserted counts + 1) (totalMessagesFailed counts)
           else
             mkBackfillCounts (newMessages counts) (skippedMessages counts)
               (totalMessagesInserted counts) (totalMessagesFailed counts + 1))
  end.

End Backfill.

(** What the loop adds to the counters, over [n] messages. *)
Definition backfillProgress (n : Z) (c c' : BackfillCounts) (new : list Event) : Prop :=
  newMessages c' - newMessages c = okUpserts "Message" new
  /\ totalMessagesInserted c' - totalMessagesInserted c = okUpserts "Message" new
  /\ 0 <= skippedMessages c' - skippedMessages c
  /\ 0 <= totalMessagesFailed c' - totalMessagesFailed c
  /\ 0 <= okUpserts "Message" new
  /\ (newMessages c' - newMessages c) + (skippedMessages c' - skippedMessages c)
     + (totalMessagesFailed c' - totalMessagesFailed c) = n.

(** An upsert of the back-fill: into [Message], of a message that is not
    a ['system'] one and whose id, [msg.id || msg.uuid], the table did not
    hold; this id is the key unless it is falsy. *)
Definition backfillUpsert (existingMessageIds : list jsval) (e : Event) : Prop :=
  match e with
  | EUpsert table key source _ =>
      table = "Message"
      /\ exists msg convoId content,
           source = JObject [("msg", msg); ("conversationid", convoId);
                             ("message_parts", JString content)]
           /\ set_has existingMessageIds (js_or (optprop msg "id") (optprop msg "uuid"))
              = false
           /\ (truthy (js_or (optprop msg "id") (optprop msg "uuid")) = true ->
               key = js_or (optprop msg "id") (optprop msg "uuid"))
           /\ trim content = content
           /\ optprop msg "actor_type" <> JString "system"
  | EGet _ _ _ => False
  | ESleep _ => False
  end.

(** A message of the system whose [actor_type] is written in capitals. *)
Definition capitalSystemMessage : jsval :=
  JObject [("id", JString "m9"); ("actor_type", JString "SYSTEM");
           ("message_parts", JString "Conversation assigned to an agent")].

Definition zeroCounts : BackfillCounts := mkBackfillCounts 0 0 0 0.

(** A message of a user whose parts are an object that cannot be
    converted to a string. *)
Definition objectPartsMessage : jsval :=
  JObject [("id", JString "m10"); ("actor_type", JString "user");
           ("message_parts", JObject [("toString", JNumber 1)])].

(** * The route of the messages of a conversation ([api/get-messages]) *)

Module MessagesRoute.

Definition MAX_ATTEMPTS : Z := 3.
Definition RETRY_BASE : Z := 250.
Definition items_per_page : Z := 50.

(** A character of the class [[a-zA-Z0-9_-]]. *)
Definition isIdChar (c : ascii) : bool :=
  let n := nat_of_ascii c in
  ((Nat.leb 97 n && Nat.leb n 122) || (Nat.leb 65 n && Nat.leb n 90)
   || (Nat.leb 48 n && Nat.leb n 57) || Nat.eqb n 95 || Nat.eqb n 45)%bool.

(** [!!id && /^[a-zA-Z0-9_-]{6,}$/.test(id)]; [None] is the [null] of a
    missing parameter. *)
Definition isValidId (id : option string) : bool :=
  match id with
  | None => false
  | Some s =>
      (negb (String.eqb s "")
       && forallb isIdChar (list_ascii_of_string s)
       && Nat.leb 6 (String.length s))%bool
  end.

(** One turn of the loop of [extractTextFromParts]: the text pushed, if
    any. *)
Definition textOfPart (part : jsval) : result TypeError (option string) :=
  try! text <- prop part "text";
  match (if truthy text then optprop text "content" else JUndefined) with
  | JString s => Ok (Some s)
  | _ =>
      match optprop part "content" with
      | JString s => Ok (Some s)
      | _ => match text with
             | JString s => Ok (Some s)
             | _ => Ok None
             end
      end
  end.

Fixpoint textsOfParts (parts : list jsval) : result TypeError (list string) :=
  match parts with
  | [] => Ok []
  | part :: rest =>
      try! pushed <- textOfPart part;
      try! texts <- textsOfParts rest;
      Ok (match pushed with Some t => t :: texts | None => texts end)
  end.

(** [extractTextFromParts(parts)] *)
Definition extractTextFromParts (parts : jsval) : result TypeError (list string) :=
  match parts with
  | JArray items =>
      try! extractedTexts <- textsOfParts items;
      Ok (List.filter (fun text => negb (String.eqb (trim text) "")) extractedTexts)
  | _ => Ok []
  end.

(** The object that [batch.map] builds from one message [m]. *)
Definition toMessage (m : jsval) : result TypeError jsval :=
  try! id <- prop m "id";
  try! actor_type <- prop m "actor_type";
  try! message_parts <- prop m "message_parts";
  try! texts <- extractTextFromParts message_parts;
  try! created_time <- prop m "created_time";
  Ok (JObject [("id", id); ("actor_type", actor_type);
               ("message_parts", JArray (map JString texts));
               ("created_time", created_time)]).

Fixpoint mapToMessage (batch : list jsval) : result TypeError (list jsval) :=
  match batch with
  | [] => Ok []
  | m :: rest =>
      try! x <- toMessage m;
      try! xs <- mapToMessage rest;
      Ok (x :: xs)
  end.

(** What the handler answers: [NextResponse.json(body, { status })], with
    the messages of the body when it has them. *)
Record Answer : Type := mkAnswer {
  status : Z;
  messages : option (list jsval)
}.

Section Route.

Context {Env : Type}.
(** [axios.get(url, config)]: the answer is the response object, and the
    query string of the URL is given as the parameters. *)
Variable axios_get : Env -> string -> Params -> result Exn jsval * Env.
Variables FRESHCHAT_TOKEN FRESHCHAT_DOMAIN : option string.

Local Notation "'do!' x <- m ; k" := (bind m (fun x => k))
  (at level 10, x name, m at level 100, k at level 200).
Local Notation "'run!' m ; k" := (bind m (fun _ => k))
  (at level 10, m at level 100, k at level 200).

(** The [for] loop of [fetchWithRetry(url, config)], from [attempt] on;
    one unit of fuel per turn. Leaving the loop returns [undefined]. *)
Fixpoint fetchWithRetry_from (fuel : nat) (url : string) (params : Params)
    (attempt : Z) : M Env jsval :=
  match fuel with
  | O => out_of_fuel
  | S fuel' =>
      if attempt <=? MAX_ATTEMPTS then
        try_catch (api_get_data axios_get url params)
          (fun err =>
             if (status_is err 429 && (attempt <? MAX_ATTEMPTS))%bool then
               run! sleep (RETRY_BASE * 2 ^ (attempt - 1));
               fetchWithRetry_from fuel' url params (attempt + 1)
             else throw err)
      else ret JUndefined
  end.

Definition fetchWithRetry (url : string) (params : Params) : M Env jsval :=
  fetchWithRetry_from 4 url params 1.

Definition urlOf (domain conversation_id : string) : string :=
  "https://" ++ domain ++ "/v2/conversations/" ++ conversation_id ++ "/messages".

Definition paramsOf (page : Z) : Params := mkParams (Some page) (Some items_per_page) [].

(** The [while (hasMore)] of the handler; one unit of fuel per turn. *)
Fixpoint messagesLoop (fuel : nat) (url : string) (page : Z) (messages : list jsval)
    : M Env (list jsval) :=
  match fuel with
  | O => out_of_fuel
  | S fuel' =>
      do! res <- fetchWithRetry url (paramsOf page);
      match js_or (optprop (optprop res "data") "messages") (JArray []) with
      | JArray batch =>
          match mapToMessage batch with
          | Throw e => throw (TypeErr e)
          | Ok mapped =>
              if Z.of_nat (length batch) =? items_per_page
              then messagesLoop fuel' url (page + 1) (messages ++ mapped)
              else ret (messages ++ mapped)
          end
      | _ => throw (TypeErr (CannotReadProperty "map"))
      end
  end.

Definition unset (v : option string) : bool :=
  match v with
  | None => true
  | Some s => String.eqb s ""
  end.

(** [GET(req)], for the [conversation_id] of the query. *)
Definition GET (fuel : nat) (conversation_id : option string) : M Env Answer :=
  if negb (isValidId conversation_id) then ret (mkAnswer 400 None)
  else if (unset FRESHCHAT_TOKEN || unset FRESHCHAT_DOMAIN)%bool then ret (mkAnswer 500 None)
  else
    try_catch
      (do! messages <-
         messagesLoop fuel
           (urlOf (default "" FRESHCHAT_DOMAIN) (default "" conversation_id)) 1 [];
       ret (mkAnswer 200 (Some messages)))
      (fun err =>
         match status_of err with
         | Some status => ret (mkAnswer status None)
         | None => ret (mkAnswer 500 None)
         end).

End Route.

End MessagesRoute.

(** A message as the chat API lists it. *)
Definition listedMessage : jsval :=
  JObject [("id", JString "m1"); ("actor_type", JString "user");
           ("message_parts",
            JArray [JObject [("text", JObject [("content", JString "hello")])]]);
           ("created_time", JString "2024-01-01T10:00:00Z")].

(** A chat API that answers every request with a full page. *)
Definition fullPageSource (n : nat) (url : string) (params : Params)
    : result Exn jsval * nat :=
  (Ok (JObject [("data", JObject [("messages", JArray (repeat listedMessage 50))])]), S n).

(** The source answers every request with a page of [items_per_page]
    messages that the handler can map. *)
Definition alwaysFullPages {Env}
    (axios_get : Env -> string -> Params -> result Exn jsval * Env) : Prop :=
  forall env url params,
    exists res batch mapped,
      fst (axios_get env url params) = Ok res
      /\ optprop (optprop res "data") "messages" = JArray batch
      /\ Z.of_nat (length batch) = MessagesRoute.items_per_page
      /\ MessagesRoute.mapToMessage batch = Ok mapped.

(** * Properties *)

(** ** Examples of the string functions and of the normalizer *)

Example extractMessageContent_spec_example f :
  extractMessageContent f spec_example = Ok "a b".
Proof. reflexivity. Qed.

Example trim_example : trim ("  hi there" ++ String "009" "")%string = "hi there".
Proof. reflexivity. Qed.

Example split_example :
  split_whitespace " a  b c " = [""; "a"; "b"; "c"; ""].
Proof. reflexivity. Qed.


(** ** The retry protocol of [fetchWithRetry] *)

Section FetchWithRetryFacts.

Context {Env : Type}.
Variable api_get : Env -> string -> Params -> result Exn jsval * Env.

Lemma api_get_data_step path params (w : World Env) :
  api_get_data api_get path params w =
    (outcome_of (fst (api_get (env w) path params)),
     {| env := snd (api_get (env w) path params);
        trace := trace w ++ [EGet path params (fst (api_get (env w) path params))];
        summary := summary w |}).
Proof.
  unfold api_get_data. destruct (api_get (env w) path params) as [[d|e] env']; reflexivity.
Qed.

Local Ltac shape_case :=
  eexists _, _, _; split; [reflexivity|];
  cbn; rewrite <- ?app_assoc; cbn;
  repeat split; try discriminate; eauto;
  first [ left; eexists; split; [reflexivity|]; cbn; solve [eauto]
        | right; left; eexists _, _; split; [reflexivity|]; cbn; solve [eauto]
        | right; right; left; eexists _, _, _; split; [reflexivity|]; cbn; solve [eauto]
        | right; right; right; eexists _, _, _, _; split; [reflexivity|]; cbn; solve [eauto] ].

(** The shape of everything [fetchWithRetry] can do. *)
Lemma fetchWithRetry_shape path params (w : World Env) :
  exists new out w',
    fetchWithRetry api_get path params w = (out, w')
    /\ trace w' = trace w ++ new
    /\ summary w' = summary w
    /\ out <> OutOfFuel
    /\ (exists r, last (getOutcomes new) = Some r /\ out = outcome_of r)
    /\ getRequests new = replicate (length (getOutcomes new)) (path, params)
    /\ ((exists r, new = [EGet path params r] /\ is_throttle r = false)
        \/ (exists e1 r,
               new = [EGet path params (Throw e1); ESleep 1000; EGet path params r]
               /\ status_is e1 429 = true /\ is_throttle r = false)
        \/ (exists e1 e2 r,
               new = [EGet path params (Throw e1); ESleep 1000;
                      EGet path params (Throw e2); ESleep 2000; EGet path params r]
               /\ status_is e1 429 = true /\ status_is e2 429 = true
               /\ is_throttle r = false)
        \/ (exists e1 e2 e3 r,
               new = [EGet path params (Throw e1); ESleep 1000;
                      EGet path params (Throw e2); ESleep 2000;
                      EGet path params (Throw e3); ESleep 4000; EGet path params r]
               /\ status_is e1 429 = true /\ status_is e2 429 = true
               /\ status_is e3 429 = true)).
Proof.
  unfold fetchWithRetry, fetchWithRetry_from, try_catch, bind, sleep, throw, emit.
  rewrite api_get_data_step.
  destruct (api_get (env w) path params) as [[d1|e1] s1]; simpl.
  { shape_case. }
  destruct (status_is e1 429) eqn:T1; simpl; [|shape_case].
  rewrite api_get_data_step; simpl.
  destruct (api_get s1 path params) as [[d2|e2] s2]; simpl.
  { shape_case. }
  destruct (status_is e2 429) eqn:T2; simpl; [|shape_case].
  rewrite api_get_data_step; simpl.
  destruct (api_get s2 path params) as [[d3|e3] s3]; simpl.
  { shape_case. }
  destruct (status_is e3 429) eqn:T3; simpl; [|shape_case].
  rewrite api_get_data_step; simpl.
  destruct (api_get s3 path params) as [[d4|e4] s4]; simpl; [shape_case|].
  change (1 + 1 + 1 + 1 <? 4) with false. rewrite andb_false_r. shape_case.
Qed.

End FetchWithRetryFacts.

(** ** The loop of [paginate] *)

Section PaginateFacts.

Context {Env : Type}.
Variable api_get : Env -> string -> Params -> result Exn jsval * Env.

Lemma fetchWithRetry_ok path params (w : World Env) d s' :
  api_get (env w) path params = (Ok d, s') ->
  fetchWithRetry api_get path params w =
    (Returned d,
     {| env := s'; trace := trace w ++ [EGet path params (Ok d)];
        summary := summary w |}).
Proof.
  intros H. unfold fetchWithRetry, fetchWithRetry_from, try_catch.
  rewrite api_get_data_step, H. reflexivity.
Qed.

Lemma fetchWithRetry_ok_at path params s tr sm d s' :
  api_get s path params = (Ok d, s') ->
  fetchWithRetry api_get path params (mkWorld s tr sm) =
    (Returned d, mkWorld s' (tr ++ [EGet path params (Ok d)]) sm).
Proof. intros H. apply (fetchWithRetry_ok path params (mkWorld s tr sm) d s' H). Qed.

Lemma paginate_loop_unfold fuel path params itemsKey pageSize st :
  paginate_loop api_get (S fuel) path params itemsKey pageSize st =
  bind (fetchWithRetry api_get path (with_page params (page st)))
    (fun data =>
       let pageItems := pageItemsOf itemsKey data in
       if (Z.of_nat (length pageItems) =? 0) then ret (items st, EmptyPage)
       else
         let beforeLen := Z.of_nat (length (items st)) in
         let items' := items st ++ pageItems in
         let firstId := firstIdOf pageItems in
         if (truthy firstId && set_has (seenFirstIds st) firstId)%bool
         then ret (items', RepeatedFirstId)
         else
           let seen' := if truthy firstId then seenFirstIds st ++ [firstId]
                        else seenFirstIds st in
           if Z.of_nat (length pageItems) <? pageSize then ret (items', ShortPage)
           else if Z.of_nat (length items') =? beforeLen then ret (items', NothingNew)
           else
             if safety st + 1 >? 200 then ret (items', SafetyStop)
             else
               bind (sleep 500)
                 (fun _ =>
                    paginate_loop api_get fuel path params itemsKey pageSize
                      {| page := page st + 1; items := items';
                         seenFirstIds := seen'; safety := safety st + 1 |})).
Proof. reflexivity. Qed.

(** The fuel of [paginate] is never used up: the safety counter ends the
    loop first. *)
Lemma paginate_loop_terminates fuel path params itemsKey pageSize st (w : World Env) :
  201 <= Z.of_nat fuel + safety st -> safety st <= 200 ->
  fst (paginate_loop api_get fuel path params itemsKey pageSize st w) <> OutOfFuel.
Proof.
  revert st w. induction fuel as [|fuel IH]; intros st w Hf Hs; [lia|].
  rewrite paginate_loop_unfold. unfold bind at 1.
  destruct (fetchWithRetry_shape api_get path (with_page params (page st)) w)
    as (new & out & w' & E & _ & _ & Hout & _).
  rewrite E. destruct out as [data| |]; [|discriminate|congruence].
  cbv zeta.
  destruct (Z.of_nat (length (pageItemsOf itemsKey data)) =? 0); [discriminate|].
  destruct (truthy _ && set_has _ _)%bool; [discriminate|].
  destruct (_ <? pageSize); [discriminate|].
  destruct (_ =? Z.of_nat (length (items st))); [discriminate|].
  destruct (safety st + 1 >? 200) eqn:Hsafe; [discriminate|].
  unfold bind, sleep. apply IH; cbn; lia.
Qed.

Lemma paginate_terminates path params itemsKey (w : World Env) :
  fst (paginate api_get path params itemsKey w) <> OutOfFuel.
Proof.
  unfold paginate, bind.
  pose proof (paginate_loop_terminates 201 path params itemsKey (pageSizeOf params)
                {| page := startPage params; items := []; seenFirstIds := [];
                   safety := 0 |} w) as H.
  unfold paginate_stop.
  destruct (paginate_loop _ _ _ _ _ _ _ w) as [[r| |] w']; cbn in *;
    try discriminate. exfalso. apply H; [lia | lia | reflexivity].
Qed.

Lemma paginate_stop_unfold path params itemsKey :
  paginate_stop api_get path params itemsKey =
  paginate_loop api_get 201 path params itemsKey (pageSizeOf params)
    {| page := startPage params; items := []; seenFirstIds := []; safety := 0 |}.
Proof. reflexivity. Qed.

Lemma pageSizeOf_nonzero params : pageSizeOf params <> 0.
Proof.
  unfold pageSizeOf, number_or. destruct (p_items_per_page params) as [v|]; [|lia].
  destruct (v =? 0) eqn:E; lia.
Qed.

Lemma sameValueZero_refl v :
  is_primitive v = true -> sameValueZero v v = true.
Proof.
  destruct v; cbn; try discriminate; intros _; try reflexivity.
  - apply eqb_reflx.
  - apply Qeq_bool_iff. reflexivity.
  - apply String.eqb_refl.
Qed.

Lemma getOutcomes_app tr1 tr2 :
  getOutcomes (tr1 ++ tr2) = getOutcomes tr1 ++ getOutcomes tr2.
Proof. apply omap_app. Qed.

(** After a first page that is full, the loop goes on to the next page. *)
Lemma paginate_first_full_page path params itemsKey (w : World Env) d1 s1 :
  api_get (env w) path (with_page params (startPage params)) = (Ok d1, s1) ->
  Z.of_nat (length (pageItemsOf itemsKey d1)) = pageSizeOf params ->
  paginate_stop api_get path params itemsKey w =
    paginate_loop api_get 200 path params itemsKey (pageSizeOf params)
      {| page := startPage params + 1;
         items := pageItemsOf itemsKey d1;
         seenFirstIds :=
           if truthy (firstIdOf (pageItemsOf itemsKey d1))
           then [firstIdOf (pageItemsOf itemsKey d1)] else [];
         safety := 1 |}
      {| env := s1;
         trace := trace w ++ [EGet path (with_page params (startPage params)) (Ok d1);
                              ESleep 500];
         summary := summary w |}.
Proof.
  intros H1 Hlen. unfold paginate_stop.
  change 201%nat with (S 200). rewrite paginate_loop_unfold.
  unfold bind at 1. cbn [page items seenFirstIds safety].
  rewrite (fetchWithRetry_ok _ _ _ _ _ H1). cbv zeta.
  pose proof (pageSizeOf_nonzero params) as Hnz.
  destruct (Z.eqb_spec (Z.of_nat (length (pageItemsOf itemsKey d1))) 0); [lia|].
  cbn [set_has existsb]. rewrite andb_false_r.
  destruct (Z.ltb_spec (Z.of_nat (length (pageItemsOf itemsKey d1))) (pageSizeOf params));
    [lia|].
  cbn [app length].
  destruct (Z.eqb_spec (Z.of_nat (length (pageItemsOf itemsKey d1))) (Z.of_nat 0)); [lia|].
  change (0 + 1 >? 200) with false. cbv iota.
  unfold bind, sleep, emit. cbn [env trace summary].
  rewrite <- app_assoc. reflexivity.
Qed.

(** The second turn of the loop on a source that served a full first
    page and serves a short second one. *)
Lemma paginate_two_pages_stop path params itemsKey (w : World Env) d1 s1 d2 s2 :
  api_get (env w) path (with_page params (startPage params)) = (Ok d1, s1) ->
  api_get s1 path (with_page params (startPage params + 1)) = (Ok d2, s2) ->
  Z.of_nat (length (pageItemsOf itemsKey d1)) = pageSizeOf params ->
  Z.of_nat (length (pageItemsOf itemsKey d2)) < pageSizeOf params ->
  exists stop,
    paginate_stop api_get path params itemsKey w =
      (Returned (pageItemsOf itemsKey d1 ++ pageItemsOf itemsKey d2, stop),
       {| env := s2;
          trace := trace w ++
                   [EGet path (with_page params (startPage params)) (Ok d1);
                    ESleep 500;
                    EGet path (with_page params (startPage params + 1)) (Ok d2)];
          summary := summary w |}).
Proof.
  intros H1 H2 Hlen1 Hlen2.
  rewrite (paginate_first_full_page _ _ _ _ _ _ H1 Hlen1).
  change 200%nat with (S 199). rewrite paginate_loop_unfold.
  unfold bind at 1. cbn [page items seenFirstIds safety].
  rewrite (fetchWithRetry_ok_at _ _ _ _ _ _ _ H2). cbn [env trace summary]. cbv zeta.
  rewrite <- app_assoc. cbn [app].
  destruct (Z.eqb_spec (Z.of_nat (length (pageItemsOf itemsKey d2))) 0) as [E0|E0].
  { assert (pageItemsOf itemsKey d2 = []) as ->
      by (destruct (pageItemsOf itemsKey d2); [reflexivity | cbn in E0; lia]).
    rewrite app_nil_r. eexists. reflexivity. }
  destruct (truthy (firstIdOf (pageItemsOf itemsKey d2)) && _)%bool.
  { eexists. reflexivity. }
  destruct (Z.ltb_spec (Z.of_nat (length (pageItemsOf itemsKey d2))) (pageSizeOf params));
    [|lia].
  eexists. reflexivity.
Qed.

(** A source that serves the same full page whatever is asked. *)
Lemma paginate_stop_stuck path params itemsKey (w : World Env) d :
  (forall s prm, fst (api_get s path prm) = Ok d) ->
  Z.of_nat (length (pageItemsOf itemsKey d)) = pageSizeOf params ->
  truthy (firstIdOf (pageItemsOf itemsKey d)) = true ->
  is_primitive (firstIdOf (pageItemsOf itemsKey d)) = true ->
  exists s2,
    paginate_stop api_get path params itemsKey w =
      (Returned (pageItemsOf itemsKey d ++ pageItemsOf itemsKey d, RepeatedFirstId),
       {| env := s2;
          trace := trace w ++
                   [EGet path (with_page params (startPage params)) (Ok d);
                    ESleep 500;
                    EGet path (with_page params (startPage params + 1)) (Ok d)];
          summary := summary w |}).
Proof.
  intros Hsame Hlen Hid Hprim.
  destruct (api_get (env w) path (with_page params (startPage params)))
    as [r1 s1] eqn:H1.
  pose proof (Hsame (env w) (with_page params (startPage params))) as E1.
  rewrite H1 in E1. cbn in E1. subst r1.
  destruct (api_get s1 path (with_page params (startPage params + 1)))
    as [r2 s2] eqn:H2.
  pose proof (Hsame s1 (with_page params (startPage params + 1))) as E2.
  rewrite H2 in E2. cbn in E2. subst r2.
  exists s2.
  rewrite (paginate_first_full_page _ _ _ _ _ _ H1 Hlen).
  change 200%nat with (S 199). rewrite paginate_loop_unfold.
  unfold bind at 1. cbn [page items seenFirstIds safety].
  rewrite (fetchWithRetry_ok_at _ _ _ _ _ _ _ H2). cbn [env trace summary]. cbv zeta.
  rewrite <- app_assoc. cbn [app].
  pose proof (pageSizeOf_nonzero params) as Hnz.
  destruct (Z.eqb_spec (Z.of_nat (length (pageItemsOf itemsKey d))) 0); [lia|].
  rewrite Hid. cbn [set_has existsb]. rewrite (sameValueZero_refl _ Hprim).
  reflexivity.
Qed.


End PaginateFacts.


(** ** The fetch client: retry, termination of the pagination *)

Section FetchClientClaims.

Context {Env : Type}.
Variable api_get : Env -> string -> Params -> result Exn jsval * Env.

(** C7. [fetchWithRetry] asks at least once and at most four times, always
    for the same path and parameters; it sleeps 1 s, 2 s and 4 s before the
    second, third and fourth request, and its trace is exactly these
    requests with these sleeps between them; every request but the last
    one was answered with status 429, and an answer with status 429 is the
    last one only when it is the fourth: a 429 is always followed by the
    back-off and another request while less than four were made; when the
    first answer is not a 429 there is no other request and no sleep; the
    result is the last answer, a failure being thrown to the caller. *)
Theorem fetchWithRetry_retries_only_on_throttle path params (w : World Env) :
  exists new out w',
    fetchWithRetry api_get path params w = (out, w')
    /\ trace w' = trace w ++ new
    /\ (1 <= length (getOutcomes new) <= 4)%nat
    /\ getRequests new = replicate (length (getOutcomes new)) (path, params)
    /\ sleeps new = firstn (length (getOutcomes new) - 1) [1000; 2000; 4000]
    /\ (forall i r, getOutcomes new !! i = Some r ->
                    (S i < length (getOutcomes new))%nat -> is_throttle r = true)
    /\ (forall r, head (getOutcomes new) = Some r -> is_throttle r = false ->
                  new = [EGet path params r] /\ out = outcome_of r)
    /\ (exists r, last (getOutcomes new) = Some r /\ out = outcome_of r)
    /\ out <> OutOfFuel
    /\ new = retryTrace path params 1000 (getOutcomes new)
    /\ (forall r, last (getOutcomes new) = Some r -> is_throttle r = true ->
                  length (getOutcomes new) = 4%nat).
Proof.
  destruct (fetchWithRetry_shape api_get path params w)
    as (new & out & w' & E & Htr & _ & Hfuel & Hlast & Hreq & Hshape).
  exists new, out, w'. split; [exact E|]. split; [exact Htr|].
  assert (forall e, status_is e 429 = true -> is_throttle (Throw e) = true) as Hthr
    by (intros e He; exact He).
  destruct Hshape as [(r & -> & Hr)
                     |[(e1 & r & -> & T1 & Hr)
                      |[(e1 & e2 & r & -> & T1 & T2 & Hr)
                       |(e1 & e2 & e3 & r & -> & T1 & T2 & T3)]]];
    cbn in *; (split; [lia|]); (split; [exact Hreq|]); (split; [reflexivity|]);
    (split; [|split; [|split; [exact Hlast|split; [exact Hfuel|split; [reflexivity|]]]]]).
  - intros i r0 Hi Hlt. lia.
  - intros r0 Hr0 Hf. injection Hr0 as <-. destruct Hlast as (r' & Hl & ->).
    injection Hl as <-. auto.
  - intros r0 Hr0 Ht. injection Hr0 as <-. congruence.
  - intros [|[|i]] r0 Hi Hlt; cbn in Hi; try lia. injection Hi as <-. auto.
  - intros r0 Hr0 Hf. injection Hr0 as <-. cbn in Hf. congruence.
  - intros r0 Hr0 Ht. injection Hr0 as <-. congruence.
  - intros [|[|[|i]]] r0 Hi Hlt; cbn in Hi; try lia; injection Hi as <-; auto.
  - intros r0 Hr0 Hf. injection Hr0 as <-. cbn in Hf. congruence.
  - intros r0 Hr0 Ht. injection Hr0 as <-. congruence.
  - intros [|[|[|[|i]]]] r0 Hi Hlt; cbn in Hi; try lia; injection Hi as <-; auto.
  - intros r0 Hr0 Hf. injection Hr0 as <-. cbn in Hf. congruence.
  - intros r0 Hr0 Ht. reflexivity.
Qed.

(** C5. When the first page is full and the second one is short,
    [paginate] returns the items of the two pages, in order, after exactly
    two requests (one sleep of 500 ms between them). *)
Theorem paginate_two_pages path params itemsKey (w : World Env) d1 s1 d2 s2 :
  api_get (env w) path (with_page params (startPage params)) = (Ok d1, s1) ->
  api_get s1 path (with_page params (startPage params + 1)) = (Ok d2, s2) ->
  Z.of_nat (length (pageItemsOf itemsKey d1)) = pageSizeOf params ->
  Z.of_nat (length (pageItemsOf itemsKey d2)) < pageSizeOf params ->
  paginate api_get path params itemsKey w =
    (Returned (pageItemsOf itemsKey d1 ++ pageItemsOf itemsKey d2),
     {| env := s2;
        trace := trace w ++
                 [EGet path (with_page params (startPage params)) (Ok d1);
                  ESleep 500;
                  EGet path (with_page params (startPage params + 1)) (Ok d2)];
        summary := summary w |}).
Proof.
  intros H1 H2 Hlen1 Hlen2.
  destruct (paginate_two_pages_stop api_get path params itemsKey w d1 s1 d2 s2
              H1 H2 Hlen1 Hlen2) as (stop & E).
  unfold paginate, bind. rewrite E. reflexivity.
Qed.

(** C6. On a source that serves the same full page whatever page is asked,
    and whose first item carries an identifier, [paginate] stops at the
    second request, by the test on the repeating first id. *)
Theorem paginate_stuck_source_two_calls path params itemsKey (w : World Env) d :
  (forall s prm, fst (api_get s path prm) = Ok d) ->
  Z.of_nat (length (pageItemsOf itemsKey d)) = pageSizeOf params ->
  truthy (firstIdOf (pageItemsOf itemsKey d)) = true ->
  is_primitive (firstIdOf (pageItemsOf itemsKey d)) = true ->
  exists its new w',
    paginate api_get path params itemsKey w = (Returned its, w')
    /\ paginate_stop api_get path params itemsKey w = (Returned (its, RepeatedFirstId), w')
    /\ trace w' = trace w ++ new
    /\ getOutcomes new = [Ok d; Ok d]
    /\ (length (getRequests new) <= 2)%nat.
Proof.
  intros Hsame Hlen Hid Hprim.
  destruct (paginate_stop_stuck api_get path params itemsKey w d Hsame Hlen Hid Hprim)
    as (s2 & E).
  exists (pageItemsOf itemsKey d ++ pageItemsOf itemsKey d),
    [EGet path (with_page params (startPage params)) (Ok d); ESleep 500;
     EGet path (with_page params (startPage params + 1)) (Ok d)].
  eexists. unfold paginate, bind. rewrite E.
  split; [reflexivity|]. split; [reflexivity|]. split; [reflexivity|].
  split; [reflexivity|]. simpl. lia.
Qed.


End FetchClientClaims.

Lemma fetchWithRetry_retries_only_on_throttle_witness :
  exists new out w',
    fetchWithRetry (throttlingSource 2) "/users" pagesOfTwo freshWorld = (out, w')
    /\ trace w' = trace freshWorld ++ new
    /\ (1 <= length (getOutcomes new) <= 4)%nat
    /\ getRequests new = replicate (length (getOutcomes new)) ("/users", pagesOfTwo)
    /\ sleeps new = firstn (length (getOutcomes new) - 1) [1000; 2000; 4000]
    /\ (forall i r, getOutcomes new !! i = Some r ->
                    (S i < length (getOutcomes new))%nat -> is_throttle r = true)
    /\ (forall r, head (getOutcomes new) = Some r -> is_throttle r = false ->
                  new = [EGet "/users" pagesOfTwo r] /\ out = outcome_of r)
    /\ (exists r, last (getOutcomes new) = Some r /\ out = outcome_of r)
    /\ out <> OutOfFuel
    /\ new = retryTrace "/users" pagesOfTwo 1000 (getOutcomes new)
    /\ (forall r, last (getOutcomes new) = Some r -> is_throttle r = true ->
                  length (getOutcomes new) = 4%nat).
Proof.
  exact (fetchWithRetry_retries_only_on_throttle (throttlingSource 2) "/users"
           pagesOfTwo freshWorld).
Defined.

Example fetchWithRetry_throttled_twice :
  fetchWithRetry (throttlingSource 2) "/users" pagesOfTwo freshWorld =
    (Thrown (AxiosErr (Some 500) "Internal Server Error"),
     mkWorld 3%nat
       [EGet "/users" pagesOfTwo (Throw (AxiosErr (Some 429) "Too Many Requests"));
        ESleep 1000;
        EGet "/users" pagesOfTwo (Throw (AxiosErr (Some 429) "Too Many Requests"));
        ESleep 2000;
        EGet "/users" pagesOfTwo (Throw (AxiosErr (Some 500) "Internal Server Error"))]
       emptySummary).
Proof. vm_compute. reflexivity. Qed.

Example fetchWithRetry_gives_up_after_four :
  getOutcomes (trace (snd (fetchWithRetry (throttlingSource 9) "/users" pagesOfTwo freshWorld)))
  = replicate 4 (Throw (AxiosErr (Some 429) "Too Many Requests"))
  /\ sleeps (trace (snd (fetchWithRetry (throttlingSource 9) "/users" pagesOfTwo freshWorld)))
     = [1000; 2000; 4000].
Proof. vm_compute. split; reflexivity. Qed.

(** Without an identifier on the first item the defence cannot fire: the
    same source is asked 201 times, until the safety counter ends the loop. *)
Example paginate_anonymous_source_runs_to_the_ceiling :
  length (getRequests
            (trace (snd (paginate_stop anonymousSource "/users" pagesOfTwo "users"
                           freshWorld)))) = 201%nat
  /\ (exists its, fst (paginate_stop anonymousSource "/users" pagesOfTwo "users" freshWorld)
                  = Returned (its, SafetyStop)).
Proof. split; [vm_compute; reflexivity | eexists; vm_compute; reflexivity]. Qed.

Lemma paginate_two_pages_witness :
  paginate twoPageSource "/users" pagesOfTwo "users" freshWorld =
    (Returned (pageItemsOf "users" (usersPage ["u1"; "u2"])
               ++ pageItemsOf "users" (usersPage ["u3"])),
     {| env := 2%nat;
        trace := trace freshWorld ++
                 [EGet "/users" (with_page pagesOfTwo (startPage pagesOfTwo))
                    (Ok (usersPage ["u1"; "u2"]));
                  ESleep 500;
                  EGet "/users" (with_page pagesOfTwo (startPage pagesOfTwo + 1))
                    (Ok (usersPage ["u3"]))];
        summary := summary freshWorld |}).
Proof.
  apply (paginate_two_pages twoPageSource "/users" pagesOfTwo "users" freshWorld
           (usersPage ["u1"; "u2"]) 1%nat (usersPage ["u3"]) 2%nat).
  - reflexivity.
  - reflexivity.
  - reflexivity.
  - vm_compute. reflexivity.
Defined.

Lemma paginate_stuck_source_two_calls_witness :
  exists its new w',
    paginate stuckSource "/users" pagesOfTwo "users" freshWorld = (Returned its, w')
    /\ paginate_stop stuckSource "/users" pagesOfTwo "users" freshWorld
       = (Returned (its, RepeatedFirstId), w')
    /\ trace w' = trace freshWorld ++ new
    /\ getOutcomes new = [Ok (usersPage ["u1"; "u2"]); Ok (usersPage ["u1"; "u2"])]
    /\ (length (getRequests new) <= 2)%nat.
Proof.
  apply (paginate_stuck_source_two_calls stuckSource "/users" pagesOfTwo "users"
           freshWorld (usersPage ["u1"; "u2"])).
  - intros s prm. reflexivity.
  - reflexivity.
  - reflexivity.
  - reflexivity.
Defined.



(** ** The sync pass: conversions and dates *)

Section Silent.

Context {Env : Type}.
Variable Number_toString : Q -> string.
Variable Date_getTime : jsval -> option Z.
Variable toISOString : Z -> string.
Variable Date_now : Env -> Z.

Lemma silent_ret {A} (a : A) : silent (@ret Env A a).
Proof. intros w. split; [reflexivity | discriminate]. Qed.

Lemma silent_throw {A} e : silent (@throw Env A e).
Proof. intros w. split; [reflexivity | discriminate]. Qed.

Lemma silent_bind {A B} (m : M Env A) (k : A -> M Env B) :
  silent m -> (forall a, silent (k a)) -> silent (bind m k).
Proof.
  intros Hm Hk w. unfold bind. destruct (Hm w) as [Hw Hf].
  destruct (m w) as [[a|e|] w1]; cbn in Hw, Hf; subst.
  - apply Hk.
  - split; [reflexivity | discriminate].
  - contradiction.
Qed.

Lemma silent_lift {A} (r : result TypeError A) : silent (@lift Env A r).
Proof. destruct r; [apply silent_ret | apply silent_throw]. Qed.

Lemma silent_get v k : silent (@get Env v k).
Proof. unfold get. destruct (prop v k); [apply silent_ret | apply silent_throw]. Qed.

Lemma silent_toStringM v : silent (@toStringM Env Number_toString v).
Proof. apply silent_lift. Qed.

Lemma silent_newDate v : silent (@newDate Env Number_toString Date_getTime v).
Proof.
  unfold newDate. apply silent_bind; [apply silent_toStringM | intros; apply silent_ret].
Qed.

Lemma silent_isoOf v : silent (@isoOf Env Number_toString Date_getTime toISOString v).
Proof.
  unfold isoOf. apply silent_bind; [apply silent_newDate|].
  intros [t|]; [apply silent_ret | apply silent_throw].
Qed.

Lemma silent_dateNow : silent (dateNow Date_now).
Proof. intros w. split; [reflexivity | discriminate]. Qed.

Lemma silent_isoOrNow v :
  silent (isoOrNow Number_toString Date_getTime toISOString Date_now v).
Proof.
  unfold isoOrNow. destruct (truthy v); [apply silent_isoOf|].
  apply silent_bind; [apply silent_dateNow | intros; apply silent_ret].
Qed.

Lemma silent_dateOrNow v : silent (@dateOrNow Env Number_toString Date_getTime v).
Proof.
  unfold dateOrNow. destruct (truthy v); [|apply silent_ret].
  apply silent_bind; [apply silent_newDate | intros; apply silent_ret].
Qed.

Lemma silent_createdISO msg :
  silent (createdISO Number_toString Date_getTime toISOString Date_now msg).
Proof. apply silent_isoOrNow. Qed.

Lemma silent_rowIdOf msg conversationId :
  silent (rowIdOf Number_toString Date_getTime toISOString Date_now msg conversationId).
Proof.
  unfold rowIdOf. cbv zeta. destruct (truthy _); [apply silent_ret|].
  apply silent_bind; [apply silent_toStringM | intros c].
  apply silent_bind; [apply silent_createdISO | intros iso; apply silent_ret].
Qed.

Lemma silent_isWithinWindow iso windowStart now :
  silent (@isWithinWindow Env Number_toString Date_getTime iso windowStart now).
Proof.
  unfold isWithinWindow. apply silent_bind; [apply silent_newDate | intros; apply silent_ret].
Qed.

Lemma silent_createdInWindow convoDetail uc windowStart now :
  silent (@createdInWindow Env Number_toString Date_getTime convoDetail uc windowStart now).
Proof.
  unfold createdInWindow. destruct (truthy _);
    [apply silent_isWithinWindow | apply silent_ret].
Qed.

Lemma silent_updatedInWindow convoDetail uc windowStart now :
  silent (@updatedInWindow Env Number_toString Date_getTime convoDetail uc windowStart now).
Proof.
  unfold updatedInWindow. destruct (truthy _);
    [apply silent_isWithinWindow | apply silent_ret].
Qed.

Lemma prop_optprop v k x : prop v k = Ok x -> optprop v k = x.
Proof. destruct v; cbn; intros H; try discriminate; now injection H. Qed.

(** A silent computation returns or throws, in the world it started in. *)
Lemma silent_run {A} (m : M Env A) w :
  silent m -> (exists a, m w = (Returned a, w)) \/ (exists e, m w = (Thrown e, w)).
Proof.
  intros H. destruct (H w) as [Hw Hf]. destruct (m w) as [[a|e|] w1]; cbn in Hw, Hf; subst.
  - left. eauto.
  - right. eauto.
  - contradiction.
Qed.

Lemma silent_returned {A} (m : M Env A) w a w' :
  silent m -> m w = (Returned a, w') -> w' = w.
Proof. intros H E. destruct (H w) as [Hw _]. rewrite E in Hw. exact Hw. Qed.

Lemma silent_thrown {A} (m : M Env A) w e w' :
  silent m -> m w = (Thrown e, w') -> w' = w.
Proof. intros H E. destruct (H w) as [Hw _]. rewrite E in Hw. exact Hw. Qed.

(** ** What the conversions give *)

Lemma toStringM_ok v c (w : World Env) :
  js_String Number_toString v = Ok c -> toStringM Number_toString v w = (Returned c, w).
Proof. intros H. unfold toStringM. rewrite H. reflexivity. Qed.

Lemma convertible_ok v :
  convertible Number_toString v = true -> exists c, js_String Number_toString v = Ok c.
Proof. unfold convertible. destruct (js_String Number_toString v); [eauto | discriminate]. Qed.

Lemma toStringM_fails v (w : World Env) :
  convertible Number_toString v = false ->
  exists e, toStringM Number_toString v w = (Thrown e, w).
Proof.
  unfold convertible, toStringM.
  destruct (js_String Number_toString v); [discriminate | eexists; reflexivity].
Qed.

Lemma newDate_ok v (w : World Env) :
  convertible Number_toString v = true ->
  newDate Number_toString Date_getTime v w = (Returned (Date_getTime v), w).
Proof.
  intros H. destruct (convertible_ok v H) as (c & Hc).
  unfold newDate, bind. rewrite (toStringM_ok v c w Hc). reflexivity.
Qed.

Lemma isoOrNow_ok given (w : World Env) :
  negb (truthy given) || printsAsDate Number_toString Date_getTime given = true ->
  exists iso,
    isoOrNow Number_toString Date_getTime toISOString Date_now given w = (Returned iso, w).
Proof.
  unfold isoOrNow, printsAsDate. destruct (truthy given); cbn [negb orb].
  - intros H. apply andb_true_iff in H as [Hc Hd]. apply bool_decide_eq_true in Hd.
    destruct Hd as [t Ht]. unfold isoOf, bind. rewrite (newDate_ok given w Hc), Ht.
    eexists. reflexivity.
  - intros _. eexists. reflexivity.
Qed.

Lemma isoOrNow_fails given (w : World Env) :
  negb (truthy given) || printsAsDate Number_toString Date_getTime given = false ->
  exists e,
    isoOrNow Number_toString Date_getTime toISOString Date_now given w = (Thrown e, w).
Proof.
  unfold isoOrNow, printsAsDate. destruct (truthy given); cbn [negb orb]; [|discriminate].
  intros H. unfold isoOf, bind.
  destruct (convertible Number_toString given) eqn:Hc.
  - rewrite (newDate_ok given w Hc). cbn [andb] in H. apply bool_decide_eq_false in H.
    destruct (Date_getTime given) as [t|]; [exfalso; apply H; eauto|].
    eexists. reflexivity.
  - unfold newDate, bind. destruct (toStringM_fails given w Hc) as (e & ->).
    eexists. reflexivity.
Qed.

(** What cannot be converted to a string is an object or an array. *)
Lemma unconvertible_truthy v : convertible Number_toString v = false -> truthy v = true.
Proof.
  unfold convertible.
  destruct v as [| |b|q|s|l|fields]; try reflexivity; cbn; try discriminate.
  destruct b; discriminate.
Qed.

Lemma dateOrNow_ok given (w : World Env) :
  negb (truthy given) || convertible Number_toString given = true ->
  dateOrNow Number_toString Date_getTime given w = (Returned tt, w).
Proof.
  unfold dateOrNow. destruct (truthy given); cbn [negb orb]; [|reflexivity].
  intros H. unfold bind. rewrite (newDate_ok _ w H).
  reflexivity.
Qed.

Lemma dateOrNow_fails given (w : World Env) :
  negb (truthy given) || convertible Number_toString given = false ->
  exists e, dateOrNow Number_toString Date_getTime given w = (Thrown e, w).
Proof.
  unfold dateOrNow. destruct (truthy given); cbn [negb orb]; [|discriminate].
  intros H. unfold newDate, bind. destruct (toStringM_fails _ w H) as (e & ->).
  eexists. reflexivity.
Qed.

(** The test of a timestamp that can be converted. *)
Lemma inWindow_run iso windowStart now (w : World Env) :
  convertible Number_toString iso = true ->
  (if truthy iso
   then isWithinWindow Number_toString Date_getTime iso windowStart now
   else ret false) w
  = (Returned (inWindowOf Date_getTime iso windowStart now), w).
Proof.
  intros H. unfold inWindowOf. destruct (truthy iso); [|reflexivity].
  unfold isWithinWindow, bind. rewrite (newDate_ok iso w H). reflexivity.
Qed.

End Silent.

Ltac silent_tac :=
  repeat first
    [ apply silent_ret | apply silent_throw | apply silent_lift | apply silent_get
    | apply silent_toStringM | apply silent_newDate | apply silent_isoOf
    | apply silent_dateNow | apply silent_isoOrNow | apply silent_dateOrNow
    | apply silent_createdISO | apply silent_rowIdOf | apply silent_isWithinWindow
    | apply silent_createdInWindow | apply silent_updatedInWindow
    | (apply silent_bind; [|intros]) ].

(** The upper case of the actor types: the long s and the ligature of s
    and t make a [SYSTEM] of a word that holds neither. *)
Example toUpperCase_of_actor_types :
  toUpperCase "system" = "SYSTEM" /\ toUpperCase "Bot" = "BOT"
  /\ toUpperCase "ſyﬆem" = "SYSTEM".
Proof. vm_compute. repeat split. Qed.

(** ** The sync pass: traces only grow *)

Section SyncFacts.

Context {Env : Type}.
Variable api_get : Env -> string -> Params -> result Exn jsval * Env.
Variable store_upsert : Env -> string -> jsval -> jsval -> result Exn unit * Env.
Variable Number_toString : Q -> string.
Variable Date_getTime : jsval -> option Z.
Variable toISOString : Z -> string.
Variable Date_now : Env -> Z.

Local Abbreviation extends := (@trace_extends Env _).


Lemma extends_ret {A} (a : A) : extends (ret a).
Proof. intros w. exists []. cbn. now rewrite app_nil_r. Qed.

Lemma extends_throw {A} e : extends (@throw Env A e).
Proof. intros w. exists []. cbn. now rewrite app_nil_r. Qed.

Lemma extends_bind {A B} (m : M Env A) (k : A -> M Env B) :
  extends m -> (forall a, extends (k a)) -> extends (bind m k).
Proof.
  intros Hm Hk w. unfold bind. destruct (Hm w) as (tr1 & E1).
  destruct (m w) as [[a|e|] w1]; cbn in E1.
  - destruct (Hk a w1) as (tr2 & E2). exists (tr1 ++ tr2).
    rewrite E2, E1. now rewrite app_assoc.
  - exists tr1. exact E1.
  - exists tr1. exact E1.
Qed.

Lemma extends_try_catch {A} (m : M Env A) (h : Exn -> M Env A) :
  extends m -> (forall e, extends (h e)) -> extends (try_catch m h).
Proof.
  intros Hm Hh w. unfold try_catch. destruct (Hm w) as (tr1 & E1).
  destruct (m w) as [[a|e|] w1]; cbn in E1.
  - exists tr1. exact E1.
  - destruct (Hh e w1) as (tr2 & E2). exists (tr1 ++ tr2).
    rewrite E2, E1. now rewrite app_assoc.
  - exists tr1. exact E1.
Qed.

Lemma extends_silent {A} (m : M Env A) : silent m -> extends m.
Proof. intros H w. exists []. rewrite (proj1 (H w)). now rewrite app_nil_r. Qed.

Lemma extends_sleep ms : extends (@sleep Env ms).
Proof. intros w. exists [ESleep ms]. reflexivity. Qed.

Lemma extends_count f : extends (@count Env f).
Proof. intros w. exists []. cbn. now rewrite app_nil_r. Qed.

Lemma extends_get v k : extends (@get Env v k).
Proof. unfold get. destruct (prop v k); [apply extends_ret | apply extends_throw]. Qed.

Lemma extends_upperOrEmpty v : extends (@upperOrEmpty Env v).
Proof.
  unfold upperOrEmpty. destruct (js_or v (JString ""));
    first [apply extends_ret | apply extends_throw].
Qed.

Lemma extends_store_call table key source :
  extends (store_call store_upsert table key source).
Proof.
  intros w. unfold store_call.
  destruct (store_upsert (env w) table key source) as [[u|e] env'];
    eexists; reflexivity.
Qed.

Lemma extends_fetchWithRetry path params :
  extends (fetchWithRetry api_get path params).
Proof.
  intros w. destruct (fetchWithRetry_shape api_get path params w)
    as (new & out & w' & E & Htr & _).
  exists new. rewrite E. exact Htr.
Qed.

Lemma extends_paginate_loop fuel path params itemsKey pageSize st :
  extends (paginate_loop api_get fuel path params itemsKey pageSize st).
Proof.
  revert st. induction fuel as [|fuel IH]; intros st.
  - intros w. exists []. cbn. now rewrite app_nil_r.
  - rewrite paginate_loop_unfold. apply extends_bind; [apply extends_fetchWithRetry|].
    intros data. cbv zeta.
    repeat match goal with
           | |- extends (if ?c then _ else _) => destruct c
           end;
      try apply extends_ret.
    all: apply extends_bind; [apply extends_sleep | intros _; apply IH].
Qed.

Lemma extends_paginate path params itemsKey :
  extends (paginate api_get path params itemsKey).
Proof.
  unfold paginate. apply extends_bind; [|intros r; apply extends_ret].
  rewrite paginate_stop_unfold. apply extends_paginate_loop.
Qed.

(** The first thing [paginate] does is to ask for the start page. *)
Lemma paginate_first_event path params itemsKey (w : World Env) :
  exists r more,
    trace (snd (paginate api_get path params itemsKey w)) =
      trace w ++ EGet path (with_page params (startPage params)) r :: more.
Proof.
  unfold paginate. rewrite paginate_stop_unfold.
  change 201%nat with (S 200). rewrite paginate_loop_unfold.
  cbn [page items seenFirstIds safety].
  set (k := fun data : jsval => _).
  set (k2 := fun r : list jsval * Stop => _).
  assert (forall a, extends (k a)) as Hk.
  { intros data. subst k. cbv beta zeta.
    repeat match goal with
           | |- extends (if ?c then _ else _) => destruct c
           end;
      try apply extends_ret.
    all: apply extends_bind; [apply extends_sleep | intros _; apply extends_paginate_loop]. }
  assert (forall a, extends (k2 a)) as Hk2 by (intros a; apply extends_ret).
  destruct (fetchWithRetry_shape api_get path (with_page params (startPage params)) w)
    as (new & out & w1 & E & Htr & _ & _ & _ & _ & Hshape).
  assert (exists r new', new = EGet path (with_page params (startPage params)) r :: new')
    as (r & new' & ->).
  { destruct Hshape as [(r & -> & _)|[(e1 & r & -> & _)
                       |[(e1 & e2 & r & -> & _)|(e1 & e2 & e3 & r & -> & _)]]];
      eexists _, _; reflexivity. }
  exists r.
  unfold bind at 1. unfold bind at 1. rewrite E.
  destruct out as [data| |].
  - destruct (Hk data w1) as (tr2 & E2).
    destruct (k data w1) as [[a|e|] w2] eqn:Ek; cbn in E2.
    + destruct (Hk2 a w2) as (tr3 & E3). exists (new' ++ tr2 ++ tr3).
      rewrite E3, E2, Htr. rewrite <- !app_assoc. reflexivity.
    + exists (new' ++ tr2). cbn. rewrite E2, Htr. rewrite <- !app_assoc. reflexivity.
    + exists (new' ++ tr2). cbn. rewrite E2, Htr. rewrite <- !app_assoc. reflexivity.
  - exists new'. cbn. exact Htr.
  - exists new'. cbn. exact Htr.
Qed.

Lemma extends_filterByActor pred messages :
  extends (@filterByActor Env pred messages).
Proof.
  induction messages as [|m rest IH]; cbn [filterByActor].
  - apply extends_ret.
  - apply extends_bind; [apply extends_get|]. intros a.
    apply extends_bind; [apply extends_upperOrEmpty|]. intros actorType.
    apply extends_bind; [exact IH|]. intros kept. apply extends_ret.
Qed.

Lemma extends_for_each {A} (l : list A) (body : A -> M Env unit) :
  (forall x, extends (body x)) -> extends (for_each l body).
Proof.
  intros Hbody. induction l as [|x rest IH]; cbn [for_each].
  - apply extends_ret.
  - apply extends_bind; [apply Hbody | intros _; exact IH].
Qed.

Lemma extends_upsertMessage msg convoId :
  extends (upsertMessage store_upsert Number_toString Date_getTime toISOString Date_now
             msg convoId).
Proof.
  unfold upsertMessage. apply extends_bind; [apply extends_get|]. intros mp.
  apply extends_bind.
  - destruct (truthy mp); [apply extends_ret | apply extends_get].
  - intros parts. apply extends_bind; [apply extends_silent; silent_tac|]. intros content.
    apply extends_bind; [apply extends_silent; silent_tac|]. intros id.
    apply extends_bind; [apply extends_silent; silent_tac|]. intros iso.
    apply extends_store_call.
Qed.

Lemma bind_returned {A B} (m : M Env A) (k : A -> M Env B) w a w1 :
  m w = (Returned a, w1) -> bind m k w = k a w1.
Proof. intros H. unfold bind. now rewrite H. Qed.

Lemma bind_trace_prefix {A B} (m : M Env A) (k : A -> M Env B) :
  (forall a, extends (k a)) ->
  forall w, exists tr, trace (snd (bind m k w)) = trace (snd (m w)) ++ tr.
Proof.
  intros Hk w. unfold bind. destruct (m w) as [[a|e|] w1]; cbn.
  - apply Hk.
  - exists []. now rewrite app_nil_r.
  - exists []. now rewrite app_nil_r.
Qed.

Local Ltac extends_tac :=
  repeat first
    [ apply extends_ret | apply extends_throw | apply extends_sleep
    | apply extends_count | apply extends_get | apply extends_upperOrEmpty
    | apply extends_store_call | apply extends_filterByActor
    | apply extends_upsertMessage | apply extends_paginate
    | apply extends_fetchWithRetry
    | (apply extends_silent; solve [silent_tac])
    | (apply extends_for_each; intros)
    | (apply extends_bind; [|intros])
    | match goal with |- extends (if ?c then _ else _) => destruct c end ].

Lemma bind_count {B} f (k : unit -> M Env B) (w : World Env) :
  bind (count f) k w =
    k tt {| env := env w; trace := trace w; summary := f (summary w) |}.
Proof. reflexivity. Qed.

Lemma extends_afterUpsert convoDetail convoId windowStart :
  extends (afterUpsert api_get store_upsert Number_toString Date_getTime toISOString
             Date_now convoDetail convoId windowStart).
Proof.
  unfold afterUpsert, fetchConversationMessages. extends_tac.
Qed.

Lemma fetchConversationMessages_first_event convoId c fromISO (w : World Env) :
  js_String Number_toString convoId = Ok c ->
  exists r more,
    trace (snd (fetchConversationMessages api_get Number_toString convoId fromISO w)) =
      trace w ++
      EGet ("/conversations/" ++ c ++ "/messages")%string
        (with_page (mkParams (Some 1) (Some 50) [("from_time", fromISO)]) 1)
        r :: more.
Proof.
  intros Hc. unfold fetchConversationMessages.
  rewrite (bind_returned _ _ _ _ _ (toStringM_ok Number_toString convoId c w Hc)).
  apply paginate_first_event.
Qed.

Lemma afterUpsert_first_event convoDetail convoId c windowStart (w : World Env) :
  js_String Number_toString convoId = Ok c ->
  exists r more,
    trace (snd (afterUpsert api_get store_upsert Number_toString Date_getTime toISOString
                  Date_now convoDetail convoId windowStart w)) =
      trace w ++
      EGet ("/conversations/" ++ c ++ "/messages")%string
        (with_page (mkParams (Some 1) (Some 50) [("from_time", toISOString windowStart)]) 1)
        r :: more.
Proof.
  intros Hc. unfold afterUpsert. rewrite bind_count.
  match goal with
  | |- context [bind ?m ?k ?w0] =>
      destruct (bind_trace_prefix m k) with (w := w0) as (tr & E);
        [intros; extends_tac|];
      destruct (fetchConversationMessages_first_event convoId c (toISOString windowStart)
                  w0 Hc)
        as (r & more & E1)
  end.
  exists r, (more ++ tr). rewrite E, E1.
  rewrite <- app_assoc. reflexivity.
Qed.

(** An upsert throws before the store is called, in the world it started
    in, or calls the store once. *)
Lemma upsertUser_run user (w : World Env) :
  (exists e, upsertUser store_upsert Number_toString Date_getTime toISOString Date_now
               user w = (Thrown e, w))
  \/ (exists id,
        prop user "id" = Ok id
        /\ upsertUser store_upsert Number_toString Date_getTime toISOString Date_now user w
           = store_call store_upsert "User" id user w).
Proof.
  remember (upsertUser store_upsert Number_toString Date_getTime toISOString Date_now
              user w) as r eqn:Hr.
  unfold upsertUser, get in Hr. destruct (prop user "id") as [id|e] eqn:Hid.
  - unfold bind at 1 in Hr. cbn [ret] in Hr.
    match type of Hr with
    | context [bind ?m ?k w] =>
        destruct (silent_run m w
                    (silent_isoOrNow Number_toString Date_getTime toISOString Date_now _))
          as [(iso & E)|(e & E)]
    end.
    + right. exists id. split; [reflexivity|]. unfold bind in Hr. rewrite E in Hr.
      exact Hr.
    + left. exists e. unfold bind in Hr. rewrite E in Hr. exact Hr.
  - left. eexists. exact Hr.
Qed.

Lemma upsertConversation_run convoDetail userId overrideId (w : World Env) :
  (exists e, upsertConversation store_upsert Number_toString Date_getTime toISOString
               Date_now convoDetail userId overrideId w = (Thrown e, w))
  \/ (exists key,
        upsertConversation store_upsert Number_toString Date_getTime toISOString Date_now
          convoDetail userId overrideId w
        = store_call store_upsert "Conversation" key
            (JObject [("convo", convoDetail); ("userId", userId)]) w).
Proof.
  remember (upsertConversation store_upsert Number_toString Date_getTime toISOString
              Date_now convoDetail userId overrideId w) as r eqn:Hr.
  unfold upsertConversation in Hr. cbv zeta in Hr.
  match type of Hr with
  | context [bind ?m ?k w] =>
      destruct (silent_run m w
                  (silent_isoOrNow Number_toString Date_getTime toISOString Date_now _))
        as [(iso1 & E1)|(e & E1)]
  end; [|left; exists e; unfold bind at 1 in Hr; rewrite E1 in Hr; exact Hr].
  rewrite (bind_returned _ _ _ _ _ E1) in Hr.
  match type of Hr with
  | context [bind ?m ?k w] =>
      destruct (silent_run m w
                  (silent_isoOrNow Number_toString Date_getTime toISOString Date_now _))
        as [(iso2 & E2)|(e & E2)]
  end; [|left; exists e; unfold bind at 1 in Hr; rewrite E2 in Hr; exact Hr].
  rewrite (bind_returned _ _ _ _ _ E2) in Hr.
  match type of Hr with
  | context [bind ?m ?k w] =>
      destruct (silent_run m w (silent_toStringM Number_toString _))
        as [(a & E3)|(e & E3)]
  end; [|left; exists e; unfold bind at 1 in Hr; rewrite E3 in Hr; exact Hr].
  rewrite (bind_returned _ _ _ _ _ E3) in Hr.
  right. eexists. exact Hr.
Qed.

Lemma upsertMessage_run msg convoId (w : World Env) :
  (exists e, upsertMessage store_upsert Number_toString Date_getTime toISOString Date_now
               msg convoId w = (Thrown e, w))
  \/ (exists id content,
        extractMessageContent Number_toString
          (js_or (optprop msg "message_parts") (optprop msg "parts")) = Ok content
        /\ upsertMessage store_upsert Number_toString Date_getTime toISOString Date_now
             msg convoId w
           = store_call store_upsert "Message" id
               (JObject [("msg", msg); ("conversationid", convoId);
                         ("message_parts", JString content)]) w).
Proof.
  remember (upsertMessage store_upsert Number_toString Date_getTime toISOString Date_now
              msg convoId w) as r eqn:Hr.
  unfold upsertMessage, get in Hr.
  destruct (prop msg "message_parts") as [mp|e] eqn:Hmp; [|left; eexists; exact Hr].
  unfold bind at 1 in Hr. cbn [ret] in Hr.
  assert (Hparts : (exists e, (if truthy mp then ret mp else
                                 match prop msg "parts" with
                                 | Ok x => ret x
                                 | Throw e => throw (TypeErr e)
                                 end) w = (Thrown e, w))
                   \/ (if truthy mp then ret mp else
                         match prop msg "parts" with
                         | Ok x => ret x
                         | Throw e => throw (TypeErr e)
                         end) w
                      = (Returned (js_or (optprop msg "message_parts") (optprop msg "parts")),
                         w)).
  { rewrite (prop_optprop _ _ _ Hmp). unfold js_or.
    destruct (truthy mp); [right; reflexivity|].
    destruct (prop msg "parts") as [x|e] eqn:Hx.
    - right. rewrite (prop_optprop _ _ _ Hx). reflexivity.
    - left. eexists. reflexivity. }
  destruct Hparts as [(e & E)|E];
    [left; exists e; unfold bind at 1 in Hr; rewrite E in Hr; exact Hr|].
  rewrite (bind_returned _ _ _ _ _ E) in Hr.
  destruct (extractMessageContent Number_toString
              (js_or (optprop msg "message_parts") (optprop msg "parts")))
    as [content|e] eqn:Hc; [|left; eexists; exact Hr].
  unfold bind at 1 in Hr. cbn [lift ret] in Hr.
  match type of Hr with
  | context [bind ?m ?k w] =>
      destruct (silent_run m w
                  (silent_rowIdOf Number_toString Date_getTime toISOString Date_now _ _))
        as [(id & E1)|(e & E1)]
  end; [|left; exists e; unfold bind at 1 in Hr; rewrite E1 in Hr; exact Hr].
  rewrite (bind_returned _ _ _ _ _ E1) in Hr.
  match type of Hr with
  | context [bind ?m ?k w] =>
      destruct (silent_run m w
                  (silent_createdISO Number_toString Date_getTime toISOString Date_now _))
        as [(iso & E2)|(e & E2)]
  end; [|left; exists e; unfold bind at 1 in Hr; rewrite E2 in Hr; exact Hr].
  rewrite (bind_returned _ _ _ _ _ E2) in Hr.
  right. exists id, content. split; [reflexivity | exact Hr].
Qed.

(** The row of a conversation that can be built is handed to the store,
    under the id of the turn. *)
Lemma upsertConversation_builds convoDetail userId convoId (w : World Env) :
  truthy convoId = true ->
  conversationRowBuilds Number_toString Date_getTime convoDetail = true ->
  upsertConversation store_upsert Number_toString Date_getTime toISOString Date_now
    convoDetail userId convoId w
  = store_call store_upsert "Conversation" convoId
      (JObject [("convo", convoDetail); ("userId", userId)]) w.
Proof.
  intros Hid Hrow. unfold conversationRowBuilds in Hrow. cbv zeta in Hrow.
  apply andb_true_iff in Hrow as [Hrow Ha]. apply andb_true_iff in Hrow as [Hc Hu].
  unfold upsertConversation. cbv zeta.
  destruct (isoOrNow_ok Number_toString Date_getTime toISOString Date_now _ w Hc)
    as (iso1 & E1).
  rewrite (bind_returned _ _ _ _ _ E1).
  destruct (isoOrNow_ok Number_toString Date_getTime toISOString Date_now _ w Hu)
    as (iso2 & E2).
  rewrite (bind_returned _ _ _ _ _ E2).
  destruct (convertible_ok Number_toString _ Ha) as (a & Ea).
  rewrite (bind_returned _ _ _ _ _ (toStringM_ok Number_toString _ a w Ea)).
  unfold js_or at 1. rewrite Hid. reflexivity.
Qed.

(** When it cannot be built the store is not called. *)
Lemma upsertConversation_fails convoDetail userId convoId (w : World Env) :
  conversationRowBuilds Number_toString Date_getTime convoDetail = false ->
  exists e,
    upsertConversation store_upsert Number_toString Date_getTime toISOString Date_now
      convoDetail userId convoId w = (Thrown e, w).
Proof.
  intros Hrow. unfold conversationRowBuilds in Hrow. cbv zeta in Hrow.
  unfold upsertConversation. cbv zeta.
  match type of Hrow with
  | (?c && ?u && ?a) = false => destruct c eqn:Hc; [destruct u eqn:Hu|]
  end.
  - cbn [andb] in Hrow.
    destruct (isoOrNow_ok Number_toString Date_getTime toISOString Date_now _ w Hc)
      as (iso1 & E1).
    rewrite (bind_returned _ _ _ _ _ E1).
    destruct (isoOrNow_ok Number_toString Date_getTime toISOString Date_now _ w Hu)
      as (iso2 & E2).
    rewrite (bind_returned _ _ _ _ _ E2).
    destruct (toStringM_fails Number_toString _ w Hrow) as (e & E).
    exists e. unfold bind at 1. rewrite E. reflexivity.
  - destruct (isoOrNow_ok Number_toString Date_getTime toISOString Date_now _ w Hc)
      as (iso1 & E1).
    rewrite (bind_returned _ _ _ _ _ E1).
    destruct (isoOrNow_fails Number_toString Date_getTime toISOString Date_now _ w Hu)
      as (e & E).
    exists e. unfold bind at 1. rewrite E. reflexivity.
  - destruct (isoOrNow_fails Number_toString Date_getTime toISOString Date_now _ w Hc)
      as (e & E).
    exists e. unfold bind at 1. rewrite E. reflexivity.
Qed.

Lemma conversationTurn_in_window user uc ucId convoDetail detailId userId
    windowStart now (w w1 : World Env) convoId :
  prop uc "id" = Ok ucId ->
  fetchConversation api_get Number_toString ucId w = (Returned convoDetail, w1) ->
  prop convoDetail "id" = Ok detailId ->
  prop user "id" = Ok userId ->
  convoId = first_truthy [detailId; optprop uc "id";
                          optprop convoDetail "uuid"; optprop uc "uuid"] ->
  truthy convoId = true ->
  convertible Number_toString (createdIsoOf convoDetail uc) = true ->
  convertible Number_toString (updatedIsoOf convoDetail uc) = true ->
  conversationTurn api_get store_upsert Number_toString Date_getTime toISOString Date_now
    user uc windowStart now w =
  if negb (inWindowOf Date_getTime (createdIsoOf convoDetail uc) windowStart now)
     && negb (inWindowOf Date_getTime (updatedIsoOf convoDetail uc) windowStart now)
  then (Returned false,
        {| env := env w1; trace := trace w1 ++ [ESleep 1000];
           summary := inc_convsSkippedNotInWindow (summary w1) |})
  else bind (upsertConversation store_upsert Number_toString Date_getTime toISOString
               Date_now convoDetail userId convoId)
         (fun _ => afterUpsert api_get store_upsert Number_toString Date_getTime
                     toISOString Date_now convoDetail convoId windowStart) w1.
Proof.
  intros Hid Hfetch Hdid Huser -> Hconvo Hc Hu.
  unfold conversationTurn.
  unfold get at 1. rewrite Hid. unfold bind at 1. cbn [ret].
  rewrite (bind_returned _ _ _ _ _ Hfetch).
  unfold get at 1. rewrite Hdid. unfold bind at 1. cbn [ret].
  cbv zeta. rewrite Hconvo. cbn [negb].
  unfold createdInWindow, updatedInWindow.
  rewrite (bind_returned _ _ _ _ _
             (inWindow_run Number_toString Date_getTime _ windowStart now w1 Hc)).
  rewrite (bind_returned _ _ _ _ _
             (inWindow_run Number_toString Date_getTime _ windowStart now w1 Hu)).
  destruct (negb (inWindowOf Date_getTime (createdIsoOf convoDetail uc) windowStart now)
            && negb (inWindowOf Date_getTime (updatedIsoOf convoDetail uc) windowStart now)).
  - reflexivity.
  - unfold get at 1. rewrite Huser. unfold bind at 1. cbn [ret]. reflexivity.
Qed.

End SyncFacts.


(** ** The window filter of the sync pass *)

Section SyncClaims.

Context {Env : Type}.
Variable api_get : Env -> string -> Params -> result Exn jsval * Env.
Variable store_upsert : Env -> string -> jsval -> jsval -> result Exn unit * Env.
Variable Number_toString : Q -> string.
Variable Date_getTime : jsval -> option Z.
Variable toISOString : Z -> string.
Variable Date_now : Env -> Z.

Lemma inWindowOf_spec iso windowStart now :
  inWindowOf Date_getTime iso windowStart now = true <->
  truthy iso = true /\ exists t, Date_getTime iso = Some t /\ windowStart <= t <= now.
Proof.
  unfold inWindowOf, withinWindow. rewrite andb_true_iff.
  destruct (Date_getTime iso) as [t|].
  - rewrite andb_true_iff, !Z.leb_le. split.
    + intros [Ht [H1 H2]]. split; [exact Ht|]. exists t. auto.
    + intros (Ht & t' & E & H). injection E as <-. split; [exact Ht | lia].
  - split; [intros [_ H]; discriminate | intros (_ & t & E & _); discriminate].
Qed.

(** C9, as amended. A turn of the sync pass on a conversation whose
    detail was fetched, whose id is known and whose timestamps can be
    converted to dates skips it when neither its creation nor its
    last-update timestamp lies in [[windowStart, now]]: it counts the
    conversation as skipped out of the window and sleeps, with no upsert
    and no fetch of messages. When one of them lies in the window and the
    row of the conversation can be built, the turn hands the row to the
    store, and after a successful upsert the next request is the one for
    the messages. When the row cannot be built, the turn throws before the
    store is called: the conversation is neither upserted nor counted. A
    conversation created one second before the window and updated one
    second after its start is in the window. *)
Theorem conversation_processed_iff_in_window user uc ucId convoDetail detailId userId
    windowStart now (w w1 : World Env) convoId :
  prop uc "id" = Ok ucId ->
  fetchConversation api_get Number_toString ucId w = (Returned convoDetail, w1) ->
  prop convoDetail "id" = Ok detailId ->
  prop user "id" = Ok userId ->
  convoId = first_truthy [detailId; optprop uc "id";
                          optprop convoDetail "uuid"; optprop uc "uuid"] ->
  truthy convoId = true ->
  let createdIso := createdIsoOf convoDetail uc in
  let updatedIso := updatedIsoOf convoDetail uc in
  convertible Number_toString createdIso = true ->
  convertible Number_toString updatedIso = true ->
  let inWindow :=
    inWindowOf Date_getTime createdIso windowStart now
    || inWindowOf Date_getTime updatedIso windowStart now in
  let turn :=
    conversationTurn api_get store_upsert Number_toString Date_getTime toISOString Date_now
      user uc windowStart now w in
  let source := JObject [("convo", convoDetail); ("userId", userId)] in
  (inWindow = true <->
     (truthy createdIso = true
      /\ exists t, Date_getTime createdIso = Some t /\ windowStart <= t <= now)
     \/ (truthy updatedIso = true
         /\ exists t, Date_getTime updatedIso = Some t /\ windowStart <= t <= now))
  /\ (inWindow = false ->
        turn = (Returned false,
                {| env := env w1; trace := trace w1 ++ [ESleep 1000];
                   summary := inc_convsSkippedNotInWindow (summary w1) |}))
  /\ (inWindow = true ->
      conversationRowBuilds Number_toString Date_getTime convoDetail = true ->
        exists r env2 more,
          store_upsert (env w1) "Conversation" convoId source = (r, env2)
          /\ trace (snd turn) =
               trace w1 ++ EUpsert "Conversation" convoId source r :: more
          /\ (r = Ok tt ->
              forall c, js_String Number_toString convoId = Ok c ->
                exists r' more',
                  more =
                    EGet ("/conversations/" ++ c ++ "/messages")%string
                      (with_page
                         (mkParams (Some 1) (Some 50)
                            [("from_time", toISOString windowStart)]) 1)
                      r' :: more'))
  /\ (inWindow = true ->
      conversationRowBuilds Number_toString Date_getTime convoDetail = false ->
        exists e, turn = (Thrown e, w1))
  /\ (Date_getTime createdIso = Some (windowStart - 1000) ->
        truthy updatedIso = true ->
        Date_getTime updatedIso = Some (windowStart + 1000) ->
        windowStart + 1000 <= now ->
        inWindowOf Date_getTime createdIso windowStart now = false
        /\ inWindow = true).
Proof.
  intros Hid Hfetch Hdid Huser Hconvo Htruthy createdIso updatedIso Hcc Hcu
    inWindow turn source.
  pose proof (conversationTurn_in_window api_get store_upsert Number_toString
                Date_getTime toISOString Date_now user uc ucId convoDetail detailId userId
                windowStart now w w1 convoId Hid Hfetch Hdid Huser Hconvo Htruthy Hcc Hcu)
    as Hturn.
  fold turn createdIso updatedIso in Hturn. rewrite <- negb_orb in Hturn.
  fold inWindow in Hturn.
  split; [|split; [|split; [|split]]].
  - subst inWindow. rewrite orb_true_iff, !inWindowOf_spec. reflexivity.
  - intros Hout. rewrite Hout in Hturn. exact Hturn.
  - intros Hin Hrow. rewrite Hin in Hturn. cbn [negb] in Hturn.
    rewrite Hturn. unfold bind at 1.
    rewrite (upsertConversation_builds store_upsert Number_toString Date_getTime
               toISOString Date_now convoDetail userId convoId w1 Htruthy Hrow).
    unfold store_call. fold source.
    destruct (store_upsert (env w1) "Conversation" convoId source) as [[u|e] env2].
    + destruct u.
      destruct (convertible Number_toString convoId) eqn:Hconv.
      * destruct (convertible_ok Number_toString convoId Hconv) as (c & Hc).
        destruct (afterUpsert_first_event api_get store_upsert Number_toString
                    Date_getTime toISOString Date_now convoDetail convoId c windowStart
                    {| env := env2;
                       trace := trace w1 ++ [EUpsert "Conversation" convoId source (Ok tt)];
                       summary := summary w1 |} Hc) as (r' & more' & E).
        exists (Ok tt), env2, (EGet ("/conversations/" ++ c ++ "/messages")%string
                                 (with_page
                                    (mkParams (Some 1) (Some 50)
                                       [("from_time", toISOString windowStart)]) 1)
                                 r' :: more').
        split; [reflexivity|]. split.
        -- rewrite E. cbn [trace]. rewrite <- app_assoc. reflexivity.
        -- intros _ c' Hc'. rewrite Hc in Hc'. injection Hc' as <-.
           exists r', more'. reflexivity.
      * match goal with
        | |- context [afterUpsert ?a ?b ?c ?d ?e ?f ?g ?h ?i ?w0] =>
            destruct (extends_afterUpsert api_get store_upsert Number_toString
                        Date_getTime toISOString Date_now g h i w0) as (more & E)
        end.
        exists (Ok tt), env2, more.
        split; [reflexivity|]. split.
        -- rewrite E. cbn [trace]. rewrite <- app_assoc. reflexivity.
        -- intros _ c Hc. unfold convertible in Hconv. rewrite Hc in Hconv.
           discriminate.
    + exists (Throw e), env2, []. split; [reflexivity|]. split; [reflexivity|].
      intros H. discriminate H.
  - intros Hin Hrow. rewrite Hin in Hturn. cbn [negb] in Hturn.
    rewrite Hturn. unfold bind at 1.
    destruct (upsertConversation_fails store_upsert Number_toString Date_getTime
                toISOString Date_now convoDetail userId convoId w1 Hrow) as (e & ->).
    exists e. reflexivity.
  - intros Hc Hut Hu Hnow. subst inWindow.
    unfold inWindowOf, withinWindow. rewrite Hc, Hu, Hut.
    assert ((windowStart <=? windowStart - 1000) = false) as -> by lia.
    assert ((windowStart <=? windowStart + 1000) = true) as -> by lia.
    assert ((windowStart + 1000 <=? now) = true) as -> by lia.
    rewrite andb_false_r. split; reflexivity.
Qed.

End SyncClaims.

Lemma conversation_processed_iff_in_window_witness :
  inWindowOf mockGetTime (createdIsoOf mockConversation mockConversation)
    1704103200000 1704110400000 = false
  /\ (inWindowOf mockGetTime (createdIsoOf mockConversation mockConversation)
        1704103200000 1704110400000
      || inWindowOf mockGetTime (updatedIsoOf mockConversation mockConversation)
           1704103200000 1704110400000) = true.
Proof.
  refine (proj2 (proj2 (proj2 (proj2
    (conversation_processed_iff_in_window chatSource acceptingStore noNumber
       mockGetTime mockToISOString mockNow mockUser mockConversation (JString "c1")
       mockConversation (JString "c1") (JString "u1") 1704103200000 1704110400000
       freshWorld
       (mkWorld 1%nat [EGet "/conversations/c1" (mkParams None None []) (Ok mockConversation)]
          emptySummary)
       (JString "c1") _ _ _ _ _ _ _ _)))) _ _ _ _);
    first [reflexivity | vm_compute; congruence].
Defined.

(** C9, as stated, fails: a conversation updated in the window whose
    [created_time] is no date is neither upserted nor counted as skipped,
    and its messages are not fetched: [toISOString] throws while the row
    is built, and the turn ends in its [catch]. *)
Lemma conversation_in_window_is_not_processed :
  inWindowOf mockGetTime (updatedIsoOf garbageConversation garbageConversation)
    1704103200000 1704110400000 = true
  /\ processConversation garbageSource acceptingStore noNumber mockGetTime
       mockToISOString mockNow mockUser garbageConversation
       1704103200000 1704110400000 freshWorld
     = (Returned tt,
        mkWorld 1%nat
          [EGet "/conversations/c1" (mkParams None None []) (Ok garbageConversation);
           ESleep 300]
          emptySummary).
Proof. vm_compute. split; reflexivity. Qed.

Example conversationTurn_mock_in_window :
  trace (snd (conversationTurn chatSource acceptingStore noNumber mockGetTime
                mockToISOString mockNow mockUser mockConversation
                1704103200000 1704110400000 freshWorld)) =
    [EGet "/conversations/c1" (mkParams None None []) (Ok mockConversation);
     EUpsert "Conversation" (JString "c1")
       (JObject [("convo", mockConversation); ("userId", JString "u1")]) (Ok tt);
     EGet "/conversations/c1/messages"
       (mkParams (Some 1) (Some 50) [("from_time", "2024-01-01T10:00:00.000Z")])
       (Ok (JObject [("messages", JArray [])]));
     ESleep 300].
Proof. vm_compute. reflexivity. Qed.

(** The end-to-end scenario of the sync: the account, the conversation and
    its two messages are upserted, the contents normalized. *)
Example fetchAndStore_one_conversation :
  let w := snd (fetchAndStore oneConversationSource acceptingStore noNumber mockGetTime
                  mockToISOString mockNow 1704110400000 7200000 freshWorld) in
  summary w = mkSummary 1 1 2 0 0
  /\ upserts (trace w) =
       [("User", JString "u1"); ("Conversation", JString "c1");
        ("Message", JString "m1"); ("Message", JString "m2")]
  /\ omap (fun e => match e with
                    | EUpsert "Message" _ source _ => Some (optprop source "message_parts")
                    | _ => None
                    end) (trace w)
     = [JString "my bike won't start and it's stuck"; JString "..."].
Proof. vm_compute. repeat split. Qed.

Example conversationTurn_mock_out_of_window :
  conversationTurn chatSource acceptingStore noNumber mockGetTime
    mockToISOString mockNow mockUser mockConversation
    1704106800000 1704114000000 freshWorld =
    (Returned false,
     mkWorld 1%nat
       [EGet "/conversations/c1" (mkParams None None []) (Ok mockConversation);
        ESleep 1000]
       (mkSummary 0 0 0 1 0)).
Proof. vm_compute. reflexivity. Qed.

(** ** The content normalizer *)

Section NormalizerFacts.

Variable Number_toString : Q -> string.

Lemma optprop_truthy_prop v k :
  truthy (optprop v k) = true -> prop v k = Ok (optprop v k).
Proof. destruct v; cbn; try discriminate; reflexivity. Qed.

(** [String(v)] returns on a value none of whose objects has a key
    [toString]. *)
Lemma js_String_plain v :
  plain v = true -> exists s, js_String Number_toString v = Ok s.
Proof.
  induction v as [| |b|q|s|items IH|fields _] using jsval_nested_ind; intros Hp;
    try (cbn; eauto; fail).
  - destruct b; cbn; eauto.
  - cbn [js_String].
    assert (exists texts,
               (fix join (l : list jsval) : result TypeError (list string) :=
                  match l with
                  | [] => Ok []
                  | x :: rest =>
                      try! t <- match x with
                                | JUndefined | JNull => Ok ""
                                | _ => js_String Number_toString x
                                end;
                      try! ts <- join rest;
                      Ok (t :: ts)
                  end) items = Ok texts) as (texts & ->).
    { cbn [plain] in Hp. induction IH as [|x rest Hx _ IHrest]; [eauto|].
      cbn [forallb] in Hp. apply andb_true_iff in Hp as [Hpx Hprest].
      destruct (Hx Hpx) as (t & Ht). destruct (IHrest Hprest) as (ts & ->).
      destruct x; cbn [rbind]; try (rewrite Ht; cbn [rbind]); eauto. }
    cbn [rbind]. eauto.
  - cbn [js_String]. cbn [plain] in Hp. apply andb_true_iff in Hp as [Hown _].
    apply negb_true_iff in Hown. rewrite Hown. eauto.
Qed.

Lemma plain_lookup_field k fields :
  forallb (fun kv => plain (snd kv)) fields = true -> plain (lookup_field k fields) = true.
Proof.
  induction fields as [|[k' v] rest IH]; [reflexivity|]. cbn [forallb lookup_field snd].
  intros H. apply andb_true_iff in H as [Hv Hrest].
  destruct (String.eqb k k'); [exact Hv | apply IH, Hrest].
Qed.

Lemma plain_optprop v k : plain v = true -> plain (optprop v k) = true.
Proof.
  destruct v; try reflexivity. cbn [plain optprop]. intros H.
  apply andb_true_iff in H as [_ H]. now apply plain_lookup_field.
Qed.

Lemma extractPart_total part :
  plain part = true -> exists pushed, extractPart Number_toString part = Ok pushed.
Proof.
  intros Hp. unfold extractPart.
  destruct (truthy (optprop (optprop part "text") "content")) eqn:H1.
  { assert (truthy (optprop part "text") = true) as Ht
      by (destruct (optprop part "text"); cbn in *; try discriminate; reflexivity).
    rewrite (optprop_truthy_prop _ _ Ht). cbn [rbind].
    rewrite (optprop_truthy_prop _ _ H1). cbn [rbind].
    destruct (js_String_plain (optprop (optprop part "text") "content")) as (s & ->);
      [now do 2 apply plain_optprop|]. cbn [rbind]. eauto. }
  destruct (truthy (optprop part "content")) eqn:H2.
  { rewrite (optprop_truthy_prop _ _ H2). cbn [rbind].
    destruct (js_String_plain (optprop part "content")) as (s & ->);
      [now apply plain_optprop|]. cbn [rbind]. eauto. }
  destruct (truthy (optprop part "text") && is_string (optprop part "text")) eqn:H3.
  { apply andb_true_iff in H3 as [Ht _].
    rewrite (optprop_truthy_prop _ _ Ht). cbn [rbind].
    destruct (js_String_plain (optprop part "text")) as (s & ->);
      [now apply plain_optprop|]. cbn [rbind]. eauto. }
  destruct part; eauto.
Qed.

Lemma collectTexts_total parts texts :
  forallb plain parts = true ->
  exists all, collectTexts Number_toString parts texts = Ok all.
Proof.
  revert texts. induction parts as [|part rest IH]; intros texts Hp; cbn [collectTexts].
  - eauto.
  - cbn [forallb] in Hp. apply andb_true_iff in Hp as [Hpart Hrest].
    destruct (extractPart_total part Hpart) as (pushed & ->). cbn [rbind]. now apply IH.
Qed.

Lemma stringFallback_total parts :
  plain parts = true -> exists s, stringFallback Number_toString parts = Ok s.
Proof.
  intros Hp. unfold stringFallback. destruct (js_String_plain parts Hp) as (s & ->).
  cbn [rbind]. eauto.
Qed.

Lemma extractSingle_total parts :
  plain parts = true -> exists s, extractSingle Number_toString parts = Ok s.
Proof.
  intros Hp. unfold extractSingle.
  destruct (truthy (optprop (optprop parts "text") "content")) eqn:H1.
  { assert (truthy (optprop parts "text") = true) as Ht
      by (destruct (optprop parts "text"); cbn in *; try discriminate; reflexivity).
    rewrite (optprop_truthy_prop _ _ Ht). cbn [rbind].
    rewrite (optprop_truthy_prop _ _ H1). cbn [rbind].
    destruct (js_String_plain (optprop (optprop parts "text") "content")) as (s & ->);
      [now do 2 apply plain_optprop|]. cbn [rbind]. eauto. }
  destruct (truthy (optprop parts "content")) eqn:H2.
  { rewrite (optprop_truthy_prop _ _ H2). cbn [rbind].
    destruct (js_String_plain (optprop parts "content")) as (s & ->);
      [now apply plain_optprop|]. cbn [rbind]. eauto. }
  destruct (truthy (optprop parts "text") && is_string (optprop parts "text")) eqn:H3.
  { apply andb_true_iff in H3 as [Ht _].
    rewrite (optprop_truthy_prop _ _ Ht). cbn [rbind].
    destruct (js_String_plain (optprop parts "text")) as (s & ->);
      [now apply plain_optprop|]. cbn [rbind]. eauto. }
  now apply stringFallback_total.
Qed.

Lemma extractMessageContent_total parts :
  plain parts = true -> exists s, extractMessageContent Number_toString parts = Ok s.
Proof.
  intros Hp. unfold extractMessageContent. destruct (negb (truthy parts)); [eauto|].
  destruct parts as [| | | | |its|fields]; cbn [is_object];
    eauto using extractSingle_total, stringFallback_total.
  destruct (collectTexts_total its [] Hp) as (all & ->). cbn [rbind]. eauto.
Qed.

Lemma collectTexts_blank parts texts :
  Forall (blankPart Number_toString) parts ->
  exists all, collectTexts Number_toString parts texts = Ok all
              /\ filter (fun t => nonempty t) all = filter (fun t => nonempty t) texts.
Proof.
  intros H. revert texts. induction H as [|part rest Hp Hrest IH]; intros texts;
    cbn [collectTexts].
  - eauto.
  - destruct Hp as [-> | ->]; cbn [rbind].
    + apply IH.
    + destruct (IH (texts ++ [""])) as (all & E & F). exists all. split; [exact E|].
      rewrite F, filter_app. cbn. apply app_nil_r.
Qed.

(** C8, as amended. On an input none of whose objects has a key
    [toString] the normalizer does not throw and returns a string; on the
    example of the specification it returns ["a b"]; it returns the empty
    string on a falsy input and on a sequence none of whose parts yields a
    non-empty text; on a truthy input that is not a sequence and has none
    of the recognized shapes it returns the trimmed string conversion of
    the whole input, which is ["[object Object]"] for an object. *)
Theorem extractMessageContent_total_and_fallback :
  (forall parts, plain parts = true ->
                 exists s, extractMessageContent Number_toString parts = Ok s)
  /\ extractMessageContent Number_toString spec_example = Ok "a b"
  /\ (forall parts, truthy parts = false ->
                    extractMessageContent Number_toString parts = Ok "")
  /\ (forall items, Forall (blankPart Number_toString) items ->
                    extractMessageContent Number_toString (JArray items) = Ok "")
  /\ (forall parts s,
        truthy parts = true ->
        (forall items, parts <> JArray items) ->
        truthy (optprop (optprop parts "text") "content") = false ->
        truthy (optprop parts "content") = false ->
        is_string (optprop parts "text") = false ->
        js_String Number_toString parts = Ok s ->
        extractMessageContent Number_toString parts = Ok (trim s))
  /\ (forall fields,
        hasOwn "toString" fields = false ->
        truthy (optprop (lookup_field "text" fields) "content") = false ->
        truthy (lookup_field "content" fields) = false ->
        is_string (lookup_field "text" fields) = false ->
        extractMessageContent Number_toString (JObject fields) = Ok "[object Object]").
Proof.
  assert (Hfallback : forall parts s,
             truthy parts = true ->
             (forall items, parts <> JArray items) ->
             truthy (optprop (optprop parts "text") "content") = false ->
             truthy (optprop parts "content") = false ->
             is_string (optprop parts "text") = false ->
             js_String Number_toString parts = Ok s ->
             extractMessageContent Number_toString parts = Ok (trim s)).
  { intros parts s Ht Harr H1 H2 H3 Hs. unfold extractMessageContent. rewrite Ht. cbn [negb].
    destruct parts; try discriminate Ht;
      try (cbn [is_object]; unfold stringFallback; rewrite Hs; reflexivity).
    - exfalso. eapply Harr. reflexivity.
    - cbn [is_object]. unfold extractSingle. rewrite H1, H2, H3, andb_false_r.
      unfold stringFallback. rewrite Hs. reflexivity. }
  split; [exact extractMessageContent_total|].
  split; [reflexivity|].
  split; [|split; [|split]].
  - intros parts H. unfold extractMessageContent. now rewrite H.
  - intros items H. unfold extractMessageContent. cbn [truthy negb].
    destruct (collectTexts_blank items [] H) as (all & -> & F). cbn [rbind].
    rewrite F. reflexivity.
  - exact Hfallback.
  - intros fields Hown H1 H2 H3.
    apply (Hfallback (JObject fields) "[object Object]"); try assumption.
    + reflexivity.
    + discriminate.
    + cbn [js_String]. rewrite Hown. reflexivity.
Qed.

End NormalizerFacts.

Lemma extractMessageContent_total_and_fallback_witness :
  extractMessageContent noNumber (JArray [JObject [("text", JObject [])]; JNull]) = Ok ""
  /\ extractMessageContent noNumber (JBool true) = Ok (trim "true")
  /\ (exists s, extractMessageContent noNumber spec_example = Ok s).
Proof.
  destruct (extractMessageContent_total_and_fallback noNumber)
    as (Htotal & _ & _ & Hblank & Hfallback & _).
  split; [|split].
  - apply Hblank. repeat constructor.
  - apply (Hfallback (JBool true) "true"); [reflexivity | discriminate | reflexivity ..].
  - apply Htotal. reflexivity.
Defined.

(** C8, as stated, fails: an object without any text is not turned into the
    empty string but into the conversion of the object, and an object with
    a key [toString] makes the normalizer throw. *)
Lemma extractMessageContent_empty_object :
  extractMessageContent noNumber (JObject []) = Ok "[object Object]"
  /\ extractMessageContent noNumber (JObject []) <> Ok ""
  /\ extractMessageContent noNumber (JObject [("toString", JString "x")])
     = Throw CannotConvertToPrimitive
  /\ extractMessageContent noNumber
       (JArray [JObject [("content", JObject [("toString", JString "x")])]])
     = Throw CannotConvertToPrimitive.
Proof. split; [reflexivity | split; [discriminate | split; reflexivity]]. Qed.

(** ** The classification engine: what a call persists *)

Lemma toAnalysis_fields messagesToAnalyze index r row :
  toAnalysis messagesToAnalyze index (Some r) = Ok row ->
  exists m, nth_error messagesToAnalyze index = Some m
            /\ ma_message_id row = msg_id m
            /\ ma_language row = string_or (language r) "unknown"
            /\ ma_category row = string_or (category r) "others"
            /\ ma_tag row = string_or (tag r) "cs"
            /\ ma_confidence row = confidence_or (confidence r) (1 # 2)
            /\ ma_model_version row = MODEL.
Proof.
  unfold toAnalysis. destruct (nth_error messagesToAnalyze index) as [m|]; [|discriminate].
  intros H. injection H as <-. exists m. cbn. repeat split; reflexivity.
Qed.

Lemma buildAnalyses_rows messagesToAnalyze index results rows :
  buildAnalyses messagesToAnalyze index results = Ok rows ->
  forall row, In row rows ->
    exists i r, nth_error results i = Some (Some r)
                /\ toAnalysis messagesToAnalyze (index + i) (Some r) = Ok row.
Proof.
  revert index rows. induction results as [|item rest IH]; intros index rows H row Hin;
    cbn [buildAnalyses] in H.
  - injection H as <-. destruct Hin.
  - destruct (toAnalysis messagesToAnalyze index item) as [row0|] eqn:E0; [|discriminate].
    cbn [rbind] in H.
    destruct (buildAnalyses messagesToAnalyze (S index) rest) as [rows0|] eqn:E1;
      [|discriminate].
    cbn [rbind] in H. injection H as <-. destruct Hin as [<-|Hin].
    + destruct item as [r|].
      * exists 0%nat, r. split; [reflexivity|]. now rewrite Nat.add_0_r.
      * unfold toAnalysis in E0. destruct (nth_error messagesToAnalyze index); discriminate.
    + destruct (IH _ _ E1 row Hin) as (i & r & Hi & Hr).
      exists (S i), r. split; [exact Hi|]. now rewrite Nat.add_succ_r.
Qed.



(** ** Runs of the engine: invariants *)

Lemma foldl_invariant {A B} (P : A -> Prop) (f : A -> B -> A) (l : list B) (a : A) :
  (forall a b, P a -> P (f a b)) -> P a -> P (foldl f a l).
Proof.
  intros Hf. revert a. induction l as [|b l IH]; intros a Ha; cbn; auto.
Qed.

Lemma analyzeCall_invariant {tz : TimeZone} (P : Store -> Prop) e st conversationId messages :
  (forall c msgs k db,
      P db -> P (analyzeConversation c msgs (classify e k (classifierInput msgs))
                   (clock e k) db)) ->
  P (fst st) -> P (fst (analyzeCall e st conversationId messages)).
Proof. intros H Hst. destruct st as [db k]. cbn. now apply H. Qed.

Lemma runAnalysis_invariant {tz : TimeZone} {loc : Locale} (P : Store -> Prop) e db :
  (forall c msgs k db,
      P db -> P (analyzeConversation c msgs (classify e k (classifierInput msgs))
                   (clock e k) db)) ->
  P db -> P (runAnalysis e db).
Proof.
  intros H Hdb. unfold runAnalysis.
  assert (P (fst (retryFailedMessages e (db, 0%nat)))) as Hretry.
  { unfold retryFailedMessages.
    apply (foldl_invariant (fun st => P (fst st))); [|exact Hdb].
    intros st [convId messageIds] Hst.
    destruct (Nat.ltb 0 _); [|exact Hst]. now apply analyzeCall_invariant. }
  apply (foldl_invariant (fun st => P (fst st))); [|exact Hretry].
  intros st [convId messages] Hst. now apply analyzeCall_invariant.
Qed.

Lemma step_is_step_in {tz : TimeZone} {loc : Locale} db db' : step db db' <-> step_in
    (fun _ => True) db db'.
Proof. split; intros H; destruct H; constructor; exact I. Qed.

Lemma steps_invariant {tz : TimeZone} {loc : Locale} (E : RunEnv -> Prop) (P : Store -> Prop) db
    db' :
  (forall e c msgs k db,
      E e ->
      P db -> P (analyzeConversation c msgs (classify e k (classifierInput msgs))
                   (clock e k) db)) ->
  (forall msgs db,
      P db -> P {| Messages := msgs; MessageAnalysis := MessageAnalysis db;
                   AnalysisFailures := AnalysisFailures db |}) ->
  rtc (step_in E) db db' -> P db -> P db'.
Proof.
  intros Hcall Hsync Hsteps. induction Hsteps as [|db1 db2 db3 Hstep _ IH]; [auto|].
  intros Hdb. apply IH. destruct Hstep as [e db He|msgs db].
  - apply runAnalysis_invariant; [|exact Hdb]. intros. now apply Hcall.
  - now apply Hsync.
Qed.


(** ** Tag and confidence of the stored rows *)



Section RunanalysisOneMessageOnUtc.

#[local] Existing Instance utc.
#[local] Existing Instance asciiLocale.

(** The end-to-end scenario of the classification. *)
Example runAnalysis_one_message :
  MessageAnalysis (runAnalysis (constantEnv (answer agreeing) 0) oneMessageStore) !! "m1"
  = Some (mkRow "m1" "en" "bike_not_moving" "escalated" (9 # 10) MODEL)
  /\ AnalysisFailures (runAnalysis (constantEnv (answer agreeing) 0) oneMessageStore) = ∅.
Proof. vm_compute. split; reflexivity. Qed.




End RunanalysisOneMessageOnUtc.



Section StoredConfidenceInRangeOnUtc.

#[local] Existing Instance utc.
#[local] Existing Instance asciiLocale.




End StoredConfidenceInRangeOnUtc.
(** ** The failure ledger *)


Lemma ledger_le_refl l : ledger_le l l.
Proof. intros id af H. exists af. split; [exact H | lia]. Qed.

Lemma ledger_le_trans l1 l2 l3 : ledger_le l1 l2 -> ledger_le l2 l3 -> ledger_le l1 l3.
Proof.
  intros H12 H23 id af H. destruct (H12 id af H) as (af2 & H2 & Hle2).
  destruct (H23 id af2 H2) as (af3 & H3 & Hle3). exists af3. split; [exact H3 | lia].
Qed.

Lemma recordFailure_other {tz : TimeZone} conversationId err now
    (ledger : gmap string FailureRow) m id :
  id <> msg_id m ->
  recordFailure conversationId err now ledger m !! id = ledger !! id.
Proof.
  intros Hne. unfold recordFailure.
  destruct (ledger !! msg_id m); now rewrite lookup_insert_ne by congruence.
Qed.

Lemma recordFailure_existing {tz : TimeZone} conversationId err now
    (ledger : gmap string FailureRow)
    m existing :
  ledger !! msg_id m = Some existing ->
  recordFailure conversationId err now ledger m !! msg_id m =
    Some {| af_conversation_id := af_conversation_id existing;
            af_error_message := string_or (e_message err) "Unknown error";
            af_error_type := errorTypeOf err;
            af_attempts := af_attempts existing + 1;
            af_last_attempt := now;
            af_next_retry := Some (setHoursPlusOne now) |}.
Proof. intros H. unfold recordFailure. rewrite H. apply lookup_insert_eq. Qed.

Lemma recordFailure_new {tz : TimeZone} conversationId err now (ledger : gmap string FailureRow) m :
  ledger !! msg_id m = None ->
  recordFailure conversationId err now ledger m !! msg_id m =
    Some {| af_conversation_id := conversationId;
            af_error_message := string_or (e_message err) "Unknown error";
            af_error_type := errorTypeOf err;
            af_attempts := 1;
            af_last_attempt := now;
            af_next_retry := Some (setHoursPlusOne now) |}.
Proof. intros H. unfold recordFailure. rewrite H. apply lookup_insert_eq. Qed.

Lemma recordFailure_le {tz : TimeZone} conversationId err now (ledger : gmap string FailureRow) m :
  ledger_le ledger (recordFailure conversationId err now ledger m).
Proof.
  intros id af H. destruct (decide (id = msg_id m)) as [->|Hne].
  - rewrite (recordFailure_existing _ _ _ _ _ _ H). eexists. split; [reflexivity|].
    cbn. lia.
  - rewrite recordFailure_other by exact Hne. exists af. split; [exact H | lia].
Qed.

Lemma recordFailures_le {tz : TimeZone} conversationId err now messages
    (ledger : gmap string FailureRow) :
  ledger_le ledger (foldl (recordFailure conversationId err now) ledger messages).
Proof.
  apply (foldl_invariant (ledger_le ledger)); [|apply ledger_le_refl].
  intros l m Hl. eapply ledger_le_trans; [exact Hl | apply recordFailure_le].
Qed.

Lemma recordFailures_other {tz : TimeZone} conversationId err now messages
    (ledger : gmap string FailureRow) id :
  ~ In id (map msg_id messages) ->
  foldl (recordFailure conversationId err now) ledger messages !! id = ledger !! id.
Proof.
  revert ledger. induction messages as [|m rest IH]; intros ledger Hnot; cbn.
  - reflexivity.
  - rewrite IH by (intros H; apply Hnot; now right).
    apply recordFailure_other. intros ->. apply Hnot. now left.
Qed.

(** A failed batch gives one more attempt to each of its messages. *)
Lemma recordFailures_each {tz : TimeZone} conversationId err now messages
    (ledger : gmap string FailureRow) m :
  List.NoDup (map msg_id messages) -> In m messages ->
  exists row,
    foldl (recordFailure conversationId err now) ledger messages !! msg_id m = Some row
    /\ af_attempts row = match ledger !! msg_id m with
                         | Some existing => af_attempts existing + 1
                         | None => 1
                         end
    /\ af_next_retry row = Some (setHoursPlusOne now).
Proof.
  revert ledger. induction messages as [|m0 rest IH]; intros ledger Hnd Hin; [destruct Hin|].
  cbn [map] in Hnd. apply List.NoDup_cons_iff in Hnd as [Hfresh Hnd]. cbn [foldl].
  destruct (decide (msg_id m = msg_id m0)) as [Heq|Hne].
  - rewrite recordFailures_other by (rewrite Heq; exact Hfresh). rewrite Heq.
    destruct (ledger !! msg_id m0) as [existing|] eqn:E.
    + rewrite (recordFailure_existing _ _ _ _ _ _ E). eexists. repeat split.
    + rewrite (recordFailure_new _ _ _ _ _ E). eexists. repeat split.
  - destruct Hin as [->|Hin]; [congruence|].
    destruct (IH (recordFailure conversationId err now ledger m0) Hnd Hin)
      as (row & Hrow & Hatt & Hnext).
    exists row. split; [exact Hrow|]. split; [|exact Hnext].
    rewrite Hatt. now rewrite recordFailure_other by exact Hne.
Qed.

Lemma analyzeConversation_ledger {tz : TimeZone} conversationId messages outcome now db :
  AnalysisFailures (analyzeConversation conversationId messages outcome now db) =
    match classifyAndStore messages outcome db with
    | Ok _ => AnalysisFailures db
    | Throw err =>
        foldl (recordFailure conversationId err now) (AnalysisFailures db) messages
    end.
Proof.
  unfold analyzeConversation.
  destruct (classifyAndStore messages outcome db) as [db'|err] eqn:E; [|reflexivity].
  unfold classifyAndStore in E.
  destruct outcome as [[|[results|]]|err]; try discriminate.
  destruct (buildAnalyses _ _ _); cbn [rbind] in E; [|discriminate].
  destruct (upsertAnalyses _ _); cbn [rbind] in E; [|discriminate].
  injection E as <-. reflexivity.
Qed.

Lemma analyzeConversation_ledger_le {tz : TimeZone} conversationId messages outcome now db :
  ledger_le (AnalysisFailures db)
    (AnalysisFailures (analyzeConversation conversationId messages outcome now db)).
Proof.
  rewrite analyzeConversation_ledger.
  destruct (classifyAndStore messages outcome db);
    [apply ledger_le_refl | apply recordFailures_le].
Qed.

Lemma steps_ledger_le {tz : TimeZone} {loc : Locale} db db' :
  rtc step db db' -> ledger_le (AnalysisFailures db) (AnalysisFailures db').
Proof.
  intros Hsteps.
  assert (rtc (step_in (fun _ => True)) db db') as Hsteps'.
  { eapply rtc_subrel; [|exact Hsteps]. intros x y Hxy. now apply step_is_step_in. }
  apply (steps_invariant (fun _ => True)
           (fun d => ledger_le (AnalysisFailures db) (AnalysisFailures d)) db db');
    [| |exact Hsteps'|apply ledger_le_refl].
  - intros e c msgs k db0 _ H. eapply ledger_le_trans; [exact H|].
    apply analyzeConversation_ledger_le.
  - intros msgs db0 H. exact H.
Qed.

(** ** The two read paths: the view and the selection *)

Lemma insertBy_In {A} (le : A -> A -> bool) x y l :
  In y (insertBy le x l) <-> y = x \/ In y l.
Proof.
  induction l as [|z l IH]; cbn.
  - intuition.
  - destruct (le x z); cbn; [intuition|]. rewrite IH. intuition.
Qed.

Lemma sortBy_In {A} (le : A -> A -> bool) y l : In y (sortBy le l) <-> In y l.
Proof.
  unfold sortBy. induction l as [|x l IH]; cbn; [reflexivity|].
  rewrite insertBy_In, IH. intuition.
Qed.

(** A row of the view joins a message with its ledger row, which is due. *)
Lemma FailedMessagesForRetry_rows {loc : Locale} db now row :
  In row (FailedMessagesForRetry db now) ->
  exists m af,
    In m (Messages db)
    /\ AnalysisFailures db !! msg_id m = Some af
    /\ dueForRetry now af m = true
    /\ v_message_id row = msg_id m
    /\ v_message_parts row = message_parts m
    /\ v_attempts row = af_attempts af.
Proof.
  unfold FailedMessagesForRetry. rewrite sortBy_In, <- list_elem_of_In.
  rewrite list_elem_of_omap. intros (m & Hm & H).
  destruct (AnalysisFailures db !! msg_id m) as [af|] eqn:Eaf; [|discriminate].
  destruct (dueForRetry now af m) eqn:Edue; [|discriminate].
  injection H as <-. exists m, af. rewrite <- list_elem_of_In. repeat split; auto.
Qed.

Lemma dueForRetry_attempts {loc : Locale} now af m : dueForRetry now af m = true -> af_attempts
    af < 3.
Proof.
  unfold dueForRetry. destruct (af_next_retry af); [|discriminate].
  rewrite !andb_true_iff. intros [[[_ H] _] _]. lia.
Qed.


(** On a host whose offset from UTC is the same at the failure and one
    hour of local time later, the retry is due one hour after the failure. *)
Lemma setHoursPlusOne_same_offset {tz : TimeZone} now :
  offsetOfLocal (now + offsetAt now + 3600000) = offsetAt now ->
  setHoursPlusOne now = now + 3600000.
Proof. unfold setHoursPlusOne, ONE_HOUR. cbv zeta. intros ->. lia. Qed.

(** C3. A failure recorded for a message that has a ledger row adds one to
    its attempts and sets the next retry to the instant at which the clock
    of the host shows one hour more than at the failure, which is one hour
    after the failure when the offset of the host's time zone from UTC is
    the same at both; for a message without a row it inserts one with a
    single attempt. A failed batch does so for each of its messages. No
    step of the engine lowers the attempts of a row or removes it, and a
    message whose attempts reached 3 is in the view of the failures due
    for a retry after no sequence of runs, at no instant. *)
Theorem failure_ledger_attempts {tz : TimeZone} {loc : Locale} :
  (forall conversationId err now (ledger : gmap string FailureRow) m existing,
      ledger !! msg_id m = Some existing ->
      exists row,
        recordFailure conversationId err now ledger m !! msg_id m = Some row
        /\ af_attempts row = af_attempts existing + 1
        /\ af_next_retry row = Some (setHoursPlusOne now)
        /\ (offsetOfLocal (now + offsetAt now + 3600000) = offsetAt now ->
            af_next_retry row = Some (now + 3600000)))
  /\ (forall conversationId err now (ledger : gmap string FailureRow) m,
        ledger !! msg_id m = None ->
        exists row,
          recordFailure conversationId err now ledger m !! msg_id m = Some row
          /\ af_attempts row = 1
          /\ af_next_retry row = Some (setHoursPlusOne now)
          /\ (offsetOfLocal (now + offsetAt now + 3600000) = offsetAt now ->
              af_next_retry row = Some (now + 3600000))
          /\ af_conversation_id row = conversationId)
  /\ (forall conversationId messages outcome now db err m,
        classifyAndStore messages outcome db = Throw err ->
        List.NoDup (map msg_id messages) -> In m messages ->
        exists row,
          AnalysisFailures (analyzeConversation conversationId messages outcome now db)
            !! msg_id m = Some row
          /\ af_attempts row = match AnalysisFailures db !! msg_id m with
                               | Some existing => af_attempts existing + 1
                               | None => 1
                               end
          /\ af_next_retry row = Some (setHoursPlusOne now)
          /\ (offsetOfLocal (now + offsetAt now + 3600000) = offsetAt now ->
              af_next_retry row = Some (now + 3600000)))
  /\ (forall db db' id af,
        rtc step db db' -> AnalysisFailures db !! id = Some af ->
        exists af', AnalysisFailures db' !! id = Some af'
                    /\ af_attempts af <= af_attempts af')
  /\ (forall db db' id af now,
        rtc step db db' -> AnalysisFailures db !! id = Some af ->
        3 <= af_attempts af ->
        Forall (fun row => v_message_id row <> id) (FailedMessagesForRetry db' now)).
Proof.
  split; [|split; [|split; [|split]]].
  - intros conversationId err now ledger m existing H.
    rewrite (recordFailure_existing _ _ _ _ _ _ H). eexists.
    split; [reflexivity|]. split; [reflexivity|]. split; [reflexivity|].
    intros Hoff. cbn. now rewrite setHoursPlusOne_same_offset.
  - intros conversationId err now ledger m H.
    rewrite (recordFailure_new _ _ _ _ _ H). eexists.
    split; [reflexivity|]. split; [reflexivity|]. split; [reflexivity|].
    split; [|reflexivity]. intros Hoff. cbn. now rewrite setHoursPlusOne_same_offset.
  - intros conversationId messages outcome now db err m Hthrow Hnd Hin.
    rewrite analyzeConversation_ledger, Hthrow.
    destruct (recordFailures_each conversationId err now messages (AnalysisFailures db) m
                Hnd Hin) as (row & Hrow & Hatt & Hnext).
    exists row. split; [exact Hrow|]. split; [exact Hatt|]. split; [exact Hnext|].
    intros Hoff. now rewrite Hnext, setHoursPlusOne_same_offset.
  - intros db db' id af Hsteps H. exact (steps_ledger_le db db' Hsteps id af H).
  - intros db db' id af now Hsteps H Hthree. apply List.Forall_forall. intros row Hrow Heq.
    destruct (FailedMessagesForRetry_rows _ _ _ Hrow)
      as (m & af' & _ & Haf' & Hdue & Hid & _).
    destruct (steps_ledger_le db db' Hsteps id af H) as (af'' & Haf'' & Hle).
    rewrite Hid in Heq. rewrite Heq in Haf'. rewrite Haf'' in Haf'. injection Haf' as ->.
    apply dueForRetry_attempts in Hdue. lia.
Qed.

Example afterTwoFailingRuns_attempts :
  af_attempts <$> (AnalysisFailures afterTwoFailingRuns !! "m1") = Some 3.
Proof. vm_compute. reflexivity. Qed.

Section FailureLedgerAttemptsOnUtc.

#[local] Existing Instance utc.
#[local] Existing Instance asciiLocale.

Lemma failure_ledger_attempts_witness :
  Forall (fun row => v_message_id row <> "m1")
    (FailedMessagesForRetry (runAnalysis (failingRun 14400000) afterTwoFailingRuns)
       18000000).
Proof.
  apply (proj2 (proj2 (proj2 (proj2 failure_ledger_attempts)))
           afterTwoFailingRuns
           (runAnalysis (failingRun 14400000) afterTwoFailingRuns)
           "m1"
           (mkFailure "c1" "429 Too Many Requests" "rate_limit" 3 7200000
              (Some 10800000))
           18000000).
  - apply rtc_once. constructor.
  - vm_compute. reflexivity.
  - vm_compute. discriminate.
Defined.


End FailureLedgerAttemptsOnUtc.

(** On a host whose zone leaves daylight saving time at the instant
    7 200 000, a failure recorded half an hour before is due for a retry
    two hours later: the clock shows one hour more only then. *)
Lemma next_retry_two_hours_later_when_summer_time_ends :
  af_next_retry
    <$> (recordFailure (tz := summerTimeEnds 7200000) "c1" rateLimited 5400000 ∅ bikeMessage
           !! "m1")
  = Some (Some (5400000 + 7200000)).
Proof. vm_compute. reflexivity. Qed.

(** ** Characters, trimmed strings and their pieces *)


(** ** Characters *)

Lemma chars_concat l : concat (chars l) = l.
Proof.
  induction l as [|b l IH]; [reflexivity|]. cbn [chars].
  destruct (chars l) as [|ch rest]; cbn in *.
  - now rewrite <- IH.
  - destruct (startsWithContinuation ch); cbn; now rewrite <- IH.
Qed.

Lemma text_of_characters s : text_of (characters s) = s.
Proof.
  unfold text_of, characters. rewrite chars_concat. apply string_of_list_ascii_of_string.
Qed.

Lemma chars_nil l : chars l = [] -> l = [].
Proof. intros H. rewrite <- (chars_concat l), H. reflexivity. Qed.

Lemma chars_head b l : exists t rest, chars (b :: l) = (b :: t) :: rest.
Proof.
  cbn [chars]. destruct (chars l) as [|ch rest]; [eauto|].
  destruct (startsWithContinuation ch); eauto.
Qed.

Lemma chars_chunked l : chunked (chars l).
Proof.
  induction l as [|b l [IH1 IH2]]; [split; constructor|]. cbn [chars].
  destruct (chars l) as [|ch rest]; [split; repeat constructor|].
  destruct (startsWithContinuation ch) eqn:E.
  - apply Forall_cons in IH1 as [Hch Hrest]. split; [|exact IH2].
    constructor; [|exact Hrest]. destruct ch as [|c t]; [discriminate|].
    cbn in *. now rewrite E.
  - split; [constructor; [reflexivity|exact IH1]|].
    cbn [tail] in *. constructor; assumption.
Qed.

(** A character in front of a text that does not start with a continuation
    byte is the first character of the whole. *)
Lemma chars_chunk ch l :
  chunkOk ch = true -> startsWithContinuation l = false ->
  chars (ch ++ l) = ch :: chars l.
Proof.
  destruct ch as [|b t]; [discriminate|]. cbn [chunkOk].
  revert b. induction t as [|c t IH]; intros b Ht Hl.
  - cbn [app chars]. destruct l as [|d l]; [reflexivity|].
    destruct (chars_head d l) as (t' & rest & E). rewrite E.
    cbn in Hl. cbn. now rewrite Hl.
  - cbn [forallb] in Ht. apply andb_true_iff in Ht as [Hc Ht].
    change ((b :: c :: t) ++ l) with (b :: ((c :: t) ++ l)). cbn [chars].
    rewrite (IH c Ht Hl). cbn. now rewrite Hc.
Qed.

Lemma chunked_cons ch cs :
  chunked (ch :: cs) ->
  chunkOk ch = true /\ startsWithContinuation (concat cs) = false /\ chunked cs.
Proof.
  intros [H1 H2]. apply Forall_cons in H1 as [Hch Hcs]. cbn [tail] in H2.
  split; [exact Hch|]. split.
  - destruct cs as [|ch' cs']; [reflexivity|].
    apply Forall_cons in H2 as [Hl _]. apply Forall_cons in Hcs as [Hok _].
    destruct ch' as [|c t]; [discriminate|]. exact Hl.
  - split; [exact Hcs|]. destruct cs; [constructor|].
    apply Forall_cons in H2 as [_ H2]. exact H2.
Qed.

Lemma chars_of_chunked cs l :
  chunked cs -> startsWithContinuation l = false ->
  chars (concat cs ++ l) = cs ++ chars l.
Proof.
  induction cs as [|ch cs IH]; intros Hcs Hl; [reflexivity|].
  apply chunked_cons in Hcs as (Hch & Hlead & Hcs).
  cbn [concat]. rewrite <- app_assoc, chars_chunk.
  - rewrite IH by assumption. reflexivity.
  - exact Hch.
  - destruct cs as [|ch' cs']; [exact Hl|].
    cbn [concat] in *. destruct ch' as [|c t].
    + destruct Hcs as [Hcs _]. apply Forall_cons in Hcs as [Hbad _]. discriminate.
    + exact Hlead.
Qed.

Lemma chars_concat_chunked cs : chunked cs -> chars (concat cs) = cs.
Proof.
  intros H. rewrite <- (app_nil_r (concat cs)), chars_of_chunked by auto.
  cbn. apply app_nil_r.
Qed.

Lemma chars_app l1 l2 :
  startsWithContinuation l2 = false -> chars (l1 ++ l2) = chars l1 ++ chars l2.
Proof.
  intros H. rewrite <- (chars_concat l1) at 1.
  apply chars_of_chunked; [apply chars_chunked | exact H].
Qed.

Lemma chunked_segment pre mid post : chunked (pre ++ mid ++ post) -> chunked mid.
Proof.
  intros [H1 H2]. apply Forall_app in H1 as [_ H1]. apply Forall_app in H1 as [H1 _].
  split; [exact H1|].
  destruct pre as [|p pre].
  - cbn in H2. destruct mid as [|m mid]; [constructor|]. cbn in *.
    apply Forall_app in H2 as [H2 _]. exact H2.
  - cbn in H2. apply Forall_app in H2 as [_ H2]. apply Forall_app in H2 as [H2 _].
    destruct mid; [constructor|]. apply Forall_cons in H2 as [_ H2]. exact H2.
Qed.

(** ** Trimming *)

Lemma skipWhile_headOk {A} (p : A -> bool) l : headOk p (skipWhile p l).
Proof.
  induction l as [|c l IH]; cbn; [exact I|].
  destruct (p c) eqn:E; [exact IH | exact E].
Qed.

Lemma skipWhile_id {A} (p : A -> bool) l : headOk p l -> skipWhile p l = l.
Proof. destruct l as [|c l]; cbn; [reflexivity|]. now intros ->. Qed.

Lemma skipWhile_suffix {A} (p : A -> bool) l : exists pre, l = pre ++ skipWhile p l.
Proof.
  induction l as [|c l (pre & IH)]; cbn.
  - now exists [].
  - destruct (p c); [|now exists []]. exists (c :: pre). cbn. now f_equal.
Qed.

Lemma headOk_weaken {A} (p q : A -> bool) l :
  (forall c, q c = true -> p c = true) -> headOk p l -> headOk q l.
Proof.
  intros Hpq. destruct l as [|c l]; cbn; [auto|]. intros Hp.
  destruct (q c) eqn:E; [|reflexivity]. apply Hpq in E. congruence.
Qed.

Lemma trimWith_ends {A} (p : A -> bool) l : headOk p (rev (trimWith p l)).
Proof. unfold trimWith. rewrite rev_involutive. apply skipWhile_headOk. Qed.

Lemma trimWith_starts {A} (p : A -> bool) l : headOk p (trimWith p l).
Proof.
  unfold trimWith. pose proof (skipWhile_headOk p l) as H1.
  destruct (skipWhile_suffix p (rev (skipWhile p l))) as (pre & Hpre).
  set (s := skipWhile p (rev (skipWhile p l))) in *.
  assert (skipWhile p l = rev s ++ rev pre) as E
    by (rewrite <- rev_app_distr, <- Hpre; now rewrite rev_involutive).
  destruct (rev s) as [|c t]; [exact I|]. rewrite E in H1. exact H1.
Qed.

Lemma trimWith_id {A} (p : A -> bool) l :
  headOk p l -> headOk p (rev l) -> trimWith p l = l.
Proof.
  intros H1 H2. unfold trimWith. rewrite (skipWhile_id p l H1).
  rewrite (skipWhile_id p (rev l) H2). apply rev_involutive.
Qed.

Lemma trimWith_segment {A} (p : A -> bool) l :
  exists pre post, l = pre ++ trimWith p l ++ post.
Proof.
  unfold trimWith. destruct (skipWhile_suffix p l) as (pre & Hpre).
  destruct (skipWhile_suffix p (rev (skipWhile p l))) as (post & Hpost).
  exists pre, (rev post). rewrite <- rev_app_distr, <- Hpost, rev_involutive. exact Hpre.
Qed.

Lemma characters_trimWith p s :
  characters (text_of (trimWith p (characters s))) = trimWith p (characters s).
Proof.
  unfold text_of, characters at 1. rewrite list_ascii_of_string_of_list_ascii.
  apply chars_concat_chunked.
  destruct (trimWith_segment p (characters s)) as (pre & post & E).
  apply (chunked_segment pre _ post). rewrite <- E. apply chars_chunked.
Qed.

Lemma characters_trim s : characters (trim s) = trimWith jsSpace (characters s).
Proof. apply characters_trimWith. Qed.

Lemma isSpaceChar_jsSpace ch : isSpaceChar ch = true -> jsSpace ch = true.
Proof.
  destruct ch as [|c [|? ?]]; try discriminate. cbn. unfold isWhitespace. cbv zeta.
  now intros ->.
Qed.

(** A string that [trim] leaves as it is starts and ends outside white
    space, and conversely. *)
Lemma trimmed_ends s :
  trim s = s ->
  headOk jsSpace (characters s) /\ headOk jsSpace (rev (characters s)).
Proof.
  intros H. rewrite <- H, characters_trim.
  split; [apply trimWith_starts | apply trimWith_ends].
Qed.

Lemma trimmed_of_ends s :
  headOk jsSpace (characters s) -> headOk jsSpace (rev (characters s)) -> trim s = s.
Proof.
  intros H1 H2. unfold trim. rewrite (trimWith_id _ _ H1 H2). apply text_of_characters.
Qed.

Lemma trim_idem s : trim (trim s) = trim s.
Proof.
  apply trimmed_of_ends; rewrite characters_trim;
    [apply trimWith_starts | apply trimWith_ends].
Qed.

(** SQL's [TRIM] leaves a trimmed string as it is too. *)
Lemma trimmed_sql_TRIM s : trim s = s -> sql_TRIM s = s.
Proof.
  intros H. destruct (trimmed_ends s H) as [H1 H2]. unfold sql_TRIM.
  rewrite trimWith_id.
  - apply text_of_characters.
  - eapply headOk_weaken; [apply isSpaceChar_jsSpace | exact H1].
  - eapply headOk_weaken; [apply isSpaceChar_jsSpace | exact H2].
Qed.

(** ** Pieces *)

Lemma endsOutside_snoc {A} (p : A -> bool) l c : endsOutside p (l ++ [c]) = negb (p c).
Proof.
  induction l as [|d l IH]; [reflexivity|].
  cbn [app endsOutside]. rewrite IH. destruct l; reflexivity.
Qed.

Lemma headOk_rev_endsOutside {A} (p : A -> bool) l :
  l <> [] -> headOk p (rev l) -> endsOutside p l = true.
Proof.
  intros Hne H. destruct (rev l) as [|c t] eqn:E.
  - apply (f_equal (@rev A)) in E. rewrite rev_involutive in E. contradiction.
  - apply (f_equal (@rev A)) in E. rewrite rev_involutive in E. cbn in E.
    rewrite E, endsOutside_snoc. cbn in H. now rewrite H.
Qed.

Lemma endsOutside_cons {A} (p : A -> bool) c l :
  l <> [] -> endsOutside p (c :: l) = endsOutside p l.
Proof. destruct l; [contradiction | reflexivity]. Qed.

(** The pieces of a list that ends outside white space are not empty,
    except the first one when the list starts with white space. *)
Lemma splitWs_pieces {A} (p : A -> bool) l :
  endsOutside p l = true ->
  Forall (fun t => t <> []) (splitWs p true l)
  /\ Forall (fun t => t <> []) (tail (splitWs p false l))
  /\ (headOk p l -> Forall (fun t => t <> []) (splitWs p false l)).
Proof.
  induction l as [|c l IH]; [discriminate|]. intros Hends.
  assert (Hcase : l = [] \/ l <> [])
    by (destruct l; [left; reflexivity | right; discriminate]).
  destruct Hcase as [->|Hne].
  - cbn in Hends. apply negb_true_iff in Hends. cbn. rewrite Hends. cbn.
    repeat split; repeat constructor; discriminate.
  - rewrite (endsOutside_cons p c l Hne) in Hends.
    destruct (IH Hends) as (IH1 & IH2 & _).
    cbn [splitWs headOk]. destruct (p c) eqn:Ec.
    + repeat split; [exact IH1 | exact IH1 | discriminate].
    + destruct (splitWs p false l) as [|tok rest]; cbn [tail] in *.
      * repeat split; repeat constructor; discriminate.
      * repeat split; try exact IH2; constructor; try discriminate; exact IH2.
Qed.

Lemma splitWs_ext {A} (p q : A -> bool) prev l :
  Forall (fun c => p c = q c) l -> splitWs p prev l = splitWs q prev l.
Proof.
  intros H. revert prev. induction H as [|c l Hc _ IH]; intros prev; [reflexivity|].
  cbn [splitWs]. rewrite Hc, !IH. reflexivity.
Qed.


Lemma text_of_nonempty t : concat t <> [] -> nonempty (text_of t) = true.
Proof. unfold text_of. destruct (concat t); [contradiction | reflexivity]. Qed.

(** The words of a list of characters that starts and ends outside white
    space are its pieces. *)
Lemma filter_nonempty_pieces (toks : list (list (list ascii))) :
  Forall (fun t => concat t <> []) toks ->
  filter (fun w => nonempty w) (map text_of toks) = map text_of toks.
Proof.
  induction 1 as [|t toks Ht _ IH]; [reflexivity|]. cbn [map].
  rewrite filter_cons_True by (rewrite (text_of_nonempty t Ht); exact I).
  now rewrite IH.
Qed.

Lemma splitWs_In {A} (p : A -> bool) prev l tok c :
  In tok (splitWs p prev l) -> In c tok -> In c l.
Proof.
  revert prev tok. induction l as [|d l IH]; intros prev tok Htok Hc.
  - cbn in Htok. destruct Htok as [<-|[]]. destruct Hc.
  - cbn [splitWs] in Htok. destruct (p d).
    + right. destruct prev.
      * eapply IH; eauto.
      * destruct Htok as [<-|Htok]; [destruct Hc|]. eapply IH; eauto.
    + destruct (splitWs p false l) as [|tok0 rest] eqn:E.
      * destruct Htok as [<-|[]]. destruct Hc as [<-|[]]. now left.
      * destruct Htok as [<-|Htok].
        -- destruct Hc as [<-|Hc]; [now left|]. right. apply (IH false tok0); [|exact Hc].
           rewrite E. now left.
        -- right. apply (IH false tok); [|exact Hc]. rewrite E. now right.
Qed.

Lemma chunked_In cs ch : chunked cs -> In ch cs -> ch <> [].
Proof.
  intros [H _] Hin. rewrite List.Forall_forall in H. specialize (H ch Hin).
  destruct ch; [discriminate | discriminate].
Qed.

Lemma pieces_nonempty (p : list ascii -> bool) s toks :
  toks = splitWs p false (characters s) ->
  Forall (fun t => t <> []) toks -> Forall (fun t => concat t <> []) toks.
Proof.
  intros -> H. rewrite List.Forall_forall in *. intros t Ht Hnil.
  specialize (H t Ht). destruct t as [|ch t']; [contradiction|].
  assert (ch <> []) as Hch.
  { apply (chunked_In (characters s)); [apply chars_chunked|].
    eapply splitWs_In; [exact Ht | now left]. }
  cbn in Hnil. apply app_eq_nil in Hnil as [Hnil _]. contradiction.
Qed.

Lemma characters_nonempty s : s <> "" -> characters s <> [].
Proof.
  intros Hne E. apply Hne. rewrite <- (text_of_characters s), E. reflexivity.
Qed.

(** On a trimmed content the words that JavaScript counts are the pieces
    of the split. *)
Lemma trimmed_words s :
  trim s = s -> s <> "" ->
  filter (fun w => nonempty w) (split_whitespace s) = split_whitespace s.
Proof.
  intros H Hne. destruct (trimmed_ends s H) as [H1 H2].
  unfold split_whitespace. apply filter_nonempty_pieces.
  apply (pieces_nonempty jsSpace s); [reflexivity|].
  apply splitWs_pieces; [|exact H1].
  apply headOk_rev_endsOutside; [|exact H2]. now apply characters_nonempty.
Qed.

(** A character has at least one code unit. *)
Lemma sql_LENGTH_le_js_length s : (sql_LENGTH s <= js_length s)%nat.
Proof.
  unfold sql_LENGTH, js_length.
  pose proof (chars_chunked (list_ascii_of_string s)) as [Hok _].
  fold (characters s) in Hok. induction Hok as [|ch cs Hch _ IH]; [cbn; lia|].
  destruct ch as [|b t]; [discriminate|].
  change (S (length cs) <= utf16Units (b :: t) + list_sum (map utf16Units cs))%nat.
  cbn [utf16Units]. destruct (Nat.leb 240 (nat_of_ascii b)); lia.
Qed.

(** On a trimmed, non-empty content on whose characters the database and
    JavaScript agree, the engine and the view count the same words. *)
Lemma trimmed_wordCount {loc : Locale} s :
  trim s = s -> s <> "" -> sameSpaces s -> wordCount s = sql_pieces s.
Proof.
  intros H Hne Hsame. unfold wordCount. rewrite (trimmed_words s H Hne).
  unfold split_whitespace, sql_pieces. rewrite length_map. f_equal.
  symmetry. apply splitWs_ext. exact Hsame.
Qed.


(** ** The normalizer writes trimmed contents *)

Lemma list_ascii_of_string_app s1 s2 :
  list_ascii_of_string (s1 ++ s2)%string
  = list_ascii_of_string s1 ++ list_ascii_of_string s2.
Proof. induction s1 as [|c s1 IH]; simpl; [reflexivity | now f_equal]. Qed.

Lemma headOk_app {A} (p : A -> bool) l1 l2 : l1 <> [] -> headOk p l1 -> headOk p (l1 ++ l2).
Proof. destruct l1; [contradiction | intros _ H; exact H]. Qed.

Lemma concat_cons2 sep t t' ts :
  String.concat sep (t :: t' :: ts) = (t ++ sep ++ String.concat sep (t' :: ts))%string.
Proof. reflexivity. Qed.

Lemma jsSpace_space_cons c t : jsSpace (" "%char :: c :: t) = false.
Proof. destruct t as [|d [|e t]]; reflexivity. Qed.

(** A space in front of a text that ends outside white space: the whole
    ends outside white space. *)
Lemma chars_space_ends l :
  l <> [] -> headOk jsSpace (rev (chars l)) ->
  headOk jsSpace (rev (chars (" "%char :: l))).
Proof.
  intros Hne H. cbn [chars]. destruct (chars l) as [|ch rest] eqn:E.
  - apply chars_nil in E. contradiction.
  - assert (ch <> []) as Hch.
    { apply (chunked_In (chars l)); [apply chars_chunked|]. rewrite E. now left. }
    destruct (startsWithContinuation ch).
    + destruct rest as [|ch' rest'].
      * cbn. destruct ch as [|c t]; [contradiction|]. apply jsSpace_space_cons.
      * cbn [rev] in *. rewrite <- !app_assoc in *.
        destruct (rev rest') as [|x xs]; cbn in *; exact H.
    + change (rev ([" "%char] :: ch :: rest)) with (rev (ch :: rest) ++ [[" "%char]]).
      apply headOk_app; [|exact H].
      intros Hnil. apply (f_equal (@rev _)) in Hnil. rewrite rev_involutive in Hnil.
      discriminate.
Qed.

(** Joining trimmed, non-empty texts with a space gives a trimmed text. *)
Lemma concat_space_trimmed ts :
  Forall (fun t => trim t = t /\ t <> "") ts ->
  trim (String.concat " " ts) = String.concat " " ts
  /\ (ts <> [] -> String.concat " " ts <> "").
Proof.
  induction 1 as [|t ts [Ht Hne] Hts [IH1 IH2]]; [split; [reflexivity | congruence]|].
  destruct ts as [|t' ts']; [split; [exact Ht | intros _; exact Hne]|].
  rewrite concat_cons2.
  assert (t' :: ts' <> []) as Hcons by discriminate.
  specialize (IH2 Hcons). set (rest := String.concat " " (t' :: ts')) in *.
  assert (list_ascii_of_string rest <> []) as Hr
    by (destruct rest; [contradiction | discriminate]).
  destruct (trimmed_ends t Ht) as [Ht1 _]. destruct (trimmed_ends rest IH1) as [_ Hr2].
  assert (Hchars : characters (t ++ " " ++ rest)
                   = characters t ++ chars (" "%char :: list_ascii_of_string rest)).
  { unfold characters. rewrite !list_ascii_of_string_app. cbn [list_ascii_of_string app].
    apply chars_app. reflexivity. }
  split.
  - apply trimmed_of_ends; rewrite Hchars.
    + apply headOk_app; [now apply characters_nonempty | exact Ht1].
    + rewrite rev_app_distr. apply headOk_app.
      * intros Hnil. apply (f_equal (@rev _)) in Hnil. rewrite rev_involutive in Hnil.
        apply chars_nil in Hnil. discriminate.
      * apply chars_space_ends; assumption.
  - intros _ E. apply (f_equal list_ascii_of_string) in E.
    rewrite list_ascii_of_string_app in E. cbn in E.
    apply app_eq_nil in E as [E _]. destruct t; [contradiction | discriminate].
Qed.

Example trim_unicode_example :
  trim (String "009" "  a b  ") = "a b"
  /\ trim (String "194" (String "160" "a")) = "a"
  /\ js_length "a b" = 3%nat.
Proof. vm_compute. repeat split. Qed.

Section NormalizerOutput.

Variable Number_toString : Q -> string.

Lemma extractPart_trimmed part t :
  extractPart Number_toString part = Ok (Some t) -> trim t = t.
Proof.
  unfold extractPart.
  repeat match goal with
         | |- context [if ?c then _ else _] => destruct c
         | |- context [rbind (prop ?v ?k) _] => destruct (prop v k); cbn [rbind]
         | |- context [rbind (js_String ?f ?v) _] => destruct (js_String f v); cbn [rbind]
         end;
    try discriminate;
    try (intros H; injection H as <-; apply trim_idem).
  destruct part; try discriminate. intros H; injection H as <-; apply trim_idem.
Qed.

Lemma stringFallback_trimmed parts s :
  stringFallback Number_toString parts = Ok s -> trim s = s.
Proof.
  unfold stringFallback. destruct (js_String Number_toString parts); cbn [rbind];
    [|discriminate].
  intros H; injection H as <-; apply trim_idem.
Qed.

Lemma collectTexts_trimmed parts texts all :
  Forall (fun t => trim t = t) texts ->
  collectTexts Number_toString parts texts = Ok all ->
  Forall (fun t => trim t = t) all.
Proof.
  revert texts. induction parts as [|part rest IH]; intros texts Htexts H;
    cbn [collectTexts] in H.
  - now injection H as <-.
  - destruct (extractPart Number_toString part) as [[t|]|] eqn:E; cbn [rbind] in H;
      [| |discriminate].
    + eapply IH; [|exact H]. apply Forall_app. split; [exact Htexts|].
      constructor; [|constructor]. eapply extractPart_trimmed. exact E.
    + eapply IH; [exact Htexts | exact H].
Qed.

Lemma extractSingle_trimmed parts s :
  extractSingle Number_toString parts = Ok s -> trim s = s.
Proof.
  unfold extractSingle.
  repeat match goal with
         | |- context [if ?c then _ else _] => destruct c
         | |- context [rbind (prop ?v ?k) _] => destruct (prop v k); cbn [rbind]
         | |- context [rbind (js_String ?f ?v) _] => destruct (js_String f v); cbn [rbind]
         end;
    try discriminate; try apply stringFallback_trimmed;
    intros H; injection H as <-; apply trim_idem.
Qed.

(** What [upsertMessage] stores as the content of a message is trimmed. *)
Lemma extractMessageContent_trimmed parts s :
  extractMessageContent Number_toString parts = Ok s -> trim s = s.
Proof.
  unfold extractMessageContent. destruct (negb (truthy parts)).
  { intros H. injection H as <-. reflexivity. }
  destruct parts as [| | | | |its|fields]; cbn [is_object];
    try apply stringFallback_trimmed;
    try apply extractSingle_trimmed.
  destruct (collectTexts Number_toString its []) as [all|] eqn:E; cbn [rbind];
    [|discriminate].
  intros H. injection H as <-.
  apply concat_space_trimmed.
  pose proof (collectTexts_trimmed its [] all (List.Forall_nil _) E) as Hall.
  apply List.Forall_forall. intros t Ht. apply list_elem_of_In in Ht.
  apply list_elem_of_filter in Ht as [Hne Ht]. split.
  - rewrite List.Forall_forall in Hall. apply Hall. now apply list_elem_of_In.
  - apply Is_true_true in Hne. unfold nonempty in Hne.
    apply negb_true_iff, String.eqb_neq in Hne. exact Hne.
Qed.

End NormalizerOutput.

(** ** Selection for a first classification *)

Lemma pushGroup_In {V} (P : string -> V -> Prop) k v (m : list (string * list V)) :
  P k v ->
  (forall k' vs v', In (k', vs) m -> In v' vs -> P k' v') ->
  forall k' vs v', In (k', vs) (pushGroup k v m) -> In v' vs -> P k' v'.
Proof.
  intros Hkv. induction m as [|[k0 vs0] rest IH]; intros Hm k' vs v' Hin Hv; cbn in Hin.
  - destruct Hin as [E|[]]. injection E as <- <-. destruct Hv as [<-|[]]. exact Hkv.
  - destruct (String.eqb k k0) eqn:E.
    + apply String.eqb_eq in E. subst k0. destruct Hin as [E|Hin].
      * injection E as <- <-. apply in_app_iff in Hv as [Hv|[<-|[]]]; [|exact Hkv].
        apply (Hm k vs0); [now left | exact Hv].
      * apply (Hm k' vs); [now right | exact Hv].
    + destruct Hin as [E'|Hin].
      * injection E' as <- <-. apply (Hm k0 vs0); [now left | exact Hv].
      * apply (IH (fun k1 vs1 v1 H1 => Hm k1 vs1 v1 (or_intror H1)) k' vs); assumption.
Qed.

Lemma groupBy_In {A V} (key : A -> string) (val : A -> V) (l : list A) k vs v :
  In (k, vs) (groupBy key val l) -> In v vs ->
  exists x, In x l /\ key x = k /\ val x = v.
Proof.
  unfold groupBy.
  assert (forall l0 acc,
             (forall x, In x l0 -> In x l) ->
             (forall k' vs' v', In (k', vs') acc -> In v' vs' ->
                                exists x, In x l /\ key x = k' /\ val x = v') ->
             forall k' vs' v',
               In (k', vs') (foldl (fun m x => pushGroup (key x) (val x) m) acc l0) ->
               In v' vs' -> exists x, In x l /\ key x = k' /\ val x = v') as H.
  { induction l0 as [|x l0 IH]; intros acc Hsub Hacc; cbn [foldl]; [exact Hacc|].
    apply IH; [intros y Hy; apply Hsub; now right|].
    apply (pushGroup_In (fun k' v' => exists x, In x l /\ key x = k' /\ val x = v'));
      [|exact Hacc].
    exists x. split; [apply Hsub; now left | split; reflexivity]. }
  apply (H l []); [auto | intros k' vs' v' []].
Qed.




(** The characters of a text in ASCII are its bytes, and the database and
    JavaScript agree on them. *)
Lemma chars_ascii l :
  forallb (fun c => Nat.ltb (nat_of_ascii c) 128) l = true ->
  chars l = map (fun c => [c]) l.
Proof.
  induction l as [|b l IH]; [reflexivity|]. cbn [forallb]. intros H.
  apply andb_true_iff in H as [_ Hl]. cbn [chars map]. rewrite (IH Hl).
  destruct l as [|c l']; [reflexivity|]. cbn [map].
  cbn [forallb] in Hl. apply andb_true_iff in Hl as [Hc _].
  unfold startsWithContinuation, isContinuation. cbv zeta.
  apply Nat.ltb_lt in Hc.
  destruct (Nat.leb_spec 128 (nat_of_ascii c)); [lia | reflexivity].
Qed.

Lemma sameSpaces_ascii {loc : Locale} s :
  forallb (fun c => Nat.ltb (nat_of_ascii c) 128) (list_ascii_of_string s) = true ->
  sameSpaces s.
Proof.
  intros H. unfold sameSpaces, characters. rewrite (chars_ascii _ H).
  apply List.Forall_forall. intros ch Hch. apply in_map_iff in Hch as (c & <- & Hc).
  rewrite forallb_forall in H. unfold sqlSpace, jsSpace. now rewrite (H c Hc).
Qed.


Section ShortMessagesOnUtc.

#[local] Existing Instance utc.
#[local] Existing Instance asciiLocale.



Example view_of_storeWithOkFailure :
  FailedMessagesForRetry storeWithOkFailure 7200000 = [].
Proof. vm_compute. reflexivity. Qed.

End ShortMessagesOnUtc.

(** * Further properties *)

(** ** The classification engine, the views and the clean-up *)

Lemma foldl_insert_other (rows : list AnalysisRow) (tbl : gmap string AnalysisRow) id :
  ~ In id (map ma_message_id rows) ->
  foldl (fun t r => <[ma_message_id r := r]> t) tbl rows !! id = tbl !! id.
Proof.
  revert tbl. induction rows as [|r rows IH]; intros tbl Hni; [reflexivity|].
  cbn. rewrite IH by (intros Hin; apply Hni; right; exact Hin).
  apply lookup_insert_ne. intros Heq. apply Hni. left. exact Heq.
Qed.

Lemma buildAnalyses_ids batch index results rows :
  buildAnalyses batch index results = Ok rows ->
  forall row, In row rows -> In (ma_message_id row) (map msg_id batch).
Proof.
  intros Hb row Hin.
  destruct (buildAnalyses_rows _ _ _ _ Hb row Hin) as (i & r & _ & Hto).
  destruct (toAnalysis_fields _ _ _ _ Hto) as (m & Hnth & Hid & _).
  rewrite Hid. apply in_map. eapply nth_error_In. exact Hnth.
Qed.

Lemma buildAnalyses_length batch index results rows :
  buildAnalyses batch index results = Ok rows ->
  length rows = length results /\ (index + length results <= length batch \/ results = [])%nat.
Proof.
  revert index rows. induction results as [|r results IH]; intros index rows Hb.
  - cbn in Hb. injection Hb as <-. split; [reflexivity|right; reflexivity].
  - cbn in Hb. unfold toAnalysis in Hb.
    destruct (nth_error batch index) as [m|] eqn:Hnth; [|discriminate].
    destruct r as [r|]; [|discriminate]. cbn in Hb.
    destruct (buildAnalyses batch (S index) results) as [rows'|] eqn:Hrest; [|discriminate].
    cbn in Hb. injection Hb as <-.
    destruct (IH _ _ Hrest) as [Hlen Hbound]. split; [cbn; lia|]. left.
    assert (index < length batch)%nat by (apply nth_error_Some; congruence).
    destruct Hbound as [Hbound| ->]; cbn; lia.
Qed.

Lemma classifyAndStore_ok msgs outcome db db' :
  classifyAndStore msgs outcome db = Ok db' ->
  exists results rows,
    outcome = Resolved (RespObject (Some results))
    /\ buildAnalyses (firstn MAX_MESSAGES_PER_BATCH msgs) 0 results = Ok rows
    /\ forallb row_accepted rows = true
    /\ db' = {| Messages := Messages db;
                MessageAnalysis :=
                  foldl (fun t r => <[ma_message_id r := r]> t) (MessageAnalysis db) rows;
                AnalysisFailures := AnalysisFailures db |}.
Proof.
  unfold classifyAndStore. intros H.
  destruct outcome as [[|[results|]]|err]; try discriminate.
  destruct (buildAnalyses _ 0 results) as [rows|] eqn:Hb; [|discriminate].
  cbn in H. unfold upsertAnalyses in H.
  destruct (forallb row_accepted rows) eqn:Hacc; [|discriminate].
  cbn in H. injection H as <-. exists results, rows. auto.
Qed.

(** X1. [analyzeConversation] never touches the table of the messages. A
    batch that is classified and stored leaves the failure ledger as it
    was; a batch that fails leaves the table of the analyses as it was; in
    both cases the analysis of a message that is not among the first
    [MAX_MESSAGES_PER_BATCH] messages of the batch is not changed. *)
Theorem analyzeConversation_writes_one_table {tz : TimeZone} conversationId msgs outcome now db :
  Messages (analyzeConversation conversationId msgs outcome now db) = Messages db
  /\ (forall db', classifyAndStore msgs outcome db = Ok db' ->
        AnalysisFailures (analyzeConversation conversationId msgs outcome now db)
        = AnalysisFailures db)
  /\ (forall err, classifyAndStore msgs outcome db = Throw err ->
        MessageAnalysis (analyzeConversation conversationId msgs outcome now db)
        = MessageAnalysis db)
  /\ (forall id, ~ In id (map msg_id (firstn MAX_MESSAGES_PER_BATCH msgs)) ->
        MessageAnalysis (analyzeConversation conversationId msgs outcome now db) !! id
        = MessageAnalysis db !! id).
Proof.
  unfold analyzeConversation.
  destruct (classifyAndStore msgs outcome db) as [db'|err] eqn:Hc.
  - destruct (classifyAndStore_ok _ _ _ _ Hc) as (results & rows & -> & Hb & Hacc & ->).
    cbn. repeat split; try discriminate; auto.
    intros id Hni. apply foldl_insert_other. intros Hin.
    apply in_map_iff in Hin as (row & <- & Hrow).
    apply Hni. eapply buildAnalyses_ids; eauto.
  - cbn. repeat split; try discriminate; auto.
Qed.

Section AnalyzeconversationWritesOneTableOnUtc.

#[local] Existing Instance utc.
#[local] Existing Instance asciiLocale.

Lemma analyzeConversation_writes_one_table_witness :
  AnalysisFailures (analyzeConversation "c1" [bikeMessage] (answer agreeing) 0 oneMessageStore)
  = AnalysisFailures oneMessageStore
  /\ MessageAnalysis (analyzeConversation "c1" [bikeMessage] (Rejected rateLimited) 0
                        oneMessageStore)
     = MessageAnalysis oneMessageStore
  /\ MessageAnalysis (analyzeConversation "c1" [bikeMessage] (answer agreeing) 0
                        oneMessageStore) !! "m2"
     = MessageAnalysis oneMessageStore !! "m2".
Proof.
  split; [|split].
  - destruct (analyzeConversation_writes_one_table "c1" [bikeMessage] (answer agreeing) 0
                oneMessageStore) as (_ & Hok & _).
    eapply Hok. vm_compute. reflexivity.
  - destruct (analyzeConversation_writes_one_table "c1" [bikeMessage] (Rejected rateLimited) 0
                oneMessageStore) as (_ & _ & Hfail & _).
    eapply Hfail. reflexivity.
  - destruct (analyzeConversation_writes_one_table "c1" [bikeMessage] (answer agreeing) 0
                oneMessageStore) as (_ & _ & _ & Hcap).
    apply Hcap. cbn. intros [H|[]]. discriminate H.
Defined.


End AnalyzeconversationWritesOneTableOnUtc.
Lemma dueForRetry_later {loc : Locale} t t' af m :
  t <= t' -> dueForRetry t af m = true -> dueForRetry t' af m = true.
Proof.
  unfold dueForRetry. intros Hle. destruct (af_next_retry af) as [next|]; [|auto].
  rewrite !andb_true_iff. intros [[[H1 H2] H3] H4]. repeat split; auto.
  apply Z.leb_le in H1. apply Z.leb_le. lia.
Qed.

Lemma FailedMessagesForRetry_later {loc : Locale} db t t' row :
  t <= t' -> In row (FailedMessagesForRetry db t) -> In row (FailedMessagesForRetry db t').
Proof.
  unfold FailedMessagesForRetry. intros Hle Hin.
  apply sortBy_In in Hin. apply sortBy_In.
  apply list_elem_of_In in Hin. apply list_elem_of_In.
  apply list_elem_of_omap in Hin as (m & Hm & Hrow).
  apply list_elem_of_omap. exists m. split; [exact Hm|].
  destruct (AnalysisFailures db !! msg_id m) as [af|]; [|discriminate].
  destruct (dueForRetry t af m) eqn:Hdue; [|discriminate].
  rewrite (dueForRetry_later _ _ _ _ Hle Hdue). exact Hrow.
Qed.

(** X2. A successful analysis does not clear the ledger: after it the
    view [FailedMessagesForRetry] is what it was before, at every instant,
    and a row that was due stays due at any later instant, so that a
    message retried with success is retried again by the next run. *)
Theorem successful_retry_stays_due {tz : TimeZone} {loc : Locale} conversationId msgs outcome
    now db db' :
  classifyAndStore msgs outcome db = Ok db' ->
  (forall t,
      FailedMessagesForRetry (analyzeConversation conversationId msgs outcome now db) t
      = FailedMessagesForRetry db t)
  /\ (forall t t' row,
        In row (FailedMessagesForRetry db t) -> t <= t' ->
        In row (FailedMessagesForRetry
                  (analyzeConversation conversationId msgs outcome now db) t')).
Proof.
  intros Hc.
  assert (Hview : forall t,
             FailedMessagesForRetry (analyzeConversation conversationId msgs outcome now db) t
             = FailedMessagesForRetry db t).
  { intros t. unfold analyzeConversation. rewrite Hc.
    destruct (classifyAndStore_ok _ _ _ _ Hc) as (results & rows & _ & _ & _ & ->).
    reflexivity. }
  split; [exact Hview|].
  intros t t' row Hin Hle. rewrite Hview. eapply FailedMessagesForRetry_later; eauto.
Qed.

Section SuccessfulRetryStaysDueOnUtc.

#[local] Existing Instance utc.
#[local] Existing Instance asciiLocale.

Lemma successful_retry_stays_due_witness :
  In dueRow
    (FailedMessagesForRetry
       (analyzeConversation "c1" [bikeMessage] (answer agreeing) 7200000 storeWithDueFailure)
       9000000).
Proof.
  destruct (successful_retry_stays_due "c1" [bikeMessage] (answer agreeing) 7200000
              storeWithDueFailure
              (mkStore [bikeMessage]
                 {[ "m1" := mkRow "m1" "en" "bike_not_moving" "escalated" (9 # 10) MODEL ]}
                 (AnalysisFailures storeWithDueFailure))) as [_ Hlater].
  - vm_compute. reflexivity.
  - apply (Hlater 7200000 9000000 dueRow); [|lia].
    vm_compute. left. reflexivity.
Defined.


End SuccessfulRetryStaysDueOnUtc.






(** The table bounds characters, not bytes: a language of 6 characters
    and 18 bytes is stored. *)
Example language_of_six_characters_is_stored :
  String.length "हिन्दी" = 18%nat
  /\ MessageAnalysis
       (analyzeConversation (tz := utc) "c1" [bikeMessage] (answer hindi) 0 oneMessageStore)
       !! "m1"
     = Some (mkRow "m1" "हिन्दी" "others" "cs" (9 # 10) MODEL).
Proof. vm_compute. split; reflexivity. Qed.


Lemma buildAnalyses_throw batch index results err :
  buildAnalyses batch index results = Throw err -> exists what, err = typeError what.
Proof.
  revert index. induction results as [|r results IH]; intros index Hb; [discriminate|].
  cbn in Hb. destruct (toAnalysis batch index r) as [row|e] eqn:Hto.
  - cbn in Hb. destruct (buildAnalyses batch (S index) results) as [rows|e] eqn:Hrest.
    + discriminate.
    + cbn in Hb. injection Hb as <-. eapply IH; eauto.
  - cbn in Hb. injection Hb as <-. unfold toAnalysis in Hto.
    destruct (nth_error batch index); [destruct r; [discriminate|]|];
      injection Hto as <-; eauto.
Qed.

(** X4. An answer with more results than messages were sent (the first
    [MAX_MESSAGES_PER_BATCH] of the conversation) makes the batch fail with
    a [TypeError], recorded as [unknown_error]: no analysis is stored and a
    failure is recorded for every message of the conversation. *)
Theorem more_results_than_messages_fails {tz : TimeZone} conversationId msgs results now db :
  (Nat.min MAX_MESSAGES_PER_BATCH (length msgs) < length results)%nat ->
  exists err,
    classifyAndStore msgs (Resolved (RespObject (Some results))) db = Throw err
    /\ errorTypeOf err = "unknown_error"
    /\ MessageAnalysis
         (analyzeConversation conversationId msgs (Resolved (RespObject (Some results)))
            now db) = MessageAnalysis db
    /\ AnalysisFailures
         (analyzeConversation conversationId msgs (Resolved (RespObject (Some results)))
            now db)
       = foldl (recordFailure conversationId err now) (AnalysisFailures db) msgs.
Proof.
  intros Hlen.
  destruct (buildAnalyses (firstn MAX_MESSAGES_PER_BATCH msgs) 0 results) as [rows|err] eqn:Hb.
  - destruct (buildAnalyses_length _ _ _ _ Hb) as [_ [Hbound| ->]].
    + rewrite length_firstn in Hbound. lia.
    + cbn in Hlen. lia.
  - destruct (buildAnalyses_throw _ _ _ _ Hb) as [what ->].
    exists (typeError what).
    assert (Hc : classifyAndStore msgs (Resolved (RespObject (Some results))) db
                 = Throw (typeError what)).
    { unfold classifyAndStore. rewrite Hb. reflexivity. }
    split; [exact Hc|]. split; [reflexivity|].
    unfold analyzeConversation. rewrite Hc. split; reflexivity.
Qed.

Section MoreResultsThanMessagesFailsOnUtc.

#[local] Existing Instance utc.
#[local] Existing Instance asciiLocale.

Lemma more_results_than_messages_fails_witness :
  exists err,
    classifyAndStore [bikeMessage] (Resolved (RespObject (Some [Some agreeing; Some agreeing])))
      oneMessageStore = Throw err
    /\ errorTypeOf err = "unknown_error"
    /\ MessageAnalysis
         (analyzeConversation "c1" [bikeMessage]
            (Resolved (RespObject (Some [Some agreeing; Some agreeing]))) 0 oneMessageStore)
       = MessageAnalysis oneMessageStore
    /\ AnalysisFailures
         (analyzeConversation "c1" [bikeMessage]
            (Resolved (RespObject (Some [Some agreeing; Some agreeing]))) 0 oneMessageStore)
       = foldl (recordFailure "c1" err 0) (AnalysisFailures oneMessageStore) [bikeMessage].
Proof.
  apply (more_results_than_messages_fails "c1" [bikeMessage] [Some agreeing; Some agreeing] 0
           oneMessageStore).
  simpl. lia.
Defined.


End MoreResultsThanMessagesFailsOnUtc.
(** *** Grouping *)

Lemma pushGroup_keys {V} k (v : V) (m : list (string * list V)) :
  map fst (pushGroup k v m) =
    if existsb (String.eqb k) (map fst m) then map fst m else map fst m ++ [k].
Proof.
  induction m as [|[k' vs] rest IH]; [reflexivity|].
  cbn. destruct (String.eqb k k') eqn:Hk; cbn; [reflexivity|].
  rewrite IH. destruct (existsb (String.eqb k) (map fst rest)); reflexivity.
Qed.

Lemma pushGroup_NoDup {V} k (v : V) (m : list (string * list V)) :
  List.NoDup (map fst m) -> List.NoDup (map fst (pushGroup k v m)).
Proof.
  intros Hnd. rewrite pushGroup_keys.
  destruct (existsb (String.eqb k) (map fst m)) eqn:Hex; [exact Hnd|].
  apply NoDup_ListNoDup. apply NoDup_ListNoDup in Hnd.
  apply (proj2 (NoDup_app _ _)). split; [exact Hnd|]. split; [|apply NoDup_singleton].
  intros x Hx Hx'. apply list_elem_of_singleton in Hx'. subst x.
  assert (existsb (String.eqb k) (map fst m) = true); [|congruence].
  apply existsb_exists. exists k. split; [apply list_elem_of_In; exact Hx|].
  apply String.eqb_refl.
Qed.

Lemma pushGroup_nonempty {V} k (v : V) (m : list (string * list V)) :
  Forall (fun g => snd g <> []) m -> Forall (fun g => snd g <> []) (pushGroup k v m).
Proof.
  induction m as [|[k' vs] rest IH]; intros Hne.
  - cbn. constructor; [discriminate|constructor].
  - cbn. inversion Hne as [|? ? Hh Ht]; subst.
    destruct (String.eqb k k').
    + constructor; [|exact Ht]. cbn. intros Heq. apply app_eq_nil in Heq as [_ Heq].
      discriminate.
    + constructor; [exact Hh|]. apply IH. exact Ht.
Qed.

Lemma pushGroup_concat {V} k (v : V) (m : list (string * list V)) :
  concat (map snd (pushGroup k v m)) ≡ₚ v :: concat (map snd m).
Proof.
  induction m as [|[k' vs] rest IH]; [reflexivity|].
  cbn. destruct (String.eqb k k'); cbn.
  - rewrite <- app_assoc. cbn. rewrite <- Permutation_middle. reflexivity.
  - rewrite IH. rewrite <- Permutation_middle. reflexivity.
Qed.

Lemma groupBy_concat {A V} (key : A -> string) (val : A -> V) (l : list A)
    (m0 : list (string * list V)) :
  concat (map snd (foldl (fun m x => pushGroup (key x) (val x) m) m0 l))
  ≡ₚ concat (map snd m0) ++ map val l.
Proof.
  revert m0. induction l as [|x l IH]; intros m0.
  - cbn. rewrite app_nil_r. reflexivity.
  - cbn. rewrite IH, pushGroup_concat. cbn. rewrite <- Permutation_middle. reflexivity.
Qed.

Lemma groupBy_NoDup {A V} (key : A -> string) (val : A -> V) (l : list A) :
  List.NoDup (map fst (groupBy key val l))
  /\ Forall (fun g => snd g <> []) (groupBy key val l).
Proof.
  unfold groupBy.
  apply (foldl_invariant
           (fun m => List.NoDup (map fst m) /\ Forall (fun g => snd g <> []) m)).
  - intros m x [Hnd Hne]. split; [apply pushGroup_NoDup|apply pushGroup_nonempty]; auto.
  - split; constructor.
Qed.

Lemma insertBy_Permutation {A} (le : A -> A -> bool) x l : insertBy le x l ≡ₚ x :: l.
Proof.
  induction l as [|y l IH]; [reflexivity|].
  cbn. destruct (le x y); [reflexivity|]. rewrite IH. apply perm_swap.
Qed.

Lemma sortBy_Permutation {A} (le : A -> A -> bool) l : sortBy le l ≡ₚ l.
Proof.
  induction l as [|x l IH]; [reflexivity|].
  cbn. rewrite insertBy_Permutation. apply perm_skip. exact IH.
Qed.

Lemma insertBy_oldestFirst x l :
  oldestFirst l ->
  oldestFirst (insertBy (fun a b => created_time a <=? created_time b) x l).
Proof.
  unfold oldestFirst. induction l as [|y l IH]; intros Hs.
  - cbn. constructor; constructor.
  - cbn. apply StronglySorted_inv in Hs as [Hs Hy].
    destruct (Z.leb_spec (created_time x) (created_time y)) as [Hle|Hgt].
    + constructor; [constructor; assumption|].
      constructor; [exact Hle|].
      eapply Forall_impl; [exact Hy|]. cbn. intros z Hz. lia.
    + constructor; [apply IH; exact Hs|].
      apply List.Forall_forall. intros z Hz. apply insertBy_In in Hz as [->|Hz]; [lia|].
      rewrite List.Forall_forall in Hy. apply Hy. exact Hz.
Qed.

Lemma sortBy_oldestFirst l :
  oldestFirst (sortBy (fun a b => created_time a <=? created_time b) l).
Proof.
  induction l as [|x l IH]; [constructor|]. cbn. apply insertBy_oldestFirst. exact IH.
Qed.

(** X5. [fetchMessagesForAnalysis] returns one group per conversation:
    the keys are distinct, no group is empty, the messages of a group
    belong to its conversation and are in ascending order of creation, and
    the groups together hold exactly the selected messages. *)
Theorem fetchMessagesForAnalysis_groups analyzedMessages db :
  List.NoDup (map fst (fetchMessagesForAnalysis analyzedMessages db))
  /\ Forall (fun g => snd g <> []
                      /\ Forall (fun m => conversationid m = fst g) (snd g)
                      /\ oldestFirst (snd g))
       (fetchMessagesForAnalysis analyzedMessages db)
  /\ concat (map snd (fetchMessagesForAnalysis analyzedMessages db))
     ≡ₚ unanalyzedMessages analyzedMessages db.
Proof.
  unfold fetchMessagesForAnalysis.
  destruct (groupBy_NoDup conversationid (fun m : Message => m) (unanalyzedMessages analyzedMessages db))
    as [Hnd Hne].
  split; [|split].
  - rewrite map_map. cbn. exact Hnd.
  - apply List.Forall_forall. intros [c ms] Hin.
    apply in_map_iff in Hin as ([c' ms'] & Heq & Hin). injection Heq as <- <-.
    cbn [fst snd]. split; [|split].
    + rewrite List.Forall_forall in Hne. specialize (Hne _ Hin). cbn in Hne.
      intros Hnil. apply Hne.
      apply Permutation_nil_r. rewrite <- Hnil. symmetry. apply sortBy_Permutation.
    + apply List.Forall_forall. intros m Hm. apply sortBy_In in Hm.
      destruct (groupBy_In _ _ _ _ _ _ Hin Hm) as (x & _ & Hk & ->). exact Hk.
    + apply sortBy_oldestFirst.
  - rewrite map_map. cbn.
    transitivity (concat (map snd (groupBy conversationid (fun m : Message => m)
                                     (unanalyzedMessages analyzedMessages db)))).
    + clear Hnd Hne.
      induction (groupBy conversationid (fun m : Message => m) (unanalyzedMessages analyzedMessages db))
        as [|g gs IH]; [reflexivity|].
      cbn. rewrite sortBy_Permutation, IH. reflexivity.
    + unfold groupBy. rewrite groupBy_concat. cbn. rewrite map_id. reflexivity.
Qed.

(** *** What a run keeps *)

Lemma foldl_insert_is_Some (rows : list AnalysisRow) (tbl : gmap string AnalysisRow) id :
  is_Some (tbl !! id) ->
  is_Some (foldl (fun t r => <[ma_message_id r := r]> t) tbl rows !! id).
Proof.
  revert tbl. induction rows as [|r rows IH]; intros tbl Hs; [exact Hs|].
  cbn. apply IH. apply lookup_insert_is_Some'. right. exact Hs.
Qed.

Lemma analyzeConversation_keeps {tz : TimeZone} c msgs outcome now db :
  Messages (analyzeConversation c msgs outcome now db) = Messages db
  /\ forall id, is_Some (MessageAnalysis db !! id) ->
                is_Some (MessageAnalysis (analyzeConversation c msgs outcome now db) !! id).
Proof.
  unfold analyzeConversation.
  destruct (classifyAndStore msgs outcome db) as [db'|err] eqn:Hc; [|split; auto].
  destruct (classifyAndStore_ok _ _ _ _ Hc) as (results & rows & _ & _ & _ & ->).
  split; [reflexivity|]. intros id Hs. cbn. apply foldl_insert_is_Some. exact Hs.
Qed.

(** X6. A run of [runAnalysis] never changes the table of the messages
    and never removes an analysis; when no failure is due and no message is
    selected it changes nothing at all, as it does on an empty table of
    messages. *)
Theorem runAnalysis_keeps_messages_and_rows {tz : TimeZone} {loc : Locale} e db :
  Messages (runAnalysis e db) = Messages db
  /\ (forall id, is_Some (MessageAnalysis db !! id) ->
                 is_Some (MessageAnalysis (runAnalysis e db) !! id))
  /\ (FailedMessagesForRetry db (clock e 0) = [] ->
      unanalyzedMessages (analyzedMessagesOf e db) db = [] ->
      runAnalysis e db = db)
  /\ (Messages db = [] -> runAnalysis e db = db).
Proof.
  assert (Hnothing : FailedMessagesForRetry db (clock e 0) = [] ->
                     unanalyzedMessages (analyzedMessagesOf e db) db = [] ->
                     runAnalysis e db = db).
  { intros Hview Hnew. unfold runAnalysis, retryFailedMessages. cbn [fst snd].
    rewrite Hview. cbn. unfold fetchMessagesForAnalysis. rewrite Hnew. cbn.
    destruct (max_conversations e); reflexivity. }
  assert (Hinv : Messages (runAnalysis e db) = Messages db
                 /\ forall id, is_Some (MessageAnalysis db !! id) ->
                               is_Some (MessageAnalysis (runAnalysis e db) !! id)).
  { apply (runAnalysis_invariant
             (fun db' => Messages db' = Messages db
                         /\ forall id, is_Some (MessageAnalysis db !! id) ->
                                       is_Some (MessageAnalysis db' !! id))).
    - intros c msgs k db0 [Hm Hrows].
      destruct (analyzeConversation_keeps c msgs (classify e k (classifierInput msgs))
                  (clock e k) db0) as [Hm' Hrows'].
      split; [congruence|]. intros id Hs. apply Hrows', Hrows, Hs.
    - split; auto. }
  destruct Hinv as [Hm Hrows]. split; [exact Hm|]. split; [exact Hrows|].
  split; [exact Hnothing|].
  intros Hempty. apply Hnothing.
  - unfold FailedMessagesForRetry. rewrite Hempty. reflexivity.
  - unfold unanalyzedMessages, userMessagesNewestFirst. rewrite Hempty. reflexivity.
Qed.

Section RunanalysisKeepsMessagesAndRowsOnUtc.

#[local] Existing Instance utc.
#[local] Existing Instance asciiLocale.

Lemma runAnalysis_keeps_messages_and_rows_witness :
  runAnalysis (failingRun 0) (mkStore [] ∅ ∅) = mkStore [] ∅ ∅
  /\ is_Some (MessageAnalysis (runAnalysis (failingRun 0) analysedStore) !! "m1").
Proof.
  split.
  - destruct (runAnalysis_keeps_messages_and_rows (failingRun 0) (mkStore [] ∅ ∅))
      as (_ & _ & _ & Hempty).
    apply Hempty. reflexivity.
  - destruct (runAnalysis_keeps_messages_and_rows (failingRun 0) analysedStore)
      as (_ & Hrows & _).
    apply Hrows. vm_compute. eexists. reflexivity.
Defined.


End RunanalysisKeepsMessagesAndRowsOnUtc.
(** *** The number of calls of the classifier in a run *)

Lemma pushGroup_length {V} k (v : V) (m : list (string * list V)) :
  (length (pushGroup k v m) <= S (length m))%nat.
Proof.
  induction m as [|[k' vs] rest IH]; cbn; [lia|].
  destruct (String.eqb k k'); cbn; lia.
Qed.

Lemma groupBy_length {A V} (key : A -> string) (val : A -> V) (l : list A) :
  (length (groupBy key val l) <= length l)%nat.
Proof.
  unfold groupBy.
  assert (H : forall m0, (length (foldl (fun m x => pushGroup (key x) (val x) m) m0 l)
                          <= length m0 + length l)%nat).
  { induction l as [|x l IH]; intros m0; cbn; [lia|].
    specialize (IH (pushGroup (key x) (val x) m0)).
    pose proof (pushGroup_length (key x) (val x) m0). lia. }
  apply (H []).
Qed.

Lemma analyzeCall_ext {tz : TimeZone} e e' (bound : nat) st c msgs :
  (forall k, clock e k = clock e' k) ->
  (forall k input, (k < bound)%nat -> classify e k input = classify e' k input) ->
  (snd st < bound)%nat ->
  analyzeCall e st c msgs = analyzeCall e' st c msgs
  /\ snd (analyzeCall e st c msgs) = S (snd st).
Proof.
  intros Hclock Hclass Hk. destruct st as [db k]. cbn in Hk. unfold analyzeCall.
  rewrite Hclock, (Hclass k _ Hk). split; reflexivity.
Qed.

Lemma foldl_calls_ext {G} (f f' : Store * nat -> G -> Store * nat) (bound : nat) gs :
  (forall st g, (snd st < bound)%nat ->
                f st g = f' st g /\ (snd (f st g) <= S (snd st))%nat) ->
  forall st, (snd st + length gs <= bound)%nat ->
             foldl f st gs = foldl f' st gs
             /\ (snd (foldl f st gs) <= snd st + length gs)%nat.
Proof.
  intros Hstep. induction gs as [|g gs IH]; intros st Hb; cbn in *; [split; [reflexivity|lia]|].
  destruct (Hstep st g) as [Heq Hle]; [lia|].
  destruct (IH (f st g)) as [Heq' Hle']; [lia|].
  rewrite <- Heq. split; [exact Heq'|lia].
Qed.

(** X7. A run calls the classifier at most [50 + max_conversations]
    times: two surroundings with the same clock and the same limit, whose
    classifiers agree on the calls below this number and in which the
    store gives the same analysed ids, give the same run. *)
Theorem runAnalysis_calls_bounded {tz : TimeZone} {loc : Locale} e e' db :
  max_conversations e = max_conversations e' ->
  (forall k, clock e k = clock e' k) ->
  (forall db0, analyzedMessagesOf e db0 = analyzedMessagesOf e' db0) ->
  (forall k input, (k < 50 + max_conversations e)%nat ->
                   classify e k input = classify e' k input) ->
  runAnalysis e db = runAnalysis e' db.
Proof.
  intros Hmax Hclock Hids Hclass.
  set (bound := (50 + max_conversations e)%nat) in *.
  assert (Hretry : retryFailedMessages e (db, O) = retryFailedMessages e' (db, O)
                   /\ (snd (retryFailedMessages e (db, O)) <= 50)%nat).
  { unfold retryFailedMessages. cbn [fst snd]. rewrite <- Hclock.
    set (convMap := groupBy v_conversation_id v_message_id
                      (firstn 50 (FailedMessagesForRetry db (clock e 0)))).
    assert (Hlen : (length convMap <= 50)%nat).
    { subst convMap. etransitivity; [apply groupBy_length|].
      rewrite length_firstn. lia. }
    match goal with
    | |- foldl ?f _ _ = foldl ?f' _ _ /\ _ =>
        destruct (foldl_calls_ext f f' bound convMap) with (st := (db, O)) as [Heq Hle]
    end.
    - intros st [convId messageIds] Hk.
      destruct (Nat.ltb 0 _); [|split; [reflexivity|lia]].
      destruct (analyzeCall_ext e e' bound st convId
                  (filter (fun m => bool_decide (msg_id m ∈ messageIds)) (Messages (fst st)))
                  Hclock Hclass Hk) as [Heq Hsnd].
      split; [exact Heq|]. rewrite Hsnd. lia.
    - cbn. subst bound. lia.
    - split; [exact Heq|]. eapply Nat.le_trans; [exact Hle|]. cbn [snd]. lia. }
  destruct Hretry as [Hretry Hcalls].
  unfold runAnalysis. cbv zeta. rewrite <- Hretry, <- Hmax, <- Hids.
  set (st := retryFailedMessages e (db, O)) in *.
  set (todo := firstn (max_conversations e)
                 (fetchMessagesForAnalysis (analyzedMessagesOf e (fst st)) (fst st))).
  match goal with
  | |- fst (foldl ?f _ _) = fst (foldl ?f' _ _) =>
      destruct (foldl_calls_ext f f' bound todo) with (st := st) as [Heq _]
  end.
  - intros st0 [convId msgs] Hk.
    destruct (analyzeCall_ext e e' bound st0 convId msgs Hclock Hclass Hk) as [Heq Hsnd].
    split; [exact Heq|]. rewrite Hsnd. lia.
  - subst todo bound. rewrite length_firstn. lia.
  - rewrite Heq. reflexivity.
Qed.

Section RunanalysisCallsBoundedOnUtc.

#[local] Existing Instance utc.
#[local] Existing Instance asciiLocale.

Lemma runAnalysis_calls_bounded_witness :
  runAnalysis (constantEnv (answer agreeing) 0) oneMessageStore
  = runAnalysis (failingAfter 150) oneMessageStore.
Proof.
  apply (runAnalysis_calls_bounded (constantEnv (answer agreeing) 0) (failingAfter 150)).
  - reflexivity.
  - intros k. reflexivity.
  - intros db0. reflexivity.
  - intros k input Hk. simpl in *.
    destruct (Nat.ltb_spec k 150); [reflexivity|lia].
Defined.


End RunanalysisCallsBoundedOnUtc.
(** *** The view of the messages that need an analysis *)

Lemma unanalyzedMessages_In analyzedMessages db m :
  In m (unanalyzedMessages analyzedMessages db) ->
  In m (Messages db)
  /\ actor_type m = "user"
  /\ message_parts m <> ""
  /\ ~ (msg_id m ∈ default [] analyzedMessages)
  /\ isShort (message_parts m) = false.
Proof.
  unfold unanalyzedMessages. cbv zeta. intros Hx. apply list_elem_of_In in Hx.
  apply list_elem_of_filter in Hx as [Hshort Hx].
  apply list_elem_of_filter in Hx as [Hnew Hx].
  unfold userMessagesNewestFirst in Hx. apply subseteq_take in Hx.
  apply list_elem_of_In, sortBy_In, list_elem_of_In in Hx.
  apply list_elem_of_filter in Hx as [Huser Hx].
  apply Is_true_true in Huser. apply andb_true_iff in Huser as [Hu Hc].
  apply String.eqb_eq in Hu. apply negb_true_iff, String.eqb_neq in Hc.
  apply Is_true_true, negb_true_iff in Hshort.
  apply Is_true_true, negb_true_iff, bool_decide_eq_false in Hnew.
  repeat split; auto.
  now apply list_elem_of_In.
Qed.

(** On a trimmed content on whose characters the database and JavaScript
    agree, what is long for the database is long for the engine, and what
    is long for the engine is long for the database once it has more than
    10 characters. *)
Lemma trimmed_sql_short {loc : Locale} m :
  trim (message_parts m) = message_parts m -> message_parts m <> "" ->
  sameSpaces (message_parts m) ->
  (sql_short m = false -> isShort (message_parts m) = false)
  /\ (isShort (message_parts m) = false ->
      (10 < sql_LENGTH (message_parts m))%nat -> sql_short m = false).
Proof.
  intros Htrim Hne Hsame. unfold sql_short, isShort. cbv zeta.
  rewrite (trimmed_sql_TRIM _ Htrim), Htrim, (trimmed_wordCount _ Htrim Hne Hsame).
  rewrite !orb_false_iff, !Nat.leb_gt.
  pose proof (sql_LENGTH_le_js_length (message_parts m)). split; intros; lia.
Qed.

(** X8. The view [MessagesNeedingAnalysis] against the selection of the
    engine, for a message whose stored content is trimmed and holds no
    character that is white space for the database or for JavaScript only,
    when the query of the analysed ids is answered with the ids of the
    table: a message that the engine selects is in the view when its
    content has more than 10 characters and the ledger holds less than
    three attempts for it; a message of the view has less than three
    attempts and is selected by the engine, as long as the table holds at
    most 1000 messages (the limit of the query of the engine). *)
Theorem MessagesNeedingAnalysis_vs_selection {loc : Locale} analyzedMessages db m :
  trim (message_parts m) = message_parts m ->
  sameSpaces (message_parts m) ->
  (forall id, id ∈ default [] analyzedMessages <-> is_Some (MessageAnalysis db !! id)) ->
  (In m (unanalyzedMessages analyzedMessages db) ->
   (10 < sql_LENGTH (message_parts m))%nat ->
   (forall af, AnalysisFailures db !! msg_id m = Some af -> af_attempts af < 3) ->
   In m (MessagesNeedingAnalysis db))
  /\ (In m (MessagesNeedingAnalysis db) ->
      (length (Messages db) <= 1000)%nat ->
      In m (unanalyzedMessages analyzedMessages db)
      /\ forall af, AnalysisFailures db !! msg_id m = Some af -> af_attempts af < 3).
Proof.
  intros Htrim Hsame Hids. split.
  - intros Hin Hchars Hledger.
    destruct (unanalyzedMessages_In analyzedMessages db m Hin)
      as (Hmem & Huser & Hne & Hnew & Hlong).
    unfold MessagesNeedingAnalysis. apply sortBy_In, list_elem_of_In.
    apply list_elem_of_filter. split; [|apply list_elem_of_In; exact Hmem].
    apply Is_true_true.
    apply (proj2 (trimmed_sql_short m Htrim Hne Hsame)) in Hlong; [|exact Hchars].
    unfold sql_short in Hlong.
    apply orb_false_iff in Hlong as [Hw Hc].
    apply Nat.leb_gt, Nat.ltb_lt in Hw, Hc.
    apply String.eqb_neq in Hne.
    assert (Hl : match AnalysisFailures db !! msg_id m with
                 | Some af => af_attempts af <? 3
                 | None => true
                 end = true).
    { destruct (AnalysisFailures db !! msg_id m) as [af|] eqn:Haf; [|reflexivity].
      apply Z.ltb_lt. apply Hledger. reflexivity. }
    assert (Hrow : bool_decide (is_Some (MessageAnalysis db !! msg_id m)) = false).
    { apply bool_decide_eq_false. intros Hs. apply Hnew, Hids, Hs. }
    unfold needsAnalysis. rewrite Hrow, Huser, Hne, Hw, Hc, Hl. reflexivity.
  - intros Hin Hsize.
    unfold MessagesNeedingAnalysis in Hin. apply sortBy_In, list_elem_of_In in Hin.
    apply list_elem_of_filter in Hin as [Hneeds Hmem].
    apply Is_true_true in Hneeds. unfold needsAnalysis in Hneeds.
    rewrite !andb_true_iff, !Nat.ltb_lt in Hneeds.
    destruct Hneeds as (((((Hnew & Hne) & Huser) & Hledger) & Hw) & Hc).
    assert (Hne' : message_parts m <> "")
      by (apply String.eqb_neq, negb_true_iff; exact Hne).
    split.
    + unfold unanalyzedMessages. cbv zeta. apply list_elem_of_In.
      apply list_elem_of_filter. split.
      { apply Is_true_true, negb_true_iff.
        apply (proj1 (trimmed_sql_short m Htrim Hne' Hsame)). unfold sql_short.
        apply orb_false_iff. split; apply Nat.leb_gt; assumption. }
      apply list_elem_of_filter. split.
      { apply Is_true_true, negb_true_iff, bool_decide_eq_false. intros Hid.
        apply Hids in Hid. apply negb_true_iff, bool_decide_eq_false in Hnew.
        contradiction. }
      unfold userMessagesNewestFirst. rewrite firstn_all2.
      * apply list_elem_of_In, sortBy_In, list_elem_of_In.
        apply list_elem_of_filter. split; [|exact Hmem].
        apply Is_true_true. rewrite Huser, Hne. reflexivity.
      * rewrite (Permutation_length (sortBy_Permutation _ _)).
        etransitivity; [apply length_filter|]. exact Hsize.
    + intros af Haf. rewrite Haf in Hledger. apply Z.ltb_lt. exact Hledger.
Qed.

Section SelectionExamples.

#[local] Existing Instance asciiLocale.

Lemma MessagesNeedingAnalysis_vs_selection_witness :
  In bikeMessage (MessagesNeedingAnalysis storeWithDueFailure)
  /\ In bikeMessage (unanalyzedMessages (allAnalyzed storeWithDueFailure) storeWithDueFailure).
Proof.
  destruct (MessagesNeedingAnalysis_vs_selection (allAnalyzed storeWithDueFailure)
              storeWithDueFailure bikeMessage)
    as [Hto Hfrom].
  - vm_compute; reflexivity.
  - apply sameSpaces_ascii. vm_compute. reflexivity.
  - intros id. vm_compute. split; [intros H; inversion H | intros [x H]; discriminate H].
  - assert (Hin : In bikeMessage (MessagesNeedingAnalysis storeWithDueFailure)).
    { apply Hto.
      - vm_compute. left. reflexivity.
      - vm_compute. lia.
      - intros af Haf. vm_compute in Haf. injection Haf as <-. simpl. lia. }
    split; [exact Hin|].
    apply Hfrom; [exact Hin|simpl; lia].
Defined.

(** The engine selects a content of three words and 8 characters, which
    the view leaves out. *)
Example emoji_selected_but_not_in_view :
  In emojiMessage (unanalyzedMessages (allAnalyzed emojiStore) emojiStore)
  /\ MessagesNeedingAnalysis emojiStore = [].
Proof. vm_compute. split; [left|]; reflexivity. Qed.

End SelectionExamples.

(** *** The clean-up of the ledger *)

Lemma deletedByCleanup_spec {loc : Locale} db id :
  deletedByCleanup db id = true <->
  exists m, In m (Messages db) /\ msg_id m = id /\ sql_short m = true.
Proof.
  unfold deletedByCleanup. rewrite existsb_exists. split.
  - intros (m & Hin & Hm). apply andb_true_iff in Hm as [Hid Hs].
    apply String.eqb_eq in Hid. eauto.
  - intros (m & Hin & Hid & Hs). exists m. split; [exact Hin|].
    rewrite Hs, <- Hid, String.eqb_refl. reflexivity.
Qed.

Lemma cleanup_lookup {loc : Locale} db id :
  AnalysisFailures (cleanupShortMessages db) !! id =
    if deletedByCleanup db id then None else AnalysisFailures db !! id.
Proof.
  unfold cleanupShortMessages. cbn [AnalysisFailures].
  destruct (deletedByCleanup db id) eqn:Hdel.
  - apply map_lookup_filter_None. right. intros af _ Hkeep. cbn in Hkeep.
    rewrite Hdel in Hkeep. exact Hkeep.
  - destruct (AnalysisFailures db !! id) as [af|] eqn:Haf.
    + apply map_lookup_filter_Some. split; [exact Haf|]. cbn. rewrite Hdel. exact I.
    + apply map_lookup_filter_None. left. exact Haf.
Qed.

Lemma omap_ext_In {A B} (f g : A -> option B) l :
  (forall x, In x l -> f x = g x) -> omap f l = omap g l.
Proof.
  induction l as [|x l IH]; intros Hext; [reflexivity|].
  cbn. rewrite (Hext x) by (left; reflexivity).
  rewrite IH by (intros y Hy; apply Hext; right; exact Hy). reflexivity.
Qed.

Lemma NoDup_map_eq {A B} (f : A -> B) l x y :
  List.NoDup (map f l) -> In x l -> In y l -> f x = f y -> x = y.
Proof.
  induction l as [|z l IH]; intros Hnd Hx Hy Heq; [destruct Hx|].
  cbn in Hnd. apply List.NoDup_cons_iff in Hnd as [Hz Hnd].
  destruct Hx as [->|Hx], Hy as [->|Hy]; auto.
  - exfalso. apply Hz. rewrite Heq. apply in_map. exact Hy.
  - exfalso. apply Hz. rewrite <- Heq. apply in_map. exact Hx.
Qed.

Lemma sql_short_not_due {loc : Locale} now af m :
  sql_short m = true -> dueForRetry now af m = false.
Proof.
  unfold sql_short, dueForRetry. intros Hs.
  destruct (af_next_retry af); [|reflexivity].
  apply orb_true_iff in Hs as [Hs|Hs]; apply Nat.leb_le in Hs.
  - assert (H : Nat.ltb 2 (sql_pieces (sql_TRIM (message_parts m))) = false)
      by (apply Nat.ltb_ge; exact Hs).
    rewrite H, andb_false_r. reflexivity.
  - assert (H : Nat.ltb 10 (sql_LENGTH (sql_TRIM (message_parts m))) = false)
      by (apply Nat.ltb_ge; exact Hs).
    rewrite H, andb_false_r. reflexivity.
Qed.

(** X9. The clean-up script removes from the ledger the rows of the
    messages that are short for the database, and no other row: those
    whose content, once its leading and trailing spaces are removed, has
    at most ten characters or splits at its white space into at most two
    pieces, an empty piece before a leading tab or line feed included.
    Running the script twice is running it once; when the ids of the
    messages are distinct it does not change the view
    [FailedMessagesForRetry], which never listed such a message. *)
Theorem cleanupShortMessages_spec {loc : Locale} db :
  (forall m, In m (Messages db) -> sql_short m = true ->
             AnalysisFailures (cleanupShortMessages db) !! msg_id m = None)
  /\ (forall id, deletedByCleanup db id = false ->
                 AnalysisFailures (cleanupShortMessages db) !! id = AnalysisFailures db !! id)
  /\ cleanupShortMessages (cleanupShortMessages db) = cleanupShortMessages db
  /\ (List.NoDup (map msg_id (Messages db)) ->
      forall now, FailedMessagesForRetry (cleanupShortMessages db) now
                  = FailedMessagesForRetry db now).
Proof.
  split; [|split; [|split]].
  - intros m Hin Hshort. rewrite cleanup_lookup.
    rewrite (proj2 (deletedByCleanup_spec db (msg_id m))); [reflexivity|]. eauto.
  - intros id Hdel. rewrite cleanup_lookup, Hdel. reflexivity.
  - assert (Hstore : forall a b, Messages a = Messages b ->
                       MessageAnalysis a = MessageAnalysis b ->
                       AnalysisFailures a = AnalysisFailures b -> a = b).
    { intros [] []; cbn; congruence. }
    apply Hstore; [reflexivity|reflexivity|].
    apply map_eq. intros id. rewrite (cleanup_lookup (cleanupShortMessages db)).
    change (deletedByCleanup (cleanupShortMessages db) id) with (deletedByCleanup db id).
    rewrite cleanup_lookup. destruct (deletedByCleanup db id); reflexivity.
  - intros Hnd now. unfold FailedMessagesForRetry. f_equal.
    change (Messages (cleanupShortMessages db)) with (Messages db).
    apply omap_ext_In. intros m Hm. rewrite cleanup_lookup.
    destruct (deletedByCleanup db (msg_id m)) eqn:Hdel; [|reflexivity].
    apply deletedByCleanup_spec in Hdel as (m' & Hm' & Hid & Hshort).
    assert (m' = m) as -> by (eapply NoDup_map_eq; eauto).
    destruct (AnalysisFailures db !! msg_id m) as [af|]; [|reflexivity].
    rewrite (sql_short_not_due now af m Hshort). reflexivity.
Qed.

Section CleanupshortmessagesSpecOnUtc.

#[local] Existing Instance utc.
#[local] Existing Instance asciiLocale.

Lemma cleanupShortMessages_spec_witness :
  AnalysisFailures (cleanupShortMessages storeWithOkFailure) !! msg_id okMessage = None
  /\ AnalysisFailures (cleanupShortMessages storeWithDueFailure) !! "m1"
     = AnalysisFailures storeWithDueFailure !! "m1"
  /\ FailedMessagesForRetry (cleanupShortMessages storeWithOkFailure) 7200000
     = FailedMessagesForRetry storeWithOkFailure 7200000.
Proof.
  split; [|split].
  - destruct (cleanupShortMessages_spec storeWithOkFailure) as (Hgone & _).
    apply Hgone; [simpl; auto|vm_compute; reflexivity].
  - destruct (cleanupShortMessages_spec storeWithDueFailure) as (_ & Hkept & _).
    apply Hkept. vm_compute. reflexivity.
  - destruct (cleanupShortMessages_spec storeWithOkFailure) as (_ & _ & _ & Hview).
    apply Hview. simpl. constructor; [|constructor; [intros []|constructor]].
    simpl. intros [H|[]]. discriminate H.
Defined.

(** A content of three words and 9 characters is short for the database,
    and its ledger row is removed; a content of two words after a tab is
    not, and its row is kept. *)
Example cleanup_counts_characters_and_pieces :
  sql_short hindiMessage = true
  /\ AnalysisFailures (cleanupShortMessages storeWithHindiFailure) = ∅
  /\ sql_short tabMessage = false
  /\ AnalysisFailures (cleanupShortMessages storeWithTabFailure)
     = AnalysisFailures storeWithTabFailure.
Proof. vm_compute. repeat split. Qed.



End CleanupshortmessagesSpecOnUtc.
(** ** The shape of [paginate] *)

Ltac splits := repeat match goal with |- _ /\ _ => split end.

Section PaginateShape.

Context {Env : Type}.
Variable api_get : Env -> string -> Params -> result Exn jsval * Env.

Lemma pagesOf_app itemsKey tr1 tr2 :
  pagesOf itemsKey (tr1 ++ tr2) = pagesOf itemsKey tr1 ++ pagesOf itemsKey tr2.
Proof. apply omap_app. Qed.

Lemma getRequests_app tr1 tr2 :
  getRequests (tr1 ++ tr2) = getRequests tr1 ++ getRequests tr2.
Proof. apply omap_app. Qed.

Lemma fetchWithRetry_page path params itemsKey (w : World Env) :
  exists new out w',
    fetchWithRetry api_get path params w = (out, w')
    /\ trace w' = trace w ++ new
    /\ summary w' = summary w
    /\ out <> OutOfFuel
    /\ pagesOf itemsKey new = match out with
                              | Returned d => [pageItemsOf itemsKey d]
                              | _ => []
                              end
    /\ Forall (fun rq => rq = (path, params)) (getRequests new)
    /\ (forall e, out = Thrown e -> last (getOutcomes new) = Some (Throw e))
    /\ (forall d, out = Returned d -> last (getOutcomes new) = Some (Ok d))
    /\ upserts new = []
    /\ Forall (fun ms => In ms [1000; 2000; 4000]) (sleeps new).
Proof.
  destruct (fetchWithRetry_shape api_get path params w)
    as (new & out & w' & E & Htr & Hsum & Hout & (r & Hlast & Hr) & Hreq & Hcases).
  exists new, out, w'. splits; auto.
  - destruct Hcases as [(r0 & -> & _)|[(e1 & r0 & -> & _)|[(e1 & e2 & r0 & -> & _)
                       |(e1 & e2 & e3 & r0 & -> & _)]]];
      cbn in Hlast; injection Hlast as <-; subst out; destruct r0; reflexivity.
  - rewrite Hreq. apply Forall_replicate. reflexivity.
  - intros e ->. rewrite Hlast. f_equal. destruct r; cbn in Hr; congruence.
  - intros d ->. rewrite Hlast. f_equal. destruct r; cbn in Hr; congruence.
  - destruct Hcases as [(r0 & -> & _)|[(e1 & r0 & -> & _)|[(e1 & e2 & r0 & -> & _)
                       |(e1 & e2 & e3 & r0 & -> & _)]]]; reflexivity.
  - destruct Hcases as [(r0 & -> & _)|[(e1 & r0 & -> & _)|[(e1 & e2 & r0 & -> & _)
                       |(e1 & e2 & e3 & r0 & -> & _)]]]; cbn;
      repeat (constructor; [cbn; tauto|]); constructor.
Qed.

Lemma paginate_loop_pages fuel path params itemsKey pageSize st (w : World Env) :
  exists new out w',
    paginate_loop api_get fuel path params itemsKey pageSize st w = (out, w')
    /\ trace w' = trace w ++ new
    /\ summary w' = summary w
    /\ (forall its stop, out = Returned (its, stop) ->
                         its = items st ++ concat (pagesOf itemsKey new))
    /\ (length (pagesOf itemsKey new) <= fuel)%nat
    /\ Forall (requestsPage path params (page st) (page st + Z.of_nat fuel - 1))
         (getRequests new)
    /\ (forall e, out = Thrown e -> last (getOutcomes new) = Some (Throw e))
    /\ (forall r, out = Returned r -> exists d, last (getOutcomes new) = Some (Ok d))
    /\ upserts new = [].
Proof.
  revert st w. induction fuel as [|fuel IH]; intros st w.
  { exists [], OutOfFuel, w. cbn. rewrite app_nil_r.
    splits; auto; try (intros; discriminate). }
  rewrite paginate_loop_unfold. unfold bind at 1.
  destruct (fetchWithRetry_page path (with_page params (page st)) itemsKey w)
    as (new1 & out1 & w1 & E1 & Htr1 & Hsum1 & Hout1 & Hpages1 & Hreq1 & Hthrown1
        & Hret1 & Hups1 & _).
  rewrite E1.
  assert (Hreq1' : Forall (requestsPage path params (page st)
                             (page st + Z.of_nat (S fuel) - 1)) (getRequests new1)).
  { eapply Forall_impl; [exact Hreq1|]. intros rq ->. split; [reflexivity|].
    exists (page st). split; [reflexivity|lia]. }
  destruct out1 as [data|e|]; [|clear IH|congruence].
  2:{ exists new1, (Thrown e), w1. rewrite Hpages1.
      splits; auto; try (intros; discriminate); try (cbn; lia).
      intros e0 Heq. injection Heq as <-. apply Hthrown1. reflexivity. }
  cbv zeta.
  assert (Hret : forall its stop,
             its = items st ++ pageItemsOf itemsKey data ->
             exists new (out : Outcome (list jsval * Stop)) (w' : World Env),
               (Returned (its, stop), w1) = (out, w')
               /\ trace w' = trace w ++ new
               /\ summary w' = summary w
               /\ (forall its0 stop0, out = Returned (its0, stop0) ->
                                      its0 = items st ++ concat (pagesOf itemsKey new))
               /\ (length (pagesOf itemsKey new) <= S fuel)%nat
               /\ Forall (requestsPage path params (page st)
                            (page st + Z.of_nat (S fuel) - 1)) (getRequests new)
               /\ (forall e, out = Thrown e -> last (getOutcomes new) = Some (Throw e))
               /\ (forall r, out = Returned r ->
                              exists d, last (getOutcomes new) = Some (Ok d))
               /\ upserts new = []).
  { intros its stop ->. exists new1, (Returned (items st ++ pageItemsOf itemsKey data, stop)), w1.
    rewrite Hpages1. splits; auto; try (intros; discriminate).
    - intros its0 stop0 Heq. injection Heq as <- <-. cbn. rewrite app_nil_r. reflexivity.
    - cbn. lia.
    - intros r _. exists data. apply Hret1. reflexivity. }
  destruct (Z.of_nat (length (pageItemsOf itemsKey data)) =? 0) eqn:Hempty.
  { unfold ret. apply Hret.
    apply Z.eqb_eq in Hempty.
    destruct (pageItemsOf itemsKey data); [rewrite app_nil_r; reflexivity|cbn in Hempty; lia]. }
  destruct (truthy _ && set_has _ _)%bool; [unfold ret; apply Hret; reflexivity|].
  destruct (_ <? pageSize); [unfold ret; apply Hret; reflexivity|].
  destruct (_ =? Z.of_nat (length (items st))); [unfold ret; apply Hret; reflexivity|].
  destruct (safety st + 1 >? 200); [unfold ret; apply Hret; reflexivity|].
  clear Hret. unfold bind, sleep.
  match goal with
  | |- context [paginate_loop api_get fuel path params itemsKey pageSize ?st' ?w'] =>
      destruct (IH st' w')
        as (new2 & out & w2 & E2 & Htr2 & Hsum2 & Hits2 & Hlen2 & Hreq2 & Hthrown2
            & Hret2 & Hups2)
  end.
  rewrite E2. cbn [page items] in *.
  assert (Hp : pagesOf itemsKey (new1 ++ ESleep 500 :: new2)
               = pageItemsOf itemsKey data :: pagesOf itemsKey new2)
    by (rewrite pagesOf_app, Hpages1; reflexivity).
  assert (Hr : getRequests (new1 ++ ESleep 500 :: new2)
               = getRequests new1 ++ getRequests new2)
    by (rewrite getRequests_app; reflexivity).
  assert (Ho : getOutcomes (new1 ++ ESleep 500 :: new2)
               = getOutcomes new1 ++ getOutcomes new2)
    by (rewrite getOutcomes_app; reflexivity).
  assert (Hu : upserts (new1 ++ ESleep 500 :: new2) = []).
  { unfold upserts in *. rewrite omap_app, Hups1. exact Hups2. }
  exists (new1 ++ ESleep 500 :: new2), out, w2.
  rewrite Hp, Hr, Ho, Hu.
  split; [reflexivity|]. split.
  { rewrite Htr2. unfold emit. cbn [trace]. rewrite Htr1, <- !app_assoc. reflexivity. }
  split; [rewrite Hsum2; unfold emit; cbn [summary]; exact Hsum1|].
  split.
  { intros its stop Hout. rewrite (Hits2 its stop Hout).
    cbn [concat]. rewrite <- app_assoc. reflexivity. }
  split; [cbn [length]; lia|].
  split.
  { apply Forall_app. split; [exact Hreq1'|].
    eapply Forall_impl; [exact Hreq2|].
    intros rq [Hq (n & Hn & Hrange)]. split; [exact Hq|]. exists n. split; [exact Hn|lia]. }
  split.
  { intros e Hout. specialize (Hthrown2 e Hout).
    rewrite last_app, Hthrown2. reflexivity. }
  split; [|reflexivity].
  intros r Hout. destruct (Hret2 r Hout) as [d Hd]. exists d.
  rewrite last_app, Hd. reflexivity.
Qed.

End PaginateShape.

Section PaginateExtras.

Context {Env : Type}.
Variable api_get : Env -> string -> Params -> result Exn jsval * Env.

Lemma paginate_pages path params itemsKey (w : World Env) :
  exists new out w',
    paginate api_get path params itemsKey w = (out, w')
    /\ trace w' = trace w ++ new
    /\ summary w' = summary w
    /\ out <> OutOfFuel
    /\ (forall its, out = Returned its -> its = concat (pagesOf itemsKey new))
    /\ (length (pagesOf itemsKey new) <= 201)%nat
    /\ Forall (requestsPage path params (startPage params) (startPage params + 200))
         (getRequests new)
    /\ (forall e, out = Thrown e -> last (getOutcomes new) = Some (Throw e))
    /\ (forall its, out = Returned its -> exists d, last (getOutcomes new) = Some (Ok d))
    /\ upserts new = [].
Proof.
  pose proof (paginate_loop_terminates api_get 201 path params itemsKey (pageSizeOf params)
                {| page := startPage params; items := []; seenFirstIds := []; safety := 0 |} w)
    as Hterm.
  unfold paginate, bind. rewrite paginate_stop_unfold.
  destruct (paginate_loop_pages api_get 201 path params itemsKey (pageSizeOf params)
              {| page := startPage params; items := []; seenFirstIds := []; safety := 0 |} w)
    as (new & out & w' & E & Htr & Hsum & Hits & Hlen & Hreq & Hthrown & Hret & Hups).
  rewrite E in Hterm. rewrite E. cbn [page] in Hreq.
  assert (Hreq' : Forall (requestsPage path params (startPage params)
                            (startPage params + 200)) (getRequests new)).
  { eapply Forall_impl; [exact Hreq|].
    intros rq [Hq (n & Hn & Hrange)]. split; [exact Hq|]. exists n. split; [exact Hn|lia]. }
  destruct out as [[its stop]|e|]; unfold ret.
  - exists new, (Returned its), w'. splits; auto; try discriminate.
    + intros its0 Heq. injection Heq as <-. apply (Hits its stop). reflexivity.
    + intros its0 _. apply (Hret (its, stop)). reflexivity.
  - exists new, (Thrown e), w'. splits; auto; try discriminate.
    intros e0 Heq. injection Heq as <-. apply Hthrown. reflexivity.
  - exfalso. apply Hterm; [cbn [safety]; lia|cbn [safety]; lia|reflexivity].
Qed.

(** X10. [paginate] always comes to an end. What it returns is the
    concatenation, in order, of the items of every answer it received, and
    it receives at most 201 of them; it changes no counter of the
    summary. *)
Theorem paginate_returns_the_pages_received path params itemsKey (w : World Env) :
  exists new out w',
    paginate api_get path params itemsKey w = (out, w')
    /\ trace w' = trace w ++ new
    /\ summary w' = summary w
    /\ out <> OutOfFuel
    /\ (forall its, out = Returned its -> its = concat (pagesOf itemsKey new))
    /\ (length (pagesOf itemsKey new) <= 201)%nat.
Proof.
  destruct (paginate_pages path params itemsKey w)
    as (new & out & w' & E & Htr & Hsum & Hout & Hits & Hlen & _).
  exists new, out, w'. auto 10.
Qed.

(** X11. Every request of [paginate] is for its path, with its parameters
    and a page between the starting page and 200 pages after it. When it
    throws, the error is the answer to its last request; when it returns,
    its last request was answered. It writes nothing to the store. *)
Theorem paginate_requests_and_failure path params itemsKey (w : World Env) :
  exists new out w',
    paginate api_get path params itemsKey w = (out, w')
    /\ trace w' = trace w ++ new
    /\ Forall (requestsPage path params (startPage params) (startPage params + 200))
         (getRequests new)
    /\ (forall e, out = Thrown e -> last (getOutcomes new) = Some (Throw e))
    /\ (forall its, out = Returned its -> exists d, last (getOutcomes new) = Some (Ok d))
    /\ upserts new = [].
Proof.
  destruct (paginate_pages path params itemsKey w)
    as (new & out & w' & E & Htr & _ & _ & _ & _ & Hreq & Hthrown & Hret & Hups).
  exists new, out, w'. auto 10.
Qed.

(** X12. When the answer to the first request holds no item (no list under
    the key, or an empty one), [paginate] returns the empty list after this
    single request, without sleeping. *)
Theorem paginate_page_without_items path params itemsKey (w : World Env) d s' :
  api_get (env w) path (with_page params (startPage params)) = (Ok d, s') ->
  pageItemsOf itemsKey d = [] ->
  paginate api_get path params itemsKey w =
    (Returned [],
     {| env := s';
        trace := trace w ++ [EGet path (with_page params (startPage params)) (Ok d)];
        summary := summary w |}).
Proof.
  intros Hget Hempty. unfold paginate, bind. rewrite paginate_stop_unfold.
  change 201%nat with (S 200). rewrite paginate_loop_unfold.
  unfold bind at 1. cbn [page items seenFirstIds safety].
  rewrite (fetchWithRetry_ok api_get _ _ _ _ _ Hget). cbv zeta.
  rewrite Hempty. reflexivity.
Qed.

End PaginateExtras.

Lemma paginate_page_without_items_witness :
  paginate maintenanceSource "/users" pagesOfTwo "users" freshWorld =
    (Returned [],
     {| env := 1%nat;
        trace := trace freshWorld ++
                 [EGet "/users" (with_page pagesOfTwo (startPage pagesOfTwo))
                    (Ok (JObject [("error", JString "maintenance")]))];
        summary := summary freshWorld |}).
Proof.
  apply (paginate_page_without_items maintenanceSource "/users" pagesOfTwo "users"
           freshWorld (JObject [("error", JString "maintenance")]) 1%nat);
    reflexivity.
Defined.

(** ** The sync pass as a whole *)

Section Preservation.

Context {Env : Type}.
Variable api_get : Env -> string -> Params -> result Exn jsval * Env.
Variable R : World Env -> World Env -> Prop.
Hypothesis R_refl : forall w, R w w.
Hypothesis R_trans : forall w1 w2 w3, R w1 w2 -> R w2 w3 -> R w1 w3.
Hypothesis R_sleep : forall ms w, R w (emit (ESleep ms) w).
Hypothesis R_get : forall (w : World Env) path params r env',
  R w {| env := env'; trace := trace w ++ [EGet path params r]; summary := summary w |}.

Lemma preserves_ret {A} (a : A) : preserves R (ret a).
Proof. intros w. apply R_refl. Qed.

Lemma preserves_throw {A} e : preserves R (@throw Env A e).
Proof. intros w. apply R_refl. Qed.

Lemma preserves_out_of_fuel {A} : preserves R (@out_of_fuel Env A).
Proof. intros w. apply R_refl. Qed.

Lemma preserves_bind {A B} (m : M Env A) (k : A -> M Env B) :
  preserves R m -> (forall a, preserves R (k a)) -> preserves R (bind m k).
Proof.
  intros Hm Hk w. unfold bind. specialize (Hm w).
  destruct (m w) as [[a|e|] w1]; cbn in *; auto.
  eapply R_trans; [exact Hm|apply Hk].
Qed.

(** The continuation only has to behave on the values [m] can return. *)
Lemma preserves_bind_post {A B} (Q : A -> Prop) (m : M Env A) (k : A -> M Env B) :
  preserves R m ->
  (forall w a w', m w = (Returned a, w') -> Q a) ->
  (forall a, Q a -> preserves R (k a)) ->
  preserves R (bind m k).
Proof.
  intros Hm Hpost Hk w. unfold bind. specialize (Hm w). specialize (Hpost w).
  destruct (m w) as [[a|e|] w1]; cbn in *; auto.
  eapply R_trans; [exact Hm|]. apply Hk. eapply Hpost. reflexivity.
Qed.

Lemma preserves_try_catch {A} (m : M Env A) (h : Exn -> M Env A) :
  preserves R m -> (forall e, preserves R (h e)) -> preserves R (try_catch m h).
Proof.
  intros Hm Hh w. unfold try_catch. specialize (Hm w).
  destruct (m w) as [[a|e|] w1]; cbn in *; auto.
  eapply R_trans; [exact Hm|apply Hh].
Qed.

Lemma preserves_silent {A} (m : M Env A) : silent m -> preserves R m.
Proof. intros H w. rewrite (proj1 (H w)). apply R_refl. Qed.

Lemma preserves_sleep ms : preserves R (@sleep Env ms).
Proof. intros w. apply R_sleep. Qed.

Lemma preserves_get v k : preserves R (@get Env v k).
Proof. intros w. unfold get. destruct (prop v k); apply R_refl. Qed.

Lemma preserves_upperOrEmpty v : preserves R (@upperOrEmpty Env v).
Proof. intros w. unfold upperOrEmpty. destruct (js_or v _); apply R_refl. Qed.

Lemma preserves_api_get_data path params : preserves R (api_get_data api_get path params).
Proof.
  intros w. rewrite api_get_data_step. cbn [snd]. apply R_get.
Qed.

Lemma preserves_fetchWithRetry_from fuel path params attempt :
  preserves R (fetchWithRetry_from api_get fuel path params attempt).
Proof.
  revert attempt. induction fuel as [|fuel IH]; intros attempt.
  - apply preserves_out_of_fuel.
  - cbn [fetchWithRetry_from]. apply preserves_try_catch.
    + apply preserves_api_get_data.
    + intros e. destruct (status_is e 429 && (attempt <? 4))%bool.
      * apply preserves_bind; [apply preserves_sleep|intros _; apply IH].
      * apply preserves_throw.
Qed.

Lemma preserves_fetchWithRetry path params :
  preserves R (fetchWithRetry api_get path params).
Proof. apply preserves_fetchWithRetry_from. Qed.

Lemma preserves_paginate_loop fuel path params itemsKey pageSize st :
  preserves R (paginate_loop api_get fuel path params itemsKey pageSize st).
Proof.
  revert st. induction fuel as [|fuel IH]; intros st.
  - apply preserves_out_of_fuel.
  - rewrite paginate_loop_unfold. apply preserves_bind; [apply preserves_fetchWithRetry|].
    intros data. cbv zeta.
    repeat match goal with
           | |- preserves R (if ?c then _ else _) => destruct c
           | |- preserves R (ret _) => apply preserves_ret
           end.
    apply preserves_bind; [apply preserves_sleep|intros _; apply IH].
Qed.

Lemma preserves_paginate path params itemsKey :
  preserves R (paginate api_get path params itemsKey).
Proof.
  unfold paginate. apply preserves_bind; [|intros r; apply preserves_ret].
  rewrite paginate_stop_unfold. apply preserves_paginate_loop.
Qed.

Lemma preserves_filterByActor pred messages :
  preserves R (@filterByActor Env pred messages).
Proof.
  induction messages as [|m rest IH]; cbn [filterByActor]; [apply preserves_ret|].
  apply preserves_bind; [apply preserves_get|intros a].
  apply preserves_bind; [apply preserves_upperOrEmpty|intros actorType].
  apply preserves_bind; [exact IH|intros kept]. apply preserves_ret.
Qed.

Lemma preserves_for_each {A} (l : list A) (body : A -> M Env unit) :
  Forall (fun x => preserves R (body x)) l -> preserves R (for_each l body).
Proof.
  induction 1 as [|x l Hx Hl IH]; cbn [for_each]; [apply preserves_ret|].
  apply preserves_bind; [exact Hx|intros _; exact IH].
Qed.

Variable Number_toString : Q -> string.

Lemma preserves_fetchConversation conversationId :
  preserves R (fetchConversation api_get Number_toString conversationId).
Proof.
  unfold fetchConversation.
  apply preserves_bind; [apply preserves_silent, silent_toStringM|intros id].
  apply preserves_fetchWithRetry.
Qed.

Lemma preserves_fetchConversationMessages conversationId fromISO :
  preserves R (fetchConversationMessages api_get Number_toString conversationId fromISO).
Proof.
  unfold fetchConversationMessages.
  apply preserves_bind; [apply preserves_silent, silent_toStringM|intros id].
  apply preserves_paginate.
Qed.

Lemma preserves_fetchUserConversations userId :
  preserves R (fetchUserConversations api_get Number_toString userId).
Proof.
  unfold fetchUserConversations.
  apply preserves_bind; [apply preserves_silent, silent_toStringM|intros id].
  apply preserves_paginate.
Qed.

End Preservation.

Section Totality.

Context {Env : Type}.
Variable api_get : Env -> string -> Params -> result Exn jsval * Env.
Variable store_upsert : Env -> string -> jsval -> jsval -> result Exn unit * Env.
Variable Number_toString : Q -> string.
Variable Date_getTime : jsval -> option Z.
Variable toISOString : Z -> string.
Variable Date_now : Env -> Z.

Lemma total_ret {A} (a : A) : total (@ret Env A a).
Proof. intros w. discriminate. Qed.

Lemma total_throw {A} e : total (@throw Env A e).
Proof. intros w. discriminate. Qed.

Lemma total_bind {A B} (m : M Env A) (k : A -> M Env B) :
  total m -> (forall a, total (k a)) -> total (bind m k).
Proof.
  intros Hm Hk w. unfold bind. specialize (Hm w).
  destruct (m w) as [[a|e|] w1]; cbn in *; [apply Hk|discriminate|congruence].
Qed.

Lemma total_try_catch {A} (m : M Env A) (h : Exn -> M Env A) :
  total m -> (forall e, total (h e)) -> total (try_catch m h).
Proof.
  intros Hm Hh w. unfold try_catch. specialize (Hm w).
  destruct (m w) as [[a|e|] w1]; cbn in *; [discriminate|apply Hh|congruence].
Qed.

Lemma total_silent {A} (m : M Env A) : silent m -> total m.
Proof. intros H w. apply (H w). Qed.

Lemma total_sleep ms : total (@sleep Env ms).
Proof. intros w. discriminate. Qed.

Lemma total_count f : total (@count Env f).
Proof. intros w. discriminate. Qed.

Lemma total_get v k : total (@get Env v k).
Proof. intros w. unfold get. destruct (prop v k); discriminate. Qed.

Lemma total_upperOrEmpty v : total (@upperOrEmpty Env v).
Proof. intros w. unfold upperOrEmpty. destruct (js_or v _); discriminate. Qed.

Lemma total_store_call table key source :
  total (store_call store_upsert table key source).
Proof.
  intros w. unfold store_call.
  destruct (store_upsert (env w) table key source) as [[|] ?]; discriminate.
Qed.

Lemma total_fetchWithRetry path params : total (fetchWithRetry api_get path params).
Proof.
  intros w. destruct (fetchWithRetry_shape api_get path params w)
    as (new & out & w' & E & _ & _ & Hout & _).
  rewrite E. exact Hout.
Qed.

Lemma total_paginate path params itemsKey : total (paginate api_get path params itemsKey).
Proof. intros w. apply paginate_terminates. Qed.

Lemma total_filterByActor pred messages : total (@filterByActor Env pred messages).
Proof.
  induction messages as [|m rest IH]; cbn [filterByActor]; [apply total_ret|].
  apply total_bind; [apply total_get|intros a].
  apply total_bind; [apply total_upperOrEmpty|intros actorType].
  apply total_bind; [exact IH|intros kept]. apply total_ret.
Qed.

Lemma total_for_each {A} (l : list A) (body : A -> M Env unit) :
  (forall x, total (body x)) -> total (for_each l body).
Proof.
  intros Hb. induction l as [|x l IH]; cbn [for_each]; [apply total_ret|].
  apply total_bind; [apply Hb|intros _; exact IH].
Qed.

Lemma total_upsertMessage msg convoId :
  total (upsertMessage store_upsert Number_toString Date_getTime toISOString Date_now msg convoId).
Proof.
  unfold upsertMessage.
  apply total_bind; [apply total_get|intros mp].
  apply total_bind; [destruct (truthy mp); [apply total_ret|apply total_get]|intros parts].
  apply total_bind; [apply total_silent; silent_tac|intros content].
  apply total_bind; [apply total_silent; silent_tac|intros id].
  apply total_bind; [apply total_silent; silent_tac|intros iso].
  apply total_store_call.
Qed.

Local Ltac total_tac :=
  repeat first
    [ apply total_ret | apply total_throw | apply total_sleep
    | apply total_count | apply total_get | apply total_upperOrEmpty
    | apply total_store_call | apply total_filterByActor
    | apply total_upsertMessage | apply total_paginate
    | apply total_fetchWithRetry
    | (apply total_silent; solve [silent_tac])
    | (apply total_for_each; intros)
    | (apply total_bind; [|intros])
    | (apply total_try_catch; [|intros])
    | match goal with |- total (if ?c then _ else _) => destruct c end ].

Lemma total_afterUpsert convoDetail convoId windowStart :
  total (afterUpsert api_get store_upsert Number_toString Date_getTime toISOString Date_now
           convoDetail convoId windowStart).
Proof. unfold afterUpsert, fetchConversationMessages. total_tac. Qed.

Lemma total_conversationTurn user uc windowStart now :
  total (conversationTurn api_get store_upsert Number_toString Date_getTime toISOString Date_now
           user uc windowStart now).
Proof.
  unfold conversationTurn, fetchConversation, upsertConversation. total_tac.
Qed.

Lemma total_processConversation user uc windowStart now :
  total (processConversation api_get store_upsert Number_toString Date_getTime toISOString Date_now
           user uc windowStart now).
Proof.
  unfold processConversation.
  apply total_bind; [apply total_try_catch; [apply total_conversationTurn|intros; apply total_ret]|].
  intros completed. destruct completed; [apply total_sleep|apply total_ret].
Qed.

(** X13. [processConversation], the body of the loop over the conversations
    of a user, always returns: whatever the chat API and the store answer,
    no error leaves its [try] and it comes to an end. *)
Theorem processConversation_always_returns user uc windowStart now (w : World Env) :
  exists w',
    processConversation api_get store_upsert Number_toString Date_getTime toISOString Date_now
      user uc windowStart now w = (Returned tt, w').
Proof.
  unfold processConversation, bind, try_catch.
  pose proof (total_conversationTurn user uc windowStart now w) as Htotal.
  destruct (conversationTurn _ _ _ _ _ _ user uc windowStart now w) as [[completed|e|] w1].
  - destruct completed; unfold sleep, ret; eauto.
  - unfold ret, sleep. eauto.
  - exfalso. apply Htotal. reflexivity.
Qed.

Lemma notNullish_prop v k : notNullish v = true -> exists x, prop v k = Ok x.
Proof. destruct v; cbn; intros H; try discriminate; eauto. Qed.

Lemma nullish_prop v k : notNullish v = false -> prop v k = Throw (CannotReadProperty k).
Proof. destruct v; cbn; intros H; try discriminate; reflexivity. Qed.

Lemma total_upsertUser user :
  total (upsertUser store_upsert Number_toString Date_getTime toISOString Date_now user).
Proof. unfold upsertUser. total_tac. Qed.

Lemma total_userBody user windowStart now :
  total (bind (upsertUser store_upsert Number_toString Date_getTime toISOString Date_now user)
           (fun _ =>
              bind (count inc_usersUpserted)
                (fun _ =>
                   bind (get user "id")
                     (fun userId =>
                        bind (fetchUserConversations api_get Number_toString userId)
                          (fun userConversations =>
                             for_each userConversations
                               (fun uc =>
                                  processConversation api_get store_upsert Number_toString
                                    Date_getTime toISOString Date_now user uc
                                    windowStart now)))))).
Proof.
  unfold fetchUserConversations.
  repeat first [ apply total_upsertUser | apply total_get | apply total_count
               | apply total_paginate
               | (apply total_silent; solve [silent_tac])
               | (apply total_for_each; intros; apply total_processConversation)
               | (apply total_bind; [|intros]) ].
Qed.

Lemma processUser_returns user windowStart now (w : World Env) :
  userOk Number_toString user = true ->
  exists w', processUser api_get store_upsert Number_toString Date_getTime toISOString Date_now
               user windowStart now w = (Returned tt, w').
Proof.
  intros Hok. apply andb_true_iff in Hok as [Huser Hconv].
  destruct (notNullish_prop user "id" Huser) as [id Hid].
  rewrite <- (prop_optprop user "id" id Hid) in Hid.
  destruct (convertible_ok Number_toString _ Hconv) as (c & Hc).
  unfold processUser.
  pose proof (total_userBody user windowStart now w) as Htotal.
  match goal with
  | |- context [try_catch ?body ?handler] =>
      assert (Hcatch : exists w1, try_catch body handler w = (Returned tt, w1))
  end.
  - unfold try_catch.
    match goal with
    | |- context [let (_, _) := ?body w in _] => destruct (body w) as [[[]|e|] w1]
    end.
    + eauto.
    + unfold get. rewrite Hid. unfold bind at 1. cbn [ret].
      rewrite (bind_returned _ _ _ _ _ (toStringM_ok Number_toString _ c w1 Hc)).
      unfold ret. eauto.
    + exfalso. apply Htotal. reflexivity.
  - destruct Hcatch as [w1 Hcatch]. unfold bind at 1. rewrite Hcatch.
    unfold sleep. eauto.
Qed.

Lemma processUser_nullish user windowStart now (w : World Env) :
  notNullish user = false ->
  processUser api_get store_upsert Number_toString Date_getTime toISOString Date_now
    user windowStart now w = (Thrown (TypeErr (CannotReadProperty "id")), w).
Proof.
  intros Huser.
  unfold processUser, bind, try_catch, upsertUser, get.
  rewrite (nullish_prop user "id" Huser). reflexivity.
Qed.

(** With an [id] that cannot be converted to a string the [try] block
    throws, at the latest when the path of the listing is built, and the
    [catch] block throws when it prints the [id]. *)
Lemma processUser_unconvertible user windowStart now (w : World Env) e :
  notNullish user = true ->
  js_String Number_toString (optprop user "id") = Throw e ->
  exists w', processUser api_get store_upsert Number_toString Date_getTime toISOString
               Date_now user windowStart now w = (Thrown (TypeErr e), w').
Proof.
  intros Huser He.
  destruct (notNullish_prop user "id" Huser) as [id Hid].
  rewrite <- (prop_optprop user "id" id Hid) in Hid.
  assert (Hconv : forall w0 : World Env,
             toStringM Number_toString (optprop user "id") w0 = (Thrown (TypeErr e), w0)).
  { intros w0. unfold toStringM. rewrite He. reflexivity. }
  unfold processUser.
  pose proof (total_upsertUser user w) as Htotal.
  match goal with
  | |- context [try_catch ?body ?handler] =>
      assert (Hbody : exists e1 w1, body w = (Thrown e1, w1))
  end.
  - unfold bind at 1.
    destruct (upsertUser store_upsert Number_toString Date_getTime toISOString Date_now
                user w) as [[[]|e1|] w1].
    + rewrite bind_count. unfold get. rewrite Hid. unfold bind at 1. cbn [ret].
      unfold fetchUserConversations. unfold bind at 1. unfold bind at 1.
      rewrite Hconv. eauto.
    + eauto.
    + exfalso. apply Htotal. reflexivity.
  - destruct Hbody as (e1 & w1 & Hbody). exists w1.
    unfold bind at 1. unfold try_catch. rewrite Hbody.
    unfold get. rewrite Hid. unfold bind at 1. cbn [ret].
    unfold bind at 1. rewrite Hconv. reflexivity.
Qed.

Lemma userOk_false user :
  userOk Number_toString user = false ->
  notNullish user = false
  \/ (notNullish user = true
      /\ exists e, js_String Number_toString (optprop user "id") = Throw e).
Proof.
  unfold userOk, convertible. destruct (notNullish user); [|now left].
  cbn [andb]. destruct (js_String Number_toString (optprop user "id")) as [c|e];
    [discriminate|]. intros _. right. eauto.
Qed.

(** X14. [processUser], the body of the loop over the users, returns for
    every user that is neither [null] nor [undefined] and whose [id] can
    be converted to a string, whatever the chat API and the store answer;
    on [null] or [undefined] it throws the [TypeError] of the read of
    [id], before any request; on a user whose [id] cannot be converted to
    a string it throws the [TypeError] of the conversion, which its
    [catch] block makes again. *)
Theorem processUser_outcome user windowStart now (w : World Env) :
  (userOk Number_toString user = true ->
   exists w', processUser api_get store_upsert Number_toString Date_getTime toISOString Date_now
                user windowStart now w = (Returned tt, w'))
  /\ (notNullish user = false ->
      processUser api_get store_upsert Number_toString Date_getTime toISOString Date_now
        user windowStart now w = (Thrown (TypeErr (CannotReadProperty "id")), w))
  /\ (forall e,
        notNullish user = true ->
        js_String Number_toString (optprop user "id") = Throw e ->
        exists w', processUser api_get store_upsert Number_toString Date_getTime toISOString
                     Date_now user windowStart now w = (Thrown (TypeErr e), w')).
Proof.
  split; [|split].
  - intros Huser. apply processUser_returns. exact Huser.
  - intros Huser. apply processUser_nullish. exact Huser.
  - intros e Huser He. apply processUser_unconvertible; assumption.
Qed.

Lemma for_each_processUser users windowStart now (w : World Env) :
  (forallb (userOk Number_toString) users = true ->
   exists w', for_each users
                (fun user => processUser api_get store_upsert Number_toString Date_getTime
                               toISOString Date_now user windowStart now) w = (Returned tt, w'))
  /\ (forallb (userOk Number_toString) users = false ->
      exists e w', for_each users
                     (fun user => processUser api_get store_upsert Number_toString
                                    Date_getTime toISOString Date_now user windowStart now) w
                   = (Thrown (TypeErr e), w')).
Proof.
  revert w. induction users as [|user users IH]; intros w.
  - split; [intros _; cbn; unfold ret; eauto|discriminate].
  - cbn [for_each forallb].
    destruct (userOk Number_toString user) eqn:Huser; cbn [andb].
    + destruct (processUser_returns user windowStart now w Huser) as [w1 E].
      unfold bind. rewrite E. apply IH.
    + split; [discriminate|]. intros _. unfold bind.
      destruct (userOk_false user Huser) as [Hnull|(Hnn & e & He)].
      * rewrite (processUser_nullish user windowStart now w Hnull). eauto.
      * destruct (processUser_unconvertible user windowStart now w e Hnn He) as (w1 & ->).
        eauto.
Qed.

(** X15. [fetchAndStore] always comes to an end. An error of the listing
    of the users is thrown on; when the listing succeeds, the pass returns
    if every listed user is neither [null] nor [undefined] and has an [id]
    that can be converted to a string, and otherwise throws a
    [TypeError]: the one of the first user that is not so. *)
Theorem fetchAndStore_outcome now lookback (w : World Env) :
  fst (fetchAndStore api_get store_upsert Number_toString Date_getTime toISOString Date_now
         now lookback w) <> OutOfFuel
  /\ (forall e w1,
        paginate api_get "/users"
          (mkParams (Some 1) (Some 100)
             [("updated_from", toISOString (now - lookback));
              ("updated_to", toISOString now)]) "users" w = (Thrown e, w1) ->
        fetchAndStore api_get store_upsert Number_toString Date_getTime toISOString Date_now
          now lookback w = (Thrown e, w1))
  /\ (forall users w1,
        paginate api_get "/users"
          (mkParams (Some 1) (Some 100)
             [("updated_from", toISOString (now - lookback));
              ("updated_to", toISOString now)]) "users" w = (Returned users, w1) ->
        (forallb (userOk Number_toString) users = true ->
         exists w', fetchAndStore api_get store_upsert Number_toString Date_getTime
                      toISOString Date_now now lookback w = (Returned tt, w'))
        /\ (forallb (userOk Number_toString) users = false ->
            exists e w', fetchAndStore api_get store_upsert Number_toString Date_getTime
                           toISOString Date_now now lookback w
                         = (Thrown (TypeErr e), w'))).
Proof.
  unfold fetchAndStore. cbv zeta. split; [|split].
  - apply total_bind; [apply total_paginate|intros users].
    intros w1.
    destruct (forallb (userOk Number_toString) users) eqn:Hall.
    + destruct (proj1 (for_each_processUser users (now - lookback) now w1) Hall) as [w' E].
      rewrite E. discriminate.
    + destruct (proj2 (for_each_processUser users (now - lookback) now w1) Hall)
        as (e & w' & E).
      rewrite E. discriminate.
  - intros e w1 E. unfold bind. rewrite E. reflexivity.
  - intros users w1 E. unfold bind. rewrite E.
    apply for_each_processUser.
Qed.

End Totality.

Lemma processUser_outcome_witness :
  (exists w', processUser chatSource acceptingStore noNumber mockGetTime mockToISOString mockNow
                mockUser 1704103200000 1704110400000 freshWorld = (Returned tt, w'))
  /\ processUser chatSource acceptingStore noNumber mockGetTime mockToISOString mockNow
       JNull 1704103200000 1704110400000 freshWorld
     = (Thrown (TypeErr (CannotReadProperty "id")), freshWorld)
  /\ (exists w', processUser chatSource acceptingStore noNumber mockGetTime mockToISOString
                   mockNow userWithObjectId 1704103200000 1704110400000 freshWorld
                 = (Thrown (TypeErr CannotConvertToPrimitive), w')).
Proof.
  split; [|split].
  - apply (proj1 (processUser_outcome chatSource acceptingStore noNumber mockGetTime
                    mockToISOString mockNow mockUser 1704103200000 1704110400000 freshWorld)).
    reflexivity.
  - apply (proj1 (proj2 (processUser_outcome chatSource acceptingStore noNumber mockGetTime
                    mockToISOString mockNow JNull 1704103200000 1704110400000 freshWorld))).
    reflexivity.
  - apply (proj2 (proj2 (processUser_outcome chatSource acceptingStore noNumber mockGetTime
                    mockToISOString mockNow userWithObjectId 1704103200000 1704110400000
                    freshWorld))); reflexivity.
Defined.

(** The upsert of the user is accepted, and the pass fails all the same. *)
Example processUser_object_id_trace :
  processUser chatSource acceptingStore noNumber mockGetTime mockToISOString mockNow
    userWithObjectId 1704103200000 1704110400000 freshWorld
  = (Thrown (TypeErr CannotConvertToPrimitive),
     mkWorld 1%nat
       [EUpsert "User" (JObject [("toString", JNumber 1)]) userWithObjectId (Ok tt)]
       (mkSummary 1 0 0 0 0)).
Proof. vm_compute. reflexivity. Qed.

Lemma fetchAndStore_outcome_witness :
  exists w', fetchAndStore oneConversationSource acceptingStore noNumber mockGetTime
               mockToISOString mockNow 1704110400000 7200000 freshWorld = (Returned tt, w').
Proof.
  destruct (fetchAndStore_outcome oneConversationSource acceptingStore noNumber mockGetTime
              mockToISOString mockNow 1704110400000 7200000 freshWorld) as (_ & _ & H).
  destruct (H [item "u1"]
              (mkWorld 1%nat
                 [EGet "/users"
                    (mkParams (Some 1) (Some 100)
                       [("updated_from", "2024-01-01T10:00:00.000Z");
                        ("updated_to", "2024-01-01T10:00:00.000Z")])
                    (Ok (usersPage ["u1"]))] emptySummary)) as [Hok _].
  - vm_compute. reflexivity.
  - apply Hok. reflexivity.
Defined.

Section CleanUpserts.

Context {Env : Type}.
Variable api_get : Env -> string -> Params -> result Exn jsval * Env.
Variable store_upsert : Env -> string -> jsval -> jsval -> result Exn unit * Env.
Variable Number_toString : Q -> string.
Variable Date_getTime : jsval -> option Z.
Variable toISOString : Z -> string.
Variable Date_now : Env -> Z.

Local Abbreviation clean := (@onlyEvents Env (cleanMessageUpsert Number_toString)).

Lemma clean_refl w : clean w w.
Proof. exists []. rewrite app_nil_r. split; [reflexivity|constructor]. Qed.

Lemma clean_trans w1 w2 w3 : clean w1 w2 -> clean w2 w3 -> clean w1 w3.
Proof.
  intros (tr1 & E1 & H1) (tr2 & E2 & H2). exists (tr1 ++ tr2).
  rewrite E2, E1, app_assoc. split; [reflexivity|]. apply Forall_app. auto.
Qed.

Lemma clean_sleep ms w : clean w (emit (ESleep ms) w).
Proof. exists [ESleep ms]. split; [reflexivity|]. repeat constructor. Qed.

Lemma clean_get (w : World Env) path params r env' :
  clean w {| env := env'; trace := trace w ++ [EGet path params r]; summary := summary w |}.
Proof. exists [EGet path params r]. split; [reflexivity|]. repeat constructor. Qed.

Lemma clean_count f : preserves clean (@count Env f).
Proof. intros w. exists []. cbn. rewrite app_nil_r. split; [reflexivity|constructor]. Qed.

Lemma clean_store_call table key source :
  (forall r, cleanMessageUpsert Number_toString (EUpsert table key source r)) ->
  preserves clean (store_call store_upsert table key source).
Proof.
  intros HP w. unfold store_call.
  destruct (store_upsert (env w) table key source) as [r env'] eqn:E.
  exists [EUpsert table key source r].
  destruct r; cbn; (split; [reflexivity|]); repeat constructor; apply HP.
Qed.


Lemma clean_upsertMessage msg convoId :
  (exists a, actorOf msg = Some a /\ a <> "SYSTEM") ->
  preserves clean
    (upsertMessage store_upsert Number_toString Date_getTime toISOString Date_now
       msg convoId).
Proof.
  intros Hactor. unfold upsertMessage.
  apply (preserves_bind_post clean clean_trans
           (fun mp => optprop msg "message_parts" = mp)).
  - apply preserves_get. apply clean_refl.
  - intros w mp w' H. unfold get in H.
    destruct (prop msg "message_parts") eqn:E; [|discriminate].
    unfold ret in H. injection H as <- _. now apply prop_optprop.
  - intros mp Hmp.
    apply (preserves_bind_post clean clean_trans
             (fun parts =>
                parts = js_or (optprop msg "message_parts") (optprop msg "parts"))).
    + destruct (truthy mp); [apply preserves_ret | apply preserves_get]; apply clean_refl.
    + intros w parts w' H. rewrite Hmp. unfold js_or. destruct (truthy mp).
      * unfold ret in H. injection H as <- _. reflexivity.
      * unfold get in H. destruct (prop msg "parts") eqn:E; [|discriminate].
        unfold ret in H. injection H as <- _. symmetry. now apply prop_optprop.
    + intros parts Hparts.
      apply (preserves_bind_post clean clean_trans
               (fun content => extractMessageContent Number_toString parts = Ok content)).
      * apply preserves_silent; [apply clean_refl | apply silent_lift].
      * intros w content w' H. unfold lift in H.
        destruct (extractMessageContent Number_toString parts); [|discriminate].
        unfold ret in H. injection H as <- _. reflexivity.
      * intros content Hc.
        apply preserves_bind;
          [apply clean_trans
          |apply preserves_silent; [apply clean_refl | apply silent_rowIdOf]
          |intros id].
        apply preserves_bind;
          [apply clean_trans
          |apply preserves_silent; [apply clean_refl | apply silent_createdISO]
          |intros iso].
        apply clean_store_call. intros r _.
        exists msg, convoId, content. split; [reflexivity|].
        split; [rewrite <- Hparts; exact Hc|].
        split; [eapply extractMessageContent_trimmed; exact Hc|exact Hactor].
Qed.

Lemma filterByActor_post pred messages (w w' : World Env) kept :
  filterByActor pred messages w = (Returned kept, w') ->
  Forall (fun m => exists a, actorOf m = Some a /\ pred a = true) kept.
Proof.
  revert kept w'. induction messages as [|m rest IH]; intros kept w'; cbn [filterByActor].
  - unfold ret. intros H. injection H as <- _. constructor.
  - unfold bind, get, upperOrEmpty.
    destruct (prop m "actor_type") as [a|e] eqn:Ha; [|discriminate].
    unfold ret at 1.
    destruct (js_or a (JString "")) as [| | | |s| |] eqn:Hs; try discriminate.
    unfold ret at 1.
    destruct (filterByActor pred rest w) as [[kept'|e|] w1] eqn:Hrest; try discriminate.
    unfold ret. intros H. injection H as <- _.
    specialize (IH kept' w1 eq_refl).
    destruct (pred (toUpperCase s)) eqn:Hp; [|exact IH].
    constructor; [|exact IH]. exists (toUpperCase s). split; [|exact Hp].
    unfold actorOf. rewrite Ha, Hs. reflexivity.
Qed.

Local Ltac clean_step :=
  first
    [ apply preserves_ret; [apply clean_refl]
    | apply preserves_throw; [apply clean_refl]
    | apply preserves_sleep; [apply clean_sleep]
    | apply clean_count
    | apply preserves_get; [apply clean_refl]
    | apply preserves_upperOrEmpty; [apply clean_refl]
    | apply preserves_filterByActor; [apply clean_refl|apply clean_trans]
    | apply preserves_paginate;
      [apply clean_refl|apply clean_trans|apply clean_sleep|apply clean_get]
    | apply preserves_fetchWithRetry;
      [apply clean_refl|apply clean_trans|apply clean_sleep|apply clean_get]
    | apply preserves_fetchConversation;
      [apply clean_refl|apply clean_trans|apply clean_sleep|apply clean_get]
    | apply preserves_fetchConversationMessages;
      [apply clean_refl|apply clean_trans|apply clean_sleep|apply clean_get]
    | apply preserves_fetchUserConversations;
      [apply clean_refl|apply clean_trans|apply clean_sleep|apply clean_get]
    | (apply clean_store_call; intros ? ?; discriminate)
    | (apply preserves_silent; [apply clean_refl | solve [silent_tac]])
    | (apply preserves_try_catch; [apply clean_trans| |intros])
    | (apply preserves_bind; [apply clean_trans| |intros])
    | match goal with |- preserves _ (if ?c then _ else _) => destruct c end ].

Lemma clean_afterUpsert convoDetail convoId windowStart :
  preserves clean (afterUpsert api_get store_upsert Number_toString Date_getTime toISOString Date_now
                     convoDetail convoId windowStart).
Proof.
  unfold afterUpsert.
  apply preserves_bind; [apply clean_trans|apply clean_count|intros _].
  apply preserves_bind; [apply clean_trans|repeat clean_step|intros messages].
  apply (preserves_bind_post clean clean_trans
           (Forall (fun m => exists a, actorOf m = Some a /\ a <> "SYSTEM"))).
  - repeat clean_step.
  - intros w kept w' Hf. apply filterByActor_post in Hf.
    eapply Forall_impl; [exact Hf|]. cbn. intros m (a & Ha & Hp).
    exists a. split; [exact Ha|]. apply negb_true_iff, String.eqb_neq in Hp. exact Hp.
  - intros nonSystemMessages Hns. repeat clean_step.
    apply preserves_for_each; [apply clean_refl|apply clean_trans|].
    eapply Forall_impl; [exact Hns|]. cbn. intros m Hm.
    apply preserves_bind; [apply clean_trans| |intros _; apply clean_count].
    apply clean_upsertMessage. exact Hm.
Qed.

Lemma clean_processUser user windowStart now :
  preserves clean (processUser api_get store_upsert Number_toString Date_getTime
                     toISOString Date_now user windowStart now).
Proof.
  unfold processUser, upsertUser.
  repeat clean_step.
  apply preserves_for_each; [apply clean_refl|apply clean_trans|].
  apply Forall_forall. intros uc _.
  unfold processConversation, conversationTurn, upsertConversation.
  repeat first [apply clean_afterUpsert | clean_step].
Qed.

Lemma clean_fetchAndStore now lookback :
  preserves clean
    (fetchAndStore api_get store_upsert Number_toString Date_getTime toISOString Date_now
       now lookback).
Proof.
  unfold fetchAndStore. cbv zeta. repeat clean_step.
  apply preserves_for_each; [apply clean_refl|apply clean_trans|].
  apply Forall_forall. intros user _. apply clean_processUser.
Qed.

(** X16. Every upsert into [Message] made by [fetchAndStore] carries a
    message whose [actor_type], in upper case, is not [SYSTEM], with the
    content that [extractMessageContent] gives for its parts, which is
    trimmed. *)
Theorem fetchAndStore_message_upserts now lookback (w : World Env) :
  exists new,
    trace (snd (fetchAndStore api_get store_upsert Number_toString Date_getTime toISOString Date_now
                  now lookback w)) = trace w ++ new
    /\ Forall (cleanMessageUpsert Number_toString) new.
Proof. apply clean_fetchAndStore. Qed.

End CleanUpserts.

Section Counters.

Context {Env : Type}.
Variable api_get : Env -> string -> Params -> result Exn jsval * Env.
Variable store_upsert : Env -> string -> jsval -> jsval -> result Exn unit * Env.
Variable Number_toString : Q -> string.
Variable Date_getTime : jsval -> option Z.
Variable toISOString : Z -> string.
Variable Date_now : Env -> Z.

Local Abbreviation bal := (@balanced Env).

Lemma okUpserts_app table tr1 tr2 :
  okUpserts table (tr1 ++ tr2) = okUpserts table tr1 + okUpserts table tr2.
Proof. unfold okUpserts. rewrite filter_app, length_app. lia. Qed.

Lemma okUpserts_snoc table tr e :
  okUpserts table (tr ++ [e]) = okUpserts table tr + (if isOkUpsert table e then 1 else 0).
Proof.
  rewrite okUpserts_app. f_equal. unfold okUpserts.
  destruct (isOkUpsert table e) eqn:He.
  - rewrite filter_cons_True by (rewrite He; exact I). reflexivity.
  - rewrite filter_cons_False by (rewrite He; exact id). reflexivity.
Qed.

Lemma bal_refl w : bal w w.
Proof. reflexivity. Qed.

Lemma bal_trans w1 w2 w3 : bal w1 w2 -> bal w2 w3 -> bal w1 w3.
Proof. unfold balanced. congruence. Qed.

(** An event that is not an accepted upsert leaves the balance alone. *)
Lemma bal_event (w : World Env) e env' :
  (forall table, isOkUpsert table e = false) ->
  bal w {| env := env'; trace := trace w ++ [e]; summary := summary w |}.
Proof.
  intros He. unfold balanced, balance. cbn [trace summary].
  rewrite !okUpserts_snoc, !He, !Z.add_0_r. reflexivity.
Qed.

Lemma bal_sleep ms (w : World Env) : bal w (emit (ESleep ms) w).
Proof. apply bal_event. reflexivity. Qed.

Lemma bal_get (w : World Env) path params r env' :
  bal w {| env := env'; trace := trace w ++ [EGet path params r]; summary := summary w |}.
Proof. apply bal_event. reflexivity. Qed.

(** An accepted upsert followed by the increment of its counter. *)
Lemma bal_counted (w : World Env) table key source env' inc :
  (table = "User" /\ inc = inc_usersUpserted)
  \/ (table = "Conversation" /\ inc = inc_convsUpserted)
  \/ (table = "Message" /\ inc = inc_msgsUpserted) ->
  bal w {| env := env'; trace := trace w ++ [EUpsert table key source (Ok tt)];
           summary := inc (summary w) |}.
Proof.
  intros [[-> ->]|[[-> ->]|[-> ->]]]; unfold balanced, balance; cbn [trace summary];
    rewrite !okUpserts_snoc; cbn;
    repeat match goal with |- (_, _) = (_, _) => apply pair_equal_spec; split end; lia.
Qed.

Lemma bal_skip_count inc :
  inc = inc_convsSkippedNotInWindow \/ inc = inc_convsSkippedNoBot ->
  preserves bal (@count Env inc).
Proof. intros [-> | ->] w; reflexivity. Qed.

Lemma bal_store_counted table key source inc {B} (k : unit -> M Env B) :
  (table = "User" /\ inc = inc_usersUpserted)
  \/ (table = "Conversation" /\ inc = inc_convsUpserted)
  \/ (table = "Message" /\ inc = inc_msgsUpserted) ->
  (forall x, preserves bal (k x)) ->
  preserves bal (bind (store_call store_upsert table key source)
                   (fun _ => bind (count inc) k)).
Proof.
  intros Htable Hk w. unfold bind at 1, store_call.
  destruct (store_upsert (env w) table key source) as [[[]|e] env'].
  - rewrite bind_count. cbn [env trace summary].
    eapply bal_trans; [|apply Hk]. apply bal_counted. exact Htable.
  - cbn [snd]. apply bal_event. reflexivity.
Qed.

Local Ltac bal_step :=
  first
    [ apply preserves_ret; [apply bal_refl]
    | apply preserves_throw; [apply bal_refl]
    | apply preserves_sleep; [apply bal_sleep]
    | (apply bal_skip_count; auto; fail)
    | apply preserves_get; [apply bal_refl]
    | apply preserves_upperOrEmpty; [apply bal_refl]
    | (apply preserves_silent; [apply bal_refl | solve [silent_tac]])
    | apply preserves_filterByActor; [apply bal_refl|apply bal_trans]
    | apply preserves_paginate;
      [apply bal_refl|apply bal_trans|apply bal_sleep|apply bal_get]
    | apply preserves_fetchWithRetry;
      [apply bal_refl|apply bal_trans|apply bal_sleep|apply bal_get]
    | apply preserves_fetchConversation;
      [apply bal_refl|apply bal_trans|apply bal_sleep|apply bal_get]
    | apply preserves_fetchConversationMessages;
      [apply bal_refl|apply bal_trans|apply bal_sleep|apply bal_get]
    | apply preserves_fetchUserConversations;
      [apply bal_refl|apply bal_trans|apply bal_sleep|apply bal_get]
    | (apply preserves_try_catch; [apply bal_trans| |intros])
    | match goal with |- preserves _ (if ?c then _ else _) => destruct c end ].

(** An upsert that throws before the store is called, or calls it once,
    followed by the increment of its counter. *)
Lemma bal_upsert_counted (m : M Env unit) table inc {B} (k : unit -> M Env B) :
  (forall w, (exists e, m w = (Thrown e, w))
             \/ (exists key source, m w = store_call store_upsert table key source w)) ->
  (table = "User" /\ inc = inc_usersUpserted)
  \/ (table = "Conversation" /\ inc = inc_convsUpserted)
  \/ (table = "Message" /\ inc = inc_msgsUpserted) ->
  (forall x, preserves bal (k x)) ->
  preserves bal (bind m (fun _ => bind (count inc) k)).
Proof.
  intros Hm Htable Hk w.
  destruct (Hm w) as [(e & E)|(key & source & E)].
  - unfold bind at 1. rewrite E. apply bal_refl.
  - pose proof (bal_store_counted table key source inc k Htable Hk w) as H.
    unfold bind at 1 in H. unfold bind at 1. rewrite E. exact H.
Qed.

Lemma bal_upsertMessage_counted msg convoId :
  preserves bal
    (bind (upsertMessage store_upsert Number_toString Date_getTime toISOString Date_now
             msg convoId)
       (fun _ => count inc_msgsUpserted)).
Proof.
  intros w.
  pose proof (bal_upsert_counted
                (upsertMessage store_upsert Number_toString Date_getTime toISOString
                   Date_now msg convoId)
                "Message" inc_msgsUpserted (fun _ => ret tt)) as H.
  assert (Hrun : forall w0,
             (exists e, upsertMessage store_upsert Number_toString Date_getTime toISOString
                          Date_now msg convoId w0 = (Thrown e, w0))
             \/ (exists key source,
                   upsertMessage store_upsert Number_toString Date_getTime toISOString
                     Date_now msg convoId w0
                   = store_call store_upsert "Message" key source w0)).
  { intros w0. destruct (upsertMessage_run store_upsert Number_toString Date_getTime
                           toISOString Date_now msg convoId w0)
      as [He|(id & content & _ & E)]; [left; exact He|right; eauto]. }
  specialize (H Hrun (or_intror (or_intror (conj eq_refl eq_refl)))
                (fun _ => preserves_ret bal bal_refl tt) w).
  unfold bind in *.
  destruct (upsertMessage _ _ _ _ _ msg convoId w) as [[[]|e|] w1]; exact H.
Qed.

Lemma bal_conversationTurn user uc windowStart now :
  preserves bal (conversationTurn api_get store_upsert Number_toString Date_getTime
                   toISOString Date_now user uc windowStart now).
Proof.
  unfold conversationTurn.
  apply preserves_bind; [apply bal_trans|bal_step|intros ucId].
  apply preserves_bind; [apply bal_trans|bal_step|intros convoDetail].
  apply preserves_bind; [apply bal_trans|bal_step|intros detailId].
  cbv zeta. bal_step.
  { apply preserves_bind; [apply bal_trans|bal_step|intros _; bal_step]. }
  apply preserves_bind; [apply bal_trans|bal_step|intros created].
  apply preserves_bind; [apply bal_trans|bal_step|intros updated].
  bal_step.
  { apply preserves_bind; [apply bal_trans|bal_step|intros _].
    apply preserves_bind; [apply bal_trans|bal_step|intros _; bal_step]. }
  apply preserves_bind; [apply bal_trans|bal_step|intros userId].
  unfold afterUpsert.
  apply (bal_upsert_counted _ "Conversation");
    [intros w0;
     destruct (upsertConversation_run store_upsert Number_toString Date_getTime toISOString
                 Date_now convoDetail userId
                 (first_truthy [detailId; optprop uc "id"; optprop convoDetail "uuid";
                                optprop uc "uuid"]) w0)
       as [He|(key & E)]; [left; exact He|right; eauto]
    |auto|intros _].
  apply preserves_bind; [apply bal_trans|bal_step|intros messages].
  apply preserves_bind; [apply bal_trans|bal_step|intros nonSystemMessages].
  apply preserves_bind; [apply bal_trans|bal_step|intros botMessages].
  apply preserves_bind; [apply bal_trans| |intros assignedToBot].
  { bal_step; [|bal_step].
    apply preserves_bind; [apply bal_trans|bal_step|intros a; bal_step]. }
  bal_step.
  - apply preserves_bind; [apply bal_trans|bal_step|intros _].
    apply preserves_bind; [apply bal_trans|bal_step|intros _; bal_step].
  - apply preserves_bind; [apply bal_trans| |intros _; bal_step].
    apply preserves_for_each; [apply bal_refl|apply bal_trans|].
    apply Forall_forall. intros m _. apply bal_upsertMessage_counted.
Qed.

Lemma bal_processUser user windowStart now :
  preserves bal (processUser api_get store_upsert Number_toString Date_getTime
                   toISOString Date_now user windowStart now).
Proof.
  unfold processUser.
  apply preserves_bind; [apply bal_trans| |intros _; bal_step].
  apply preserves_try_catch; [apply bal_trans| |].
  2:{ intros e. apply preserves_bind; [apply bal_trans|bal_step|intros id].
      apply preserves_bind; [apply bal_trans|bal_step|intros _; bal_step]. }
  apply (bal_upsert_counted _ "User");
    [intros w0;
     destruct (upsertUser_run store_upsert Number_toString Date_getTime toISOString
                 Date_now user w0) as [He|(id & _ & E)]; [left; exact He|right; eauto]
    |auto|intros _].
  apply preserves_bind; [apply bal_trans|bal_step|intros userId].
  apply preserves_bind; [apply bal_trans|bal_step|intros userConversations].
  apply preserves_for_each; [apply bal_refl|apply bal_trans|].
  apply Forall_forall. intros uc _. unfold processConversation.
  apply preserves_bind; [apply bal_trans| |intros completed; repeat bal_step].
  apply preserves_try_catch; [apply bal_trans|apply bal_conversationTurn|].
  intros e. bal_step.
Qed.

Lemma bal_fetchAndStore now lookback :
  preserves bal (fetchAndStore api_get store_upsert Number_toString Date_getTime
                   toISOString Date_now now lookback).
Proof.
  unfold fetchAndStore. cbv zeta.
  apply preserves_bind; [apply bal_trans|bal_step|intros users].
  apply preserves_for_each; [apply bal_refl|apply bal_trans|].
  apply Forall_forall. intros user _. apply bal_processUser.
Qed.

(** X17. During [fetchAndStore] the counters [usersUpserted],
    [convsUpserted] and [msgsUpserted] grow by exactly the number of
    upserts that the store accepted into [User], [Conversation] and
    [Message]. *)
Theorem fetchAndStore_counters now lookback (w : World Env) :
  exists new,
    trace (snd (fetchAndStore api_get store_upsert Number_toString Date_getTime toISOString Date_now
                  now lookback w)) = trace w ++ new
    /\ usersUpserted
         (summary (snd (fetchAndStore api_get store_upsert Number_toString Date_getTime
                          toISOString Date_now now lookback w)))
       = usersUpserted (summary w) + okUpserts "User" new
    /\ convsUpserted
         (summary (snd (fetchAndStore api_get store_upsert Number_toString Date_getTime
                          toISOString Date_now now lookback w)))
       = convsUpserted (summary w) + okUpserts "Conversation" new
    /\ msgsUpserted
         (summary (snd (fetchAndStore api_get store_upsert Number_toString Date_getTime
                          toISOString Date_now now lookback w)))
       = msgsUpserted (summary w) + okUpserts "Message" new.
Proof.
  destruct (clean_fetchAndStore api_get store_upsert Number_toString Date_getTime
              toISOString Date_now now lookback w) as (new & Htr & _).
  pose proof (bal_fetchAndStore now lookback w) as Hbal.
  exists new. split; [exact Htr|].
  unfold balanced, balance in Hbal. rewrite Htr in Hbal.
  rewrite !okUpserts_app in Hbal. injection Hbal as Hu Hc Hm.
  repeat split; lia.
Qed.

End Counters.

Section SkippedConversation.

Context {Env : Type}.
Variable api_get : Env -> string -> Params -> result Exn jsval * Env.
Variable store_upsert : Env -> string -> jsval -> jsval -> result Exn unit * Env.
Variable Number_toString : Q -> string.
Variable Date_getTime : jsval -> option Z.
Variable toISOString : Z -> string.
Variable Date_now : Env -> Z.

Lemma bind_inv {A B} (m : M Env A) (k : A -> M Env B) w b w' :
  bind m k w = (Returned b, w') ->
  exists a w1, m w = (Returned a, w1) /\ k a w1 = (Returned b, w').
Proof.
  unfold bind. destruct (m w) as [[a|e|] w1]; try discriminate. eauto.
Qed.

Lemma get_inv v k (w w' : World Env) x :
  get v k w = (Returned x, w') -> w' = w /\ prop v k = Ok x.
Proof.
  unfold get. destruct (prop v k); [|discriminate].
  unfold ret. intros H. injection H as <- <-. auto.
Qed.

Lemma upperOrEmpty_inv v (w w' : World Env) s :
  upperOrEmpty v w = (Returned s, w') -> w' = w.
Proof.
  unfold upperOrEmpty. destruct (js_or v _); try discriminate.
  unfold ret. intros H. injection H as _ <-. reflexivity.
Qed.

Lemma filterByActor_world pred messages (w w' : World Env) kept :
  filterByActor pred messages w = (Returned kept, w') -> w' = w.
Proof.
  revert kept w'. induction messages as [|m rest IH]; intros kept w'; cbn [filterByActor].
  - unfold ret. intros H. injection H as _ <-. reflexivity.
  - intros H.
    apply bind_inv in H as (a & w1 & Ha & H). apply get_inv in Ha as [-> _].
    apply bind_inv in H as (s & w2 & Hs & H). apply upperOrEmpty_inv in Hs as ->.
    apply bind_inv in H as (kept' & w3 & Hk & H). apply IH in Hk as ->.
    unfold ret in H. injection H as _ <-. reflexivity.
Qed.

Lemma sleep_inv ms (w w' : World Env) u :
  sleep ms w = (Returned u, w') -> w' = emit (ESleep ms) w.
Proof. unfold sleep. intros H. injection H as _ <-. reflexivity. Qed.

Lemma count_inv f (w w' : World Env) u :
  count f w = (Returned u, w') ->
  w' = {| env := env w; trace := trace w; summary := f (summary w) |}.
Proof. unfold count. intros H. injection H as _ <-. reflexivity. Qed.

Lemma last_app_cons_snoc {A} (l1 : list A) e l2 x :
  last (l1 ++ e :: l2 ++ [x]) = Some x.
Proof.
  change (l1 ++ e :: l2 ++ [x]) with (l1 ++ (e :: l2) ++ [x]).
  rewrite (app_assoc l1 (e :: l2) [x]). apply last_snoc.
Qed.

Lemma upserts_app tr1 tr2 : upserts (tr1 ++ tr2) = upserts tr1 ++ upserts tr2.
Proof. apply omap_app. Qed.

Lemma upserts_cons_upsert table key source r tr :
  upserts (EUpsert table key source r :: tr) = (table, key) :: upserts tr.
Proof. reflexivity. Qed.

Lemma fetchConversationMessages_pages convoId fromISO (w : World Env) :
  exists new out w',
    fetchConversationMessages api_get Number_toString convoId fromISO w = (out, w')
    /\ trace w' = trace w ++ new
    /\ summary w' = summary w
    /\ upserts new = [].
Proof.
  unfold fetchConversationMessages.
  destruct (silent_run (toStringM Number_toString convoId) w
              (silent_toStringM Number_toString convoId)) as [(c & Ec)|(e & Ec)].
  - rewrite (bind_returned _ _ _ _ _ Ec).
    match goal with
    | |- context [paginate _ ?path ?params ?key w] =>
        destruct (paginate_pages api_get path params key w)
          as (new & out & w' & E & Htr & Hsum & _ & _ & _ & _ & _ & _ & Hups)
    end.
    exists new, out, w'. auto.
  - exists [], (Thrown e), w. unfold bind. rewrite Ec. rewrite app_nil_r. auto.
Qed.

Lemma fetchConversation_events conversationId (w : World Env) :
  exists new out w',
    fetchConversation api_get Number_toString conversationId w = (out, w')
    /\ trace w' = trace w ++ new
    /\ summary w' = summary w
    /\ upserts new = [].
Proof.
  unfold fetchConversation.
  destruct (silent_run (toStringM Number_toString conversationId) w
              (silent_toStringM Number_toString conversationId)) as [(c & Ec)|(e & Ec)].
  - rewrite (bind_returned _ _ _ _ _ Ec).
    destruct (fetchWithRetry_page api_get ("/conversations/" ++ c)%string
                (mkParams None None []) "" w)
      as (new1 & out1 & w1' & E1 & Htr1 & Hsum1 & _ & _ & _ & _ & _ & Hups1 & _).
    exists new1, out1, w1'. auto.
  - exists [], (Thrown e), w. unfold bind. rewrite Ec. rewrite app_nil_r. auto.
Qed.

Lemma afterUpsert_false convoDetail convoId windowStart (w w' : World Env) :
  afterUpsert api_get store_upsert Number_toString Date_getTime toISOString Date_now
    convoDetail convoId windowStart w = (Returned false, w') ->
  exists new,
    trace w' = trace w ++ new
    /\ upserts new = []
    /\ summary w' = inc_convsSkippedNoBot (inc_convsUpserted (summary w))
    /\ last new = Some (ESleep 300).
Proof.
  unfold afterUpsert. intros H.
  apply bind_inv in H as (u1 & w3 & Hc & H). apply count_inv in Hc as ->.
  apply bind_inv in H as (messages & w4 & Hmsgs & H).
  match type of Hmsgs with
  | fetchConversationMessages _ _ ?c ?f ?w3 = _ =>
      destruct (fetchConversationMessages_pages c f w3)
        as (new2 & out2 & w4' & E2 & Htr2 & Hsum2 & Hups2)
  end.
  rewrite E2 in Hmsgs. injection Hmsgs as -> ->.
  cbn [trace summary] in Htr2, Hsum2.
  apply bind_inv in H as (nonSystemMessages & w5 & Hns & H).
  apply filterByActor_world in Hns as ->.
  apply bind_inv in H as (botMessages & w5 & Hbot & H).
  apply filterByActor_world in Hbot as ->.
  apply bind_inv in H as (assignedToBot & w5 & Hassigned & H).
  assert (w5 = w4) as ->.
  { destruct (Z.of_nat (length botMessages) =? 0).
    - apply bind_inv in Hassigned as (a & w6 & Ha & Hassigned).
      apply upperOrEmpty_inv in Ha as ->.
      unfold ret in Hassigned. injection Hassigned as _ <-. reflexivity.
    - unfold ret in Hassigned. injection Hassigned as _ <-. reflexivity. }
  destruct (negb assignedToBot).
  - apply bind_inv in H as (u2 & w5 & Hc & H). apply count_inv in Hc as ->.
    apply bind_inv in H as (u3 & w6 & Hs & H). apply sleep_inv in Hs as ->.
    unfold ret in H. injection H as <-.
    exists (new2 ++ [ESleep 300]).
    cbn [trace emit]. rewrite Htr2, <- !app_assoc.
    split; [reflexivity|].
    rewrite upserts_app, Hups2.
    split; [reflexivity|]. cbn [summary]. rewrite Hsum2.
    split; [reflexivity|]. apply last_snoc.
  - apply bind_inv in H as (u2 & w5 & _ & H). discriminate.
Qed.

(** X18. A turn of the sync pass that skips its conversation stores no
    message. Either the detail has no id: nothing is written or counted,
    and the turn ends on a sleep of 200 ms; or the conversation is out of
    the window: nothing is written, [convsSkippedNotInWindow] is
    incremented and the turn ends on a sleep of 1000 ms; or no message of
    the bot was found: the only upsert is the one of the conversation,
    [convsUpserted] and [convsSkippedNoBot] are incremented and the turn
    ends on a sleep of 300 ms. *)
Theorem skipped_conversation_stores_no_message user uc windowStart now (w w' : World Env) :
  conversationTurn api_get store_upsert Number_toString Date_getTime toISOString Date_now
    user uc windowStart now w = (Returned false, w') ->
  exists new,
    trace w' = trace w ++ new
    /\ ((upserts new = []
         /\ summary w' = summary w
         /\ last new = Some (ESleep 200))
        \/ (upserts new = []
            /\ summary w' = inc_convsSkippedNotInWindow (summary w)
            /\ last new = Some (ESleep 1000))
        \/ (exists key,
               upserts new = [("Conversation", key)]
               /\ summary w' = inc_convsSkippedNoBot (inc_convsUpserted (summary w))
               /\ last new = Some (ESleep 300))).
Proof.
  unfold conversationTurn. intros H.
  apply bind_inv in H as (ucId & w0 & Hid & H). apply get_inv in Hid as [-> _].
  apply bind_inv in H as (convoDetail & w1 & Hfetch & H).
  destruct (fetchConversation_events ucId w)
    as (new1 & out1 & w1' & E1 & Htr1 & Hsum1 & Hups1).
  rewrite E1 in Hfetch. injection Hfetch as -> ->.
  apply bind_inv in H as (detailId & w2 & Hdetail & H). apply get_inv in Hdetail as [-> _].
  cbv zeta in H.
  destruct (negb (truthy _)).
  { apply bind_inv in H as (u & w2 & Hs & H). apply sleep_inv in Hs as ->.
    unfold ret in H. injection H as <-.
    exists (new1 ++ [ESleep 200]). cbn [trace emit]. rewrite Htr1, <- app_assoc.
    split; [reflexivity|]. left.
    rewrite upserts_app, Hups1, last_snoc. cbn [summary]. auto. }
  apply bind_inv in H as (created & w2 & Hcreated & H).
  apply (silent_returned _ _ _ _
           (silent_createdInWindow Number_toString Date_getTime _ _ _ _)) in Hcreated
    as ->.
  apply bind_inv in H as (updated & w2 & Hupdated & H).
  apply (silent_returned _ _ _ _
           (silent_updatedInWindow Number_toString Date_getTime _ _ _ _)) in Hupdated
    as ->.
  destruct (negb _ && negb _)%bool.
  { apply bind_inv in H as (u & w2 & Hc & H). apply count_inv in Hc as ->.
    apply bind_inv in H as (u' & w3 & Hs & H). apply sleep_inv in Hs as ->.
    unfold ret in H. injection H as <-.
    exists (new1 ++ [ESleep 1000]). cbn [trace emit]. rewrite Htr1, <- app_assoc.
    split; [reflexivity|]. right. left.
    rewrite upserts_app, Hups1, last_snoc. cbn [summary].
    rewrite Hsum1. auto. }
  apply bind_inv in H as (userId & w2 & Huser & H). apply get_inv in Huser as [-> _].
  apply bind_inv in H as (u & w2 & Hconv & H).
  match type of Hconv with
  | upsertConversation _ _ _ _ _ ?c ?i ?o ?w0 = _ =>
      destruct (upsertConversation_run store_upsert Number_toString Date_getTime
                  toISOString Date_now c i o w0) as [(e & Ee)|(key & Ek)]
  end; [rewrite Ee in Hconv; discriminate|].
  rewrite Ek in Hconv. unfold store_call in Hconv.
  destruct (store_upsert (env w1) _ _ _) as [[[]|e] env2]; [|discriminate].
  injection Hconv as _ Hw2. subst w2.
  apply afterUpsert_false in H as (new2 & Htr2 & Hups2 & Hsum2 & Hlast2).
  cbn [trace summary] in Htr2, Hsum2.
  match type of Htr2 with
  | _ = (_ ++ [EUpsert ?t ?k ?s ?r]) ++ _ =>
      exists (new1 ++ EUpsert t k s r :: new2)
  end.
  rewrite Htr2, Htr1, <- !app_assoc. cbn [app].
  split; [reflexivity|]. right. right.
  eexists.
  rewrite upserts_app, Hups1, upserts_cons_upsert, Hups2.
  split; [reflexivity|]. rewrite Hsum2, Hsum1.
  split; [reflexivity|].
  rewrite last_app. change (last (?e :: new2)) with (match new2 with [] => Some e | _ => last new2 end).
  destruct new2; [discriminate|]. rewrite Hlast2. reflexivity.
Qed.

End SkippedConversation.

Lemma skipped_conversation_stores_no_message_witness :
  exists new,
    trace afterSkippedTurn = trace freshWorld ++ new
    /\ ((upserts new = []
         /\ summary afterSkippedTurn = summary freshWorld
         /\ last new = Some (ESleep 200))
        \/ (upserts new = []
            /\ summary afterSkippedTurn = inc_convsSkippedNotInWindow (summary freshWorld)
            /\ last new = Some (ESleep 1000))
        \/ (exists key,
               upserts new = [("Conversation", key)]
               /\ summary afterSkippedTurn
                  = inc_convsSkippedNoBot (inc_convsUpserted (summary freshWorld))
               /\ last new = Some (ESleep 300))).
Proof.
  apply (skipped_conversation_stores_no_message chatSource acceptingStore noNumber
           mockGetTime mockToISOString mockNow mockUser mockConversation
           1704106800000 1704114000000 freshWorld afterSkippedTurn).
  vm_compute. reflexivity.
Defined.

(** ** The classifier client *)

Section ClassifierClientFacts.

Variable create : nat -> list (string * string) -> CompletionOutcome.
Variable JSON_parse : string -> result string Response.

Lemma retryLoop_unfold fuel batch maxRetries attempt lastError st :
  retryLoop create JSON_parse (S fuel) batch maxRetries attempt lastError st =
  if attempt <=? maxRetries then
    match requestOnce create JSON_parse (requests st) batch with
    | Ok parsed =>
        Some (Ok parsed,
              {| requests := S (requests st);
                 history := history st ++ [CWaitForToken; CCreate batch] |})
    | Throw error =>
        match backoffOf attempt error with
        | Some ms =>
            retryLoop create JSON_parse fuel batch maxRetries (attempt + 1) (Some error)
              {| requests := S (requests st);
                 history := (history st ++ [CWaitForToken; CCreate batch]) ++ [CBackoff ms] |}
        | None =>
            Some (Throw error,
                  {| requests := S (requests st);
                     history := history st ++ [CWaitForToken; CCreate batch] |})
        end
    end
  else Some (Throw (default failedAfterRetries lastError), st).
Proof.
  cbn [retryLoop]. destruct (attempt <=? maxRetries); [|reflexivity].
  destruct (requestOnce create JSON_parse (requests st) batch) as [parsed|error];
    [reflexivity|].
  unfold backoffOf. cbn [requests history].
  destruct (statusIs error 429); [reflexivity|].
  destruct (statusAtLeast error 500); reflexivity.
Qed.

Local Abbreviation request k batch := (requestOnce create JSON_parse k batch).

Lemma analyzeMessagesWithRetry_shape batch st :
  exists out st' new,
    analyzeMessagesWithRetry create JSON_parse batch 3 st = Some (out, st')
    /\ history st' = history st ++ new
    /\ requests st' = (requests st + length (creates new))%nat
    /\ ((new = [CWaitForToken; CCreate batch]
         /\ out = request (requests st) batch
         /\ final 1 out)
        \/ (exists e1 b1,
               request (requests st) batch = Throw e1 /\ backoffOf 1 e1 = Some b1
               /\ new = [CWaitForToken; CCreate batch; CBackoff b1;
                         CWaitForToken; CCreate batch]
               /\ out = request (S (requests st)) batch
               /\ final 2 out)
        \/ (exists e1 b1 e2 b2,
               request (requests st) batch = Throw e1 /\ backoffOf 1 e1 = Some b1
               /\ request (S (requests st)) batch = Throw e2 /\ backoffOf 2 e2 = Some b2
               /\ new = [CWaitForToken; CCreate batch; CBackoff b1;
                         CWaitForToken; CCreate batch; CBackoff b2;
                         CWaitForToken; CCreate batch]
               /\ out = request (S (S (requests st))) batch
               /\ final 3 out)
        \/ (exists e1 b1 e2 b2 e3 b3,
               request (requests st) batch = Throw e1 /\ backoffOf 1 e1 = Some b1
               /\ request (S (requests st)) batch = Throw e2 /\ backoffOf 2 e2 = Some b2
               /\ request (S (S (requests st))) batch = Throw e3
               /\ backoffOf 3 e3 = Some b3
               /\ new = [CWaitForToken; CCreate batch; CBackoff b1;
                         CWaitForToken; CCreate batch; CBackoff b2;
                         CWaitForToken; CCreate batch; CBackoff b3]
               /\ out = Throw e3)).
Proof.
  unfold analyzeMessagesWithRetry. change (S (Z.to_nat 3)) with 4%nat.
  rewrite retryLoop_unfold. change (1 <=? 3) with true. cbv iota.
  destruct (request (requests st) batch) as [p1|e1] eqn:R1.
  { eexists _, _, _. split; [reflexivity|]. cbn [history requests].
    split; [reflexivity|]. split; [cbn; lia|]. left. cbn. auto. }
  destruct (backoffOf 1 e1) as [b1|] eqn:B1.
  2:{ eexists _, _, _. split; [reflexivity|]. cbn [history requests].
      split; [reflexivity|]. split; [cbn; lia|]. left. cbn. auto. }
  rewrite retryLoop_unfold. change (1 + 1 <=? 3) with true. cbv iota.
  cbn [requests history].
  destruct (request (S (requests st)) batch) as [p2|e2] eqn:R2.
  { eexists _, _, _. split; [reflexivity|]. cbn [history requests].
    rewrite <- !app_assoc. split; [reflexivity|]. split; [cbn; lia|].
    right. left. exists e1, b1. cbn. auto 6. }
  destruct (backoffOf (1 + 1) e2) as [b2|] eqn:B2.
  2:{ eexists _, _, _. split; [reflexivity|]. cbn [history requests].
      rewrite <- !app_assoc. split; [reflexivity|]. split; [cbn; lia|].
      right. left. exists e1, b1. cbn. auto 6. }
  rewrite retryLoop_unfold. change (1 + 1 + 1 <=? 3) with true. cbv iota.
  cbn [requests history].
  destruct (request (S (S (requests st))) batch) as [p3|e3] eqn:R3.
  { eexists _, _, _. split; [reflexivity|]. cbn [history requests].
    rewrite <- !app_assoc. split; [reflexivity|]. split; [cbn; lia|].
    right. right. left. exists e1, b1, e2, b2. cbn. auto 8. }
  destruct (backoffOf (1 + 1 + 1) e3) as [b3|] eqn:B3.
  2:{ eexists _, _, _. split; [reflexivity|]. cbn [history requests].
      rewrite <- !app_assoc. split; [reflexivity|]. split; [cbn; lia|].
      right. right. left. exists e1, b1, e2, b2. cbn. auto 8. }
  rewrite retryLoop_unfold. change (1 + 1 + 1 + 1 <=? 3) with false. cbv iota.
  eexists _, _, _. split; [reflexivity|]. cbn [history requests].
  rewrite <- !app_assoc. split; [reflexivity|]. split; [cbn; lia|].
  right. right. right. exists e1, b1, e2, b2, e3, b3. cbn. auto 10.
Qed.

Lemma errorTypeOf_spec err :
  errorTypeOf err =
    if statusIs err 429 then "rate_limit"
    else if statusAtLeast err 500 then "api_error"
    else if bool_decide (e_name err = Some "SyntaxError") then "parse_error"
    else "unknown_error".
Proof.
  unfold errorTypeOf, statusIs, statusAtLeast.
  destruct (e_status err) as [s|]; [|reflexivity].
  destruct (Z.eqb_spec s 429) as [->|Hne]; [reflexivity|].
  assert (Hmatch : forall A (a b : A),
             match s with 429 => a | _ => b end = b).
  { intros A a b. destruct s as [|p|p]; try reflexivity.
    do 9 (destruct p as [p|p|]; try reflexivity). congruence. }
  rewrite Hmatch.
  destruct (Z.leb_spec 500 s) as [Hge|Hlt].
  - destruct (Z.eqb_spec s 0); [lia|]. reflexivity.
  - rewrite andb_false_r. reflexivity.
Qed.

Lemma backoffOf_errorType attempt err :
  (is_Some (backoffOf attempt err) <->
   errorTypeOf err = "rate_limit" \/ errorTypeOf err = "api_error")
  /\ (backoffOf attempt err = None <->
      errorTypeOf err = "parse_error" \/ errorTypeOf err = "unknown_error").
Proof.
  rewrite errorTypeOf_spec. unfold backoffOf.
  destruct (statusIs err 429); [|destruct (statusAtLeast err 500)].
  - split; split; intros H; eauto; try discriminate; destruct H; discriminate.
  - split; split; intros H; eauto; try discriminate; destruct H; discriminate.
  - destruct (bool_decide (e_name err = Some "SyntaxError"));
      split; split; intros H; eauto; try discriminate.
    + destruct H as [? H]; discriminate.
    + destruct H; discriminate.
    + destruct H as [? H]; discriminate.
    + destruct H; discriminate.
Qed.

(** X19. With its default of three attempts, [analyzeMessagesWithRetry]
    comes to an end after one, two or three requests, all for its batch,
    the first event being the wait for a token of the rate limiter. It
    backs off once after every failed request but possibly the last, for
    1, 2, 4 or 8 s; when it returns a response, it backed off once less
    than it asked and its last event is the request that was answered. *)
Theorem analyzeMessagesWithRetry_attempts batch st :
  exists out st' new,
    analyzeMessagesWithRetry create JSON_parse batch 3 st = Some (out, st')
    /\ history st' = history st ++ new
    /\ (1 <= length (creates new) <= 3)%nat
    /\ requests st' = (requests st + length (creates new))%nat
    /\ creates new = replicate (length (creates new)) batch
    /\ head new = Some CWaitForToken
    /\ (length (creates new) - 1 <= length (backoffs new) <= length (creates new))%nat
    /\ (forall response, out = Ok response ->
          length (backoffs new) = (length (creates new) - 1)%nat
          /\ last new = Some (CCreate batch))
    /\ Forall (fun ms => In ms [1000; 2000; 4000; 8000]) (backoffs new).
Proof.
  assert (Hb : forall attempt err b,
             In attempt [1; 2; 3] -> backoffOf attempt err = Some b ->
             In b [1000; 2000; 4000; 8000]).
  { intros attempt err b Hin. unfold backoffOf.
    destruct (statusIs err 429); [|destruct (statusAtLeast err 500); [|discriminate]];
      intros H; injection H as <-;
      destruct Hin as [<-|[<-|[<-|[]]]]; cbn; auto 6. }
  destruct (analyzeMessagesWithRetry_shape batch st)
    as (out & st' & new & E & Hh & Hr & Hshape).
  exists out, st', new. split; [exact E|]. split; [exact Hh|].
  destruct Hshape as [(-> & Hout & Hfin)
                     |[(e1 & b1 & R1 & B1 & -> & Hout & Hfin)
                      |[(e1 & b1 & e2 & b2 & R1 & B1 & R2 & B2 & -> & Hout & Hfin)
                       |(e1 & b1 & e2 & b2 & e3 & b3 & R1 & B1 & R2 & B2 & R3 & B3
                         & -> & Hout)]]];
    cbn; (split; [lia|]); (split; [exact Hr|]); (split; [reflexivity|]);
    (split; [reflexivity|]); (split; [lia|]).
  - split; [auto|constructor].
  - split; [auto|].
    constructor; [apply (Hb 1 e1); [cbn; auto|exact B1]|constructor].
  - split; [auto|].
    constructor; [apply (Hb 1 e1); [cbn; auto|exact B1]|].
    constructor; [apply (Hb 2 e2); [cbn; auto|exact B2]|constructor].
  - split; [intros response Hok; subst out; discriminate|].
    constructor; [apply (Hb 1 e1); [cbn; auto|exact B1]|].
    constructor; [apply (Hb 2 e2); [cbn; auto|exact B2]|].
    constructor; [apply (Hb 3 e3); [cbn; auto|exact B3]|constructor].
Qed.

(** X20. Three answers with status 429 make the client throw the third
    error, of type [rate_limit], after back-offs of 2, 4 and 8 s, the last
    one after the last attempt; three answers with a status of 500 or more
    make it throw the third error, of type [api_error], after back-offs of
    1, 2 and 4 s. *)
Theorem analyzeMessagesWithRetry_gives_up batch st e1 e2 e3 :
  create (requests st) batch = Failed e1 ->
  create (S (requests st)) batch = Failed e2 ->
  create (S (S (requests st))) batch = Failed e3 ->
  (statusIs e1 429 = true -> statusIs e2 429 = true -> statusIs e3 429 = true ->
   analyzeMessagesWithRetry create JSON_parse batch 3 st =
     Some (Throw e3,
           {| requests := S (S (S (requests st)));
              history := history st ++
                         [CWaitForToken; CCreate batch; CBackoff 2000;
                          CWaitForToken; CCreate batch; CBackoff 4000;
                          CWaitForToken; CCreate batch; CBackoff 8000] |})
   /\ errorTypeOf e3 = "rate_limit")
  /\ (statusIs e1 429 = false -> statusIs e2 429 = false -> statusIs e3 429 = false ->
      statusAtLeast e1 500 = true -> statusAtLeast e2 500 = true ->
      statusAtLeast e3 500 = true ->
      analyzeMessagesWithRetry create JSON_parse batch 3 st =
        Some (Throw e3,
              {| requests := S (S (S (requests st)));
                 history := history st ++
                            [CWaitForToken; CCreate batch; CBackoff 1000;
                             CWaitForToken; CCreate batch; CBackoff 2000;
                             CWaitForToken; CCreate batch; CBackoff 4000] |})
      /\ errorTypeOf e3 = "api_error").
Proof.
  intros C1 C2 C3.
  assert (R1 : request (requests st) batch = Throw e1)
    by (unfold requestOnce; rewrite C1; reflexivity).
  assert (R2 : request (S (requests st)) batch = Throw e2)
    by (unfold requestOnce; rewrite C2; reflexivity).
  assert (R3 : request (S (S (requests st))) batch = Throw e3)
    by (unfold requestOnce; rewrite C3; reflexivity).
  split.
  - intros T1 T2 T3. split; [|rewrite errorTypeOf_spec, T3; reflexivity].
    unfold analyzeMessagesWithRetry. change (S (Z.to_nat 3)) with 4%nat.
    rewrite retryLoop_unfold. change (1 <=? 3) with true. cbv iota.
    rewrite R1. unfold backoffOf at 1. rewrite T1.
    rewrite retryLoop_unfold. change (1 + 1 <=? 3) with true. cbv iota.
    cbn [requests history]. rewrite R2. unfold backoffOf at 1. rewrite T2.
    rewrite retryLoop_unfold. change (1 + 1 + 1 <=? 3) with true. cbv iota.
    cbn [requests history]. rewrite R3. unfold backoffOf at 1. rewrite T3.
    rewrite retryLoop_unfold. change (1 + 1 + 1 + 1 <=? 3) with false. cbv iota.
    cbn [default]. rewrite <- !app_assoc. reflexivity.
  - intros T1 T2 T3 S1 S2 S3. split; [|rewrite errorTypeOf_spec, T3, S3; reflexivity].
    unfold analyzeMessagesWithRetry. change (S (Z.to_nat 3)) with 4%nat.
    rewrite retryLoop_unfold. change (1 <=? 3) with true. cbv iota.
    rewrite R1. unfold backoffOf at 1. rewrite T1, S1.
    rewrite retryLoop_unfold. change (1 + 1 <=? 3) with true. cbv iota.
    cbn [requests history]. rewrite R2. unfold backoffOf at 1. rewrite T2, S2.
    rewrite retryLoop_unfold. change (1 + 1 + 1 <=? 3) with true. cbv iota.
    cbn [requests history]. rewrite R3. unfold backoffOf at 1. rewrite T3, S3.
    rewrite retryLoop_unfold. change (1 + 1 + 1 + 1 <=? 3) with false. cbv iota.
    cbn [default]. rewrite <- !app_assoc. reflexivity.
Qed.

(** X21. What the type of an error thrown by the client tells: a
    [rate_limit] or an [api_error] is thrown after three requests and a
    last back-off; a [parse_error] or an [unknown_error] is thrown right
    after a request; there is no other type. *)
Theorem analyzeMessagesWithRetry_error_types batch st err st' :
  analyzeMessagesWithRetry create JSON_parse batch 3 st = Some (Throw err, st') ->
  (errorTypeOf err = "rate_limit" \/ errorTypeOf err = "api_error" ->
   requests st' = S (S (S (requests st)))
   /\ exists pre ms, history st' = pre ++ [CBackoff ms])
  /\ (errorTypeOf err = "parse_error" \/ errorTypeOf err = "unknown_error" ->
      exists pre, history st' = pre ++ [CCreate batch])
  /\ In (errorTypeOf err) ["rate_limit"; "api_error"; "parse_error"; "unknown_error"].
Proof.
  intros E.
  destruct (analyzeMessagesWithRetry_shape batch st)
    as (out & st0 & new & E0 & Hh & Hr & Hshape).
  rewrite E in E0. injection E0 as <- <-.
  assert (Htypes : In (errorTypeOf err)
                     ["rate_limit"; "api_error"; "parse_error"; "unknown_error"]).
  { rewrite errorTypeOf_spec.
    destruct (statusIs err 429); [cbn; auto|].
    destruct (statusAtLeast err 500); [cbn; auto|].
    destruct (bool_decide _); cbn; auto. }
  assert (Hfinal : forall attempt pre,
             final attempt (Throw err) -> history st' = pre ++ [CCreate batch] ->
             (errorTypeOf err = "rate_limit" \/ errorTypeOf err = "api_error" ->
              requests st' = S (S (S (requests st)))
              /\ exists pre ms, history st' = pre ++ [CBackoff ms])
             /\ (errorTypeOf err = "parse_error" \/ errorTypeOf err = "unknown_error" ->
                 exists pre, history st' = pre ++ [CCreate batch])
             /\ In (errorTypeOf err)
                  ["rate_limit"; "api_error"; "parse_error"; "unknown_error"]).
  { intros attempt pre Hfin Hpre. cbn in Hfin.
    split; [|split; [eauto|exact Htypes]].
    intros Hretried. apply (backoffOf_errorType attempt) in Hretried as [b Hb]. congruence. }
  destruct Hshape as [(-> & Hout & Hfin)
                     |[(e1 & b1 & R1 & B1 & -> & Hout & Hfin)
                      |[(e1 & b1 & e2 & b2 & R1 & B1 & R2 & B2 & -> & Hout & Hfin)
                       |(e1 & b1 & e2 & b2 & e3 & b3 & R1 & B1 & R2 & B2 & R3 & B3
                         & -> & Hout)]]].
  - apply (Hfinal 1 (history st ++ [CWaitForToken])); [exact Hfin|].
    rewrite Hh, <- app_assoc. reflexivity.
  - apply (Hfinal 2 (history st ++ [CWaitForToken; CCreate batch; CBackoff b1;
                                    CWaitForToken])); [exact Hfin|].
    rewrite Hh, <- app_assoc. reflexivity.
  - apply (Hfinal 3 (history st ++ [CWaitForToken; CCreate batch; CBackoff b1;
                                    CWaitForToken; CCreate batch; CBackoff b2;
                                    CWaitForToken])); [exact Hfin|].
    rewrite Hh, <- app_assoc. reflexivity.
  - injection Hout as ->.
    split; [|split; [|exact Htypes]].
    + intros _. split; [rewrite Hr; cbn; lia|].
      exists (history st ++ [CWaitForToken; CCreate batch; CBackoff b1;
                             CWaitForToken; CCreate batch; CBackoff b2;
                             CWaitForToken; CCreate batch]), b3.
      rewrite Hh, <- app_assoc. reflexivity.
    + intros Hnot. apply (backoffOf_errorType 3) in Hnot. congruence.
Qed.

Lemma retryLoop_bounded fuel batch maxRetries attempt lastError st :
  (Z.to_nat (maxRetries + 1 - attempt) < fuel)%nat ->
  exists out st' new,
    retryLoop create JSON_parse fuel batch maxRetries attempt lastError st = Some (out, st')
    /\ history st' = history st ++ new
    /\ requests st' = (requests st + length (creates new))%nat
    /\ (length (creates new) <= Z.to_nat (maxRetries + 1 - attempt))%nat.
Proof.
  revert attempt lastError st. induction fuel as [|fuel IH]; intros attempt lastError st Hf;
    [lia|].
  rewrite retryLoop_unfold.
  destruct (Z.leb_spec attempt maxRetries) as [Hle|Hgt].
  - assert (Hone : forall out,
               exists (out' : result JsError Response) st' new,
                 Some (out, {| requests := S (requests st);
                               history := history st ++ [CWaitForToken; CCreate batch] |})
                 = Some (out', st')
                 /\ history st' = history st ++ new
                 /\ requests st' = (requests st + length (creates new))%nat
                 /\ (length (creates new) <= Z.to_nat (maxRetries + 1 - attempt))%nat).
    { intros out. eexists _, _, _. split; [reflexivity|]. cbn [history requests].
      split; [reflexivity|]. cbn. split; lia. }
    destruct (request (requests st) batch) as [parsed|error]; [apply Hone|].
    destruct (backoffOf attempt error) as [ms|]; [|apply Hone].
    destruct (IH (attempt + 1) (Some error)
                {| requests := S (requests st);
                   history := (history st ++ [CWaitForToken; CCreate batch])
                              ++ [CBackoff ms] |})
      as (out & st' & new & E & Hh & Hr & Hlen); [lia|].
    exists out, st', ([CWaitForToken; CCreate batch; CBackoff ms] ++ new).
    split; [exact E|]. cbn [history requests] in Hh, Hr.
    split; [rewrite Hh, <- !app_assoc; reflexivity|].
    unfold creates in *. rewrite omap_app, length_app. cbn [omap length].
    split; [rewrite Hr; cbn; lia|cbn; lia].
  - exists (Throw (default failedAfterRetries lastError)), st, [].
    rewrite app_nil_r. cbn. split; [reflexivity|]. split; [reflexivity|]. split; lia.
Qed.

(** X22. For every [maxRetries] the client comes to an end, after at most
    [max(0, maxRetries)] requests; when [maxRetries] is not positive it
    asks nothing and throws the error [Analysis failed after retries]. *)
Theorem analyzeMessagesWithRetry_bounded batch maxRetries st :
  exists out st' new,
    analyzeMessagesWithRetry create JSON_parse batch maxRetries st = Some (out, st')
    /\ history st' = history st ++ new
    /\ requests st' = (requests st + length (creates new))%nat
    /\ Z.of_nat (length (creates new)) <= Z.max 0 maxRetries
    /\ (maxRetries <= 0 -> out = Throw failedAfterRetries /\ st' = st).
Proof.
  unfold analyzeMessagesWithRetry.
  destruct (retryLoop_bounded (S (Z.to_nat maxRetries)) batch maxRetries 1 None st)
    as (out & st' & new & E & Hh & Hr & Hlen); [lia|].
  exists out, st', new. split; [exact E|]. split; [exact Hh|]. split; [exact Hr|].
  split; [lia|].
  intros Hzero. rewrite retryLoop_unfold in E.
  destruct (Z.leb_spec 1 maxRetries); [lia|]. injection E as <- <-. auto.
Qed.

End ClassifierClientFacts.

Lemma analyzeMessagesWithRetry_gives_up_witness :
  analyzeMessagesWithRetry alwaysThrottled neverParsed [] 3 freshClient =
    Some (Throw rateLimited,
          {| requests := S (S (S (requests freshClient)));
             history := history freshClient ++
                        [CWaitForToken; CCreate []; CBackoff 2000;
                         CWaitForToken; CCreate []; CBackoff 4000;
                         CWaitForToken; CCreate []; CBackoff 8000] |})
  /\ errorTypeOf rateLimited = "rate_limit".
Proof.
  apply (proj1 (analyzeMessagesWithRetry_gives_up alwaysThrottled neverParsed []
                  freshClient rateLimited rateLimited rateLimited
                  eq_refl eq_refl eq_refl));
    reflexivity.
Defined.

Lemma analyzeMessagesWithRetry_error_types_witness :
  requests exhaustedClient = S (S (S (requests freshClient)))
  /\ exists pre ms, history exhaustedClient = pre ++ [CBackoff ms].
Proof.
  destruct (analyzeMessagesWithRetry_error_types alwaysThrottled neverParsed []
              freshClient rateLimited exhaustedClient) as (Hretried & _).
  - reflexivity.
  - apply Hretried. left. reflexivity.
Defined.

Lemma analyzeMessagesWithRetry_bounded_witness :
  analyzeMessagesWithRetry alwaysThrottled neverParsed [] 0 freshClient
  = Some (Throw failedAfterRetries, freshClient).
Proof.
  destruct (analyzeMessagesWithRetry_bounded alwaysThrottled neverParsed [] 0 freshClient)
    as (out & st' & new & E & _ & _ & _ & Hzero).
  destruct Hzero as [-> ->]; [lia|]. exact E.
Defined.

(** ** The rate limiter *)

Lemma tokensToAdd_nonneg now rl :
  lastRefill rl <= now -> (0 <= refillRate rl)%Q ->
  (0 <= inject_Z (now - lastRefill rl)%Z / 1000 * refillRate rl)%Q.
Proof.
  intros Hnow Hrate. apply Qmult_le_0_compat; [|exact Hrate].
  apply Qle_shift_div_l; [reflexivity|]. rewrite Qmult_0_l.
  change 0%Q with (inject_Z 0). rewrite <- Zle_Qle. lia.
Qed.

Lemma refill_range now rl :
  lastRefill rl <= now -> bucketInRange rl ->
  bucketInRange (refill now rl) /\ (tokens rl <= tokens (refill now rl))%Q.
Proof.
  intros Hnow (H0 & Hmax & Hrate).
  pose proof (tokensToAdd_nonneg now rl Hnow Hrate) as Hadd.
  unfold bucketInRange, refill. cbn [tokens maxTokens refillRate].
  set (add := (inject_Z (now - lastRefill rl)%Z / 1000 * refillRate rl)%Q) in *.
  destruct (Q.min_spec (maxTokens rl) (tokens rl + add)) as [[Hlt Hmin]|[Hle Hmin]];
    rewrite Hmin; repeat split; try lra.
Qed.

Lemma waitForToken_spec now rl :
  lastRefill rl <= now -> bucketInRange rl ->
  bucketInRange (snd (waitForToken now rl))
  /\ lastRefill (snd (waitForToken now rl)) = now
  /\ maxTokens (snd (waitForToken now rl)) = maxTokens rl
  /\ refillRate (snd (waitForToken now rl)) = refillRate rl
  /\ (fst (waitForToken now rl) = None ->
      (1 <= tokens (refill now rl))%Q
      /\ (tokens (snd (waitForToken now rl)) == tokens (refill now rl) - 1)%Q)
  /\ (forall waitTime,
        fst (waitForToken now rl) = Some waitTime ->
        (tokens (snd (waitForToken now rl)) == 0)%Q
        /\ ((0 < refillRate rl)%Q ->
            (0 < waitTime)%Q /\ (waitTime <= 1000 / refillRate rl)%Q)).
Proof.
  intros Hnow Hrange.
  destruct (refill_range now rl Hnow Hrange) as [(H0 & Hmax & Hrate) Hgrow].
  assert (Hlast : lastRefill (refill now rl) = now) by reflexivity.
  assert (Hm : maxTokens (refill now rl) = maxTokens rl) by reflexivity.
  assert (Hr : refillRate (refill now rl) = refillRate rl) by reflexivity.
  unfold waitForToken. cbv zeta.
  set (rl1 := refill now rl) in *. clearbody rl1.
  destruct (Qle_bool 1 (tokens rl1)) eqn:Hone; cbn [fst snd].
  - apply Qle_bool_iff in Hone.
    unfold bucketInRange. cbn [tokens maxTokens refillRate lastRefill].
    rewrite Hm, Hr in *.
    repeat split; try lra; try reflexivity; try discriminate; assumption.
  - assert (Hlt : (tokens rl1 < 1)%Q).
    { apply Qnot_le_lt. intros Hle. apply Qle_bool_iff in Hle. congruence. }
    unfold bucketInRange. cbn [tokens maxTokens refillRate lastRefill].
    rewrite Hm, Hr in *.
    repeat split; try lra; try reflexivity; try discriminate; try assumption.
    + injection H as <-.
      apply Qmult_lt_0_compat; [|reflexivity].
      apply Qlt_shift_div_l; [assumption|]. lra.
    + injection H as <-.
      unfold Qdiv. rewrite (Qmult_comm 1000).
      apply Qmult_le_compat_r; [|discriminate].
      rewrite <- (Qmult_1_l (/ refillRate rl)) at 2.
      apply Qmult_le_compat_r; [lra|].
      apply Qlt_le_weak, Qinv_lt_0_compat. assumption.
Qed.



Lemma waitForToken_immediate now rl :
  lastRefill rl <= now -> bucketInRange rl -> (1 <= tokens rl)%Q ->
  fst (waitForToken now rl) = None
  /\ (tokens rl - 1 <= tokens (snd (waitForToken now rl)))%Q.
Proof.
  intros Hnow Hrange Hone.
  destruct (refill_range now rl Hnow Hrange) as [_ Hgrow].
  unfold waitForToken. cbv zeta.
  assert (H1 : Qle_bool 1 (tokens (refill now rl)) = true)
    by (apply Qle_bool_iff; lra).
  rewrite H1. cbn [fst snd tokens]. split; [reflexivity|lra].
Qed.

(** X24. A burst of calls of [waitForToken] at instants in ascending order,
    not longer than the number of tokens in the bucket, never waits. *)
Theorem burst_within_the_bucket_never_waits times rl :
  ascendingFrom (lastRefill rl) times -> bucketInRange rl ->
  (inject_Z (Z.of_nat (length times)) <= tokens rl)%Q ->
  Forall (fun waited => waited = None) (waitForTokens times rl).
Proof.
  revert rl. induction times as [|now later IH]; intros rl Hasc Hrange Htokens;
    [constructor|].
  destruct Hasc as [Hnow Hlater]. cbn [waitForTokens].
  assert (Hone : (1 <= tokens rl)%Q).
  { eapply Qle_trans; [|exact Htokens].
    change 1%Q with (inject_Z 1). rewrite <- Zle_Qle. cbn [length]. lia. }
  destruct (waitForToken_immediate now rl Hnow Hrange Hone) as [Hnone Hleft].
  destruct (waitForToken_spec now rl Hnow Hrange) as (Hrange' & Hlast & _).
  constructor; [exact Hnone|].
  apply IH; [rewrite Hlast; exact Hlater|exact Hrange'|].
  eapply Qle_trans; [|exact Hleft].
  cbn [length] in Htokens. rewrite Nat2Z.inj_succ in Htokens.
  unfold Z.succ in Htokens. rewrite inject_Z_plus in Htokens.
  change (inject_Z 1) with 1%Q in Htokens. lra.
Qed.

Lemma burst_within_the_bucket_never_waits_witness :
  Forall (fun waited => waited = None)
    (waitForTokens [0; 0; 5; 5; 5] (newRateLimiter 500 0)).
Proof.
  apply burst_within_the_bucket_never_waits.
  - simpl. lia.
  - unfold bucketInRange. simpl. repeat split; discriminate.
  - simpl. discriminate.
Defined.

(** ** The normal form of the normalizer *)

Section NormalizerRoundTrip.

Variable Number_toString : Q -> string.

(** X25. The output of [extractMessageContent] is in normal form: it is
    trimmed, its first and its last character are no white space, and the
    normalizer gives it back when it is applied to it, as a string or as
    the only part of an array. *)
Theorem extractMessageContent_output_is_normal parts s :
  extractMessageContent Number_toString parts = Ok s ->
  trim s = s
  /\ headOk jsSpace (characters s)
  /\ headOk jsSpace (rev (characters s))
  /\ extractMessageContent Number_toString (JString s) = Ok s
  /\ extractMessageContent Number_toString (JArray [JString s]) = Ok s.
Proof.
  intros H. pose proof (extractMessageContent_trimmed Number_toString parts s H) as Htrim.
  destruct (trimmed_ends s Htrim) as [Hhead Hlast].
  split; [exact Htrim|]. split; [exact Hhead|]. split; [exact Hlast|].
  unfold extractMessageContent. cbn [truthy is_object].
  destruct (String.eqb s "") eqn:Hempty.
  - apply String.eqb_eq in Hempty. subst s. split; reflexivity.
  - cbn [negb]. unfold stringFallback. cbn [js_String rbind]. rewrite Htrim.
    split; [reflexivity|].
    cbn [collectTexts rbind]. unfold extractPart.
    cbn [optprop truthy is_string andb app rbind].
    rewrite Htrim. cbn [filter].
    rewrite filter_cons_True by (unfold nonempty; rewrite Hempty; exact I).
    reflexivity.
Qed.

End NormalizerRoundTrip.

Lemma extractMessageContent_output_is_normal_witness :
  trim "a b" = "a b"
  /\ headOk jsSpace (characters "a b")
  /\ headOk jsSpace (rev (characters "a b"))
  /\ extractMessageContent noNumber (JString "a b") = Ok "a b"
  /\ extractMessageContent noNumber (JArray [JString "a b"]) = Ok "a b".
Proof.
  apply (extractMessageContent_output_is_normal noNumber spec_example "a b").
  reflexivity.
Defined.

(** ** The re-check of the unresolved conversations *)

Lemma sleepCount_app ms tr1 tr2 :
  sleepCount ms (tr1 ++ tr2) = sleepCount ms tr1 + sleepCount ms tr2.
Proof.
  unfold sleepCount, sleeps. rewrite omap_app, filter_app, length_app. lia.
Qed.

Lemma sleepCount_backoffs ms tr :
  Forall (fun x => In x [1000; 2000; 4000]) (sleeps tr) ->
  ms = 300 \/ ms = 500 -> sleepCount ms tr = 0.
Proof.
  unfold sleepCount. intros Hall Hms.
  induction (sleeps tr) as [|x l IH]; [reflexivity|].
  apply Forall_cons in Hall as [Hx Hl].
  rewrite filter_cons_False; [apply IH; exact Hl|].
  intros Heq. apply Is_true_true, Z.eqb_eq in Heq. subst x.
  cbn in Hx. lia.
Qed.

Lemma okUpserts_no_upsert table tr : upserts tr = [] -> okUpserts table tr = 0.
Proof.
  unfold okUpserts. induction tr as [|e tr IH]; [reflexivity|].
  intros H. destruct e as [p q r|ms|t k s r]; [| |discriminate H];
    (rewrite filter_cons_False by (cbn; exact id)); apply IH; exact H.
Qed.

Lemma okUpserts_sleep table ms : okUpserts table [ESleep ms] = 0.
Proof. reflexivity. Qed.

Lemma okUpserts_refused table t key source e :
  okUpserts table [EUpsert t key source (Throw e)] = 0.
Proof. reflexivity. Qed.

Lemma okUpserts_accepted table key source :
  okUpserts table [EUpsert table key source (Ok tt)] = 1.
Proof.
  unfold okUpserts. rewrite filter_cons_True; [reflexivity|].
  cbn. rewrite String.eqb_refl. exact I.
Qed.

Lemma sleepCount_upsert ms t key source r : sleepCount ms [EUpsert t key source r] = 0.
Proof. reflexivity. Qed.

Lemma sleepCount_300 : sleepCount 300 [ESleep 300] = 1 /\ sleepCount 500 [ESleep 300] = 0.
Proof. split; reflexivity. Qed.

Lemma sleepCount_500 : sleepCount 500 [ESleep 500] = 1 /\ sleepCount 300 [ESleep 500] = 0.
Proof. split; reflexivity. Qed.

Local Ltac counts :=
  unfold refetchProgress;
  rewrite ?okUpserts_app, ?sleepCount_app, ?okUpserts_sleep, ?okUpserts_refused,
    ?okUpserts_accepted, ?sleepCount_upsert, ?(proj1 sleepCount_300),
    ?(proj2 sleepCount_300), ?(proj1 sleepCount_500), ?(proj2 sleepCount_500).

Section RefetchFacts.

Context {Env : Type}.
Variable api_get : Env -> string -> Params -> result Exn jsval * Env.
Variable store_upsert : Env -> string -> jsval -> jsval -> result Exn unit * Env.
Variable Number_toString : Q -> string.
Variable Date_getTime : jsval -> option Z.

Lemma progress_trans n1 n2 s1 s2 s3 new1 new2 :
  refetchProgress n1 s1 s2 new1 -> refetchProgress n2 s2 s3 new2 ->
  refetchProgress (n1 + n2) s1 s3 (new1 ++ new2).
Proof.
  unfold refetchProgress. rewrite okUpserts_app, !sleepCount_app. lia.
Qed.

Lemma silent_timeChanged freshUpdatedTime dbConvo :
  silent (@timeChanged Env Number_toString Date_getTime freshUpdatedTime dbConvo).
Proof. unfold timeChanged. destruct (truthy freshUpdatedTime); silent_tac. Qed.

Lemma timeChanged_ok freshUpdatedTime dbConvo (w : World Env) :
  convertible Number_toString freshUpdatedTime = true ->
  timeChanged Number_toString Date_getTime freshUpdatedTime dbConvo w
  = (Returned (truthy freshUpdatedTime
               && negb (match Date_getTime freshUpdatedTime with
                        | Some t => t =? db_updated_time dbConvo
                        | None => false
                        end)), w).
Proof.
  intros H. unfold timeChanged. destruct (truthy freshUpdatedTime); [|reflexivity].
  unfold bind. rewrite (newDate_ok Number_toString Date_getTime _ w H). reflexivity.
Qed.

Lemma timeChanged_fails freshUpdatedTime dbConvo (w : World Env) :
  convertible Number_toString freshUpdatedTime = false ->
  exists e, timeChanged Number_toString Date_getTime freshUpdatedTime dbConvo w
            = (Thrown e, w).
Proof.
  intros H. unfold timeChanged. rewrite (unconvertible_truthy Number_toString _ H).
  unfold newDate, bind. destruct (toStringM_fails Number_toString _ w H) as (e & ->).
  eexists. reflexivity.
Qed.

(** The row is built before the store is called. *)
Lemma refetchUpsertConversation_builds freshConvo userId convoId (w : World Env) :
  refetchRowBuilds Number_toString freshConvo = true ->
  refetchUpsertConversation store_upsert Number_toString Date_getTime
    freshConvo userId convoId w
  = store_call store_upsert "Conversation" (JString convoId)
      (JObject [("convo", freshConvo); ("userId", userId)]) w.
Proof.
  unfold refetchRowBuilds. cbv zeta. intros H. apply andb_true_iff in H as [Hc Hu].
  unfold refetchUpsertConversation. cbv zeta.
  rewrite (bind_returned _ _ _ _ _ (dateOrNow_ok Number_toString Date_getTime _ w Hc)).
  rewrite (bind_returned _ _ _ _ _ (dateOrNow_ok Number_toString Date_getTime _ w Hu)).
  reflexivity.
Qed.

Lemma refetchUpsertConversation_fails freshConvo userId convoId (w : World Env) :
  refetchRowBuilds Number_toString freshConvo = false ->
  exists e,
    refetchUpsertConversation store_upsert Number_toString Date_getTime
      freshConvo userId convoId w = (Thrown e, w).
Proof.
  unfold refetchRowBuilds. cbv zeta. intros H.
  unfold refetchUpsertConversation. cbv zeta.
  match type of H with
  | (?c && ?u)%bool = false => destruct c eqn:Hc; [destruct u eqn:Hu; [discriminate|]|]
  end.
  - rewrite (bind_returned _ _ _ _ _ (dateOrNow_ok Number_toString Date_getTime _ w Hc)).
    destruct (dateOrNow_fails Number_toString Date_getTime _ w Hu) as (e & He).
    exists e. unfold bind at 1. rewrite He. reflexivity.
  - destruct (dateOrNow_fails Number_toString Date_getTime _ w Hc) as (e & He).
    exists e. unfold bind at 1. rewrite He. reflexivity.
Qed.

Lemma fetchConversation_of_string id (w : World Env) :
  fetchConversation api_get Number_toString (JString id) w
  = fetchWithRetry api_get ("/conversations/" ++ id)%string (mkParams None None []) w.
Proof. reflexivity. Qed.

Lemma refetchTurn_spec stats dbConvo (w : World Env) :
  exists stats' w' new,
    refetchTurn api_get store_upsert Number_toString Date_getTime stats dbConvo w
    = (Returned stats', w')
    /\ trace w' = trace w ++ new
    /\ refetchProgress 1 stats stats' new.
Proof.
  unfold refetchTurn, try_catch at 1, bind at 1.
  rewrite fetchConversation_of_string.
  destruct (fetchWithRetry_page api_get ("/conversations/" ++ db_id dbConvo)%string
              (mkParams None None []) "" w)
    as (new1 & out1 & w1 & E1 & Htr1 & _ & Hout1 & _ & _ & _ & _ & Hups1 & Hsl1).
  rewrite E1.
  pose proof (okUpserts_no_upsert "Conversation" new1 Hups1) as Hok1.
  pose proof (sleepCount_backoffs 300 new1 Hsl1 (or_introl eq_refl)) as H300.
  pose proof (sleepCount_backoffs 500 new1 Hsl1 (or_intror eq_refl)) as H500.
  assert (Hcatch : forall stats0 (w0 : World Env) extra,
             trace w0 = trace w ++ new1 ++ extra ->
             okUpserts "Conversation" extra = 0 ->
             sleepCount 300 extra = 0 -> sleepCount 500 extra = 0 ->
             (stats0 = stats
              \/ stats0 = mkRefetchStats (checked stats + 1) (resolved stats)
                            (updated stats) (errors stats)) ->
             exists stats' w' new,
               countError stats0 w0 = (Returned stats', w')
               /\ trace w' = trace w ++ new
               /\ refetchProgress 1 stats stats' new).
  { intros stats0 w0 extra Htr0 Hok0 H3 H5 Hstats.
    eexists _, _, (new1 ++ extra ++ [ESleep 500]).
    split; [reflexivity|]. cbn [trace emit snd].
    split; [rewrite Htr0, <- !app_assoc; reflexivity|].
    counts. rewrite Hok1, Hok0, H300, H500, H3, H5.
    destruct Hstats as [-> | ->]; cbn [checked resolved updated errors]; lia. }
  destruct out1 as [freshConvo|e|]; [|apply (Hcatch stats w1 []); auto;
                                        rewrite app_nil_r; exact Htr1|congruence].
  unfold try_catch, compareAndUpdate, bind at 1, get.
  destruct (prop freshConvo "status") as [status|e].
  2:{ apply (Hcatch _ w1 []); auto. rewrite app_nil_r; exact Htr1. }
  unfold ret at 1. cbv zeta.
  match goal with
  | |- context [timeChanged ?n ?d ?t ?c] =>
      destruct (silent_run (timeChanged n d t c) w1 (silent_timeChanged t c))
        as [(changed & Ec)|(e & Ec)]
  end.
  2:{ unfold bind at 1. rewrite Ec.
      apply (Hcatch _ w1 []); auto. rewrite app_nil_r; exact Htr1. }
  rewrite (bind_returned _ _ _ _ _ Ec).
  destruct (negb _ || changed)%bool.
  - destruct (refetchRowBuilds Number_toString freshConvo) eqn:Hrow.
    2:{ destruct (refetchUpsertConversation_fails freshConvo (db_userId dbConvo)
                    (db_id dbConvo) w1 Hrow) as (e & He).
        unfold bind at 1. rewrite He.
        apply (Hcatch _ w1 []); auto. rewrite app_nil_r; exact Htr1. }
    unfold bind at 1. rewrite (refetchUpsertConversation_builds _ _ _ w1 Hrow).
    unfold store_call.
    destruct (store_upsert (env w1) _ _ _) as [[[]|e] env2].
    + unfold bind, sleep, ret.
      match goal with
      | |- context [EUpsert ?t ?k ?s ?r] =>
          eexists _, _, (new1 ++ [EUpsert t k s r] ++ [ESleep 300])
      end.
      split; [reflexivity|]. cbn [trace emit].
      split; [rewrite Htr1, <- !app_assoc; reflexivity|].
      counts. rewrite Hok1, H300, H500.
      destruct (strictEqString _ "resolved"); cbn [checked resolved updated errors]; lia.
    + match goal with
      | |- context [EUpsert ?t ?k ?s ?r] =>
          apply (Hcatch _ _ [EUpsert t k s r]); auto
      end.
      cbn [trace]. rewrite Htr1, <- app_assoc. reflexivity.
  - unfold bind, sleep, ret.
    eexists _, _, (new1 ++ [ESleep 300]).
    split; [reflexivity|]. cbn [trace emit].
    split; [rewrite Htr1, <- !app_assoc; reflexivity|].
    counts. rewrite Hok1, H300, H500.
    cbn [checked resolved updated errors]. lia.
Qed.

Lemma refetchLoop_spec convos : forall stats (w : World Env),
  exists stats' w' new,
    refetchLoop api_get store_upsert Number_toString Date_getTime stats convos w
    = (Returned stats', w')
    /\ trace w' = trace w ++ new
    /\ refetchProgress (Z.of_nat (length convos)) stats stats' new.
Proof.
  induction convos as [|dbConvo rest IH]; intros stats w.
  - exists stats, w, []. rewrite app_nil_r. split; [reflexivity|]. split; [reflexivity|].
    unfold refetchProgress.
    change (okUpserts "Conversation" []) with 0.
    change (sleepCount 500 []) with 0. change (sleepCount 300 []) with 0.
    cbn [length]. lia.
  - cbn [refetchLoop]. unfold bind.
    destruct (refetchTurn_spec stats dbConvo w) as (stats1 & w1 & new1 & E1 & Htr1 & Hp1).
    rewrite E1.
    destruct (IH stats1 w1) as (stats2 & w2 & new2 & E2 & Htr2 & Hp2).
    exists stats2, w2, (new1 ++ new2). split; [exact E2|].
    split; [rewrite Htr2, Htr1, app_assoc; reflexivity|].
    replace (Z.of_nat (length (dbConvo :: rest))) with (1 + Z.of_nat (length rest))
      by (cbn [length]; lia).
    eapply progress_trans; eauto.
Qed.

(** X26. [refetchUnresolvedConversations] always returns its statistics.
    For [n] conversations, [0 <= resolved <= updated <= checked <= n] and
    [updated + errors <= n <= checked + errors]; [updated] is the number of
    upserts into [Conversation] that the store accepted, [errors] the
    number of sleeps of 500 ms, and the [n - errors] other turns end on a
    sleep of 300 ms. *)
Theorem refetch_counters convos (w : World Env) :
  exists stats w' new,
    refetchUnresolvedConversations api_get store_upsert Number_toString Date_getTime
      convos w = (Returned stats, w')
    /\ trace w' = trace w ++ new
    /\ 0 <= resolved stats <= updated stats
    /\ updated stats <= checked stats <= Z.of_nat (length convos)
    /\ 0 <= errors stats
    /\ updated stats + errors stats <= Z.of_nat (length convos)
    /\ Z.of_nat (length convos) <= checked stats + errors stats
    /\ updated stats = okUpserts "Conversation" new
    /\ errors stats = sleepCount 500 new
    /\ Z.of_nat (length convos) - errors stats = sleepCount 300 new.
Proof.
  unfold refetchUnresolvedConversations.
  destruct (refetchLoop_spec convos zeroStats w) as (stats & w' & new & E & Htr & Hp).
  destruct convos as [|dbConvo rest].
  - cbn in E. unfold ret in E. injection E as <- <-.
    exists zeroStats, w, []. rewrite app_nil_r.
    change (okUpserts "Conversation" []) with 0.
    change (sleepCount 500 []) with 0. change (sleepCount 300 []) with 0.
    cbn. unfold ret. repeat split; try reflexivity; try lia.
  - change (Nat.eqb (length (dbConvo :: rest)) 0) with false. cbv iota.
    exists stats, w', new. split; [exact E|]. split; [exact Htr|].
    unfold refetchProgress in Hp. cbn [checked resolved updated errors zeroStats] in Hp.
    lia.
Qed.

(** X27. A turn of the refetch whose fetch returned a conversation with a
    [status]. When the fresh time of update cannot be converted to a
    primitive, [new Date] throws: the turn writes nothing, counts the
    conversation as checked and as an error, and sleeps 500 ms. Otherwise
    the time changed when it is given and is not the instant of the stored
    row. A conversation whose status and time of update are those of the
    stored row writes nothing: the turn counts it as checked and sleeps
    300 ms. When one of them changed and the two times of the row can be
    made dates, the turn makes one upsert, of the fresh conversation under
    the stored id and user, followed by a sleep of 300 ms, or of 500 ms
    when the store refused it; when a time of the row cannot be made a
    date, it writes nothing, counts an error and sleeps 500 ms. *)
Theorem refetchTurn_writes_only_changes stats dbConvo (w w1 : World Env) freshConvo status :
  fetchConversation api_get Number_toString (JString (db_id dbConvo)) w
  = (Returned freshConvo, w1) ->
  prop freshConvo "status" = Ok status ->
  let freshStatus := js_or status (JString "") in
  let freshUpdatedTime :=
    js_or (optprop freshConvo "updated_time") (optprop freshConvo "updated_at") in
  let statusChanged := negb (strictEqString freshStatus (db_status dbConvo)) in
  let changed :=
    statusChanged
    || (truthy freshUpdatedTime
        && negb (match Date_getTime freshUpdatedTime with
                 | Some t => t =? db_updated_time dbConvo
                 | None => false
                 end)) in
  let source := JObject [("convo", freshConvo); ("userId", db_userId dbConvo)] in
  let turn :=
    refetchTurn api_get store_upsert Number_toString Date_getTime stats dbConvo w in
  let failed :=
    (Returned (mkRefetchStats (checked stats + 1) (resolved stats) (updated stats)
                 (errors stats + 1)),
     emit (ESleep 500) w1) in
  (convertible Number_toString freshUpdatedTime = false -> turn = failed)
  /\ (convertible Number_toString freshUpdatedTime = true ->
      timeChanged Number_toString Date_getTime freshUpdatedTime dbConvo w1
      = (Returned (truthy freshUpdatedTime
                   && negb (match Date_getTime freshUpdatedTime with
                            | Some t => t =? db_updated_time dbConvo
                            | None => false
                            end)), w1))
  /\ (convertible Number_toString freshUpdatedTime = true -> changed = false ->
      turn
      = (Returned (mkRefetchStats (checked stats + 1) (resolved stats) (updated stats)
                     (errors stats)),
         emit (ESleep 300) w1))
  /\ (convertible Number_toString freshUpdatedTime = true -> changed = true ->
      refetchRowBuilds Number_toString freshConvo = true ->
      trace (snd turn)
      = trace w1 ++
        [EUpsert "Conversation" (JString (db_id dbConvo)) source
           (fst (store_upsert (env w1) "Conversation" (JString (db_id dbConvo)) source));
         ESleep (match fst (store_upsert (env w1) "Conversation"
                              (JString (db_id dbConvo)) source) with
                 | Ok _ => 300
                 | Throw _ => 500
                 end)])
  /\ (convertible Number_toString freshUpdatedTime = true -> changed = true ->
      refetchRowBuilds Number_toString freshConvo = false ->
      turn = failed).
Proof.
  intros Hfetch Hstatus. cbv zeta.
  remember (refetchTurn api_get store_upsert Number_toString Date_getTime stats dbConvo w)
    as turn eqn:Hturn.
  unfold refetchTurn, try_catch at 1, bind at 1 in Hturn. rewrite Hfetch in Hturn.
  unfold try_catch, compareAndUpdate, bind at 1, get in Hturn. rewrite Hstatus in Hturn.
  unfold ret at 1 in Hturn. cbv zeta in Hturn.
  split.
  { intros Hc.
    match type of Hturn with
    | context [timeChanged ?n ?d ?t ?c] =>
        destruct (timeChanged_fails t c w1 Hc) as (e & He)
    end.
    unfold bind at 1 in Hturn. rewrite He in Hturn. subst turn. reflexivity. }
  split; [intros Hc; apply timeChanged_ok; exact Hc|].
  split; [|split]; intros Hc Hch;
    rewrite (bind_returned _ _ _ _ _ (timeChanged_ok _ dbConvo w1 Hc)) in Hturn;
    rewrite Hch in Hturn.
  - subst turn. reflexivity.
  - intros Hrow.
    unfold bind at 1 in Hturn.
    rewrite (refetchUpsertConversation_builds _ _ _ w1 Hrow) in Hturn.
    unfold store_call in Hturn.
    destruct (store_upsert (env w1) _ _ _) as [[[]|e] env2]; cbn [fst]; subst turn.
    + unfold bind, sleep, ret. cbn [snd trace emit]. rewrite <- app_assoc. reflexivity.
    + unfold countError, bind, sleep, ret. cbn [snd trace emit].
      rewrite <- app_assoc. reflexivity.
  - intros Hrow.
    destruct (refetchUpsertConversation_fails freshConvo (db_userId dbConvo)
                (db_id dbConvo) w1 Hrow) as (e & He).
    unfold bind at 1 in Hturn. rewrite He in Hturn. subst turn. reflexivity.
Qed.

End RefetchFacts.

Lemma refetchTurn_writes_only_changes_witness :
  refetchTurn chatSource acceptingStore noNumber mockGetTime zeroStats unchangedRow freshWorld
  = (Returned (mkRefetchStats (checked zeroStats + 1) (resolved zeroStats)
                 (updated zeroStats) (errors zeroStats)),
     emit (ESleep 300) afterMockFetch).
Proof.
  apply (proj1 (proj2 (proj2 (refetchTurn_writes_only_changes chatSource acceptingStore
                                noNumber mockGetTime zeroStats unchangedRow freshWorld
                                afterMockFetch mockConversation JUndefined
                                eq_refl eq_refl)))); reflexivity.
Defined.

(** A fresh time of update that cannot be converted: the turn ends in
    the [catch] block, with nothing written. *)
Example refetchTurn_object_time_is_an_error :
  refetchTurn objectTimeSource acceptingStore noNumber mockGetTime zeroStats unchangedRow
    freshWorld
  = (Returned (mkRefetchStats 1 0 0 1),
     mkWorld 1%nat
       [EGet "/conversations/c1" (mkParams None None []) (Ok objectTimeConversation);
        ESleep 500]
       emptySummary).
Proof. reflexivity. Qed.

(** ** The back-fill of the messages *)

Section BackfillFacts.

Context {Env : Type}.
Variable store_upsert : Env -> string -> jsval -> jsval -> result Exn unit * Env.
Variable Number_toString : Q -> string.
Variable Date_getTime : jsval -> option Z.
Variable toISOString : Z -> string.
Variable Date_now : Env -> Z.

Local Abbreviation upsertOne :=
  (backfillUpsertMessage store_upsert Number_toString Date_getTime toISOString Date_now).
Local Abbreviation loop :=
  (backfillMessages store_upsert Number_toString Date_getTime toISOString Date_now).
Local Abbreviation rowId :=
  (rowIdOf Number_toString Date_getTime toISOString Date_now).

Lemma strictEqString_spec v s : strictEqString v s = true <-> v = JString s.
Proof.
  destruct v; cbn; split; try discriminate; intros H.
  - apply String.eqb_eq in H. congruence.
  - injection H as ->. apply String.eqb_refl.
Qed.

Lemma rowIdOf_id msg convoId (w : World Env) :
  truthy (js_or (optprop msg "id") (optprop msg "uuid")) = true ->
  rowId msg convoId w = (Returned (js_or (optprop msg "id") (optprop msg "uuid")), w).
Proof. intros H. unfold rowIdOf. cbv zeta. rewrite H. reflexivity. Qed.

(** What [backfillUpsertMessage] does: nothing, or one upsert. *)
Lemma backfillUpsertMessage_spec msg convoId (w : World Env) :
  let parts := js_or (optprop msg "message_parts") (optprop msg "parts") in
  let created := js_or (optprop msg "created_time") (optprop msg "created_at") in
  (upsertOne msg convoId w = (Returned false, w)
   /\ (notNullish msg = false
       \/ optprop msg "actor_type" = JString "system"
       \/ (exists e, extractMessageContent Number_toString parts = Throw e)
       \/ (exists e, rowId msg convoId w = (Thrown e, w))
       \/ negb (truthy created) || convertible Number_toString created = false))
  \/ (exists content key r env',
         extractMessageContent Number_toString parts = Ok content
         /\ optprop msg "actor_type" <> JString "system"
         /\ rowId msg convoId w = (Returned key, w)
         /\ negb (truthy created) || convertible Number_toString created = true
         /\ store_upsert (env w) "Message" key
              (JObject [("msg", msg); ("conversationid", convoId);
                        ("message_parts", JString content)]) = (r, env')
         /\ upsertOne msg convoId w
            = (Returned (match r with Ok _ => true | Throw _ => false end),
               {| env := env';
                  trace := trace w ++
                           [EUpsert "Message" key
                              (JObject [("msg", msg); ("conversationid", convoId);
                                        ("message_parts", JString content)]) r];
                  summary := summary w |})).
Proof.
  cbv zeta.
  unfold backfillUpsertMessage, lift, try_catch, bind, get, ret, throw, store_call.
  destruct (prop msg "actor_type") as [actor|e] eqn:Hactor;
    [|left; split; [reflexivity|]; left; destruct msg; try discriminate; reflexivity].
  destruct (strictEqString actor "system") eqn:Hsys;
    [left; split; [reflexivity|]; right; left;
     rewrite (prop_optprop _ _ _ Hactor); apply strictEqString_spec; exact Hsys|].
  assert (Hnot : optprop msg "actor_type" <> JString "system").
  { rewrite (prop_optprop _ _ _ Hactor). intros Heq.
    apply strictEqString_spec in Heq. congruence. }
  destruct (prop msg "message_parts") as [mp|e] eqn:Hmp; [|destruct msg; discriminate].
  rewrite (prop_optprop _ _ _ Hmp).
  assert (Hx : exists x, prop msg "parts" = Ok x) by (destruct msg; try discriminate; eauto).
  destruct Hx as [x Hx]. rewrite Hx, (prop_optprop _ _ _ Hx).
  set (created := js_or (optprop msg "created_time") (optprop msg "created_at")).
  unfold js_or.
  destruct (silent_run (rowId msg convoId) w
              (silent_rowIdOf Number_toString Date_getTime toISOString Date_now
                 msg convoId)) as [(key & Hkey)|(e & Hkey)];
    destruct (negb (truthy created) || convertible Number_toString created) eqn:Hdate;
    try pose proof (dateOrNow_ok Number_toString Date_getTime created w Hdate) as Hd;
    try destruct (dateOrNow_fails Number_toString Date_getTime created w Hdate) as (ed & Hd);
    destruct (truthy mp); cbv beta iota;
    match goal with
    | |- context [extractMessageContent Number_toString ?p = Ok _] =>
        destruct (extractMessageContent Number_toString p) as [content|ec] eqn:Hc
    end;
    rewrite ?Hkey, ?Hd;
    try (left; split; [reflexivity|]; right; right; left; eexists; reflexivity);
    try (left; split; [reflexivity|]; right; right; right; left; eexists; reflexivity);
    try (left; split; [reflexivity|]; right; right; right; right; reflexivity);
    right;
    (destruct (store_upsert (env w) "Message" key
                 (JObject [("msg", msg); ("conversationid", convoId);
                           ("message_parts", JString content)])) as [r env'] eqn:Hs);
    exists content, key, r, env'; splits; auto;
    destruct r as [[]|e]; reflexivity.
Qed.

Lemma backfillProgress_refl c : backfillProgress 0 c c [].
Proof. unfold backfillProgress. change (okUpserts "Message" []) with 0. lia. Qed.

Lemma okUpserts_nonneg table tr : 0 <= okUpserts table tr.
Proof. unfold okUpserts. lia. Qed.

Lemma messageId_of msg id uuid (w : World Env) :
  prop msg "id" = Ok id -> prop msg "uuid" = Ok uuid ->
  (if truthy id then ret id else get msg "uuid") w
  = (Returned (js_or (optprop msg "id") (optprop msg "uuid")), w).
Proof.
  intros Hid Huuid.
  rewrite (prop_optprop _ _ _ Hid), (prop_optprop _ _ _ Huuid). unfold js_or, get.
  destruct (truthy id); [reflexivity|]. rewrite Huuid. reflexivity.
Qed.

(** X28. The loop of the back-fill over the messages of a conversation
    makes no request and only upserts into [Message], a message whose
    [actor_type] is not [system] and whose id, [msg.id || msg.uuid], is not
    among the existing ids, under this id when it is truthy and with a
    trimmed content. It always comes to an end; when it returns,
    [newMessages] and [totalMessagesInserted] have grown by the number of
    accepted upserts and every message was counted once, as new, skipped or
    failed; it returns when no message is [null] or [undefined], and
    otherwise throws the [TypeError] of the read of [id]. *)
Theorem backfillMessages_counts_and_upserts existingMessageIds convId messages counts
    (w : World Env) :
  exists new out w',
    loop existingMessageIds convId messages counts w = (out, w')
    /\ trace w' = trace w ++ new
    /\ summary w' = summary w
    /\ Forall (backfillUpsert existingMessageIds) new
    /\ out <> OutOfFuel
    /\ (forall counts', out = Returned counts' ->
          backfillProgress (Z.of_nat (length messages)) counts counts' new)
    /\ (forallb notNullish messages = true -> exists counts', out = Returned counts')
    /\ (forall e, out = Thrown e ->
          e = TypeErr (CannotReadProperty "id")
          /\ forallb notNullish messages = false).
Proof.
  revert counts w. induction messages as [|msg rest IH]; intros counts w.
  - exists [], (Returned counts), w. cbn [backfillMessages]. unfold ret.
    rewrite app_nil_r. splits; auto; try discriminate.
    + intros c Hc. injection Hc as <-. apply backfillProgress_refl.
    + intros _. eauto.
  - cbn [backfillMessages forallb]. unfold bind at 1, get at 1.
    destruct (notNullish msg) eqn:Hmsg.
    2:{ rewrite (nullish_prop _ "id" Hmsg). unfold throw.
        exists [], (Thrown (TypeErr (CannotReadProperty "id"))), w.
        rewrite app_nil_r. splits; auto; try discriminate.
        intros e He. injection He as <-. auto. }
    destruct (notNullish_prop _ "id" Hmsg) as [id Hid].
    destruct (notNullish_prop _ "uuid" Hmsg) as [uuid Huuid].
    rewrite Hid. unfold ret at 1, bind at 1.
    rewrite (messageId_of _ _ _ _ Hid Huuid).
    set (key := js_or (optprop msg "id") (optprop msg "uuid")).
    rewrite andb_true_l.
    destruct (set_has existingMessageIds key) eqn:Hhas.
    + match goal with |- context [backfillMessages _ _ _ _ _ _ _ rest ?c w] =>
        destruct (IH c w) as (new & out & w' & Hrun & Htr & Hsum & Hups & Hfuel & Hret & Hok & Hthrow)
      end.
      exists new, out, w'. splits; auto.
      intros c' Hc'. specialize (Hret c' Hc'). unfold backfillProgress in *. cbn in Hret.
      change (length (msg :: rest)) with (S (length rest)). rewrite Nat2Z.inj_succ. lia.
    + unfold bind at 1.
      destruct (backfillUpsertMessage_spec msg convId w)
        as [(Hrun1 & _)|(content & rowKey & r & env' & Hc & Hnot & Hrow & _ & Hs & Hrun1)];
        rewrite Hrun1.
      * match goal with |- context [backfillMessages _ _ _ _ _ _ _ rest ?c w] =>
          destruct (IH c w) as (new & out & w' & Hrun & Htr & Hsum & Hups & Hfuel & Hret & Hok & Hthrow)
        end.
        exists new, out, w'. splits; auto.
        intros c' Hc'. specialize (Hret c' Hc'). unfold backfillProgress in *. cbn in Hret.
        change (length (msg :: rest)) with (S (length rest)). rewrite Nat2Z.inj_succ. lia.
      * match goal with |- context [backfillMessages _ _ _ _ _ _ _ rest ?c ?w1] =>
          destruct (IH c w1) as (new & out & w' & Hrun & Htr & Hsum & Hups & Hfuel & Hret & Hok & Hthrow)
        end.
        cbn [trace summary] in Htr, Hsum.
        eexists (_ :: new), out, w'. splits; auto.
        -- rewrite Htr, <- app_assoc. reflexivity.
        -- constructor; [|exact Hups]. cbn. split; [reflexivity|].
           exists msg, convId, content. splits; auto.
           ++ intros Ht. rewrite (rowIdOf_id _ convId w Ht) in Hrow. congruence.
           ++ eapply extractMessageContent_trimmed. exact Hc.
        -- intros c' Hc'. specialize (Hret c' Hc'). unfold backfillProgress in *.
           change (?e :: new) with ([e] ++ new). rewrite okUpserts_app.
           pose proof (okUpserts_nonneg "Message" new).
           change (length (msg :: rest)) with (S (length rest)). rewrite Nat2Z.inj_succ.
           destruct r as [[]|e]; cbn in Hret.
           ++ rewrite okUpserts_accepted. lia.
           ++ rewrite okUpserts_refused. lia.
Qed.

(** X29. The filter of the back-fill on the messages of the system is case
    sensitive. A message with a truthy id that is not stored yet is not
    upserted and is counted as failed when its [actor_type] is exactly
    [system]. With any other string, [SYSTEM] included, it is upserted
    under its id with its normalized content, and counted as inserted when
    the store accepts it and as failed otherwise, provided that the
    normalizer returns and that its time of creation is missing or can be
    made a date; when the normalizer throws, or when the time of creation
    cannot be converted, nothing is upserted and the message is counted as
    failed. The sync pass drops every message whose [actor_type] in upper
    case is [SYSTEM]. *)
Theorem backfill_system_filter_is_case_sensitive msg a convId existingMessageIds counts
    (w : World Env) :
  prop msg "actor_type" = Ok (JString a) ->
  truthy (js_or (optprop msg "id") (optprop msg "uuid")) = true ->
  set_has existingMessageIds (js_or (optprop msg "id") (optprop msg "uuid")) = false ->
  let key := js_or (optprop msg "id") (optprop msg "uuid") in
  let parts := js_or (optprop msg "message_parts") (optprop msg "parts") in
  let created := js_or (optprop msg "created_time") (optprop msg "created_at") in
  let inserted :=
    mkBackfillCounts (newMessages counts + 1) (skippedMessages counts)
      (totalMessagesInserted counts + 1) (totalMessagesFailed counts) in
  let failed :=
    mkBackfillCounts (newMessages counts) (skippedMessages counts)
      (totalMessagesInserted counts) (totalMessagesFailed counts + 1) in
  (a = "system" ->
     loop existingMessageIds convId [msg] counts w = (Returned failed, w))
  /\ (a <> "system" ->
      forall content,
        extractMessageContent Number_toString parts = Ok content ->
        negb (truthy created) || convertible Number_toString created = true ->
        let source :=
          JObject [("msg", msg); ("conversationid", convId);
                   ("message_parts", JString content)] in
        let answer := store_upsert (env w) "Message" key source in
        loop existingMessageIds convId [msg] counts w
        = (Returned (match fst answer with Ok _ => inserted | Throw _ => failed end),
           {| env := snd answer;
              trace := trace w ++ [EUpsert "Message" key source (fst answer)];
              summary := summary w |}))
  /\ ((exists e, extractMessageContent Number_toString parts = Throw e)
      \/ negb (truthy created) || convertible Number_toString created = false ->
      loop existingMessageIds convId [msg] counts w = (Returned failed, w))
  /\ (toUpperCase a = "SYSTEM" ->
        filterByActor (fun actorType => negb (String.eqb actorType "SYSTEM")) [msg] w
        = (Returned [], w)).
Proof.
  intros Hactor Hid_truthy Hhas. cbv zeta.
  assert (Hmsg : notNullish msg = true) by (destruct msg; try discriminate; reflexivity).
  destruct (notNullish_prop _ "id" Hmsg) as [id Hid].
  destruct (notNullish_prop _ "uuid" Hmsg) as [uuid Huuid].
  pose proof (messageId_of _ _ _ w Hid Huuid) as Hkey.
  assert (Hloop : forall success w',
             upsertOne msg convId w = (Returned success, w') ->
             loop existingMessageIds convId [msg] counts w
             = (Returned
                  (if success then
                     mkBackfillCounts (newMessages counts + 1) (skippedMessages counts)
                       (totalMessagesInserted counts + 1) (totalMessagesFailed counts)
                   else
                     mkBackfillCounts (newMessages counts) (skippedMessages counts)
                       (totalMessagesInserted counts) (totalMessagesFailed counts + 1)),
                w')).
  { intros success w' Hrun. cbn [backfillMessages]. unfold bind at 1, get at 1.
    rewrite Hid. unfold ret at 1, bind at 1. rewrite Hkey, Hhas. unfold bind at 1.
    rewrite Hrun. reflexivity. }
  pose proof (backfillUpsertMessage_spec msg convId w) as Hspec. cbv zeta in Hspec.
  rewrite (rowIdOf_id msg convId w Hid_truthy) in Hspec.
  splits.
  - intros ->.
    destruct Hspec as [(Hrun & _)|(content & key & r & env' & _ & Hnot & _)].
    + apply (Hloop false w Hrun).
    + exfalso. apply Hnot. apply prop_optprop. exact Hactor.
  - intros Hne content Hcontent Hdate.
    destruct Hspec
      as [(_ & [Hnull|[Hsys|[(e & He)|[(e & He)|Hd]]]])
         |(content' & key & r & env' & Hc & _ & Hrow & _ & Hs & Hrun)].
    + congruence.
    + rewrite (prop_optprop _ _ _ Hactor) in Hsys. congruence.
    + congruence.
    + discriminate He.
    + congruence.
    + injection Hrow as <-. rewrite Hcontent in Hc. injection Hc as <-.
      rewrite Hs. cbn [fst snd].
      rewrite (Hloop _ _ Hrun). destruct r as [[]|e]; reflexivity.
  - intros Hthrows.
    destruct Hspec as [(Hrun & _)|(content & key & r & env' & Hc & _ & _ & Hdate & _)].
    + apply (Hloop false w Hrun).
    + exfalso. destruct Hthrows as [(e & He)|Hd]; congruence.
  - intros Hup. cbn [filterByActor]. unfold bind, get, upperOrEmpty, ret.
    rewrite Hactor. unfold js_or.
    destruct (truthy (JString a)) eqn:Ht.
    + rewrite Hup. reflexivity.
    + destruct a; [discriminate Hup|discriminate Ht].
Qed.

End BackfillFacts.

Lemma backfill_system_filter_is_case_sensitive_witness :
  backfillMessages acceptingStore noNumber mockGetTime mockToISOString mockNow
    [] (JString "c1") [capitalSystemMessage] zeroCounts freshWorld
  = (Returned (mkBackfillCounts 1 0 1 0),
     mkWorld 1%nat
       [EUpsert "Message" (JString "m9")
          (JObject [("msg", capitalSystemMessage); ("conversationid", JString "c1");
                    ("message_parts", JString "Conversation assigned to an agent")])
          (Ok tt)]
       emptySummary).
Proof.
  apply (proj1 (proj2 (backfill_system_filter_is_case_sensitive acceptingStore noNumber
                         mockGetTime mockToISOString mockNow
                         capitalSystemMessage "SYSTEM" (JString "c1") [] zeroCounts
                         freshWorld eq_refl eq_refl eq_refl))).
  - discriminate.
  - reflexivity.
  - reflexivity.
Defined.

(** A message whose parts cannot be converted to a string: the [catch]
    block of [upsertMessage] counts it as failed. *)
Example backfill_counts_unconvertible_parts_as_failed :
  backfillMessages acceptingStore noNumber mockGetTime mockToISOString mockNow
    [] (JString "c1") [objectPartsMessage] zeroCounts freshWorld
  = (Returned (mkBackfillCounts 0 0 0 1), freshWorld).
Proof. reflexivity. Qed.

(** ** The route of the messages *)

Section RouteFacts.

Context {Env : Type}.
Variable axios_get : Env -> string -> Params -> result Exn jsval * Env.

Lemma route_fetchWithRetry_ok url params (w : World Env) res :
  fst (axios_get (env w) url params) = Ok res ->
  MessagesRoute.fetchWithRetry axios_get url params w
  = (Returned res,
     {| env := snd (axios_get (env w) url params);
        trace := trace w ++ [EGet url params (Ok res)];
        summary := summary w |}).
Proof.
  intros H. unfold MessagesRoute.fetchWithRetry. cbn [MessagesRoute.fetchWithRetry_from].
  change (1 <=? MessagesRoute.MAX_ATTEMPTS) with true. cbv iota.
  unfold try_catch, api_get_data.
  destruct (axios_get (env w) url params) as [r env'] eqn:Hget.
  cbn in H. subst r. reflexivity.
Qed.

Lemma messagesLoop_full_pages url :
  alwaysFullPages axios_get ->
  forall fuel page messages (w : World Env),
    exists w',
      MessagesRoute.messagesLoop axios_get fuel url page messages w = (OutOfFuel, w')
      /\ exists new, trace w' = trace w ++ new
         /\ getRequests new
            = map (fun k => (url, MessagesRoute.paramsOf (page + Z.of_nat k)))
                (seq 0 fuel).
Proof.
  intros Hfull. induction fuel as [|fuel IH]; intros page messages w.
  - exists w. split; [reflexivity|]. exists []. rewrite app_nil_r. split; reflexivity.
  - cbn [MessagesRoute.messagesLoop]. unfold bind at 1.
    destruct (Hfull (env w) url (MessagesRoute.paramsOf page))
      as (res & batch & mapped & Hres & Hbatch & Hlen & Hmap).
    rewrite (route_fetchWithRetry_ok _ _ _ _ Hres).
    rewrite Hbatch. unfold js_or. cbn [truthy]. rewrite Hmap.
    apply Z.eqb_eq in Hlen. rewrite Hlen.
    match goal with |- context [MessagesRoute.messagesLoop _ _ _ ?p ?m ?w1] =>
      destruct (IH p m w1) as (w' & Hrun & new & Htr & Hreq)
    end.
    exists w'. split; [exact Hrun|].
    cbn [trace] in Htr.
    exists (EGet url (MessagesRoute.paramsOf page) (Ok res) :: new). split.
    + rewrite Htr, <- app_assoc. reflexivity.
    + cbn [seq map]. change (getRequests (?e :: new)) with (getRequests ([e] ++ new)).
      rewrite getRequests_app, Hreq. cbn [getRequests omap app].
      rewrite Z.add_0_r. f_equal.
      rewrite <- seq_shift, map_map. apply map_ext. intros k.
      do 2 f_equal. lia.
Qed.

(** X30. The loop of the route of the messages has no ceiling on the
    number of pages: for a valid conversation id and a configured token and
    domain, on a source that answers every request with a full page of 50
    messages, every amount of fuel is exhausted, one request per turn, for
    the pages 1, 2, 3 and so on of the conversation. *)
Theorem messages_route_has_no_page_limit conversation_id token domain :
  alwaysFullPages axios_get ->
  MessagesRoute.isValidId (Some conversation_id) = true ->
  token <> "" -> domain <> "" ->
  forall fuel (w : World Env),
    exists new w',
      MessagesRoute.GET axios_get (Some token) (Some domain) fuel (Some conversation_id) w
      = (OutOfFuel, w')
      /\ trace w' = trace w ++ new
      /\ getRequests new
         = map (fun k => (MessagesRoute.urlOf domain conversation_id,
                          MessagesRoute.paramsOf (1 + Z.of_nat k)))
             (seq 0 fuel).
Proof.
  intros Hfull Hid Htoken Hdomain fuel w.
  unfold MessagesRoute.GET. rewrite Hid. cbn [negb MessagesRoute.unset].
  apply String.eqb_neq in Htoken, Hdomain. rewrite Htoken, Hdomain. cbn [orb].
  change (default "" (Some domain)) with domain.
  change (default "" (Some conversation_id)) with conversation_id.
  unfold try_catch, bind.
  destruct (messagesLoop_full_pages (MessagesRoute.urlOf domain conversation_id) Hfull
              fuel 1 [] w) as (w' & Hrun & new & Htr & Hreq).
  rewrite Hrun. exists new, w'. auto.
Qed.

End RouteFacts.

Lemma messages_route_has_no_page_limit_witness :
  exists new w',
    MessagesRoute.GET fullPageSource (Some "token") (Some "example.freshchat.com") 300
      (Some "conv-123456") freshWorld
    = (OutOfFuel, w')
    /\ trace w' = trace freshWorld ++ new
    /\ getRequests new
       = map (fun k => (MessagesRoute.urlOf "example.freshchat.com" "conv-123456",
                        MessagesRoute.paramsOf (1 + Z.of_nat k)))
           (seq 0 300).
Proof.
  apply (messages_route_has_no_page_limit fullPageSource "conv-123456" "token"
           "example.freshchat.com").
  - intros env url params. eexists _, _, _. cbn [fullPageSource fst].
    split; [reflexivity|]. split; [reflexivity|]. split; [reflexivity|].
    vm_compute. reflexivity.
  - reflexivity.
  - discriminate.
  - discriminate.
Defined.
